(** * WebpageMonitorBackend: monitoring, diffing, retention and alerting core

    A shallow embedding of the Django application's core modules
    ([pages/storage.py], [pages/screenshots.py], [pages/notifications.py],
    [pages/management/commands/run_checks.py], [pages/views.py]) together
    with the properties of its design document that concern them.

    Conventions of the embedding:
    - Python [str] is [string]; the empty string is the only falsy one.
    - Python [int] is [Z]; timestamps are [Z] (microseconds since the epoch).
    - A diff score is kept in hundredths ([Z]): the code rounds every score
      to two decimals, so [1.56] is [156].
    - Effects (artifact store, database tables, outbox, log) are threaded
      through a state-and-exception monad over [World]. *)

From Stdlib Require Import ZArith NArith QArith Qround List String Ascii Bool Lia.
From Stdlib Require Import DecimalString DecimalPos Sorted Permutation.
From stdpp Require Import base gmap sets list strings.

Local Open Scope string_scope.

(* ===================================================================== *)
(** ** Python built-ins used by the code *)
(* ===================================================================== *)

Module Py.

(** Truthiness of a [str]. *)
Definition truthy (s : string) : bool := negb (String.eqb s "").

(** [a or b] on strings. *)
Definition str_or (a b : string) : string := if truthy a then a else b.

(** [str(n)] for an [int]. *)
Definition str (n : Z) : string := NilZero.string_of_int (Z.to_int n).

Definition chars (s : string) : list ascii := list_ascii_of_string s.
Definition of_chars (l : list ascii) : string := string_of_list_ascii l.

(** [s.lower()] on ASCII letters. *)
Definition lower_char (c : ascii) : ascii :=
  let n := nat_of_ascii c in
  if (65 <=? n)%nat && (n <=? 90)%nat then ascii_of_nat (n + 32) else c.
Definition lower (s : string) : string := of_chars (map lower_char (chars s)).

Fixpoint ends_with_chars (suffix_rev s_rev : list ascii) : bool :=
  match suffix_rev, s_rev with
  | [], _ => true
  | a :: su, b :: r => Ascii.eqb a b && ends_with_chars su r
  | _ :: _, [] => false
  end.

(** [s.endswith(suffix)]. *)
Definition endswith (s suffix : string) : bool :=
  ends_with_chars (rev (chars suffix)) (rev (chars s)).

(** [s.replace(a, b)] for single characters. *)
Definition replace_char (a b : ascii) (s : string) : string :=
  of_chars (map (fun c => if Ascii.eqb c a then b else c) (chars s)).

Fixpoint lstrip_chars (c : ascii) (l : list ascii) : list ascii :=
  match l with
  | x :: r => if Ascii.eqb x c then lstrip_chars c r else l
  | [] => []
  end.

(** [s.lstrip(c)] and [s.rstrip(c)] for a single character [c]. *)
Definition lstrip (c : ascii) (s : string) : string :=
  of_chars (lstrip_chars c (chars s)).
Definition rstrip (c : ascii) (s : string) : string :=
  of_chars (rev (lstrip_chars c (rev (chars s)))).

(** [s.split(sep)] for a single separator character. *)
Fixpoint split_chars (sep : ascii) (cur : list ascii) (l : list ascii)
  : list (list ascii) :=
  match l with
  | [] => [rev cur]
  | x :: r =>
      if Ascii.eqb x sep then rev cur :: split_chars sep [] r
      else split_chars sep (x :: cur) r
  end.
Definition split (sep : ascii) (s : string) : list string :=
  map of_chars (split_chars sep [] (chars s)).

Fixpoint join (sep : string) (l : list string) : string :=
  match l with
  | [] => ""
  | [x] => x
  | x :: r => x ++ sep ++ join sep r
  end.

(** *** [int(s)] on a decimal literal

    Optional surrounding whitespace, an optional sign, then digits that
    may be separated by single underscores.  [None] stands for
    [ValueError].  Strings are byte strings here, so the non-ASCII digits
    and spaces Python also accepts are out of the model. *)

Definition is_space (c : ascii) : bool :=
  let n := nat_of_ascii c in
  (n =? 32)%nat || ((9 <=? n)%nat && (n <=? 13)%nat).

Fixpoint lstrip_space (l : list ascii) : list ascii :=
  match l with
  | x :: r => if is_space x then lstrip_space r else l
  | [] => []
  end.

Definition digit_of (c : ascii) : option Z :=
  let n := nat_of_ascii c in
  if (48 <=? n)%nat && (n <=? 57)%nat then Some (Z.of_nat (n - 48)) else None.

(** [after_digit] tells whether the previous character was a digit, which
    is where an underscore or the end of the literal is allowed. *)
Fixpoint parse_digits (after_digit : bool) (acc : Z) (l : list ascii)
  : option Z :=
  match l with
  | [] => if after_digit then Some acc else None
  | c :: r =>
      match digit_of c with
      | Some d => parse_digits true (10 * acc + d)%Z r
      | None =>
          if Ascii.eqb c "_" && after_digit then
            match r with
            | [] => None
            | _ => parse_digits false acc r
            end
          else None
      end
  end.

Definition int (s : string) : option Z :=
  let body := rev (lstrip_space (rev (lstrip_space (chars s)))) in
  match body with
  | "-"%char :: r => Z.opp <$> parse_digits false 0%Z r
  | "+"%char :: r => parse_digits false 0%Z r
  | _ => parse_digits false 0%Z body
  end.

(** *** [os.path.join] and [pathlib.PurePosixPath] *)

Definition starts_with_slash (s : string) : bool :=
  match s with String "/" _ => true | _ => false end.

Definition ends_with_slash (s : string) : bool := endswith s "/".

(** [os.path.join(a, b)] on POSIX. *)
Definition os_path_join (a b : string) : string :=
  if starts_with_slash b then b
  else if negb (truthy a) || ends_with_slash a then a ++ b
  else a ++ "/" ++ b.

(** A parsed path: the root (["" ], ["/"] or ["//"]) and its components;
    empty and ["."] components are dropped by the parser. *)
Record Path := { root : string; names : list string }.

Definition count_leading_slashes (s : string) : nat :=
  let l := chars s in (length l - length (lstrip_chars "/" l))%nat.

Definition mkPath (s : string) : Path :=
  {| root := match count_leading_slashes s with
             | O => ""
             | 2%nat => "//"
             | _ => "/"
             end;
     names := filter (fun c => c <> "" /\ c <> ".") (split "/" s) |}.

(** [Path.parts] *)
Definition parts (p : Path) : list string :=
  if truthy (root p) then root p :: names p else names p.

(** [str(path)] *)
Definition to_str (p : Path) : string :=
  match root p, names p with
  | "", [] => "."
  | r, ns => r ++ join "/" ns
  end.

(** [Path.name] *)
Definition name (p : Path) : string := List.last (names p) "".

Fixpoint rfind_dot (l : list ascii) (i : nat) (found : option nat) : option nat :=
  match l with
  | [] => found
  | c :: r => rfind_dot r (S i) (if Ascii.eqb c "." then Some i else found)
  end.

(** [Path.stem]: the name without its last suffix; a leading or a trailing
    dot does not start a suffix. *)
Definition stem (p : Path) : string :=
  let n := chars (name p) in
  match rfind_dot n 0 None with
  | Some i => if (0 <? i)%nat && (i <? length n - 1)%nat
              then of_chars (take i n) else name p
  | None => name p
  end.

(** [Path.with_name(new)]; [None] stands for the [ValueError] raised when
    the path has no name. *)
Definition with_name (p : Path) (new : string) : option Path :=
  if truthy (name p)
  then Some {| root := root p; names := removelast (names p) ++ [new] |}
  else None.

End Py.

(* ===================================================================== *)
(** ** [hashlib.md5]

    [_unique_filename] names every stored artifact after the MD5 digest of
    the clock reading, so the digest is part of the naming behaviour. *)
(* ===================================================================== *)

Module MD5.
Local Open Scope N_scope.

Definition mask32 : N := 0xFFFFFFFF.
Definition add32 (a b : N) : N := N.land (a + b) mask32.
Definition not32 (x : N) : N := N.lxor x mask32.
Definition rotl32 (x c : N) : N :=
  N.land (N.lor (N.shiftl x c) (N.shiftr x (32 - c))) mask32.

Definition shifts : list N :=
  [7; 12; 17; 22; 7; 12; 17; 22; 7; 12; 17; 22; 7; 12; 17; 22;
   5; 9; 14; 20; 5; 9; 14; 20; 5; 9; 14; 20; 5; 9; 14; 20;
   4; 11; 16; 23; 4; 11; 16; 23; 4; 11; 16; 23; 4; 11; 16; 23;
   6; 10; 15; 21; 6; 10; 15; 21; 6; 10; 15; 21; 6; 10; 15; 21].

(** [floor(2^32 * abs(sin(i + 1)))] for [i] in [0..63]. *)
Definition sines : list N :=
  [0xd76aa478; 0xe8c7b756; 0x242070db; 0xc1bdceee;
   0xf57c0faf; 0x4787c62a; 0xa8304613; 0xfd469501;
   0x698098d8; 0x8b44f7af; 0xffff5bb1; 0x895cd7be;
   0x6b901122; 0xfd987193; 0xa679438e; 0x49b40821;
   0xf61e2562; 0xc040b340; 0x265e5a51; 0xe9b6c7aa;
   0xd62f105d; 0x02441453; 0xd8a1e681; 0xe7d3fbc8;
   0x21e1cde6; 0xc33707d6; 0xf4d50d87; 0x455a14ed;
   0xa9e3e905; 0xfcefa3f8; 0x676f02d9; 0x8d2a4c8a;
   0xfffa3942; 0x8771f681; 0x6d9d6122; 0xfde5380c;
   0xa4beea44; 0x4bdecfa9; 0xf6bb4b60; 0xbebfbc70;
   0x289b7ec6; 0xeaa127fa; 0xd4ef3085; 0x04881d05;
   0xd9d4d039; 0xe6db99e5; 0x1fa27cf8; 0xc4ac5665;
   0xf4292244; 0x432aff97; 0xab9423a7; 0xfc93a039;
   0x655b59c3; 0x8f0ccc92; 0xffeff47d; 0x85845dd1;
   0x6fa87e4f; 0xfe2ce6e0; 0xa3014314; 0x4e0811a1;
   0xf7537e82; 0xbd3af235; 0x2ad7d2bb; 0xeb86d391].

Record state := { sa : N; sb : N; sc : N; sd : N }.

Definition init : state :=
  {| sa := 0x67452301; sb := 0xefcdab89; sc := 0x98badcfe; sd := 0x10325476 |}.

(** One of the 64 operations of a block; [w] is the block's 16 words. *)
Definition step (w : list N) (st : state) (i : nat) : state :=
  let '(Build_state a b c d) := st in
  let n := N.of_nat i in
  let '(f, g) :=
    if n <? 16 then (N.lor (N.land b c) (N.land (not32 b) d), n)
    else if n <? 32 then
      (N.lor (N.land d b) (N.land (not32 d) c), (5 * n + 1) mod 16)
    else if n <? 48 then (N.lxor b (N.lxor c d), (3 * n + 5) mod 16)
    else (N.lxor c (N.lor b (not32 d)), (7 * n) mod 16) in
  let f' := add32 (add32 (add32 f a) (nth i sines 0)) (nth (N.to_nat g) w 0) in
  {| sa := d; sd := c; sc := b; sb := add32 b (rotl32 f' (nth i shifts 0)) |}.

Definition block (st : state) (w : list N) : state :=
  let st' := fold_left (step w) (seq 0 64) st in
  {| sa := add32 (sa st) (sa st'); sb := add32 (sb st) (sb st');
     sc := add32 (sc st) (sc st'); sd := add32 (sd st) (sd st') |}.

(** [n] as [k] little-endian bytes. *)
Fixpoint le_bytes (k : nat) (n : N) : list N :=
  match k with
  | O => []
  | S k' => N.land n 0xFF :: le_bytes k' (N.shiftr n 8)
  end.

Fixpoint of_le_bytes (l : list N) : N :=
  match l with
  | [] => 0
  | b :: r => b + 256 * of_le_bytes r
  end.

(** The message followed by [0x80], zeros up to 56 modulo 64, and the bit
    length on eight bytes. *)
Definition pad (msg : list N) : list N :=
  let len := length msg in
  let zeros := ((55 + 64 - len mod 64) mod 64)%nat in
  msg ++ [0x80] ++ repeat 0 zeros ++ le_bytes 8 (8 * N.of_nat len).

(** Cut a byte list into chunks of [k] bytes; [fuel] bounds the number of
    chunks and is given the list's length by the callers. *)
Fixpoint chunks (fuel k : nat) (l : list N) : list (list N) :=
  match fuel, l with
  | O, _ | _, [] => []
  | S fuel', _ => take k l :: chunks fuel' k (drop k l)
  end.

Definition words (blk : list N) : list N :=
  map of_le_bytes (chunks (length blk) 4 blk).

Definition digest_bytes (msg : list N) : list N :=
  let p := pad msg in
  let st := fold_left block (map words (chunks (length p) 64 p)) init in
  le_bytes 4 (sa st) ++ le_bytes 4 (sb st) ++ le_bytes 4 (sc st)
    ++ le_bytes 4 (sd st).

Definition hex_digit (n : N) : ascii :=
  ascii_of_N (if n <? 10 then 48 + n else 87 + n).

Definition hex_byte (b : N) : list ascii :=
  [hex_digit (N.shiftr b 4); hex_digit (N.land b 0xF)].

(** [hashlib.md5(s.encode()).hexdigest()] *)
Definition hexdigest (s : string) : string :=
  Py.of_chars (concat (map hex_byte (digest_bytes (map N_of_ascii (Py.chars s))))).

End MD5.

(* ===================================================================== *)
(** ** Data model ([pages/models.py]) and the world the code runs in *)
(* ===================================================================== *)

(** An RGB raster as Pillow hands it out after [convert("RGB")]. *)
Definition rgb : Type := Z * Z * Z.

Record Image := {
  width : nat;
  height : nat;
  getpixel : nat -> nat -> rgb;  (* column, then row *)
}.

(** What a stored object holds: bytes that decode to an image, or bytes
    Pillow cannot decode. *)
Inductive blob :=
| Img (i : Image)
| Garbage.

Inductive exn :=
| ClientError (code : string)      (* botocore.exceptions.ClientError *)
| EndpointConnectionError          (* a botocore error that is no ClientError *)
| UnidentifiedImageError
| FileNotFoundError
| ZeroDivisionError
| ValueError
| Http404
| OSError (errno : Z)              (* an error of the filesystem *)
| IntegrityError                   (* django.db.utils.IntegrityError *)
| DataError.                       (* django.db.utils.DataError *)

Inductive level := DEBUG | INFO | WARNING | ERROR.

(** A log record: level, format string and its first argument. *)
Record LogRecord := { lvl : level; fmt : string; arg : string }.

Record User := { user_pk : Z; email : string }.

Record MonitoredPage := {
  page_pk : Z;
  user_id : Z;
  url : string;
  check_interval : Z;
  notifications_enabled : bool;
  alert_threshold : Z;
  screenshot_enabled : bool;
  change_notifications_enabled : bool;
  region_left_pct : Q;
  region_top_pct : Q;
  region_width_pct : Q;
  region_height_pct : Q;
  is_pinned : bool;
}.

Record MonitoredPageCheck := {
  pk : Z;
  page_id : Z;
  checked_at : Z;
  status_code : option Z;
  response_time_ms : Z;
  is_up : bool;
  message : string;
  screenshot_path : string;
  crop_path : string;
  diff_path : string;
  diff_score : option Z;        (* hundredths of a point *)
}.

(** The messages handed to [_send_plain] and [_send_html].  Their text is
    not rendered; the kind, the page's URL and the recipient identify them. *)
Inductive EmailKind :=
| RecoveredMail
| DownAlertMail (failures threshold : Z)
| VisualChangeMail (score : Z).

Record Email := { kind : EmailKind; about : string; recipient : string }.

(** *** The boto3 client

    A bucket and the faults the service answers with: [fault op key] is the
    exception an operation raises for a key, if any. *)
Inductive BotoOp :=
| head_object | put_object | get_object | delete_object
| download_fileobj | generate_presigned_url.

Record BotoClient := {
  objects : gmap string blob;
  fault : BotoOp -> string -> option exn;
  presigned : string -> string;
}.

Definition with_objects (c : BotoClient) (o : gmap string blob) : BotoClient :=
  {| objects := o; fault := fault c; presigned := presigned c |}.

(** *** The local disk

    The files below [SCREENSHOTS_DIR] and the errors the filesystem
    answers with: [disk op rel] is the exception the filesystem calls of
    one method of [LocalScreenshotStorage] raise for a path, if any (a
    name the filesystem refuses as too long, a directory that cannot be
    made or read, a full disk). *)
Inductive DiskOp :=
| disk_exists        (* [_root().mkdir()], [is_file()] *)
| disk_save          (* [_root().mkdir()], [parent.mkdir()], [write_bytes()] *)
| disk_open          (* [_root().mkdir()], [open()] *)
| disk_delete        (* [_root().mkdir()], [is_file()], [unlink()] *)
| disk_local_path.   (* [_root().mkdir()], [is_file()] *)

(** The three interchangeable backends, each with the state it owns. *)
Inductive Storage :=
| LocalScreenshotStorage (files : gmap string blob)
                         (disk : DiskOp -> string -> option exn)
| S3ScreenshotStorage (prefix : string) (client : BotoClient)
| SeaweedFSScreenshotStorage (prefix : string) (client : BotoClient).

(** [DATABASES['default']['ENGINE']], by what the engine refuses of the
    columns of a new check row: the exception the insert raises for them,
    if any. *)
Definition Engine : Type := MonitoredPageCheck -> option exn.

Record Settings := {
  USE_SEAWEEDFS_STORAGE : bool;
  USE_S3_STORAGE : bool;
  MAX_SCREENSHOTS_PER_PAGE : option Z;
  DATABASE_ENGINE : Engine;
}.

Record World := {
  settings : Settings;
  screenshot_storage : Storage;
  users : list User;
  pages : list MonitoredPage;
  checks : list MonitoredPageCheck;   (* rows in insertion order *)
  outbox : list Email;
  log : list LogRecord;
}.

Definition set_storage (s : Storage) (w : World) : World :=
  {| settings := settings w; screenshot_storage := s; users := users w;
     pages := pages w; checks := checks w; outbox := outbox w; log := log w |}.

Definition set_checks (c : list MonitoredPageCheck) (w : World) : World :=
  {| settings := settings w; screenshot_storage := screenshot_storage w;
     users := users w; pages := pages w; checks := c; outbox := outbox w;
     log := log w |}.

Definition set_outbox (o : list Email) (w : World) : World :=
  {| settings := settings w; screenshot_storage := screenshot_storage w;
     users := users w; pages := pages w; checks := checks w; outbox := o;
     log := log w |}.

Definition set_log (l : list LogRecord) (w : World) : World :=
  {| settings := settings w; screenshot_storage := screenshot_storage w;
     users := users w; pages := pages w; checks := checks w;
     outbox := outbox w; log := l |}.

(* ===================================================================== *)
(** ** Effects: state over [World] with Python exceptions *)
(* ===================================================================== *)

Inductive outcome (A : Type) :=
| Ok (a : A)
| Raise (e : exn).
Arguments Ok {A} a.
Arguments Raise {A} e.

Definition M (A : Type) : Type := World -> outcome A * World.

Definition ret {A} (a : A) : M A := fun w => (Ok a, w).

Definition bind {A B} (m : M A) (k : A -> M B) : M B :=
  fun w => match m w with
           | (Ok a, w') => k a w'
           | (Raise e, w') => (Raise e, w')
           end.

Definition raise {A} (e : exn) : M A := fun w => (Raise e, w).

(** [try: m except Exception as e: h e]; the effects [m] had before it
    raised stay. *)
Definition try_except {A} (m : M A) (h : exn -> M A) : M A :=
  fun w => match m w with
           | (Ok a, w') => (Ok a, w')
           | (Raise e, w') => h e w'
           end.

Definition gets {A} (f : World -> A) : M A := fun w => (Ok (f w), w).
Definition modify (f : World -> World) : M unit := fun w => (Ok tt, f w).

Notation "x <- m ;; k" := (bind m (fun x => k))
  (at level 100, m at next level, right associativity).
Notation "m ;;; k" := (bind m (fun _ => k))
  (at level 100, right associativity).

Definition logger (l : level) (f a : string) : M unit :=
  modify (fun w => set_log (log w ++ [{| lvl := l; fmt := f; arg := a |}]) w).

Definition when (b : bool) (m : M unit) : M unit := if b then m else ret tt.

(* ===================================================================== *)
(** ** [pages/storage.py]: the artifact store *)
(* ===================================================================== *)

Definition str_in (s : string) (l : list string) : bool := existsb (String.eqb s) l.
Arguments str_in : simpl never.

(** *** What the boto3 client answers *)

Definition has_object (c : BotoClient) (key : string) : bool :=
  bool_decide (is_Some (objects c !! key)).

Definition client_head_object (c : BotoClient) (key : string) : outcome unit :=
  match fault c head_object key with
  | Some e => Raise e
  | None => if has_object c key then Ok tt else Raise (ClientError "404")
  end.

Definition client_put_object (c : BotoClient) (key : string) (data : blob)
  : outcome BotoClient :=
  match fault c put_object key with
  | Some e => Raise e
  | None => Ok (with_objects c (<[key := data]> (objects c)))
  end.

Definition client_get_object (c : BotoClient) (key : string) : outcome blob :=
  match fault c get_object key with
  | Some e => Raise e
  | None => match objects c !! key with
            | Some b => Ok b
            | None => Raise (ClientError "NoSuchKey")
            end
  end.

Definition client_delete_object (c : BotoClient) (key : string)
  : outcome BotoClient :=
  match fault c delete_object key with
  | Some e => Raise e
  | None => Ok (with_objects c (delete key (objects c)))
  end.

Definition client_download_fileobj (c : BotoClient) (key : string) : outcome blob :=
  match fault c download_fileobj key with
  | Some e => Raise e
  | None => match objects c !! key with
            | Some b => Ok b
            | None => Raise (ClientError "404")
            end
  end.

Definition client_generate_presigned_url (c : BotoClient) (key : string)
  : outcome string :=
  match fault c generate_presigned_url key with
  | Some e => Raise e
  | None => Ok (presigned c key)
  end.

(** [S3ScreenshotStorage._key] and [SeaweedFSScreenshotStorage._key] *)
Definition _key (prefix rel_path : string) : string :=
  let rel := Py.lstrip "/" (Py.replace_char "\" "/" rel_path) in
  if Py.truthy prefix then prefix ++ "/" ++ rel else rel.

(** The local backend keeps its files under [SCREENSHOTS_DIR]; they are
    keyed here by the relative path the code passes, which is always in
    normal form.  None of its methods but [delete] guards its filesystem
    calls. *)

(** [storage.exists(rel_path)] *)
Definition storage_exists (rel_path : string) : M bool :=
  st <- gets screenshot_storage ;;
  match st with
  | LocalScreenshotStorage files disk =>
      match disk disk_exists rel_path with
      | Some e => raise e
      | None => ret (bool_decide (is_Some (files !! rel_path)))
      end
  | S3ScreenshotStorage prefix c =>
      let key := _key prefix rel_path in
      match client_head_object c key with
      | Ok _ => ret true
      | Raise (ClientError code) =>
          if str_in code ["404"; "NoSuchKey"] then ret false
          else raise (ClientError code)
      | Raise e => raise e
      end
  | SeaweedFSScreenshotStorage prefix c =>
      let key := _key prefix rel_path in
      match client_head_object c key with
      | Ok _ => ret true
      | Raise (ClientError code) =>
          if str_in code ["404"; "NoSuchKey"; "403"; "Forbidden"] then ret false
          else (logger WARNING "SeaweedFS exists() unexpected error for %s: %s" key ;;;
                ret false)
      | Raise _ =>
          logger WARNING "SeaweedFS exists() failed for %s: %s" key ;;;
          ret false
      end
  end.

(** [storage.save(rel_path, data)] *)
Definition storage_save (rel_path : string) (data : blob) : M unit :=
  st <- gets screenshot_storage ;;
  match st with
  | LocalScreenshotStorage files disk =>
      match disk disk_save rel_path with
      | Some e => raise e
      | None =>
          modify (set_storage (LocalScreenshotStorage (<[rel_path := data]> files) disk))
      end
  | S3ScreenshotStorage prefix c =>
      let key := _key prefix rel_path in
      match client_put_object c key data with
      | Ok c' =>
          modify (set_storage (S3ScreenshotStorage prefix c')) ;;;
          logger DEBUG "S3 upload: s3://%s/%s" key
      | Raise e => logger ERROR "S3 upload failed: %s" key ;;; raise e
      end
  | SeaweedFSScreenshotStorage prefix c =>
      let key := _key prefix rel_path in
      match client_put_object c key data with
      | Ok c' =>
          modify (set_storage (SeaweedFSScreenshotStorage prefix c')) ;;;
          logger DEBUG "SeaweedFS upload: %s/%s" key
      | Raise e => logger ERROR "SeaweedFS upload failed: %s" key ;;; raise e
      end
  end.

(** [storage.open(rel_path)], read to the end *)
Definition storage_open (rel_path : string) : M blob :=
  st <- gets screenshot_storage ;;
  match st with
  | LocalScreenshotStorage files disk =>
      match disk disk_open rel_path with
      | Some e => raise e
      | None => match files !! rel_path with
                | Some b => ret b
                | None => raise FileNotFoundError
                end
      end
  | S3ScreenshotStorage prefix c | SeaweedFSScreenshotStorage prefix c =>
      match client_get_object c (_key prefix rel_path) with
      | Ok b => ret b
      | Raise e => raise e
      end
  end.

(** [storage.delete(rel_path)] *)
Definition storage_delete (rel_path : string) : M unit :=
  if negb (Py.truthy rel_path) then ret tt else
  st <- gets screenshot_storage ;;
  match st with
  | LocalScreenshotStorage files disk =>
      match disk disk_delete rel_path with
      | Some _ => logger ERROR "Failed to delete local screenshot: %s" rel_path
      | None =>
          modify (set_storage (LocalScreenshotStorage (delete rel_path files) disk))
      end
  | S3ScreenshotStorage prefix c =>
      let key := _key prefix rel_path in
      match client_delete_object c key with
      | Ok c' =>
          modify (set_storage (S3ScreenshotStorage prefix c')) ;;;
          logger DEBUG "S3 delete: s3://%s/%s" key
      | Raise _ => logger ERROR "S3 delete failed: %s" key
      end
  | SeaweedFSScreenshotStorage prefix c =>
      let key := _key prefix rel_path in
      match client_delete_object c key with
      | Ok c' =>
          modify (set_storage (SeaweedFSScreenshotStorage prefix c')) ;;;
          logger DEBUG "SeaweedFS delete: %s/%s" key
      | Raise _ => logger ERROR "SeaweedFS delete failed: %s" key
      end
  end.

(** [storage.url(rel_path)] *)
Definition storage_url (rel_path : string) : M string :=
  st <- gets screenshot_storage ;;
  match st with
  | LocalScreenshotStorage _ _ | SeaweedFSScreenshotStorage _ _ =>
      ret ("/api/screenshots/" ++ rel_path)
  | S3ScreenshotStorage prefix c =>
      let key := _key prefix rel_path in
      match client_generate_presigned_url c key with
      | Ok u => ret u
      | Raise _ =>
          logger ERROR "Failed to generate pre-signed URL for %s" key ;;; ret ""
      end
  end.

(** [storage.local_path(rel_path)]: the file the returned path designates,
    or [None].  The S3 backends download the object to a temporary file. *)
Definition storage_local_path (rel_path : string) : M (option blob) :=
  st <- gets screenshot_storage ;;
  match st with
  | LocalScreenshotStorage files disk =>
      match disk disk_local_path rel_path with
      | Some e => raise e
      | None => ret (files !! rel_path)
      end
  | S3ScreenshotStorage prefix c =>
      let key := _key prefix rel_path in
      match client_download_fileobj c key with
      | Ok b => ret (Some b)
      | Raise _ => logger ERROR "S3 download to temp failed: %s" key ;;; ret None
      end
  | SeaweedFSScreenshotStorage prefix c =>
      let key := _key prefix rel_path in
      match client_download_fileobj c key with
      | Ok b => ret (Some b)
      | Raise _ =>
          logger ERROR "SeaweedFS download to temp failed: %s" key ;;; ret None
      end
  end.

(** [_make_storage]: which backend class the settings select. *)
Inductive BackendClass := LocalClass | S3Class | SeaweedFSClass.

Definition _make_storage (s : Settings) : BackendClass :=
  if USE_SEAWEEDFS_STORAGE s then SeaweedFSClass
  else if USE_S3_STORAGE s then S3Class
  else LocalClass.

Definition backend_class (st : Storage) : BackendClass :=
  match st with
  | LocalScreenshotStorage _ _ => LocalClass
  | S3ScreenshotStorage _ _ => S3Class
  | SeaweedFSScreenshotStorage _ _ => SeaweedFSClass
  end.

(* ===================================================================== *)
(** ** [pages/screenshots.py]: capture, diff and pruning *)
(* ===================================================================== *)

(** The parts of Pillow and imagehash whose arithmetic is not reproduced:
    they are an interface the code is written against. *)
Class Imaging := {
  (** [imagehash.phash(img)]: the 8x8 bit matrix, flattened *)
  phash : Image -> list bool;
  (** the image that decodes from the JPEG Pillow writes at a quality *)
  jpeg : Z -> Image -> Image;
  (** [img.resize((w, h), Image.LANCZOS)] *)
  resize_lanczos : Image -> nat -> nat -> Image;
  (** [int(v * (1 - ALPHA) + hv * ALPHA)], computed in doubles *)
  blend_channel : Z -> Z -> Z;
}.

Definition MAX_SCREENSHOTS_PER_PAGE_DEFAULT : Z := 30.
Definition JPEG_QUALITY : Z := 82.
Definition THUMBNAIL_WIDTH : nat := 480.
Definition THUMBNAIL_JPEG_QUALITY : Z := 55.

(** The longest side Pillow's JPEG encoder takes, in pixels. *)
Definition JPEG_MAX_SIDE : Z := 65500.

Definition white : rgb := (255, 255, 255)%Z.

Definition of_option {A} (e : exn) (o : option A) : M A :=
  match o with Some a => ret a | None => raise e end.

(** [_unique_filename(page_id, suffix)], reading the clock as [time_ns] *)
Definition _unique_filename (time_ns : Z) (page_id : Z) (suffix : string) : string :=
  let ts := Py.str time_ns in
  let h := String.substring 0 10 (MD5.hexdigest ts) in
  Py.os_path_join (Py.str page_id) (h ++ suffix).

(** [str(p.with_name(p.stem + tail))], shared by the thumbnail and the crop *)
Definition sibling_name (source_rel tail : string) : option string :=
  let p := Py.mkPath source_rel in
  Py.to_str <$> Py.with_name p (Py.stem p ++ tail).

Definition _thumb_rel (source_rel : string) : option string :=
  sibling_name source_rel "_thumb.jpg".

(** [Image.open(path)] followed by a decode *)
Definition Image_open (b : blob) : M Image :=
  match b with
  | Img i => ret i
  | Garbage => raise UnidentifiedImageError
  end.

(** [Image.new("RGB", (w, h), color)] *)
Definition Image_new (w h : nat) (color : rgb) : Image :=
  {| width := w; height := h; getpixel := fun _ _ => color |}.

(** [canvas.paste(img, (0, 0))] *)
Definition paste_origin (canvas img : Image) : Image :=
  {| width := width canvas; height := height canvas;
     getpixel := fun x y =>
       if (x <? width img)%nat && (y <? height img)%nat
       then getpixel img x y else getpixel canvas x y |}.

(** [int(q)]: truncation toward zero *)
Definition trunc (q : Q) : Z :=
  if Qle_bool 0 q then Qfloor q else (- Qfloor (- q))%Z.

(** [img.crop((left, upper, right, lower))]; outside the source the crop is
    black.  Pillow refuses a box whose right or lower edge precedes the
    left or upper one. *)
Definition Image_crop (img : Image) (left upper right lower : Z) : M Image :=
  if ((right <? left) || (lower <? upper))%Z then raise ValueError else
  ret {| width := Z.to_nat (right - left); height := Z.to_nat (lower - upper);
         getpixel := fun x y =>
           let sx := (left + Z.of_nat x)%Z in
           let sy := (upper + Z.of_nat y)%Z in
           if ((0 <=? sx) && (sx <? Z.of_nat (width img)) &&
               (0 <=? sy) && (sy <? Z.of_nat (height img)))%Z
           then getpixel img (Z.to_nat sx) (Z.to_nat sy) else (0, 0, 0)%Z |}.

(** [delete_screenshot_file(rel_path)] *)
Definition delete_screenshot_file (rel_path : string) : M unit :=
  when (Py.truthy rel_path) (storage_delete rel_path).

Section Screenshots.
Context `{Imaging}.

(** [create_thumbnail(source_rel, page_id)] *)
Definition create_thumbnail (source_rel : string) (page_id : Z) : M string :=
  thumb_rel <- of_option ValueError (_thumb_rel source_rel) ;;
  present <- storage_exists thumb_rel ;;
  if present then ret thumb_rel else
  try_except
    (local <- storage_local_path source_rel ;;
     match local with
     | None => ret ""
     | Some b =>
         img <- Image_open b ;;
         (if (width img =? 0)%nat then raise ZeroDivisionError else ret tt) ;;;
         let new_h := Nat.max 1 (height img * THUMBNAIL_WIDTH / width img) in
         let thumb := resize_lanczos img THUMBNAIL_WIDTH new_h in
         storage_save thumb_rel (Img (jpeg THUMBNAIL_JPEG_QUALITY thumb)) ;;;
         logger DEBUG "Thumbnail saved: %s" thumb_rel ;;;
         ret thumb_rel
     end)
    (fun _ => logger WARNING "Failed to create thumbnail for %s" source_rel ;;;
              ret "").

(** [get_or_create_thumbnail(source_rel, page_id)] *)
Definition get_or_create_thumbnail (source_rel : string) (page_id : Z) : M string :=
  if negb (Py.truthy source_rel) then ret "" else
  thumb_rel <- of_option ValueError (_thumb_rel source_rel) ;;
  present <- storage_exists thumb_rel ;;
  if present then ret thumb_rel else create_thumbnail source_rel page_id.

(** [_crop_to_region(full_rel, page_id)]; [None] when no crop is needed
    or it could not be made.  The region's fractions are floats in the
    code and rationals here. *)
Definition _crop_to_region (full_rel : string) (page_id : Z) : M (option string) :=
  ps <- gets pages ;;
  match List.find (fun p => (page_pk p =? page_id)%Z) ps with
  | None => ret None
  | Some page =>
      let l := region_left_pct page in
      let t := region_top_pct page in
      let w := region_width_pct page in
      let h := region_height_pct page in
      if Qle_bool 1 w && Qle_bool 1 h && Qle_bool l 0 && Qle_bool t 0
      then ret None else
      try_except
        (local <- storage_local_path full_rel ;;
         match local with
         | None => ret None
         | Some b =>
             img <- Image_open b ;;
             let iw := inject_Z (Z.of_nat (width img)) in
             let ih := inject_Z (Z.of_nat (height img)) in
             cropped <- Image_crop img (trunc (l * iw)%Q) (trunc (t * ih)%Q)
                          (trunc ((l + w) * iw)%Q) (trunc ((t + h) * ih)%Q) ;;
             crop_rel <- of_option ValueError (sibling_name full_rel "_crop.jpg") ;;
             storage_save crop_rel (Img (jpeg JPEG_QUALITY cropped)) ;;;
             logger DEBUG "Crop saved: %s" crop_rel ;;;
             ret (Some crop_rel)
         end)
        (fun _ => logger WARNING "Failed to crop screenshot for page %s"
                    (Py.str page_id) ;;;
                  ret None)
  end.

(** What the browser did for one capture: whether Playwright can be
    imported, the rendered page ([None] when launching, navigating,
    rasterising or decoding raised), and the clock. *)
Record CaptureEnv := {
  playwright_installed : bool;
  rendered : option Image;
  capture_time_ns : Z;
}.

(** [capture_screenshot(url, page_id)] *)
Definition capture_screenshot (env : CaptureEnv) (url : string) (page_id : Z)
  : M (string * string) :=
  if negb (playwright_installed env) then
    logger ERROR "playwright is not installed - skipping screenshot" "" ;;;
    ret ("", "")
  else
  let rel_path := _unique_filename (capture_time_ns env) page_id ".jpg" in
  try_except
    (raw <- of_option ValueError (rendered env) ;;
     storage_save rel_path (Img (jpeg JPEG_QUALITY raw)) ;;;
     logger INFO "Screenshot saved: %s" rel_path ;;;
     crop <- _crop_to_region rel_path page_id ;;
     let crop_rel := match crop with Some c => c | None => "" end in
     create_thumbnail rel_path page_id ;;;
     ret (rel_path, crop_rel))
    (fun _ => logger ERROR "Failed to capture screenshot for page %s (%s)"
                (Py.str page_id) ;;;
              ret ("", "")).

End Screenshots.

(** *** Visual diff *)

(** [hash_prev - hash_curr]: the number of positions where the two hashes
    differ. *)
Fixpoint hamming (a b : list bool) : Z :=
  match a, b with
  | x :: a', y :: b' => ((if Bool.eqb x y then 0 else 1) + hamming a' b')%Z
  | _, _ => 0%Z
  end.

(** Python's [round] resolves a tie to the even neighbour. *)
Definition round_half_even (q : Q) : Z :=
  let f := Qfloor q in
  match ((q - inject_Z f) ?= (1 # 2))%Q with
  | Lt => f
  | Gt => (f + 1)%Z
  | Eq => if Z.even f then f else (f + 1)%Z
  end.

(** [round((distance / 64) * 100, 2)], in hundredths.  The quotient and the
    product are exact in double arithmetic for a distance up to 64, so the
    rational value is the one the code rounds. *)
Definition score_of_distance (distance : Z) : Z :=
  round_half_even ((inject_Z distance / 64) * 100 * 100)%Q.

(** The canvas both images are pasted on. *)
Definition pad_to (w h : nat) (img : Image) : Image :=
  paste_origin (Image_new w h white) img.

Definition THRESHOLD : Z := 10.
Definition H_R : Z := 59.
Definition H_G : Z := 130.
Definition H_B : Z := 246.

(** The mask [changed]: some channel differs by more than [THRESHOLD]. *)
Definition changed (canvas_prev canvas_curr : Image) (x y : nat) : bool :=
  let '(r1, g1, b1) := getpixel canvas_prev x y in
  let '(r2, g2, b2) := getpixel canvas_curr x y in
  ((THRESHOLD <? Z.abs (r1 - r2)) || (THRESHOLD <? Z.abs (g1 - g2))
   || (THRESHOLD <? Z.abs (b1 - b2)))%Z.

Section Diff.
Context `{Imaging}.

(** The blue-overlay highlight image. *)
Definition highlight (canvas_prev canvas_curr : Image) : Image :=
  {| width := width canvas_curr; height := height canvas_curr;
     getpixel := fun x y =>
       let '(r, g, b) := getpixel canvas_curr x y in
       if changed canvas_prev canvas_curr x y
       then (blend_channel r H_R, blend_channel g H_G, blend_channel b H_B)
       else (r, g, b) |}.

(** Whether Pillow and imagehash can be imported, and the clock. *)
Record DiffEnv := {
  imagehash_installed : bool;
  diff_time_ns : Z;
}.

(** The score of two decoded images: both are padded to the larger width
    and height, hashed, and the distance of the hashes is scaled. *)
Definition image_score (img_prev img_curr : Image) : Z :=
  let w := Nat.max (width img_prev) (width img_curr) in
  let h := Nat.max (height img_prev) (height img_curr) in
  score_of_distance (hamming (phash (pad_to w h img_prev)) (phash (pad_to w h img_curr))).

(** The body of the [try] block of [compute_diff]. *)
Definition compare_images (env : DiffEnv) (prev_blob curr_blob : blob) (page_id : Z)
  : M (string * option Z) :=
  img_prev <- Image_open prev_blob ;;
  img_curr <- Image_open curr_blob ;;
  let w := Nat.max (width img_prev) (width img_curr) in
  let h := Nat.max (height img_prev) (height img_curr) in
  let canvas_prev := pad_to w h img_prev in
  let canvas_curr := pad_to w h img_curr in
  let hash_prev := phash canvas_prev in
  let hash_curr := phash canvas_curr in
  let score := score_of_distance (hamming hash_prev hash_curr) in
  diff_rel <-
    (if (0 <? score)%Z then
       let diff_img := highlight canvas_prev canvas_curr in
       let diff_rel := _unique_filename (diff_time_ns env) page_id "_diff.jpg" in
       storage_save diff_rel (Img (jpeg JPEG_QUALITY diff_img)) ;;;
       logger INFO "Blue-overlay diff saved: %s" diff_rel ;;;
       ret diff_rel
     else ret "") ;;
  logger INFO "Diff score for page %s: %.2f%%" (Py.str page_id) ;;;
  ret (diff_rel, Some score).

(** [compute_diff(prev_rel_path, curr_rel_path, page_id)] *)
Definition compute_diff (env : DiffEnv) (prev_rel_path curr_rel_path : string)
    (page_id : Z) : M (string * option Z) :=
  if negb (Py.truthy prev_rel_path) || negb (Py.truthy curr_rel_path)
  then ret ("", None) else
  prev_there <- storage_exists prev_rel_path ;;
  if negb prev_there then ret ("", None) else
  curr_there <- storage_exists curr_rel_path ;;
  if negb curr_there then ret ("", None) else
  if negb (imagehash_installed env) then
    logger ERROR "Pillow / imagehash not installed - skipping diff" "" ;;;
    ret ("", None)
  else
  prev_local <- storage_local_path prev_rel_path ;;
  curr_local <- storage_local_path curr_rel_path ;;
  match prev_local, curr_local with
  | Some prev_blob, Some curr_blob =>
      try_except
        (compare_images env prev_blob curr_blob page_id)
        (fun _ => logger ERROR "Failed to compute diff for page %s" (Py.str page_id) ;;;
                  ret ("", None))
  | _, _ => ret ("", None)
  end.

End Diff.

(* ===================================================================== *)
(** ** Queries on the check table *)
(* ===================================================================== *)

(** [page.checks]: the rows of one page. *)
Definition page_checks (page : MonitoredPage) (rows : list MonitoredPageCheck)
  : list MonitoredPageCheck :=
  List.filter (fun c => (page_id c =? page_pk page)%Z) rows.

(** [order_by('-checked_at')].  The database leaves the order of rows with
    equal timestamps open; in the model the row inserted later comes
    first. *)
Fixpoint insert_desc (c : MonitoredPageCheck) (l : list MonitoredPageCheck)
  : list MonitoredPageCheck :=
  match l with
  | [] => [c]
  | d :: r => if (checked_at d <? checked_at c)%Z then c :: l
              else d :: insert_desc c r
  end.

Definition order_by_checked_at_desc (l : list MonitoredPageCheck)
  : list MonitoredPageCheck :=
  fold_right insert_desc [] l.

(** [check.save(update_fields=["screenshot_path", "crop_path", "diff_path"])]
    after the three fields were set to the empty string. *)
Definition clear_paths (c : MonitoredPageCheck) : MonitoredPageCheck :=
  {| pk := pk c; page_id := page_id c; checked_at := checked_at c;
     status_code := status_code c; response_time_ms := response_time_ms c;
     is_up := is_up c; message := message c;
     screenshot_path := ""; crop_path := ""; diff_path := "";
     diff_score := diff_score c |}.

Definition save_cleared (key : Z) (rows : list MonitoredPageCheck)
  : list MonitoredPageCheck :=
  map (fun c => if (pk c =? key)%Z then clear_paths c else c) rows.

(** *** Pruning *)

(** One turn of the loop in [cleanup_old_screenshots]. *)
Definition prune_check (check : MonitoredPageCheck) : M unit :=
  delete_screenshot_file (screenshot_path check) ;;;
  delete_screenshot_file (crop_path check) ;;;
  delete_screenshot_file (diff_path check) ;;;
  (if Py.truthy (screenshot_path check) then
     thumb <- of_option ValueError (_thumb_rel (screenshot_path check)) ;;
     delete_screenshot_file thumb
   else ret tt) ;;;
  modify (fun w => set_checks (save_cleared (pk check) (checks w)) w).

Fixpoint for_each {A} (l : list A) (body : A -> M unit) : M unit :=
  match l with
  | [] => ret tt
  | x :: r => body x ;;; for_each r body
  end.

(** [cleanup_old_screenshots(page)].  Django refuses a negative slice
    bound with a [ValueError]. *)
Definition cleanup_old_screenshots (page : MonitoredPage) : M unit :=
  s <- gets settings ;;
  let limit := match MAX_SCREENSHOTS_PER_PAGE s with
               | Some n => n
               | None => MAX_SCREENSHOTS_PER_PAGE_DEFAULT
               end in
  rows <- gets checks ;;
  let checks_with_ss :=
    order_by_checked_at_desc
      (List.filter (fun c => Py.truthy (screenshot_path c)) (page_checks page rows)) in
  if (limit <? 0)%Z then raise ValueError else
  let to_prune := drop (Z.to_nat limit) checks_with_ss in
  for_each to_prune prune_check.

(* ===================================================================== *)
(** ** [pages/notifications.py]: downtime, recovery and change alerts *)
(* ===================================================================== *)

(** [_send_plain] and [_send_html] hand the message to Django's mail
    functions and swallow a transport failure; the outbox records the
    messages handed over. *)
Definition _send (k : EmailKind) (page : MonitoredPage) (to : string) : M unit :=
  logger INFO "Sending email to %s via %s:%s | subject: %s" to ;;;
  modify (fun w => set_outbox
            (outbox w ++ [{| kind := k; about := url page; recipient := to |}]) w).

Definition _send_plain := _send.
Definition _send_html := _send.

(** [getattr(getattr(page, 'user', None), 'email', None)]; an absent user
    or address is as falsy as the empty string. *)
Definition page_recipient (page : MonitoredPage) : M string :=
  us <- gets users ;;
  ret (match List.find (fun u => (user_pk u =? user_id page)%Z) us with
       | Some u => email u
       | None => ""
       end).

(** The loop of [_consecutive_failures] over the [is_up] column. *)
Fixpoint count_until_up (l : list bool) : Z :=
  match l with
  | false :: r => (1 + count_until_up r)%Z
  | _ => 0%Z
  end.

(** [_consecutive_failures(page)] *)
Definition _consecutive_failures (page : MonitoredPage) : M Z :=
  rows <- gets checks ;;
  ret (count_until_up (map is_up (order_by_checked_at_desc (page_checks page rows)))).

(** [page.checks.order_by('-checked_at').exclude(pk=latest_check.pk).first()] *)
Definition previous_check (page : MonitoredPage) (latest_check : MonitoredPageCheck)
  : M (option MonitoredPageCheck) :=
  rows <- gets checks ;;
  ret (head (List.filter (fun c => negb (pk c =? pk latest_check)%Z)
               (order_by_checked_at_desc (page_checks page rows)))).

(** [handle_post_check_notification(page, latest_check)] *)
Definition handle_post_check_notification (page : MonitoredPage)
    (latest_check : MonitoredPageCheck) : M unit :=
  if negb (notifications_enabled page) then ret tt else
  recipient <- page_recipient page ;;
  if negb (Py.truthy recipient) then
    logger WARNING
      "Uptime notification skipped for page %s: user has no email address"
      (url page)
  else
  if is_up latest_check then
    prev <- previous_check page latest_check ;;
    match prev with
    | Some p => if negb (is_up p) then _send_plain RecoveredMail page recipient
                else ret tt
    | None => ret tt
    end
  else
  let threshold := alert_threshold page in
  if (threshold <=? 0)%Z then ret tt else
  failures <- _consecutive_failures page ;;
  if negb (failures =? threshold)%Z then ret tt else
  _send_plain (DownAlertMail failures threshold) page recipient.

(** [handle_change_notification(page, latest_check)]: the decision; the
    HTML it composes is not rendered. *)
Definition handle_change_notification (page : MonitoredPage)
    (latest_check : MonitoredPageCheck) : M unit :=
  logger DEBUG "handle_change_notification v2 (white-blue theme)" "" ;;;
  if negb (change_notifications_enabled page) then ret tt else
  if negb (screenshot_enabled page) then ret tt else
  match diff_score latest_check with
  | None => ret tt
  | Some score =>
      if (score <=? 0)%Z then ret tt else
      recipient <- page_recipient page ;;
      if negb (Py.truthy recipient) then
        logger WARNING
          "Visual change notification skipped for page %s: user has no email address"
          (url page)
      else _send_html (VisualChangeMail score) page recipient
  end.

(* ===================================================================== *)
(** ** [pages/management/commands/run_checks.py]: one check of one page *)
(* ===================================================================== *)

(** How the HTTP probe ended. *)
Inductive Probe :=
| Responded (code : Z)
| HTTPError (code : Z)
| URLError (reason : string)
| OtherError (text : string).

(** [check_url()] *)
Definition check_url (p : Probe) : option Z * bool * string :=
  match p with
  | Responded code =>
      (Some code, ((200 <=? code) && (code <? 400))%Z, "Status " ++ Py.str code)
  | HTTPError code => (Some code, false, "HTTP " ++ Py.str code)
  | URLError reason => (None, false, "Error: " ++ reason)
  | OtherError text => (None, false, "Error: " ++ text)
  end.

(** The local variables the screenshot block assigns; [last_check] is
    called [prev_check] in [pages/views.py]. *)
Record Locals := {
  screenshot_rel : string;
  crop_rel : string;
  diff_rel : string;
  diff_score_ : option Z;
  last_check : option MonitoredPageCheck;
}.

Definition initial_locals : Locals :=
  {| screenshot_rel := ""; crop_rel := ""; diff_rel := ""; diff_score_ := None;
     last_check := None |}.

Definition set_last_check (c : option MonitoredPageCheck) (l : Locals) : Locals :=
  {| screenshot_rel := screenshot_rel l; crop_rel := crop_rel l;
     diff_rel := diff_rel l; diff_score_ := diff_score_ l; last_check := c |}.

Definition set_captured (shot crop : string) (l : Locals) : Locals :=
  {| screenshot_rel := shot; crop_rel := crop;
     diff_rel := diff_rel l; diff_score_ := diff_score_ l;
     last_check := last_check l |}.

Definition set_diff (d : string) (s : option Z) (l : Locals) : Locals :=
  {| screenshot_rel := screenshot_rel l; crop_rel := crop_rel l;
     diff_rel := d; diff_score_ := s; last_check := last_check l |}.

(** [try: s1; s2; ... except Exception: <on_error>]: the statements run in
    order; the first one that raises ends the block, the assignments made
    before it stay, and the handler runs on them. *)
Fixpoint try_statements (on_error : Locals -> Locals)
    (steps : list (Locals -> M Locals)) (l : Locals) : M Locals :=
  match steps with
  | [] => ret l
  | s :: r =>
      o <- try_except (l' <- s l ;; ret (Some l')) (fun _ => ret None) ;;
      match o with
      | Some l' => try_statements on_error r l'
      | None => ret (on_error l)
      end
  end.

(** [MonitoredPageCheck.objects.create(...)]: the row gets a fresh key. *)
Definition fresh_pk (rows : list MonitoredPageCheck) : Z :=
  (1 + fold_right Z.max 0 (map pk rows))%Z.

(** The row as the database returns it, under its key. *)
Definition with_pk (key : Z) (c : MonitoredPageCheck) : MonitoredPageCheck :=
  {| pk := key; page_id := page_id c;
     checked_at := checked_at c; status_code := status_code c;
     response_time_ms := response_time_ms c; is_up := is_up c;
     message := message c; screenshot_path := screenshot_path c;
     crop_path := crop_path c; diff_path := diff_path c;
     diff_score := diff_score c |}.

(** Two engines.  PostgreSQL, the one of production, enforces
    [max_length], 255 characters for the message and 512 for each path,
    with a [DataError]; SQLite, the one of the test settings, stores a
    text of any length. *)
Definition postgresql : Engine := fun c =>
  if (String.length (message c) <=? 255)%nat
     && (String.length (screenshot_path c) <=? 512)%nat
     && (String.length (crop_path c) <=? 512)%nat
     && (String.length (diff_path c) <=? 512)%nat
  then None else Some DataError.

Definition sqlite3 : Engine := fun _ => None.

(** Whether the row of the page is still in its table. *)
Definition page_exists (key : Z) (ps : list MonitoredPage) : bool :=
  existsb (fun p => (page_pk p =? key)%Z) ps.

(** The insert raises what the engine raises for a column it refuses,
    and [IntegrityError] for a page whose row is gone; the database is
    taken to be reachable. *)
Definition objects_create (c : MonitoredPageCheck) : M MonitoredPageCheck :=
  s <- gets settings ;;
  match DATABASE_ENGINE s c with Some e => raise e | None => ret tt end ;;;
  ps <- gets pages ;;
  (if page_exists (page_id c) ps then ret tt else raise IntegrityError) ;;;
  rows <- gets checks ;;
  let row := with_pk (fresh_pk rows) c in
  modify (set_checks (rows ++ [row])) ;;;
  ret row.

Section Executor.
Context `{Imaging}.

(** Everything one check reads from outside: the probe, the elapsed time
    (hundredths of a millisecond), the browser, the diff's clock and
    [timezone.now()]. *)
Record CheckEnv := {
  probe : Probe;
  elapsed_ms : Z;
  capture_env : CaptureEnv;
  diff_env : DiffEnv;
  now : Z;
}.

(** Whether the diff against [last_check] is attempted:
    [screenshot_rel and last_check and last_check.screenshot_path]. *)
Definition diff_wanted (l : Locals) : bool :=
  match last_check l with
  | Some lc => Py.truthy (screenshot_rel l) && Py.truthy (screenshot_path lc)
  | None => false
  end.

(** [diff_score is not None and diff_score == 0] *)
Definition score_is_zero (l : Locals) : bool :=
  match diff_score_ l with Some s => (s =? 0)%Z | None => false end.

Definition last_screenshot (l : Locals) : string :=
  match last_check l with Some lc => screenshot_path lc | None => "" end.

Definition last_crop (l : Locals) : string :=
  match last_check l with Some lc => crop_path lc | None => "" end.

(** [last_check = page.checks.order_by('-checked_at').first()] *)
Definition read_last_check (page : MonitoredPage) (l : Locals) : M Locals :=
  rows <- gets checks ;;
  ret (set_last_check (head (order_by_checked_at_desc (page_checks page rows))) l).

(** [screenshot_rel, crop_rel = capture_screenshot(page.url, page.id)] *)
Definition capture_step (page : MonitoredPage) (env : CheckEnv) (l : Locals)
  : M Locals :=
  r <- capture_screenshot (capture_env env) (url page) (page_pk page) ;;
  ret (set_captured (fst r) (snd r) l).

(** The guarded [diff_rel, diff_score = compute_diff(...)] *)
Definition diff_step (page : MonitoredPage) (env : CheckEnv) (l : Locals)
  : M Locals :=
  if diff_wanted l then
    let diff_source := Py.str_or (crop_rel l) (screenshot_rel l) in
    let prev_diff_source := Py.str_or (last_crop l) (last_screenshot l) in
    r <- compute_diff (diff_env env) prev_diff_source diff_source (page_pk page) ;;
    ret (set_diff (fst r) (snd r) l)
  else ret l.

(** The three statements under [if diff_score is not None and
    diff_score == 0], itself under the guard of the diff.  Each statement
    carries both guards: no assignment between the guards and the
    statement changes what they read. *)
Definition delete_new_screenshot (l : Locals) : M Locals :=
  if diff_wanted l && score_is_zero l then
    delete_screenshot_file (screenshot_rel l) ;;; ret l
  else ret l.

Definition delete_new_crop (l : Locals) : M Locals :=
  if diff_wanted l && score_is_zero l && Py.truthy (crop_rel l) then
    delete_screenshot_file (crop_rel l) ;;; ret l
  else ret l.

Definition reuse_previous (l : Locals) : M Locals :=
  if diff_wanted l && score_is_zero l then
    ret (set_captured (last_screenshot l) (last_crop l) l)
  else ret l.

Definition diff_and_reuse (page : MonitoredPage) (env : CheckEnv)
  : list (Locals -> M Locals) :=
  [diff_step page env; delete_new_screenshot; delete_new_crop; reuse_previous].

(** The screenshot block of [_run_single_check]; its handler is [pass]. *)
Definition screenshot_block (page : MonitoredPage) (env : CheckEnv)
  : list (Locals -> M Locals) :=
  read_last_check page :: capture_step page env :: diff_and_reuse page env.

(** The row both executors create from the probe and the locals. *)
Definition new_check (page : MonitoredPage) (env : CheckEnv)
    (status : option Z) (up : bool) (msg : string) (l : Locals)
  : MonitoredPageCheck :=
  {| pk := 0; page_id := page_pk page; checked_at := now env;
     status_code := status; response_time_ms := elapsed_ms env;
     is_up := up; message := msg;
     screenshot_path := screenshot_rel l; crop_path := crop_rel l;
     diff_path := diff_rel l; diff_score := diff_score_ l |}.

(** The first half of [Command._run_single_check(page, timeout)]: probe,
    screenshot block, and the one row it persists. *)
Definition probe_and_persist (page : MonitoredPage) (env : CheckEnv)
  : M (Locals * MonitoredPageCheck) :=
  let '(status, up, msg) := check_url (probe env) in
  l <- (if screenshot_enabled page && up then
          try_statements (fun l => l) (screenshot_block page env) initial_locals
        else ret initial_locals) ;;
  latest <- objects_create (new_check page env status up msg l) ;;
  ret (l, latest).

(** [Command._run_single_check(page, timeout)]: the row, then pruning
    and the two notification decisions. *)
Definition _run_single_check (page : MonitoredPage) (env : CheckEnv) : M unit :=
  r <- probe_and_persist page env ;;
  let '(l, latest) := r in
  when (Py.truthy (screenshot_rel l)) (cleanup_old_screenshots page) ;;;
  handle_post_check_notification page latest ;;;
  handle_change_notification page latest.

(** *** [_perform_single_check] of [pages/views.py]

    The executor behind registering a page and the dashboard.  It differs
    from [_run_single_check] in the message of a good response, in the
    [force_screenshot] flag, in reading the previous check after the
    capture, in its handler [crop_rel = ""], and in guarding the pruning
    and both notification decisions with a [try] of their own. *)

Definition probe_outcome (p : Probe) : option Z * bool * string :=
  match p with
  | Responded code =>
      let up := ((200 <=? code) && (code <? 400))%Z in
      (Some code, up, if up then "OK" else "Status " ++ Py.str code)
  | HTTPError code => (Some code, false, "HTTP " ++ Py.str code)
  | URLError reason => (None, false, "Error: " ++ reason)
  | OtherError text => (None, false, "Error: " ++ text)
  end.

Definition forget_crop (l : Locals) : Locals :=
  set_captured (screenshot_rel l) "" l.

Definition view_screenshot_block (page : MonitoredPage) (env : CheckEnv)
  : list (Locals -> M Locals) :=
  capture_step page env :: read_last_check page :: diff_and_reuse page env.

Definition perform_and_persist (page : MonitoredPage) (env : CheckEnv)
    (force_screenshot : bool) : M (Locals * MonitoredPageCheck) :=
  let '(status, up, msg) := probe_outcome (probe env) in
  l <- (if (screenshot_enabled page || force_screenshot) && up then
          try_statements forget_crop (view_screenshot_block page env) initial_locals
        else ret initial_locals) ;;
  latest <- objects_create (new_check page env status up msg l) ;;
  ret (l, latest).

Definition swallow (m : M unit) : M unit := try_except m (fun _ => ret tt).

Definition _perform_single_check (page : MonitoredPage) (env : CheckEnv)
    (force_screenshot : bool) : M unit :=
  r <- perform_and_persist page env force_screenshot ;;
  let '(l, latest) := r in
  when (Py.truthy (screenshot_rel l)) (swallow (cleanup_old_screenshots page)) ;;;
  swallow (handle_post_check_notification page latest) ;;;
  swallow (handle_change_notification page latest).

End Executor.

(* ===================================================================== *)
(** ** [pages/views.py]: serving an artifact *)
(* ===================================================================== *)

Inductive HttpResponse :=
| JsonResponse (status : Z) (error : string)
| HttpResponseRedirect (location : string)
| HttpResponseBody (body : blob) (content_type : string)
| FileResponse (body : blob) (content_type : string).

(** [MonitoredPage.objects.filter(pk=page_id, user=user).exists()] *)
Definition owns_page (user : User) (page_id : Z) : M bool :=
  ps <- gets pages ;;
  ret (existsb (fun p => (page_pk p =? page_id)%Z && (user_id p =? user_pk user)%Z) ps).

Definition content_type_of (rel : string) : string :=
  if Py.endswith (Py.lower rel) ".jpg" then "image/jpeg" else "image/png".

(** [int(safe.parts[0])]; [None] stands for the [IndexError] of a path
    without segments and for the [ValueError] of a segment that is no
    number. *)
Definition first_segment_id (safe : Py.Path) : option Z :=
  match head (Py.parts safe) with
  | Some first => Py.int first
  | None => None
  end.

(** [open(local_path, 'rb')] on the path [storage.local_path] handed out:
    the file itself on the local disk, which the filesystem may refuse to
    open, and the temporary file of the download on the buckets.  The
    [is_file()] the view makes before it repeats, on the same path, the
    one [local_path] has just made. *)
Definition open_local_path (rel : string) (body : blob) : M blob :=
  st <- gets screenshot_storage ;;
  match st with
  | LocalScreenshotStorage _ disk =>
      match disk disk_open rel with
      | Some e => raise e
      | None => ret body
      end
  | S3ScreenshotStorage _ _ | SeaweedFSScreenshotStorage _ _ => ret body
  end.

(** [serve_screenshot(request, path)]; [request_user] is [None] for a
    request without an authenticated user. *)
Definition serve_screenshot (request_user : option User) (path : string)
  : M HttpResponse :=
  match request_user with
  | None => ret (JsonResponse 401 "Not authenticated")
  | Some user =>
      let safe := Py.mkPath path in
      if str_in ".." (Py.parts safe) then raise Http404 else
      match first_segment_id safe with
      | None => raise Http404
      | Some page_id =>
          mine <- owns_page user page_id ;;
          if negb mine then ret (JsonResponse 403 "Forbidden") else
          let rel := Py.to_str safe in
          there <- storage_exists rel ;;
          if negb there then raise Http404 else
          let content_type := content_type_of rel in
          s <- gets settings ;;
          if USE_S3_STORAGE s then
            presigned_url <- storage_url rel ;;
            if negb (Py.truthy presigned_url) then raise Http404
            else ret (HttpResponseRedirect presigned_url)
          else if USE_SEAWEEDFS_STORAGE s then
            try_except
              (body <- storage_open rel ;; ret (HttpResponseBody body content_type))
              (fun _ => raise Http404)
          else
            local_path <- storage_local_path rel ;;
            match local_path with
            | None => raise Http404
            | Some body =>
                file <- open_local_path rel body ;;
                ret (FileResponse file content_type)
            end
      end
  end.


(* ===================================================================== *)
(** ** [run_checks.py]: which pages a round checks *)
(* ===================================================================== *)

(** [timedelta(minutes=n)], in microseconds; [None] stands for the
    [OverflowError] of a duration of more than 999999999 days. *)
Definition timedelta_minutes (n : Z) : option Z :=
  let us := (n * 60 * 1000000)%Z in
  let days := (us / 86400000000)%Z in
  if ((-999999999 <=? days) && (days <=? 999999999))%Z then Some us else None.

(** The decision [should_check] that the loop of [Command._run_checks]
    takes for one page, [now_] being the clock reading of the round.
    [None] stands for the [OverflowError] that [timedelta] raises. *)
Definition should_check (page : MonitoredPage) (now_ : Z) : M (option bool) :=
  rows <- gets checks ;;
  let last_check := head (order_by_checked_at_desc (page_checks page rows)) in
  match last_check with
  | None => ret (Some true)
  | Some last_check =>
      let time_since_last_check := (now_ - checked_at last_check)%Z in
      ret ((fun interval => (interval <=? time_since_last_check)%Z)
             <$> timedelta_minutes (check_interval page))
  end.

(* ===================================================================== *)
(** ** [migrate_screenshots_to_seaweedfs.py]: uploading the local files

    The local directory is given by its entries below [LOCAL_ROOT], in
    the order in which [sorted] puts their paths.  [main] prints its
    progress; here it returns the three counts of its last line, or
    [None] when it stops before the loop.  The settings are taken to name
    the endpoint and the bucket that [main] prints. *)
(* ===================================================================== *)

Record DirEntry := {
  entry_rel : string;          (* [abs_path.relative_to(LOCAL_ROOT).as_posix()] *)
  is_file : bool;
  read_bytes : option blob;    (* [None] when reading the file raises *)
}.

(** [Path.suffix] *)
Definition suffix (p : Py.Path) : string :=
  let n := Py.name p in
  String.substring (String.length (Py.stem p)) (String.length n) n.

(** [f.is_file() and f.suffix.lower() in (".jpg", ".jpeg", ".png")] *)
Definition is_image_file (f : DirEntry) : bool :=
  is_file f
  && str_in (Py.lower (suffix (Py.mkPath (entry_rel f)))) [".jpg"; ".jpeg"; ".png"].

Record Tally := { uploaded : nat; skipped : nat; failed : nat }.

(** One turn of the loop of [main]. *)
Definition migrate_file (f : DirEntry) (t : Tally) : M Tally :=
  let rel := entry_rel f in
  present <- storage_exists rel ;;
  if present then
    ret {| uploaded := uploaded t; skipped := S (skipped t); failed := failed t |}
  else
    try_except
      (data <- of_option FileNotFoundError (read_bytes f) ;;
       storage_save rel data ;;;
       ret {| uploaded := S (uploaded t); skipped := skipped t; failed := failed t |})
      (fun _ =>
       ret {| uploaded := uploaded t; skipped := skipped t; failed := S (failed t) |}).

Fixpoint migrate_files (l : list DirEntry) (t : Tally) : M Tally :=
  match l with
  | [] => ret t
  | f :: r => t' <- migrate_file f t ;; migrate_files r t'
  end.

(** [main()]; [local_root] is [None] when [LOCAL_ROOT] does not exist. *)
Definition main (local_root : option (list DirEntry)) : M (option Tally) :=
  match local_root with
  | None => ret None
  | Some files =>
      let image_files := List.filter is_image_file files in
      match image_files with
      | [] => ret None
      | _ =>
          t <- migrate_files image_files {| uploaded := 0; skipped := 0; failed := 0 |} ;;
          ret (Some t)
      end
  end.

(* ===================================================================== *)
(** ** [pages/views.py]: the JSON endpoints of one site

    The views are modelled below their decorators, for a request whose
    method the decorator lets through.  [request_user] is [None] for a
    request without an authenticated user; [site_id] is the integer the
    route [<int:site_id>] hands over. *)
(* ===================================================================== *)

Definition set_pages (p : list MonitoredPage) (w : World) : World :=
  {| settings := settings w; screenshot_storage := screenshot_storage w;
     users := users w; pages := p; checks := checks w; outbox := outbox w;
     log := log w |}.

(** A Python [float]: a finite double, given by the rational it denotes,
    or one of the three special values. *)
Inductive PyFloat := Finite (q : Q) | PosInf | NegInf | NaN.

(** The values [json.loads] builds.  [JObj] holds the items of a [dict],
    whose keys are distinct. *)
#[warnings="-register-all"] Inductive JSON :=
| JNull
| JBool (b : bool)
| JInt (n : Z)
| JFloat (f : PyFloat)
| JStr (s : string)
| JList (elements : list JSON)
| JObj (items : list (string * JSON)).

(** The exceptions that the handling of a request can raise: those of
    [exn], and the ones only met here.  [SaveError] is what the database
    raises for a row it does not take. *)
Inductive PyError :=
| Exn (e : exn)
| JSONDecodeError
| UnicodeDecodeError
| RecursionError
| KeyError
| AttributeError
| TypeError
| OverflowError
| SaveError.

(** [except ValueError] catches its subclasses as well. *)
Definition is_ValueError (e : PyError) : bool :=
  match e with
  | Exn ValueError | JSONDecodeError | UnicodeDecodeError => true
  | _ => false
  end.

Definition is_TypeError (e : PyError) : bool :=
  match e with TypeError => true | _ => false end.

(** What [json.loads(request.body.decode('utf-8'))] gives for the body of
    a request: the parsed value, or the exception of the decoding or of
    the parser. *)
Inductive Body :=
| Loaded (data : JSON)
| LoadRaises (e : PyError).

(** [JsonResponse(data, status=status)] *)
Record JsonReply := { reply_data : JSON; reply_status : Z }.

Definition json_response (data : JSON) (status : Z) : JsonReply :=
  {| reply_data := data; reply_status := status |}.

Definition error_response (error : string) (status : Z) : JsonReply :=
  json_response (JObj [("error", JStr error)]) status.

(** How a view ends: with a response, or with an exception it lets
    escape. *)
Inductive ViewResult :=
| Responds (r : JsonReply)
| Uncaught (e : PyError).

(** Sequencing of steps that can end the view early. *)
Definition and_then {E A B} (m : E + A) (k : A -> E + B) : E + B :=
  match m with
  | inl e => inl e
  | inr a => k a
  end.

(** *** Python's operations on the parsed values *)

Fixpoint dict_get (key : string) (items : list (string * JSON)) : option JSON :=
  match items with
  | [] => None
  | (k, v) :: r => if String.eqb k key then Some v else dict_get key r
  end.

(** [sub in s] on strings *)
Fixpoint is_substring (sub s : string) : bool :=
  String.prefix sub s
  || match s with
     | EmptyString => false
     | String _ r => is_substring sub r
     end.

(** [key in data] for a [str] key: a key of a [dict], an element of a
    [list], a substring of a [str]; the other values are not iterable. *)
Definition contains (key : string) (data : JSON) : PyError + bool :=
  match data with
  | JObj items => inr (bool_decide (is_Some (dict_get key items)))
  | JList elements =>
      inr (existsb (fun v => match v with
                             | JStr s => String.eqb s key
                             | _ => false
                             end) elements)
  | JStr s => inr (is_substring key s)
  | JNull | JBool _ | JInt _ | JFloat _ => inl TypeError
  end.

(** [data[key]] for a [str] key *)
Definition getitem (key : string) (data : JSON) : PyError + JSON :=
  match data with
  | JObj items =>
      match dict_get key items with
      | Some v => inr v
      | None => inl KeyError
      end
  | _ => inl TypeError
  end.

(** [data.get(key, default)] *)
Definition get_default (key : string) (default : JSON) (data : JSON)
  : PyError + JSON :=
  match data with
  | JObj items =>
      inr (match dict_get key items with
           | Some v => v
           | None => default
           end)
  | _ => inl AttributeError
  end.

(** [bool(v)] *)
Definition py_bool (v : JSON) : bool :=
  match v with
  | JNull => false
  | JBool b => b
  | JInt n => negb (n =? 0)%Z
  | JFloat (Finite q) => negb (Qeq_bool q 0)
  | JFloat _ => true
  | JStr s => Py.truthy s
  | JList [] => false
  | JList _ => true
  | JObj [] => false
  | JObj _ => true
  end.

(** The digits of a literal; [int] refuses more than 4300 of them. *)
Definition count_digits (s : string) : nat :=
  length (List.filter (fun c => bool_decide (is_Some (Py.digit_of c))) (Py.chars s)).

Definition int_max_str_digits : nat := 4300.

(** [int(v)] *)
Definition py_int (v : JSON) : PyError + Z :=
  match v with
  | JInt n => inr n
  | JBool b => inr (if b then 1 else 0)%Z
  | JFloat (Finite q) => inr (trunc q)
  | JFloat NaN => inl (Exn ValueError)
  | JFloat _ => inl OverflowError
  | JStr s =>
      if (int_max_str_digits <? count_digits s)%nat then inl (Exn ValueError)
      else match Py.int s with
           | Some n => inr n
           | None => inl (Exn ValueError)
           end
  | JNull | JList _ | JObj _ => inl TypeError
  end.

(** [float(n)] for an [int]: the nearest double, ties to the even
    mantissa; an integer that rounds to [2^1024] is an [OverflowError]. *)
Definition float_of_int (n : Z) : PyError + PyFloat :=
  let a := Z.abs n in
  if (2 ^ 1024 - 2 ^ 970 <=? a)%Z then inl OverflowError else
  let e := (Z.log2 a - 52)%Z in
  if (e <=? 0)%Z then inr (Finite (inject_Z n)) else
  let q := (a / 2 ^ e)%Z in
  let r := (a mod 2 ^ e)%Z in
  let half := (2 ^ (e - 1))%Z in
  let q' := if (half <? r)%Z || ((r =? half)%Z && Z.odd q) then (q + 1)%Z else q in
  inr (Finite (inject_Z (Z.sgn n * q' * 2 ^ e))).

(** What the text of a request meets outside this code: [str.strip],
    whose whitespace is Unicode's; [float] on a [str] ([None] for its
    [ValueError]); and the database column of the URL, which PostgreSQL
    limits to 2048 characters without NUL and SQLite does not limit. *)
Class Text := {
  strip : string -> string;
  float_of_str : string -> option PyFloat;
  url_fits : string -> bool;
}.

Section Endpoints.
Context `{Text}.

(** [float(v)] *)
Definition py_float (v : JSON) : PyError + PyFloat :=
  match v with
  | JFloat f => inr f
  | JInt n => float_of_int n
  | JBool b => inr (Finite (if b then 1 else 0))
  | JStr s =>
      match float_of_str s with
      | Some f => inr f
      | None => inl (Exn ValueError)
      end
  | JNull | JList _ | JObj _ => inl TypeError
  end.

(** [v.strip()] *)
Definition py_strip (v : JSON) : PyError + string :=
  match v with
  | JStr s => inr (strip s)
  | _ => inl AttributeError
  end.

(** [0 <= val <= 1] *)
Definition in_unit_interval (val : PyFloat) : bool :=
  match val with
  | Finite q => Qle_bool 0 q && Qle_bool q 1
  | _ => false
  end.

(** [MonitoredPage.objects.get(pk=site_id, user=user)]; [None] stands for
    [MonitoredPage.DoesNotExist]. *)
Definition get_page (user : User) (site_id : Z) : M (option MonitoredPage) :=
  ps <- gets pages ;;
  ret (List.find (fun p => (page_pk p =? site_id)%Z && (user_id p =? user_pk user)%Z) ps).

(** *** [monitor_site_delete] *)

(** One turn of the loop over [page.checks.all()]. *)
Definition delete_artifacts (check : MonitoredPageCheck) : M unit :=
  delete_screenshot_file (screenshot_path check) ;;;
  delete_screenshot_file (crop_path check) ;;;
  delete_screenshot_file (diff_path check) ;;;
  (if Py.truthy (screenshot_path check) then
     thumb <- of_option ValueError (_thumb_rel (screenshot_path check)) ;;
     delete_screenshot_file thumb
   else ret tt).

(** [page.delete()]: the rows of the page's checks go with it
    ([on_delete=CASCADE]). *)
Definition page_delete (page : MonitoredPage) : M unit :=
  modify (fun w => set_checks
            (List.filter (fun c => negb (page_id c =? page_pk page)%Z) (checks w)) w) ;;;
  modify (fun w => set_pages
            (List.filter (fun p => negb (page_pk p =? page_pk page)%Z) (pages w)) w).

(** [monitor_site_delete(request, site_id)] *)
Definition monitor_site_delete (request_user : option User) (site_id : Z)
  : M JsonReply :=
  match request_user with
  | None => ret (error_response "Not authenticated" 401)
  | Some user =>
      found <- get_page user site_id ;;
      match found with
      | None => ret (error_response "Site not found" 404)
      | Some page =>
          rows <- gets checks ;;
          for_each (order_by_checked_at_desc (page_checks page rows)) delete_artifacts ;;;
          page_delete page ;;;
          ret (json_response (JObj [("deleted", JBool true)]) 200)
      end
  end.

(** *** [monitor_site_pin] *)

Definition set_is_pinned (b : bool) (p : MonitoredPage) : MonitoredPage :=
  {| page_pk := page_pk p; user_id := user_id p; url := url p;
     check_interval := check_interval p;
     notifications_enabled := notifications_enabled p;
     alert_threshold := alert_threshold p;
     screenshot_enabled := screenshot_enabled p;
     change_notifications_enabled := change_notifications_enabled p;
     region_left_pct := region_left_pct p; region_top_pct := region_top_pct p;
     region_width_pct := region_width_pct p;
     region_height_pct := region_height_pct p; is_pinned := b |}.

(** [page.save(update_fields=['is_pinned'])] *)
Definition save_is_pinned (page : MonitoredPage) : M unit :=
  modify (fun w => set_pages
            (map (fun p => if (page_pk p =? page_pk page)%Z
                           then set_is_pinned (is_pinned page) p else p) (pages w)) w).

(** The [try] block of [monitor_site_pin] with its handler. *)
Definition requested_pin (body : Body) (page : MonitoredPage) : PyError + bool :=
  let attempt :=
    match body with
    | Loaded data =>
        and_then (get_default "is_pinned" (JBool (negb (is_pinned page))) data)
                 (fun v => inr (py_bool v))
    | LoadRaises e => inl e
    end in
  match attempt with
  | inl JSONDecodeError | inl KeyError => inr (negb (is_pinned page))
  | r => r
  end.

(** [monitor_site_pin(request, site_id)] *)
Definition monitor_site_pin (request_user : option User) (body : Body) (site_id : Z)
  : M ViewResult :=
  match request_user with
  | None => ret (Responds (error_response "Not authenticated" 401))
  | Some user =>
      found <- get_page user site_id ;;
      match found with
      | None => ret (Responds (error_response "Site not found" 404))
      | Some page =>
          match requested_pin body page with
          | inl e => ret (Uncaught e)
          | inr pinned =>
              let page := set_is_pinned pinned page in
              save_is_pinned page ;;;
              ret (Responds (json_response
                               (JObj [("id", JInt (page_pk page));
                                      ("is_pinned", JBool (is_pinned page))]) 200))
          end
      end
  end.

(** *** [monitor_site_settings] *)

Definition set_url (v : string) (p : MonitoredPage) : MonitoredPage :=
  {| page_pk := page_pk p; user_id := user_id p; url := v;
     check_interval := check_interval p;
     notifications_enabled := notifications_enabled p;
     alert_threshold := alert_threshold p;
     screenshot_enabled := screenshot_enabled p;
     change_notifications_enabled := change_notifications_enabled p;
     region_left_pct := region_left_pct p; region_top_pct := region_top_pct p;
     region_width_pct := region_width_pct p;
     region_height_pct := region_height_pct p; is_pinned := is_pinned p |}.

Definition set_check_interval (v : Z) (p : MonitoredPage) : MonitoredPage :=
  {| page_pk := page_pk p; user_id := user_id p; url := url p;
     check_interval := v;
     notifications_enabled := notifications_enabled p;
     alert_threshold := alert_threshold p;
     screenshot_enabled := screenshot_enabled p;
     change_notifications_enabled := change_notifications_enabled p;
     region_left_pct := region_left_pct p; region_top_pct := region_top_pct p;
     region_width_pct := region_width_pct p;
     region_height_pct := region_height_pct p; is_pinned := is_pinned p |}.

Definition set_notifications_enabled (v : bool) (p : MonitoredPage) : MonitoredPage :=
  {| page_pk := page_pk p; user_id := user_id p; url := url p;
     check_interval := check_interval p;
     notifications_enabled := v;
     alert_threshold := alert_threshold p;
     screenshot_enabled := screenshot_enabled p;
     change_notifications_enabled := change_notifications_enabled p;
     region_left_pct := region_left_pct p; region_top_pct := region_top_pct p;
     region_width_pct := region_width_pct p;
     region_height_pct := region_height_pct p; is_pinned := is_pinned p |}.

Definition set_alert_threshold (v : Z) (p : MonitoredPage) : MonitoredPage :=
  {| page_pk := page_pk p; user_id := user_id p; url := url p;
     check_interval := check_interval p;
     notifications_enabled := notifications_enabled p;
     alert_threshold := v;
     screenshot_enabled := screenshot_enabled p;
     change_notifications_enabled := change_notifications_enabled p;
     region_left_pct := region_left_pct p; region_top_pct := region_top_pct p;
     region_width_pct := region_width_pct p;
     region_height_pct := region_height_pct p; is_pinned := is_pinned p |}.

Definition set_screenshot_enabled (v : bool) (p : MonitoredPage) : MonitoredPage :=
  {| page_pk := page_pk p; user_id := user_id p; url := url p;
     check_interval := check_interval p;
     notifications_enabled := notifications_enabled p;
     alert_threshold := alert_threshold p;
     screenshot_enabled := v;
     change_notifications_enabled := change_notifications_enabled p;
     region_left_pct := region_left_pct p; region_top_pct := region_top_pct p;
     region_width_pct := region_width_pct p;
     region_height_pct := region_height_pct p; is_pinned := is_pinned p |}.

Definition set_change_notifications_enabled (v : bool) (p : MonitoredPage)
  : MonitoredPage :=
  {| page_pk := page_pk p; user_id := user_id p; url := url p;
     check_interval := check_interval p;
     notifications_enabled := notifications_enabled p;
     alert_threshold := alert_threshold p;
     screenshot_enabled := screenshot_enabled p;
     change_notifications_enabled := v;
     region_left_pct := region_left_pct p; region_top_pct := region_top_pct p;
     region_width_pct := region_width_pct p;
     region_height_pct := region_height_pct p; is_pinned := is_pinned p |}.

(** The four region attributes [setattr] can name. *)
Inductive RegionAttr :=
| region_left_pct_attr | region_top_pct_attr
| region_width_pct_attr | region_height_pct_attr.

(** [setattr(page, model_attr, val)]; the float is kept as the rational it
    denotes. *)
Definition setattr (model_attr : RegionAttr) (v : Q) (p : MonitoredPage)
  : MonitoredPage :=
  {| page_pk := page_pk p; user_id := user_id p; url := url p;
     check_interval := check_interval p;
     notifications_enabled := notifications_enabled p;
     alert_threshold := alert_threshold p;
     screenshot_enabled := screenshot_enabled p;
     change_notifications_enabled := change_notifications_enabled p;
     region_left_pct :=
       match model_attr with region_left_pct_attr => v | _ => region_left_pct p end;
     region_top_pct :=
       match model_attr with region_top_pct_attr => v | _ => region_top_pct p end;
     region_width_pct :=
       match model_attr with region_width_pct_attr => v | _ => region_width_pct p end;
     region_height_pct :=
       match model_attr with region_height_pct_attr => v | _ => region_height_pct p end;
     is_pinned := is_pinned p |}.

(** A step of the view on the page object it holds: the page with the
    field assigned, or the end of the view. *)
Definition Step : Type := MonitoredPage -> ViewResult + MonitoredPage.

(** [if key in data: <assign>], for an assignment outside any [try]. *)
Definition if_in (key : string) (data : JSON)
    (assign : JSON -> MonitoredPage -> PyError + MonitoredPage) : Step :=
  fun page =>
    match contains key data with
    | inl e => inl (Uncaught e)
    | inr false => inr page
    | inr true =>
        match and_then (getitem key data) (fun v => assign v page) with
        | inl e => inl (Uncaught e)
        | inr page => inr page
        end
    end.

(** The update of the URL. *)
Definition update_url (data : JSON) : Step :=
  if_in "url" data (fun v page =>
    and_then (py_strip v) (fun url =>
      inr (if Py.truthy url then set_url url page else page))).

(** The update of an integer setting that must lie between [lo] and [hi]. *)
Definition update_int (key : string) (lo hi : Z) (out_of_range invalid : string)
    (assign : Z -> MonitoredPage -> MonitoredPage) (data : JSON) : Step :=
  fun page =>
    match contains key data with
    | inl e => inl (Uncaught e)
    | inr false => inr page
    | inr true =>
        match and_then (getitem key data) py_int with
        | inr n =>
            if (lo <=? n)%Z && (n <=? hi)%Z then inr (assign n page)
            else inl (Responds (error_response out_of_range 400))
        | inl e =>
            if is_ValueError e || is_TypeError e
            then inl (Responds (error_response invalid 400))
            else inl (Uncaught e)
        end
    end.

(** The update of a flag. *)
Definition update_bool (key : string)
    (assign : bool -> MonitoredPage -> MonitoredPage) (data : JSON) : Step :=
  if_in key data (fun v page => inr (assign (py_bool v) page)).

(** One turn of the loop over [region_fields]. *)
Definition update_region (frontend_key : string) (model_attr : RegionAttr)
    (data : JSON) : Step :=
  fun page =>
    match contains frontend_key data with
    | inl e => inl (Uncaught e)
    | inr false => inr page
    | inr true =>
        match and_then (getitem frontend_key data) py_float with
        | inr val =>
            if in_unit_interval val then
              match val with
              | Finite q => inr (setattr model_attr q page)
              | _ => inr page
              end
            else inl (Responds (error_response
                                  (frontend_key ++ " must be between 0 and 1") 400))
        | inl e =>
            if is_ValueError e || is_TypeError e
            then inl (Responds (error_response
                                  ("Invalid " ++ frontend_key ++ " value") 400))
            else inl (Uncaught e)
        end
    end.

Definition region_fields : list (string * RegionAttr) :=
  [("regionLeftPct", region_left_pct_attr);
   ("regionTopPct", region_top_pct_attr);
   ("regionWidthPct", region_width_pct_attr);
   ("regionHeightPct", region_height_pct_attr)].

(** The steps in the order of the source. *)
Definition settings_steps (data : JSON) : list Step :=
  [update_url data;
   update_int "checkInterval" 1 60
     "Check interval must be between 1 and 60 minutes"
     "Invalid check interval value" set_check_interval data;
   update_bool "notificationsEnabled" set_notifications_enabled data;
   update_int "alertThreshold" 1 10
     "Alert threshold must be between 1 and 10"
     "Invalid alert threshold value" set_alert_threshold data;
   update_bool "screenshotEnabled" set_screenshot_enabled data;
   update_bool "changeNotificationsEnabled" set_change_notifications_enabled data]
  ++ map (fun '(frontend_key, model_attr) => update_region frontend_key model_attr data)
       region_fields.

Fixpoint run_steps (steps : list Step) (page : MonitoredPage)
  : ViewResult + MonitoredPage :=
  match steps with
  | [] => inr page
  | step :: rest => and_then (step page) (run_steps rest)
  end.

(** [page.save()]; [None] stands for the error of a database that does
    not take the URL. *)
Definition page_save (page : MonitoredPage) : M (option unit) :=
  if negb (url_fits (url page)) then ret None else
  modify (fun w => set_pages
            (map (fun p => if (page_pk p =? page_pk page)%Z then page else p)
                 (pages w)) w) ;;;
  ret (Some tt).

(** The ['site'] entry of the response.  The model of a page has no
    [created_at]; that entry is left out. *)
Definition site_dict (page : MonitoredPage) : JSON :=
  JObj [("id", JStr (Py.str (page_pk page)));
        ("url", JStr (url page));
        ("check_interval", JInt (check_interval page));
        ("notifications_enabled", JBool (notifications_enabled page));
        ("alert_threshold", JInt (alert_threshold page));
        ("screenshot_enabled", JBool (screenshot_enabled page));
        ("change_notifications_enabled", JBool (change_notifications_enabled page));
        ("region_left_pct", JFloat (Finite (region_left_pct page)));
        ("region_top_pct", JFloat (Finite (region_top_pct page)));
        ("region_width_pct", JFloat (Finite (region_width_pct page)));
        ("region_height_pct", JFloat (Finite (region_height_pct page)))].

(** [monitor_site_settings(request, site_id)] *)
Definition monitor_site_settings (request_user : option User) (body : Body)
    (site_id : Z) : M ViewResult :=
  match request_user with
  | None => ret (Responds (error_response "Not authenticated" 401))
  | Some user =>
      found <- get_page user site_id ;;
      match found with
      | None => ret (Responds (error_response "Site not found" 404))
      | Some page =>
          match body with
          | LoadRaises JSONDecodeError =>
              ret (Responds (error_response "Invalid JSON format" 400))
          | LoadRaises e => ret (Uncaught e)
          | Loaded data =>
              match run_steps (settings_steps data) page with
              | inl ended => ret ended
              | inr page =>
                  saved <- page_save page ;;
                  match saved with
                  | None => ret (Uncaught SaveError)
                  | Some _ =>
                      ret (Responds (json_response
                                       (JObj [("success", JBool true);
                                              ("site", site_dict page)]) 200))
                  end
              end
          end
      end
  end.

End Endpoints.

(* ===================================================================== *)
(** ** Observations on a run *)
(* ===================================================================== *)

(** The outcome of running [m] from [w], and the world it leaves. *)
Definition result {A} (m : M A) (w : World) : outcome A := fst (m w).
Definition final {A} (m : M A) (w : World) : World := snd (m w).

(** What the store holds under a relative path. *)
Definition stored (st : Storage) (rel : string) : option blob :=
  match st with
  | LocalScreenshotStorage files _ => files !! rel
  | S3ScreenshotStorage prefix c | SeaweedFSScreenshotStorage prefix c =>
      objects c !! _key prefix rel
  end.

(** Whether the backend answers the existence probe positively. *)
Definition head_ok (st : Storage) (rel : string) : bool :=
  match st with
  | LocalScreenshotStorage files disk =>
      match disk disk_exists rel with
      | Some _ => false
      | None => bool_decide (is_Some (files !! rel))
      end
  | S3ScreenshotStorage prefix c | SeaweedFSScreenshotStorage prefix c =>
      match client_head_object c (_key prefix rel) with
      | Ok _ => true
      | Raise _ => false
      end
  end.

(** A backend none of whose operations fails. *)
Definition healthy (st : Storage) : Prop :=
  match st with
  | LocalScreenshotStorage _ disk => forall op rel, disk op rel = None
  | S3ScreenshotStorage _ c | SeaweedFSScreenshotStorage _ c =>
      forall op key, fault c op key = None
  end.

(** The codes [S3ScreenshotStorage.exists] reads as "not found". *)
Definition s3_not_found (e : exn) : bool :=
  match e with
  | ClientError code => str_in code ["404"; "NoSuchKey"]
  | _ => false
  end.

(** The codes [SeaweedFSScreenshotStorage.exists] answers silently. *)
Definition seaweed_silent (e : exn) : bool :=
  match e with
  | ClientError code => str_in code ["404"; "NoSuchKey"; "403"; "Forbidden"]
  | _ => false
  end.

(** The messages a run hands to the mail functions. *)
Definition sent_by {A} (m : M A) (w : World) : list Email :=
  drop (length (outbox w)) (outbox (final m w)).

Definition is_down_alert (e : Email) : bool :=
  match kind e with DownAlertMail _ _ => true | _ => false end.

Definition is_recovery (e : Email) : bool :=
  match kind e with RecoveredMail => true | _ => false end.

(** The rows of a page, newest first. *)
Definition history (page : MonitoredPage) (w : World) : list MonitoredPageCheck :=
  order_by_checked_at_desc (page_checks page (checks w)).

(** Timestamps never increase along a list. *)
Definition newest_first : list MonitoredPageCheck -> Prop :=
  StronglySorted (fun a b => (checked_at b <= checked_at a)%Z).

(** The row an executor hands to the insert when it took no screenshot. *)
Definition plain_row (page : MonitoredPage) (env : CheckEnv) : MonitoredPageCheck :=
  let '(status, up, msg) := check_url (probe env) in
  new_check page env status up msg initial_locals.

(** Responses that carry an artifact or point to one. *)
Definition serves_content (r : HttpResponse) : bool :=
  match r with
  | JsonResponse _ _ => false
  | _ => true
  end.

Arguments storage_exists : simpl never.
Arguments storage_save : simpl never.
Arguments storage_open : simpl never.
Arguments storage_delete : simpl never.
Arguments storage_url : simpl never.
Arguments storage_local_path : simpl never.
Arguments logger : simpl never.
Arguments try_statements : simpl never.
Arguments diff_wanted : simpl never.
Arguments score_is_zero : simpl never.
Arguments diff_step : simpl never.
Arguments delete_new_screenshot : simpl never.
Arguments delete_new_crop : simpl never.
Arguments reuse_previous : simpl never.
Arguments capture_step : simpl never.
Arguments read_last_check : simpl never.
Arguments delete_screenshot_file : simpl never.
Arguments image_score : simpl never.
Arguments score_of_distance : simpl never.
Arguments _unique_filename : simpl never.
Arguments sibling_name : simpl never.

(** What [storage.exists] answers on a backend, and what
    [storage.local_path] fetches from it. *)
Definition exists_answer (st : Storage) (rel : string) : outcome bool :=
  match st with
  | LocalScreenshotStorage files disk =>
      match disk disk_exists rel with
      | Some e => Raise e
      | None => Ok (bool_decide (is_Some (files !! rel)))
      end
  | SeaweedFSScreenshotStorage _ _ => Ok (head_ok st rel)
  | S3ScreenshotStorage prefix c =>
      match client_head_object c (_key prefix rel) with
      | Ok _ => Ok true
      | Raise e => if s3_not_found e then Ok false else Raise e
      end
  end.

Definition local_path_answer (st : Storage) (rel : string) : outcome (option blob) :=
  match st with
  | LocalScreenshotStorage files disk =>
      match disk disk_local_path rel with
      | Some e => Raise e
      | None => Ok (files !! rel)
      end
  | S3ScreenshotStorage prefix c | SeaweedFSScreenshotStorage prefix c =>
      match client_download_fileobj c (_key prefix rel) with
      | Ok b => Ok (Some b)
      | Raise _ => Ok None
      end
  end.

Definition fetch (st : Storage) (rel : string) : option blob :=
  match local_path_answer st rel with
  | Ok o => o
  | Raise _ => None
  end.

(** The exception raised by the calls [compute_diff] makes outside its
    [try] block, in their order: the existence probe of the previous
    image, that of the current one when the first answered [True], and,
    when both did and the imaging libraries are there, the two fetches. *)
Definition unguarded_error (env : DiffEnv) (st : Storage) (prev curr : string)
  : option exn :=
  match exists_answer st prev with
  | Raise e => Some e
  | Ok false => None
  | Ok true =>
      match exists_answer st curr with
      | Raise e => Some e
      | Ok false => None
      | Ok true =>
          if imagehash_installed env then
            match local_path_answer st prev, local_path_answer st curr with
            | Raise e, _ => Some e
            | Ok _, Raise e => Some e
            | Ok _, Ok _ => None
            end
          else None
      end
  end.

(** Two states of one backend: the same class and prefix, and a service
    that fails in the same way; only the stored objects may differ. *)
Inductive same_service : Storage -> Storage -> Prop :=
| same_local files files' disk :
    same_service (LocalScreenshotStorage files disk) (LocalScreenshotStorage files' disk)
| same_s3 prefix c c' :
    fault c' = fault c -> presigned c' = presigned c ->
    same_service (S3ScreenshotStorage prefix c) (S3ScreenshotStorage prefix c')
| same_seaweed prefix c c' :
    fault c' = fault c -> presigned c' = presigned c ->
    same_service (SeaweedFSScreenshotStorage prefix c)
                 (SeaweedFSScreenshotStorage prefix c').

(** What an operation on the store leaves alone: the service, the tables,
    the settings and the outbox. *)
Definition frame (w w' : World) : Prop :=
  same_service (screenshot_storage w) (screenshot_storage w')
  /\ checks w' = checks w /\ outbox w' = outbox w
  /\ pages w' = pages w /\ users w' = users w /\ settings w' = settings w.

(** [m] relates the world it starts from to the one it leaves by [R],
    however it ends. *)
Definition preserves {A} (R : World -> World -> Prop) (m : M A) : Prop :=
  forall w o w', m w = (o, w') -> R w w'.

(** Whether the backend carries out a delete of this path. *)
Definition delete_answers (st : Storage) (rel : string) : Prop :=
  match st with
  | LocalScreenshotStorage _ disk => disk disk_delete rel = None
  | S3ScreenshotStorage prefix c | SeaweedFSScreenshotStorage prefix c =>
      fault c delete_object (_key prefix rel) = None
  end.

(** The rows [cleanup_old_screenshots] reads: the page's checks that name
    a screenshot, newest first; and the limit it applies. *)
Definition artifact_checks (page : MonitoredPage) (w : World)
  : list MonitoredPageCheck :=
  order_by_checked_at_desc
    (List.filter (fun c => Py.truthy (screenshot_path c)) (page_checks page (checks w))).

Definition retention_limit (w : World) : Z :=
  match MAX_SCREENSHOTS_PER_PAGE (settings w) with
  | Some n => n
  | None => MAX_SCREENSHOTS_PER_PAGE_DEFAULT
  end.

(** The paths the loop deletes for one check. *)
Definition artifact_paths (c : MonitoredPageCheck) : list string :=
  [screenshot_path c; crop_path c; diff_path c]
  ++ match _thumb_rel (screenshot_path c) with
     | Some t => if Py.truthy (screenshot_path c) then [t] else []
     | None => []
     end.

Arguments prune_check : simpl never.
Arguments for_each : simpl never.

(** The table after the rows with the given keys had their paths cleared. *)
Definition clear_keys (keys : list Z) (rows : list MonitoredPageCheck)
  : list MonitoredPageCheck :=
  map (fun c => if existsb (Z.eqb (pk c)) keys then clear_paths c else c) rows.

(** A path component: not empty, and free of slashes and dots. *)
Definition component (s : string) : Prop :=
  s <> "" /\ ~ In "/"%char (Py.chars s) /\ ~ In "."%char (Py.chars s).

(* ===================================================================== *)
(** ** Further observations on the store *)
(* ===================================================================== *)

(** The key a relative path designates on a backend: the path itself on
    the local disk, the prefixed and normalised key on the two buckets. *)
Definition object_key (st : Storage) (rel : string) : string :=
  match st with
  | LocalScreenshotStorage _ _ => rel
  | S3ScreenshotStorage prefix _ | SeaweedFSScreenshotStorage prefix _ =>
      _key prefix rel
  end.

(** The method of the local backend that stands where the bucket
    backends issue a call of the client; [url] touches no file. *)
Definition disk_op (op : BotoOp) : option DiskOp :=
  match op with
  | head_object => Some disk_exists
  | put_object => Some disk_save
  | get_object => Some disk_open
  | delete_object => Some disk_delete
  | download_fileobj => Some disk_local_path
  | generate_presigned_url => None
  end.

(** Whether the backend carries out an operation on a path. *)
Definition answers (st : Storage) (op : BotoOp) (rel : string) : Prop :=
  match st with
  | LocalScreenshotStorage _ disk =>
      match disk_op op with
      | Some o => disk o rel = None
      | None => True
      end
  | S3ScreenshotStorage prefix c | SeaweedFSScreenshotStorage prefix c =>
      fault c op (_key prefix rel) = None
  end.

(** Whether the bucket refuses an operation on a path with [e].  The
    local backend has no bucket; what its filesystem refuses is read off
    [disk]. *)
Definition refuses (st : Storage) (op : BotoOp) (rel : string) (e : exn) : Prop :=
  match st with
  | LocalScreenshotStorage _ _ => False
  | S3ScreenshotStorage prefix c | SeaweedFSScreenshotStorage prefix c =>
      fault c op (_key prefix rel) = Some e
  end.

(** The records a run appended to the log. *)
Definition logged_by {A} (m : M A) (w : World) : list LogRecord :=
  drop (length (log w)) (log (final m w)).

(** The store is the one [_make_storage] builds from the settings. *)
Definition configured (w : World) : Prop :=
  backend_class (screenshot_storage w) = _make_storage (settings w).

(** A lowercase hexadecimal digit. *)
Definition is_hex_digit (c : ascii) : bool :=
  let n := nat_of_ascii c in
  ((48 <=? n)%nat && (n <=? 57)%nat) || ((97 <=? n)%nat && (n <=? 102)%nat).

(** A run that leaves the service and the tables alone, and with them
    every stored object whose key is not the key of one of the paths
    [ps]. *)
Definition writes_within (ps : list string) (w w' : World) : Prop :=
  frame w w'
  /\ forall r,
       (forall p, In p ps ->
          object_key (screenshot_storage w) r <> object_key (screenshot_storage w) p) ->
       stored (screenshot_storage w') r = stored (screenshot_storage w) r.

(** A path that [_key] leaves as it is: no backslash, no leading slash. *)
Definition plain_path (s : string) : Prop :=
  Py.starts_with_slash s = false /\ ~ In "\"%char (Py.chars s).

(** A decimal digit. *)
Definition digit_char (c : ascii) : Prop := exists d, Py.digit_of c = Some d.

(** The image files of a directory, and their number in a tally. *)
Definition image_files (local_root : option (list DirEntry)) : list DirEntry :=
  match local_root with
  | Some files => List.filter is_image_file files
  | None => []
  end.

Definition counted (t : Tally) : nat := (uploaded t + skipped t + failed t)%nat.

(** Whether the store lacks the object of an entry, and whether the
    entry can be read. *)
Definition absent_from (w : World) (f : DirEntry) : bool :=
  match stored (screenshot_storage w) (entry_rel f) with
  | None => true
  | Some _ => false
  end.

Definition readable (f : DirEntry) : bool :=
  match read_bytes f with
  | Some _ => true
  | None => false
  end.

(** The counts to expect of a migration into a store that answers. *)
Definition expected_tally (w : World) (l : list DirEntry) : Tally :=
  {| uploaded := length (List.filter (fun f => absent_from w f && readable f) l);
     skipped := length (List.filter (fun f => negb (absent_from w f)) l);
     failed := length (List.filter (fun f => absent_from w f && negb (readable f)) l) |}.

Definition add_tally (a b : Tally) : Tally :=
  {| uploaded := uploaded a + uploaded b; skipped := skipped a + skipped b;
     failed := failed a + failed b |}.

(** *** Observations on the endpoints *)

(** The rows of the page table that carry the key [site_id] get the pin
    [b]; nothing else differs. *)
Definition pinned_at (site_id : Z) (b : bool) (ps : list MonitoredPage)
  : list MonitoredPage :=
  map (fun p => if (page_pk p =? site_id)%Z then set_is_pinned b p else p) ps.

(** The rows of the page table that carry the key [site_id] are replaced
    by [page]; nothing else differs. *)
Definition replaced_at (site_id : Z) (page : MonitoredPage) (ps : list MonitoredPage)
  : list MonitoredPage :=
  map (fun p => if (page_pk p =? site_id)%Z then page else p) ps.

(** The ranges the settings endpoint enforces. *)
Definition regions : list (MonitoredPage -> Q) :=
  [region_left_pct; region_top_pct; region_width_pct; region_height_pct].

Definition settings_in_range (p : MonitoredPage) : Prop :=
  (1 <= check_interval p <= 60)%Z /\ (1 <= alert_threshold p <= 10)%Z
  /\ Forall (fun region => (0 <= region p)%Q /\ (region p <= 1)%Q) regions.

(** What an update may do to a page: it keeps the key, the owner and the
    pin, and every ranged setting is as it was or within its range. *)
Definition updated (old new : MonitoredPage) : Prop :=
  page_pk new = page_pk old /\ user_id new = user_id old
  /\ is_pinned new = is_pinned old
  /\ (check_interval new = check_interval old \/ (1 <= check_interval new <= 60)%Z)
  /\ (alert_threshold new = alert_threshold old \/ (1 <= alert_threshold new <= 10)%Z)
  /\ Forall (fun region => region new = region old
                           \/ ((0 <= region new)%Q /\ (region new <= 1)%Q)) regions.

(** A step leaves an attribute of the page alone. *)
Definition keeps {A} (get : MonitoredPage -> A) (s : Step) : Prop :=
  forall page page', s page = inr page' -> get page' = get page.

(** A step ends the view only with a 400 or an exception, and otherwise
    updates the page. *)
Definition good_step (s : Step) : Prop :=
  forall page,
    match s page with
    | inl (Responds r) => reply_status r = 400%Z
    | inl (Uncaught _) => True
    | inr page' => updated page page'
    end.

(** A stand-in for the text functions in the examples: nothing is
    stripped, no string is a number, every URL fits. *)
Definition plain_text : Text :=
  {| strip := fun s => s; float_of_str := fun _ => None; url_fits := fun _ => true |}.

(* ===================================================================== *)
(** ** Concrete worlds for the examples *)
(* ===================================================================== *)

Definition no_fault : BotoOp -> string -> option exn := fun _ _ => None.

(** A filesystem that carries out every call. *)
Definition sound_disk : DiskOp -> string -> option exn := fun _ _ => None.

(** A filesystem that refuses a path of more than 255 characters, as
    Linux refuses a name of more than 255 bytes, and a path beyond. *)
Definition ENAMETOOLONG : Z := 36.

Definition name_limit_disk : DiskOp -> string -> option exn :=
  fun _ rel => if (255 <? String.length rel)%nat then Some (OSError ENAMETOOLONG)
               else None.

Definition over_long_name : string :=
  String.concat "" (repeat "a" 300) ++ ".jpg".

Definition plain_settings : Settings :=
  {| USE_SEAWEEDFS_STORAGE := false; USE_S3_STORAGE := false;
     MAX_SCREENSHOTS_PER_PAGE := None; DATABASE_ENGINE := postgresql |}.

Definition s3_settings : Settings :=
  {| USE_SEAWEEDFS_STORAGE := false; USE_S3_STORAGE := true;
     MAX_SCREENSHOTS_PER_PAGE := None; DATABASE_ENGINE := postgresql |}.

Definition world_of (s : Settings) (st : Storage) (us : list User)
    (ps : list MonitoredPage) (cs : list MonitoredPageCheck) : World :=
  {| settings := s; screenshot_storage := st; users := us; pages := ps;
     checks := cs; outbox := []; log := [] |}.

(** A bucket whose service answers every [head_object] with a 500. *)
Definition s3_outage : Storage :=
  S3ScreenshotStorage "screenshots"
    {| objects := ∅;
       fault := fun op _ => match op with
                            | head_object => Some (ClientError "500")
                            | _ => None
                            end;
       presigned := fun key => "https://s3.invalid/" ++ key |}.

Definition seaweed_outage : Storage :=
  match s3_outage with
  | S3ScreenshotStorage p c => SeaweedFSScreenshotStorage p c
  | st => st
  end.

Definition gray : Image := Image_new 2 2 (200, 200, 200)%Z.

Definition local_one_file : Storage :=
  LocalScreenshotStorage {[ "7/c743f35ac6.jpg" := Img gray ]} sound_disk.

Definition alice : User := {| user_pk := 1; email := "alice@example.com" |}.
Definition nobody : User := {| user_pk := 2; email := "" |}.

Definition page_of (owner : User) (notify : bool) (threshold : Z) : MonitoredPage :=
  {| page_pk := 7; user_id := user_pk owner; url := "http://example.invalid/health";
     check_interval := 5; notifications_enabled := notify;
     alert_threshold := threshold; screenshot_enabled := true;
     change_notifications_enabled := false;
     region_left_pct := 0; region_top_pct := 0;
     region_width_pct := 1; region_height_pct := 1; is_pinned := false |}.

Definition check_at (key at_ : Z) (up : bool) : MonitoredPageCheck :=
  {| pk := key; page_id := 7; checked_at := at_;
     status_code := if up then Some 200%Z else None; response_time_ms := 12300;
     is_up := up; message := if up then "OK" else "ERR";
     screenshot_path := ""; crop_path := ""; diff_path := ""; diff_score := None |}.

Definition notify_world (owner : User) (rows : list MonitoredPageCheck) : World :=
  world_of plain_settings (LocalScreenshotStorage ∅ sound_disk) [alice; nobody]
    [page_of owner true 2] rows.

Definition gallery_world : World :=
  world_of plain_settings local_one_file [alice; nobody] [page_of alice true 2] [].

(** A stand-in for Pillow and imagehash in the examples: the hash samples
    the red channel on an 8x8 grid, the JPEG codec is lossless, resizing
    picks the nearest pixel, and blending is done on rationals. *)
Definition sample_bit (img : Image) (i : nat) : bool :=
  let x := ((i mod 8) * width img / 8)%nat in
  let y := ((i / 8) * height img / 8)%nat in
  let '(r, _, _) := getpixel img x y in (127 <? r)%Z.

#[local] Instance plain_imaging : Imaging := {|
  phash := fun img => map (sample_bit img) (seq 0 64);
  jpeg := fun _ img => img;
  resize_lanczos := fun img w h =>
    {| width := w; height := h;
       getpixel := fun x y => getpixel img (x * width img / w) (y * height img / h) |};
  blend_channel := fun v hv => ((9 * v + 11 * hv) / 20)%Z;
|}.

Definition diff_env_at (t : Z) : DiffEnv :=
  {| imagehash_installed := true; diff_time_ns := t |}.

Definition black : Image := Image_new 2 2 (0, 0, 0)%Z.

Definition broken_store : Storage :=
  LocalScreenshotStorage
    {[ "7/c743f35ac6.jpg" := Img gray; "7/1faa93d4b3.jpg" := Garbage ]} sound_disk.

Definition two_shots : Storage :=
  LocalScreenshotStorage
    {[ "7/c743f35ac6.jpg" := Img gray; "7/1faa93d4b3.jpg" := Img black ]} sound_disk.

(** Two screenshots of 8 by 8 pixels that differ in their first pixel. *)
Definition gray8 : Image := Image_new 8 8 (200, 200, 200)%Z.

Definition dotted8 : Image :=
  {| width := 8; height := 8;
     getpixel := fun x y => if (x =? 0)%nat && (y =? 0)%nat then (0, 0, 0)%Z
                            else (200, 200, 200)%Z |}.

Definition near_shots : Storage :=
  LocalScreenshotStorage
    {[ "7/c743f35ac6.jpg" := Img gray8; "7/1faa93d4b3.jpg" := Img dotted8 ]} sound_disk.

Definition shot_check (key at_ : Z) (shot : string) (score : option Z)
  : MonitoredPageCheck :=
  {| pk := key; page_id := 7; checked_at := at_; status_code := Some 200%Z;
     response_time_ms := 5000; is_up := true; message := "Status 200";
     screenshot_path := shot; crop_path := ""; diff_path := "";
     diff_score := score |}.

(** A page that does not change: its first check stored a screenshot, and
    the browser renders the same picture again. *)
Definition steady_world : World :=
  world_of plain_settings local_one_file [alice] [page_of alice true 2]
    [shot_check 1 1 "7/c743f35ac6.jpg" None].

Definition steady_env (t : Z) : CheckEnv :=
  {| probe := Responded 200; elapsed_ms := 5000;
     capture_env := {| playwright_installed := true; rendered := Some gray;
                       capture_time_ns := 1700000000000000000 + t |};
     diff_env := diff_env_at (1700000000000000000 + t);
     now := t |}.

(** The unchanged page checked again and again, once per tick of [t]. *)
Fixpoint check_repeatedly (n : nat) (t : Z) (w : World) : World :=
  match n with
  | O => w
  | S n' =>
      check_repeatedly n' (t + 1)
        (final (_run_single_check (page_of alice true 2) (steady_env t)) w)
  end.

(** A probe that found the page down, at a given reading of the clock. *)
Definition down_env (t : Z) : CheckEnv :=
  {| probe := HTTPError 503; elapsed_ms := 900;
     capture_env := {| playwright_installed := true; rendered := Some gray;
                       capture_time_ns := 1700000000000000000 + t |};
     diff_env := diff_env_at (1700000000000000000 + t);
     now := t |}.

(** A local directory with one screenshot the bucket already holds in
    another version, one it lacks, and a file that is no image. *)
Definition local_dir : option (list DirEntry) :=
  Some [ {| entry_rel := "7/a5da0e8a43.jpg"; is_file := true; read_bytes := Some (Img gray) |};
         {| entry_rel := "7/c743f35ac6.png"; is_file := true; read_bytes := Some (Img gray) |};
         {| entry_rel := "7/notes.txt"; is_file := true; read_bytes := Some Garbage |} ].

Definition bucket_with_one : Storage :=
  SeaweedFSScreenshotStorage "screenshots"
    {| objects := {[ "screenshots/7/a5da0e8a43.jpg" := Img black ]};
       fault := no_fault; presigned := fun key => key |}.

(* ===================================================================== *)
(** * Properties *)
(* ===================================================================== *)

(** ** The model on the values Python gives *)

Example md5_of_empty : MD5.hexdigest "" = "d41d8cd98f00b204e9800998ecf8427e".
Proof. vm_compute. reflexivity. Qed.

Example md5_of_abc : MD5.hexdigest "abc" = "900150983cd24fb0d6963f7d28e17f72".
Proof. vm_compute. reflexivity. Qed.

Example unique_filename_at_tick_0 :
  _unique_filename 1700000000000000000 7 ".jpg" = "7/c743f35ac6.jpg".
Proof. vm_compute. reflexivity. Qed.

Example int_of_literals :
  map Py.int [" 07 "; "1_0"; "+7"; "-7"; "_1"; "1__0"; "1_"; ""; "0x7"; "/"]
  = [Some 7; Some 10; Some 7; Some (-7); None; None; None; None; None; None]%Z.
Proof. reflexivity. Qed.

Example parts_of_paths :
  map (fun s => Py.parts (Py.mkPath s))
      [""; "."; "/"; "//a/b"; "///a"; "a//b/./c/"; "7/../x"]
  = [[]; []; ["/"]; ["//"; "a"; "b"]; ["/"; "a"]; ["a"; "b"; "c"]; ["7"; ".."; "x"]].
Proof. reflexivity. Qed.

Example stems_of_names :
  map (fun s => Py.stem (Py.mkPath s)) ["7/a.tar.gz"; "7/.hid"; "7/a."; "7/abc.jpg"]
  = ["a.tar"; ".hid"; "a."; "abc"].
Proof. reflexivity. Qed.

Example thumb_rel_of_paths :
  map _thumb_rel ["7/c743f35ac6.jpg"; "abc.png"; ""; "/"]
  = [Some "7/c743f35ac6_thumb.jpg"; Some "abc_thumb.jpg"; None; None].
Proof. vm_compute. reflexivity. Qed.

(** [round(d / 64 * 100, 2)] for [d] in [0, 1, 2, 3, 6, 7, 63, 64] is
    [0.0, 1.56, 3.12, 4.69, 9.38, 10.94, 98.44, 100.0]. *)
Example scores_of_distances :
  map score_of_distance [0; 1; 2; 3; 6; 7; 63; 64]%Z
  = [0; 156; 312; 469; 938; 1094; 9844; 10000]%Z.
Proof. vm_compute. reflexivity. Qed.

(** The sequence of [test_consecutive_failures_counter]. *)
Example consecutive_failures_counter :
  let page := page_of alice true 2 in
  let count rows := result (_consecutive_failures page) (notify_world alice rows) in
  count [check_at 1 1 false; check_at 2 2 false] = Ok 2%Z
  /\ count [check_at 1 1 false; check_at 2 2 false; check_at 3 3 true] = Ok 0%Z
  /\ count [check_at 1 1 false; check_at 2 2 false; check_at 3 3 true;
            check_at 4 4 false] = Ok 1%Z
  /\ count [check_at 1 1 false; check_at 2 2 false; check_at 3 3 true;
            check_at 4 4 false; check_at 5 5 true] = Ok 0%Z.
Proof. repeat split. Qed.

(** The sequence of [test_email_sent_only_when_reaching_threshold]: with
    threshold 2, only the second failure of a streak sends a mail. *)
Example email_sent_only_when_reaching_threshold :
  let page := page_of alice true 2 in
  let mails rows latest :=
    length (sent_by (handle_post_check_notification page latest)
                    (notify_world alice rows)) in
  let f1 := check_at 1 1 false in
  let f2 := check_at 2 2 false in
  let f3 := check_at 3 3 false in
  let u4 := check_at 4 4 true in
  let f5 := check_at 5 5 false in
  let f6 := check_at 6 6 false in
  mails [f1] f1 = 0%nat
  /\ mails [f1; f2] f2 = 1%nat
  /\ mails [f1; f2; f3] f3 = 0%nat
  /\ mails [f1; f2; f3; u4; f5; f6] f6 = 1%nat.
Proof. repeat split. Qed.

(** A stored file that Pillow cannot decode ends the diff without a score
    and without an exception. *)
Example compute_diff_on_undecodable_file :
  result (compute_diff (diff_env_at 1700000000000000001)
            "7/c743f35ac6.jpg" "7/1faa93d4b3.jpg" 7)
         (world_of plain_settings broken_store [] [] [])
  = Ok ("", None).
Proof. reflexivity. Qed.

(** The two tests of [NoChangeDiffTests]: equal pictures give score 0 and no
    diff file; a black and a white one give a positive score and a diff
    file that is in the store afterwards. *)
Example identical_images_produce_no_diff_file :
  result (compute_diff (diff_env_at 1700000000000000002)
            "7/c743f35ac6.jpg" "7/c743f35ac6.jpg" 7)
         (world_of plain_settings local_one_file [] [] [])
  = Ok ("", Some 0%Z).
Proof. vm_compute. reflexivity. Qed.

Example different_images_produce_diff_file :
  let run := compute_diff (diff_env_at 1700000000000000002)
               "7/c743f35ac6.jpg" "7/1faa93d4b3.jpg" 7 in
  let w := world_of plain_settings two_shots [] [] [] in
  result run w = Ok ("7/a5da0e8a43_diff.jpg", Some 10000%Z)
  /\ result (storage_exists "7/a5da0e8a43_diff.jpg") (final run w) = Ok true.
Proof. vm_compute. repeat split. Qed.

(** ** The monad *)

Lemma bind_ok {A B} (m : M A) (k : A -> M B) w a w' :
  m w = (Ok a, w') -> bind m k w = k a w'.
Proof. intros E. unfold bind. now rewrite E. Qed.

Lemma bind_raise {A B} (m : M A) (k : A -> M B) w e w' :
  m w = (Raise e, w') -> bind m k w = (Raise e, w').
Proof. intros E. unfold bind. now rewrite E. Qed.

(** ** The store *)

Lemma truthy_spec s : Py.truthy s = true <-> s <> "".
Proof.
  unfold Py.truthy. rewrite negb_true_iff. split.
  - intros E ->. discriminate.
  - intros Hn. apply String.eqb_neq. exact Hn.
Qed.

Lemma storage_exists_local rel w files disk :
  screenshot_storage w = LocalScreenshotStorage files disk ->
  storage_exists rel w =
    match disk disk_exists rel with
    | Some e => (Raise e, w)
    | None => (Ok (bool_decide (is_Some (files !! rel))), w)
    end.
Proof.
  intros E. unfold storage_exists, bind, gets. simpl. rewrite E.
  now destruct (disk disk_exists rel).
Qed.

Lemma storage_exists_seaweed rel w prefix c :
  screenshot_storage w = SeaweedFSScreenshotStorage prefix c ->
  exists w', storage_exists rel w = (Ok (head_ok (screenshot_storage w) rel), w')
    /\ screenshot_storage w' = screenshot_storage w
    /\ checks w' = checks w /\ outbox w' = outbox w
    /\ match client_head_object c (_key prefix rel) with
       | Ok _ => log w' = log w
       | Raise e =>
           if seaweed_silent e then log w' = log w
           else exists r, log w' = (log w ++ [r])%list /\ lvl r = WARNING
       end.
Proof.
  intros E. unfold storage_exists, bind, gets. simpl. rewrite E. simpl.
  destruct (client_head_object c (_key prefix rel)) as [[]|e] eqn:Hh.
  - eexists; repeat split; eauto.
  - destruct e as [code| | | | | | | | |]; simpl;
      try (eexists; split; [reflexivity|]; repeat split; simpl; try congruence;
           eexists; split; reflexivity).
    destruct (str_in code _) eqn:Hc; simpl.
    + eexists; repeat split; eauto.
    + eexists; split; [reflexivity|]; repeat split; simpl; try congruence.
      eexists; split; reflexivity.
Qed.

Lemma storage_exists_s3 rel w prefix c :
  screenshot_storage w = S3ScreenshotStorage prefix c ->
  storage_exists rel w =
    match client_head_object c (_key prefix rel) with
    | Ok _ => (Ok true, w)
    | Raise e => if s3_not_found e then (Ok false, w) else (Raise e, w)
    end.
Proof.
  intros E. unfold storage_exists, bind, gets. simpl. rewrite E.
  destruct (client_head_object c (_key prefix rel)) as [[]|e]; [reflexivity|].
  destruct e; simpl; try reflexivity.
  destruct (str_in code _); reflexivity.
Qed.

(** C7, as stated, fails on the generic S3 backend: when the service answers
    the existence probe with a server error, [exists] raises it. *)
Lemma s3_exists_reraises_server_error :
  result (storage_exists "7/c743f35ac6.jpg")
         (world_of s3_settings s3_outage [] [] [])
  = Raise (ClientError "500").
Proof. reflexivity. Qed.

(** It fails on the local disk as well: [exists] guards neither
    [_root().mkdir()] nor [is_file()], and a name the filesystem refuses
    as too long reaches the caller as the [OSError] of the probe. *)
Lemma local_exists_raises_the_error_of_the_filesystem :
  result (storage_exists ("7/" ++ over_long_name))
         (world_of plain_settings (LocalScreenshotStorage ∅ name_limit_disk) [] [] [])
  = Raise (OSError ENAMETOOLONG).
Proof. reflexivity. Qed.

(** C7 (amended).  Only the internal gateway keeps the promise: its
    [exists] returns a boolean whatever the service does, reading every
    backend error as "not found" and logging a warning unless the error
    code is 404, NoSuchKey, 403 or Forbidden.  The generic S3 backend
    answers [False] only to a 404 or NoSuchKey client error and raises
    every other backend error to its caller.  The local disk handles no
    error at all: [exists] answers whether the file is there when the
    filesystem carries out the probe, and otherwise raises the error of
    the filesystem, logging nothing. *)
Theorem exists_raises_on_generic_s3_and_on_the_local_disk (rel : string) (w : World) :
  (forall prefix c,
     screenshot_storage w = SeaweedFSScreenshotStorage prefix c ->
     (exists w', storage_exists rel w = (Ok (head_ok (screenshot_storage w) rel), w')
        /\ screenshot_storage w' = screenshot_storage w)
     /\ forall e,
          client_head_object c (_key prefix rel) = Raise e ->
          result (storage_exists rel) w = Ok false
          /\ (seaweed_silent e = false ->
              exists r, log (final (storage_exists rel) w) = (log w ++ [r])%list
                        /\ lvl r = WARNING))
  /\ (forall prefix c,
        screenshot_storage w = S3ScreenshotStorage prefix c ->
        storage_exists rel w =
          match client_head_object c (_key prefix rel) with
          | Ok _ => (Ok true, w)
          | Raise e => if s3_not_found e then (Ok false, w) else (Raise e, w)
          end)
  /\ (forall files disk,
        screenshot_storage w = LocalScreenshotStorage files disk ->
        storage_exists rel w =
          match disk disk_exists rel with
          | Some e => (Raise e, w)
          | None => (Ok (bool_decide (is_Some (files !! rel))), w)
          end).
Proof.
  split; [|split].
  - intros p c E. split.
    + destruct (storage_exists_seaweed rel w p c E) as (w' & Hr & Hs & _).
      exists w'. auto.
    + intros e Hh.
      destruct (storage_exists_seaweed rel w p c E) as (w' & Hr & _ & _ & _ & Hl).
      unfold result, final. rewrite Hr. simpl. rewrite E. simpl.
      rewrite Hh in *. split; [reflexivity|]. intros Hs. now rewrite Hs in Hl.
  - intros p c E. now apply storage_exists_s3.
  - intros files disk E. now apply storage_exists_local.
Qed.

(** A gateway outage, where the theorem applies: [exists] answers [False]
    and leaves a warning. *)
Lemma exists_raises_on_generic_s3_and_on_the_local_disk_witness :
  result (storage_exists "7/c743f35ac6.jpg")
         (world_of plain_settings seaweed_outage [] [] []) = Ok false
  /\ exists r, log (final (storage_exists "7/c743f35ac6.jpg")
                      (world_of plain_settings seaweed_outage [] [] []))
               = [r] /\ lvl r = WARNING.
Proof.
  destruct (exists_raises_on_generic_s3_and_on_the_local_disk "7/c743f35ac6.jpg"
              (world_of plain_settings seaweed_outage [] [] [])) as [H _].
  destruct (H _ _ eq_refl) as [_ Hf].
  destruct (Hf (ClientError "500") eq_refl) as [Hr Hl].
  split; [exact Hr|]. exact (Hl eq_refl).
Defined.

(** ** The check table, newest first *)

Lemma insert_desc_perm c l : Permutation (insert_desc c l) (c :: l).
Proof.
  induction l as [|d r IH]; simpl; [reflexivity|].
  destruct (checked_at d <? checked_at c)%Z; [reflexivity|].
  rewrite IH. apply perm_swap.
Qed.

Lemma order_by_perm l : Permutation (order_by_checked_at_desc l) l.
Proof.
  induction l as [|c r IH]; simpl; [reflexivity|].
  rewrite insert_desc_perm. now rewrite IH.
Qed.

Lemma insert_desc_sorted c l : newest_first l -> newest_first (insert_desc c l).
Proof.
  unfold newest_first. induction 1 as [|d r Hr IH Hd]; simpl.
  - repeat constructor.
  - destruct (checked_at d <? checked_at c)%Z eqn:E.
    + apply Z.ltb_lt in E. constructor; [now constructor|].
      constructor; [lia|]. eapply Forall_impl; [exact Hd|]. simpl. intros; lia.
    + apply Z.ltb_ge in E. constructor; [exact IH|].
      rewrite insert_desc_perm. constructor; [lia|exact Hd].
Qed.

Lemma order_by_sorted l : newest_first (order_by_checked_at_desc l).
Proof.
  induction l as [|c r IH]; simpl; [constructor|].
  now apply insert_desc_sorted.
Qed.

(** ** Alerts *)

Lemma sent_by_run {A} (m : M A) w o w' l :
  m w = (o, w') -> outbox w' = (outbox w ++ l)%list -> sent_by m w = l.
Proof.
  intros E Ho. unfold sent_by, final. rewrite E. simpl. rewrite Ho.
  apply drop_app_length.
Qed.

Lemma page_recipient_run page w :
  exists r, page_recipient page w = (Ok r, w).
Proof. unfold page_recipient, bind, gets, ret. simpl. eauto. Qed.

(** What [handle_post_check_notification] hands to the mail function, as a
    function of the page, the user table and the history. *)
Lemma handle_post_check_run page latest w r :
  result (page_recipient page) w = Ok r ->
  exists w',
    handle_post_check_notification page latest w = (Ok tt, w')
    /\ checks w' = checks w
    /\ screenshot_storage w' = screenshot_storage w
    /\ outbox w' = (outbox w ++
     if negb (notifications_enabled page) || negb (Py.truthy r) then []
     else if is_up latest then
       match head (List.filter (fun c => negb (pk c =? pk latest)%Z) (history page w)) with
       | Some p => if is_up p then []
                   else [{| kind := RecoveredMail; about := url page; recipient := r |}]
       | None => []
       end
     else if (alert_threshold page <=? 0)%Z then []
     else if (count_until_up (map is_up (history page w)) =? alert_threshold page)%Z
          then [{| kind := DownAlertMail (alert_threshold page) (alert_threshold page);
                   about := url page; recipient := r |}]
          else [])%list.
Proof.
  intros Hr. destruct (page_recipient_run page w) as (r' & Hp).
  unfold result in Hr. rewrite Hp in Hr. simpl in Hr. injection Hr as ->.
  unfold handle_post_check_notification.
  destruct (notifications_enabled page); simpl;
    [|exists w; rewrite app_nil_r; auto].
  rewrite (bind_ok _ _ _ _ _ Hp).
  destruct (Py.truthy r); simpl;
    [|eexists; split; [reflexivity|]; simpl; rewrite app_nil_r; auto].
  destruct (is_up latest); simpl.
  - unfold bind, previous_check, gets, ret, history. simpl.
    destruct (head _) as [p|]; simpl;
      [|exists w; rewrite app_nil_r; auto].
    destruct (is_up p); simpl;
      [exists w; rewrite app_nil_r; auto|].
    eexists; split; [reflexivity|]; simpl; auto.
  - destruct (alert_threshold page <=? 0)%Z; simpl;
      [exists w; rewrite app_nil_r; auto|].
    unfold bind, _consecutive_failures, gets, ret, history. simpl.
    destruct (_ =? _)%Z eqn:E; simpl;
      [|exists w; rewrite app_nil_r; auto].
    apply Z.eqb_eq in E. rewrite E.
    eexists; split; [reflexivity|]; simpl; auto.
Qed.

Lemma handle_post_check_sent page latest w r :
  result (page_recipient page) w = Ok r ->
  result (handle_post_check_notification page latest) w = Ok tt
  /\ sent_by (handle_post_check_notification page latest) w =
     if negb (notifications_enabled page) || negb (Py.truthy r) then []
     else if is_up latest then
       match head (List.filter (fun c => negb (pk c =? pk latest)%Z) (history page w)) with
       | Some p => if is_up p then []
                   else [{| kind := RecoveredMail; about := url page; recipient := r |}]
       | None => []
       end
     else if (alert_threshold page <=? 0)%Z then []
     else if (count_until_up (map is_up (history page w)) =? alert_threshold page)%Z
          then [{| kind := DownAlertMail (alert_threshold page) (alert_threshold page);
                   about := url page; recipient := r |}]
          else [].
Proof.
  intros Hr. destruct (handle_post_check_run page latest w r Hr) as (w' & E & _ & _ & Ho).
  split; [unfold result; now rewrite E|]. eapply sent_by_run; eauto.
Qed.

(** The streak counted by [_consecutive_failures]: the down results at the
    head of the history, up to the first up result. *)
Lemma count_until_up_spec (l : list bool) :
  exists downs rest,
    l = (downs ++ rest)%list
    /\ Forall (fun b => b = false) downs
    /\ head rest <> Some false
    /\ count_until_up l = Z.of_nat (length downs).
Proof.
  induction l as [|b l (downs & rest & -> & Hd & Hh & Hc)].
  - exists [], []. repeat split; [constructor|discriminate].
  - destruct b.
    + exists [], (true :: downs ++ rest)%list. repeat split; [constructor|discriminate].
    + exists (false :: downs), rest. repeat split; auto.
      simpl count_until_up. rewrite Hc. simpl length. lia.
Qed.

Lemma consecutive_failures_run page w :
  _consecutive_failures page w = (Ok (count_until_up (map is_up (history page w))), w).
Proof. reflexivity. Qed.

Lemma previous_check_run page latest w :
  previous_check page latest w =
    (Ok (head (List.filter (fun c => negb (pk c =? pk latest)%Z) (history page w))), w).
Proof. reflexivity. Qed.

Lemma newest_first_filter f l : newest_first l -> newest_first (List.filter f l).
Proof.
  unfold newest_first. induction 1 as [|d r Hr IH Hd]; simpl; [constructor|].
  destruct (f d); [|exact IH]. constructor; [exact IH|].
  apply Forall_forall. intros x Hx. apply list_elem_of_In, filter_In in Hx.
  rewrite Forall_forall in Hd. apply Hd. apply list_elem_of_In. tauto.
Qed.

(** The row [previous_check] returns is the most recent row of the page
    other than the latest one. *)
Lemma previous_check_most_recent page latest w p :
  result (previous_check page latest) w = Ok (Some p) ->
  p ∈ page_checks page (checks w) /\ pk p <> pk latest
  /\ forall q, q ∈ page_checks page (checks w) -> pk q <> pk latest ->
               (checked_at q <= checked_at p)%Z.
Proof.
  unfold result. rewrite previous_check_run. simpl. intros E.
  injection E as E.
  pose proof (newest_first_filter (fun c => negb (pk c =? pk latest)%Z) _
                (order_by_sorted (page_checks page (checks w)))) as Hs.
  fold (history page w) in Hs.
  assert (Hin : forall q, In q (List.filter (fun c => negb (pk c =? pk latest)%Z) (history page w))
                 <-> q ∈ page_checks page (checks w) /\ pk q <> pk latest).
  { intros q. rewrite filter_In, negb_true_iff, Z.eqb_neq.
    unfold history. rewrite list_elem_of_In.
    split; intros [H1 H2]; split; auto.
    - eapply Permutation_in; [apply order_by_perm|exact H1].
    - eapply Permutation_in; [symmetry; apply order_by_perm|exact H1]. }
  destruct (List.filter _ (history page w)) as [|x l] eqn:El; [discriminate|].
  simpl in E. injection E as ->.
  destruct (proj1 (Hin p) (or_introl eq_refl)) as [Hp1 Hp2].
  repeat split; auto. intros q Hq1 Hq2.
  destruct (proj2 (Hin q) (conj Hq1 Hq2)) as [->|Hq]; [lia|].
  inversion Hs as [|? ? _ Hall]; subst.
  rewrite Forall_forall in Hall. apply Hall. now apply list_elem_of_In.
Qed.

(** C1, as stated, fails for a page whose user has no email address: with
    notifications enabled, threshold 2 and a streak of exactly two failures,
    nothing is sent. *)
Lemma down_alert_skipped_without_recipient :
  let page := page_of nobody true 2 in
  let latest := check_at 2 2 false in
  let w := notify_world nobody [check_at 1 1 false; latest] in
  notifications_enabled page = true
  /\ alert_threshold page = 2%Z
  /\ is_up latest = false
  /\ result (_consecutive_failures page) w = Ok 2%Z
  /\ sent_by (handle_post_check_notification page latest) w = [].
Proof. repeat split. Qed.

(** C1 (amended).  For a page with notifications enabled, an owner with a
    non-empty email address and an alert threshold t > 0, and for every
    history, the downtime mail is handed over after a check if and only if
    that check is down and the streak of down results at the head of the
    history equals t; a longer or shorter streak sends nothing. *)
Theorem downtime_alert_iff_streak_equals_threshold
    (page : MonitoredPage) (latest : MonitoredPageCheck) (w : World) (r : string) :
  notifications_enabled page = true ->
  result (page_recipient page) w = Ok r ->
  Py.truthy r = true ->
  (0 < alert_threshold page)%Z ->
  let run := handle_post_check_notification page latest in
  let streak := count_until_up (map is_up (history page w)) in
  result (_consecutive_failures page) w = Ok streak
  /\ ((exists e, e ∈ sent_by run w /\ is_down_alert e = true)
      <-> is_up latest = false /\ streak = alert_threshold page)
  /\ (is_up latest = false -> streak = alert_threshold page ->
      sent_by run w = [{| kind := DownAlertMail streak streak;
                          about := url page; recipient := r |}])
  /\ (is_up latest = false -> streak <> alert_threshold page -> sent_by run w = []).
Proof.
  intros Hn Hr Ht Hpos run streak.
  destruct (handle_post_check_sent page latest w r Hr) as [_ Hs].
  fold run in Hs. rewrite Hn, Ht in Hs. simpl in Hs.
  assert (Hle : (alert_threshold page <=? 0)%Z = false) by (apply Z.leb_gt; lia).
  rewrite Hle in Hs. fold streak in Hs.
  split; [reflexivity|].
  destruct (is_up latest) eqn:Hup.
  - split; [|split; intros; discriminate].
    split; [|intros [? _]; discriminate].
    intros (e & He & Hd). rewrite Hs in He.
    destruct (head _) as [p|]; [destruct (is_up p)|];
      try (now apply elem_of_nil in He).
    apply list_elem_of_singleton in He. subst e. discriminate.
  - destruct (streak =? alert_threshold page)%Z eqn:E.
    + apply Z.eqb_eq in E. split; [|split].
      * split; [auto|]. intros _. eexists. rewrite Hs. split;
          [apply list_elem_of_singleton; reflexivity|reflexivity].
      * intros _ _. rewrite Hs. now rewrite E.
      * intros _ Hne. now destruct Hne.
    + apply Z.eqb_neq in E. split; [|split].
      * split; [|intros [_ ?]; now destruct E].
        intros (e & He & _). rewrite Hs in He. now apply elem_of_nil in He.
      * intros _ He. now destruct E.
      * intros _ _. exact Hs.
Qed.

(** Threshold 2, a streak of exactly two failures, and a recipient: the
    alert is sent. *)
Lemma downtime_alert_iff_streak_equals_threshold_witness :
  sent_by (handle_post_check_notification (page_of alice true 2) (check_at 2 2 false))
          (notify_world alice [check_at 1 1 false; check_at 2 2 false])
  = [{| kind := DownAlertMail 2 2; about := "http://example.invalid/health";
        recipient := "alice@example.com" |}].
Proof.
  refine (proj1 (proj2 (proj2
    (downtime_alert_iff_streak_equals_threshold (page_of alice true 2)
       (check_at 2 2 false)
       (notify_world alice [check_at 1 1 false; check_at 2 2 false])
       "alice@example.com" _ _ _ _))) _ _);
    try reflexivity.
Defined.

(** C5, as stated, fails for a page with notifications disabled: the latest
    check is up, the one before it was down, and no mail is sent. *)
Lemma recovery_skipped_when_notifications_disabled :
  let page := page_of alice false 2 in
  let latest := check_at 2 2 true in
  let w := notify_world alice [check_at 1 1 false; latest] in
  is_up latest = true
  /\ result (previous_check page latest) w = Ok (Some (check_at 1 1 false))
  /\ is_up (check_at 1 1 false) = false
  /\ sent_by (handle_post_check_notification page latest) w = [].
Proof. repeat split. Qed.

(** C5 (amended).  For a page with notifications enabled and an owner with
    a non-empty email address, and for every history, the recovery mail is
    handed over if and only if the latest check is up and the most recent
    other check of the page (by timestamp, the latest one excluded by
    primary key) was down; it is never sent when that check was up. *)
Theorem recovery_iff_up_after_down
    (page : MonitoredPage) (latest : MonitoredPageCheck) (w : World) (r : string) :
  notifications_enabled page = true ->
  result (page_recipient page) w = Ok r ->
  Py.truthy r = true ->
  let run := handle_post_check_notification page latest in
  ((exists e, e ∈ sent_by run w /\ is_recovery e = true)
   <-> is_up latest = true
       /\ exists p, result (previous_check page latest) w = Ok (Some p)
                    /\ is_up p = false)
  /\ (forall p, is_up latest = true ->
                result (previous_check page latest) w = Ok (Some p) ->
                is_up p = true -> sent_by run w = [])
  /\ (forall p, result (previous_check page latest) w = Ok (Some p) ->
        p ∈ page_checks page (checks w) /\ pk p <> pk latest
        /\ forall q, q ∈ page_checks page (checks w) -> pk q <> pk latest ->
                     (checked_at q <= checked_at p)%Z).
Proof.
  intros Hn Hr Ht run.
  destruct (handle_post_check_sent page latest w r Hr) as [_ Hs].
  fold run in Hs. rewrite Hn, Ht in Hs. simpl in Hs.
  unfold result. rewrite previous_check_run. simpl.
  split; [|split].
  - split.
    + intros (e & He & Hk). rewrite Hs in He.
      destruct (is_up latest).
      * split; [reflexivity|].
        destruct (head _) as [p|]; [|now apply elem_of_nil in He].
        exists p. split; [reflexivity|].
        destruct (is_up p); [now apply elem_of_nil in He|reflexivity].
      * destruct (alert_threshold page <=? 0)%Z; [now apply elem_of_nil in He|].
        destruct (_ =? _)%Z; [|now apply elem_of_nil in He].
        apply list_elem_of_singleton in He. subst e. discriminate.
    + intros (Hup & p & Hp & Hd). injection Hp as Hp.
      rewrite Hup, Hp, Hd in Hs. eexists. rewrite Hs.
      split; [apply list_elem_of_singleton; reflexivity|reflexivity].
  - intros p Hup Hp Hu. injection Hp as Hp. now rewrite Hup, Hp, Hu in Hs.
  - intros p Hp. apply previous_check_most_recent.
    unfold result. now rewrite previous_check_run.
Qed.

(** A down result followed by an up result, with a recipient: the recovery
    mail is sent. *)
Lemma recovery_iff_up_after_down_witness :
  exists e, e ∈ sent_by (handle_post_check_notification (page_of alice true 2)
                           (check_at 2 2 true))
                        (notify_world alice [check_at 1 1 false; check_at 2 2 true])
            /\ is_recovery e = true.
Proof.
  refine (proj2 (proj1
    (recovery_iff_up_after_down (page_of alice true 2) (check_at 2 2 true)
       (notify_world alice [check_at 1 1 false; check_at 2 2 true])
       "alice@example.com" _ _ _)) _); try reflexivity.
  split; [reflexivity|]. exists (check_at 1 1 false). split; reflexivity.
Defined.

(** C10.  With notifications disabled, or with an owner that has no email
    address, [handle_post_check_notification] sends nothing, whatever the
    history: in particular no recovery mail after a down result followed by
    an up result. *)
Theorem no_mail_when_disabled_or_without_email
    (page : MonitoredPage) (latest : MonitoredPageCheck) (w : World) :
  notifications_enabled page = false \/ result (page_recipient page) w = Ok "" ->
  result (handle_post_check_notification page latest) w = Ok tt
  /\ sent_by (handle_post_check_notification page latest) w = []
  /\ forall e, e ∈ outbox (final (handle_post_check_notification page latest) w) ->
               e ∈ outbox w.
Proof.
  intros Hg. destruct (page_recipient_run page w) as (r & Hp).
  assert (Hr : result (page_recipient page) w = Ok r)
    by (unfold result; now rewrite Hp).
  destruct (handle_post_check_run page latest w r Hr) as (w' & E & _ & _ & Ho).
  assert (Hnil : outbox w' = outbox w).
  { rewrite Ho. destruct Hg as [Hg|Hg].
    - rewrite Hg. simpl. apply app_nil_r.
    - rewrite Hr in Hg. injection Hg as ->.
      rewrite orb_true_r. apply app_nil_r. }
  unfold result, final. rewrite E. simpl. split; [reflexivity|]. split.
  - eapply sent_by_run; [exact E|]. rewrite Hnil. symmetry. apply app_nil_r.
  - intros e. now rewrite Hnil.
Qed.

(** Notifications disabled, a down result followed by an up result. *)
Lemma no_mail_when_disabled_or_without_email_witness :
  sent_by (handle_post_check_notification (page_of alice false 2) (check_at 2 2 true))
          (notify_world alice [check_at 1 1 false; check_at 2 2 true]) = [].
Proof.
  apply (no_mail_when_disabled_or_without_email (page_of alice false 2)
           (check_at 2 2 true)
           (notify_world alice [check_at 1 1 false; check_at 2 2 true])).
  left. reflexivity.
Defined.

(** ** Serving artifacts *)

Lemma str_in_spec s l : str_in s l = true <-> s ∈ l.
Proof.
  unfold str_in. rewrite existsb_exists. split.
  - intros (x & Hx & E). apply String.eqb_eq in E. subst. now apply list_elem_of_In.
  - intros H. exists s. split; [now apply list_elem_of_In|apply String.eqb_refl].
Qed.

Lemma owns_page_run user page_id w :
  owns_page user page_id w =
    (Ok (existsb (fun p => (page_pk p =? page_id)%Z && (user_id p =? user_pk user)%Z)
           (pages w)), w).
Proof. reflexivity. Qed.

Lemma owns_page_spec user page_id w :
  result (owns_page user page_id) w = Ok true <->
  exists p, p ∈ pages w /\ page_pk p = page_id /\ user_id p = user_pk user.
Proof.
  unfold result. rewrite owns_page_run. simpl. split.
  - intros E. injection E as E. apply existsb_exists in E as (p & Hp & E).
    apply andb_true_iff in E as [E1 E2]. apply Z.eqb_eq in E1, E2.
    exists p. split; [now apply list_elem_of_In|auto].
  - intros (p & Hp & E1 & E2). f_equal. apply existsb_exists. exists p.
    split; [now apply list_elem_of_In|].
    apply andb_true_iff. split; now apply Z.eqb_eq.
Qed.

(** C9.  [serve_screenshot] answers with bytes or a redirect only to an
    authenticated user who owns the page numbered by the path's first
    segment; a path with a [..] segment, a first segment that is no page id,
    and a page the user does not own are all turned away with a 404 or a
    403, and an anonymous request with a 401. *)
Theorem serve_screenshot_only_to_owner
    (request_user : option User) (path : string) (w : World) :
  let segments := Py.parts (Py.mkPath path) in
  (forall resp, result (serve_screenshot request_user path) w = Ok resp ->
     serves_content resp = true ->
     exists user first page_id p,
       request_user = Some user
       /\ (".." ∉ segments)
       /\ head segments = Some first /\ Py.int first = Some page_id
       /\ p ∈ pages w /\ page_pk p = page_id /\ user_id p = user_pk user)
  /\ (request_user = None ->
      serve_screenshot request_user path w = (Ok (JsonResponse 401 "Not authenticated"), w))
  /\ (forall user, request_user = Some user -> ".." ∈ segments ->
      serve_screenshot request_user path w = (Raise Http404, w))
  /\ (forall user, request_user = Some user -> ".." ∉ segments ->
      first_segment_id (Py.mkPath path) = None ->
      serve_screenshot request_user path w = (Raise Http404, w))
  /\ (forall user page_id, request_user = Some user -> ".." ∉ segments ->
      first_segment_id (Py.mkPath path) = Some page_id ->
      result (owns_page user page_id) w = Ok false ->
      serve_screenshot request_user path w = (Ok (JsonResponse 403 "Forbidden"), w)).
Proof.
  intros segments. unfold result, serve_screenshot. fold segments.
  destruct request_user as [user|].
  2:{ repeat split; try discriminate. intros resp E.
      simpl in E. injection E as <-. discriminate. }
  destruct (str_in ".." segments) eqn:Hdots.
  { apply str_in_spec in Hdots. repeat split; try discriminate; try tauto. }
  assert (Hno : ".." ∉ segments).
  { intros Hin. apply str_in_spec in Hin. congruence. }
  destruct (first_segment_id (Py.mkPath path)) as [page_id|] eqn:Hid.
  2:{ repeat split; try discriminate; try tauto. }
  rewrite (bind_ok _ _ _ _ _ (owns_page_run user page_id w)).
  destruct (existsb _ (pages w)) eqn:Hown; simpl.
  2:{ repeat split; try discriminate; try tauto.
      intros resp E. injection E as <-. discriminate. }
  repeat split; try discriminate; try tauto.
  - intros resp _ _.
    unfold first_segment_id in Hid. fold segments in Hid.
    destruct (head segments) as [first|] eqn:Hh; [|discriminate].
    assert (Ho : result (owns_page user page_id) w = Ok true)
      by (unfold result; rewrite owns_page_run; simpl; now rewrite Hown).
    apply owns_page_spec in Ho as (p & Hp & E1 & E2).
    exists user, first, page_id, p. repeat split; auto.
  - intros u pid E _ E' Ho. injection E as <-. injection E' as <-.
    cbn in Ho. congruence.
Qed.

(** The owner asks for a stored screenshot of her page and gets the file. *)
Lemma serve_screenshot_only_to_owner_witness :
  exists user first page_id p,
    Some alice = Some user
    /\ (".." ∉ Py.parts (Py.mkPath "7/c743f35ac6.jpg"))
    /\ head (Py.parts (Py.mkPath "7/c743f35ac6.jpg")) = Some first
    /\ Py.int first = Some page_id
    /\ p ∈ pages gallery_world /\ page_pk p = page_id /\ user_id p = user_pk user.
Proof.
  apply (proj1 (serve_screenshot_only_to_owner (Some alice) "7/c743f35ac6.jpg"
                  gallery_world)
           (FileResponse (Img gray) "image/jpeg")); reflexivity.
Defined.

(** ** Store operations and the parts of the world they leave alone *)

Lemma storage_exists_frame rel w o w' :
  storage_exists rel w = (o, w') ->
  screenshot_storage w' = screenshot_storage w
  /\ checks w' = checks w /\ outbox w' = outbox w.
Proof.
  destruct (screenshot_storage w) as [files disk|p c|p c] eqn:E.
  - rewrite (storage_exists_local rel _ _ _ E).
    destruct (disk disk_exists rel); intros [= <- <-]; auto.
  - rewrite (storage_exists_s3 rel _ _ _ E).
    destruct (client_head_object c (_key p rel)) as [|e];
      [|destruct (s3_not_found e)]; intros [= <- <-]; auto.
  - destruct (storage_exists_seaweed rel _ _ _ E) as (w1 & -> & Hs & Hc & Ho & _).
    intros [= <- <-]. rewrite E in Hs. auto.
Qed.

Lemma storage_exists_total rel w :
  backend_class (screenshot_storage w) = SeaweedFSClass ->
  exists b w', storage_exists rel w = (Ok b, w').
Proof.
  intros Hc. destruct (screenshot_storage w) as [files disk|p c|p c] eqn:E;
    try discriminate Hc.
  destruct (storage_exists_seaweed rel _ _ _ E) as (w' & -> & _). eauto.
Qed.

Lemma storage_save_frame rel d w o w' :
  storage_save rel d w = (o, w') ->
  backend_class (screenshot_storage w') = backend_class (screenshot_storage w)
  /\ checks w' = checks w /\ outbox w' = outbox w.
Proof.
  unfold storage_save, bind, gets, modify, logger. simpl.
  destruct (screenshot_storage w) as [files disk|p c|p c] eqn:E; simpl.
  - destruct (disk disk_save rel); intros [= <- <-]; simpl; rewrite ?E; auto.
  - destruct (client_put_object c (_key p rel)); simpl; intros [= <- <-]; simpl;
      rewrite ?E; auto.
  - destruct (client_put_object c (_key p rel)); simpl; intros [= <- <-]; simpl;
      rewrite ?E; auto.
Qed.

Lemma bind_inv {A B} (m : M A) (k : A -> M B) w o w' :
  bind m k w = (o, w') ->
  (exists a w1, m w = (Ok a, w1) /\ k a w1 = (o, w'))
  \/ (exists e, m w = (Raise e, w') /\ o = Raise e).
Proof.
  unfold bind. destruct (m w) as [[a|e] w1]; [left; eauto|].
  intros [= <- <-]. right. eauto.
Qed.

Lemma logger_run l f a w :
  logger l f a w = (Ok tt, set_log (log w ++ [{| lvl := l; fmt := f; arg := a |}]) w).
Proof. reflexivity. Qed.

(** ** The visual diff *)

Section DiffProperties.
Context `{Imaging}.

(** What the [try] block of [compute_diff] can return: a score, with a
    freshly named diff image when the score is positive and none when it is
    zero. *)
Lemma compare_images_result env pb cb pid w o w' :
  compare_images env pb cb pid w = (o, w') ->
  backend_class (screenshot_storage w') = backend_class (screenshot_storage w)
  /\ checks w' = checks w /\ outbox w' = outbox w
  /\ match o with
     | Ok (d, s) =>
         exists a b, pb = Img a /\ cb = Img b
           /\ s = Some (image_score a b)
           /\ d = (if (0 <? image_score a b)%Z
                   then _unique_filename (diff_time_ns env) pid "_diff.jpg"
                   else "")
           /\ ((0 <? image_score a b)%Z = false ->
               screenshot_storage w' = screenshot_storage w)
     | Raise _ => True
     end.
Proof.
  unfold compare_images.
  destruct pb as [a|]; [|intros [= <- <-]; auto].
  destruct cb as [b|]; [|intros [= <- <-]; auto].
  intros Hrun. unfold Image_open in Hrun.
  apply bind_inv in Hrun as [(? & ? & [= <- <-] & Hrun)|(? & [=] & _)].
  apply bind_inv in Hrun as [(? & ? & [= <- <-] & Hrun)|(? & [=] & _)].
  cbv beta zeta in Hrun.
  change (score_of_distance _) with (image_score a b) in Hrun.
  apply bind_inv in Hrun as [(d & w1 & Hd & Hrun)|(e & Hd & ->)].
  - rewrite (bind_ok _ _ _ _ _ (logger_run _ _ _ _)) in Hrun.
    unfold ret in Hrun. injection Hrun as <- <-. simpl.
    destruct (0 <? image_score a b)%Z eqn:Hs.
    + apply bind_inv in Hd as [([] & w2 & Es & Hd)|(e & Es & [=])].
      rewrite (bind_ok _ _ _ _ _ (logger_run _ _ _ _)) in Hd.
      unfold ret in Hd. injection Hd as <- <-. simpl.
      destruct (storage_save_frame _ _ _ _ _ Es) as (Hc & Hk & Ho).
      repeat split; auto. exists a, b. rewrite Hs. repeat split. discriminate.
    + unfold ret in Hd. injection Hd as <- <-. repeat split.
      exists a, b. rewrite Hs. repeat split.
  - destruct (0 <? image_score a b)%Z eqn:Hs; [|unfold ret in Hd; discriminate Hd].
    apply bind_inv in Hd as [([] & w2 & Es & Hd)|(e' & Es & _)].
    + rewrite (bind_ok _ _ _ _ _ (logger_run _ _ _ _)) in Hd.
      unfold ret in Hd. discriminate Hd.
    + destruct (storage_save_frame _ _ _ _ _ Es) as (Hc & Hk & Ho). auto.
Qed.

End DiffProperties.

Lemma storage_exists_run rel w :
  exists w', storage_exists rel w = (exists_answer (screenshot_storage w) rel, w')
    /\ screenshot_storage w' = screenshot_storage w
    /\ checks w' = checks w /\ outbox w' = outbox w.
Proof.
  destruct (storage_exists rel w) as [o w'] eqn:E. exists w'.
  split; [|eapply storage_exists_frame; eauto].
  f_equal. destruct (screenshot_storage w) as [files disk|p c|p c] eqn:Es; simpl.
  - rewrite (storage_exists_local rel _ _ _ Es) in E.
    destruct (disk disk_exists rel); now injection E as <- <-.
  - rewrite (storage_exists_s3 rel _ _ _ Es) in E.
    destruct (client_head_object c (_key p rel)) as [|e];
      [|destruct (s3_not_found e)]; now injection E as <- <-.
  - destruct (storage_exists_seaweed rel _ _ _ Es) as (w1 & E1 & _).
    rewrite E1, Es in E. now injection E as <- <-.
Qed.

Lemma storage_local_path_run rel w :
  exists w', storage_local_path rel w = (local_path_answer (screenshot_storage w) rel, w')
    /\ screenshot_storage w' = screenshot_storage w
    /\ checks w' = checks w /\ outbox w' = outbox w.
Proof.
  unfold storage_local_path, bind, gets, local_path_answer. simpl.
  destruct (screenshot_storage w) as [files disk|p c|p c] eqn:E.
  - destruct (disk disk_local_path rel); exists w; repeat split; eauto.
  - destruct (client_download_fileobj c (_key p rel)).
    + exists w. repeat split; eauto.
    + eexists. split; [reflexivity|]. simpl. auto.
  - destruct (client_download_fileobj c (_key p rel)).
    + exists w. repeat split; eauto.
    + eexists. split; [reflexivity|]. simpl. auto.
Qed.

Lemma local_path_answer_fetch st rel o :
  local_path_answer st rel = Ok o -> fetch st rel = o.
Proof. unfold fetch. now intros ->. Qed.

(** Only the internal gateway guards every probe. *)
Lemma exists_answer_raises st rel e :
  exists_answer st rel = Raise e -> backend_class st <> SeaweedFSClass.
Proof. destruct st; simpl; discriminate. Qed.


Section DiffResults.
Context `{Imaging}.

(** Every way [compute_diff] can end.  It raises only what a call outside
    its [try] block raises; without a score the diff path is empty; with a
    score both images were fetched and decoded, and the diff path is empty
    exactly when the score is not positive. *)
Lemma compute_diff_result env prev curr pid w o w' :
  compute_diff env prev curr pid w = (o, w') ->
  backend_class (screenshot_storage w') = backend_class (screenshot_storage w)
  /\ checks w' = checks w /\ outbox w' = outbox w
  /\ match o with
     | Raise e =>
         Py.truthy prev = true /\ Py.truthy curr = true
         /\ unguarded_error env (screenshot_storage w) prev curr = Some e
     | Ok (d, None) => d = ""
     | Ok (d, Some s) =>
         Py.truthy prev = true /\ Py.truthy curr = true
         /\ exists_answer (screenshot_storage w) prev = Ok true
         /\ exists_answer (screenshot_storage w) curr = Ok true
         /\ exists a b,
              fetch (screenshot_storage w) prev = Some (Img a)
              /\ fetch (screenshot_storage w) curr = Some (Img b)
              /\ s = image_score a b
              /\ d = (if (0 <? s)%Z
                      then _unique_filename (diff_time_ns env) pid "_diff.jpg"
                      else "")
              /\ ((0 <? s)%Z = false -> screenshot_storage w' = screenshot_storage w)
     end.
Proof.
  unfold compute_diff, unguarded_error. intros Hrun.
  destruct (Py.truthy prev) eqn:Tp; simpl in Hrun;
    [|unfold ret in Hrun; injection Hrun as <- <-; auto].
  destruct (Py.truthy curr) eqn:Tc; simpl in Hrun;
    [|unfold ret in Hrun; injection Hrun as <- <-; auto].
  destruct (storage_exists_run prev w) as (w1 & E1 & S1 & C1 & O1).
  destruct (exists_answer (screenshot_storage w) prev) as [b1|e1] eqn:A1.
  2:{ rewrite (bind_raise _ _ _ _ _ E1) in Hrun. injection Hrun as <- <-.
      rewrite S1. repeat split; auto. }
  rewrite (bind_ok _ _ _ _ _ E1) in Hrun.
  destruct b1; simpl in Hrun;
    [|unfold ret in Hrun; injection Hrun as <- <-; rewrite S1; auto].
  destruct (storage_exists_run curr w1) as (w2 & E2 & S2 & C2 & O2).
  rewrite S1 in E2.
  destruct (exists_answer (screenshot_storage w) curr) as [b2|e2] eqn:A2.
  2:{ rewrite (bind_raise _ _ _ _ _ E2) in Hrun. injection Hrun as <- <-.
      rewrite S2, S1. repeat split; auto; congruence. }
  rewrite (bind_ok _ _ _ _ _ E2) in Hrun.
  destruct b2; simpl in Hrun;
    [|unfold ret in Hrun; injection Hrun as <- <-; rewrite S2, S1;
      repeat split; auto; congruence].
  destruct (imagehash_installed env); simpl in Hrun.
  2:{ rewrite (bind_ok _ _ _ _ _ (logger_run _ _ _ _)) in Hrun.
      unfold ret in Hrun. injection Hrun as <- <-. simpl. rewrite S2, S1.
      repeat split; auto; congruence. }
  destruct (storage_local_path_run prev w2) as (w3 & E3 & S3 & C3 & O3).
  rewrite S2, S1 in E3.
  destruct (local_path_answer (screenshot_storage w) prev) as [o1|e1] eqn:L1.
  2:{ rewrite (bind_raise _ _ _ _ _ E3) in Hrun. injection Hrun as <- <-.
      rewrite S3, C3, O3, S2, C2, O2, S1. repeat split; auto. }
  rewrite (bind_ok _ _ _ _ _ E3) in Hrun.
  destruct (storage_local_path_run curr w3) as (w4 & E4 & S4 & C4 & O4).
  rewrite S3, S2, S1 in E4.
  destruct (local_path_answer (screenshot_storage w) curr) as [o2|e2] eqn:L2.
  2:{ rewrite (bind_raise _ _ _ _ _ E4) in Hrun. injection Hrun as <- <-.
      rewrite S4, C4, O4, S3, C3, O3, S2, C2, O2, S1. repeat split; auto. }
  rewrite (bind_ok _ _ _ _ _ E4) in Hrun.
  apply local_path_answer_fetch in L1, L2.
  assert (S4' : screenshot_storage w4 = screenshot_storage w) by congruence.
  assert (C4' : checks w4 = checks w) by congruence.
  assert (O4' : outbox w4 = outbox w) by congruence.
  destruct o1 as [pb|];
    [|unfold ret in Hrun; injection Hrun as <- <-; rewrite S4'; auto].
  destruct o2 as [cb|];
    [|unfold ret in Hrun; injection Hrun as <- <-; rewrite S4'; auto].
  unfold try_except in Hrun.
  destruct (compare_images env pb cb pid w4) as [[[d s]|e] w5] eqn:Ec;
    destruct (compare_images_result _ _ _ _ _ _ _ Ec) as (Hb & Hk & Ho & Hres).
  - injection Hrun as <- <-.
    destruct Hres as (a & b & -> & -> & -> & -> & Hst).
    rewrite Hb, Hk, Ho, S4', C4', O4'. repeat split; auto.
    exists a, b. repeat split; auto. intros Hz. rewrite (Hst Hz). exact S4'.
  - rewrite (bind_ok _ _ _ _ _ (logger_run _ _ _ _)) in Hrun.
    unfold ret in Hrun. injection Hrun as <- <-. simpl.
    rewrite Hb, Hk, Ho, S4', C4', O4'. auto.
Qed.


End DiffResults.

Lemma healthy_answer st rel :
  healthy st -> exists_answer st rel = Ok (bool_decide (is_Some (stored st rel))).
Proof.
  destruct st as [files disk|p c|p c]; simpl; intros Hh;
    [now rewrite Hh| |];
    unfold client_head_object, has_object; rewrite Hh;
    now destruct (bool_decide _).
Qed.

Lemma healthy_local_path_answer st rel :
  healthy st -> local_path_answer st rel = Ok (stored st rel).
Proof.
  destruct st as [files disk|p c|p c]; simpl; intros Hh;
    [now rewrite Hh| |];
    unfold client_download_fileobj; rewrite Hh;
    now destruct (objects c !! _key p rel).
Qed.

Lemma healthy_fetch st rel : healthy st -> fetch st rel = stored st rel.
Proof. intros Hh. unfold fetch. now rewrite healthy_local_path_answer. Qed.





Section DiffFailures.
Context `{Imaging}.


End DiffFailures.


(** It fails on the local disk as well, where the existence check guards
    no filesystem call: a previous path whose name the filesystem refuses
    makes [compute_diff] raise the [OSError]. *)
Lemma compute_diff_propagates_the_error_of_the_filesystem :
  result (compute_diff (diff_env_at 1700000000000000001)
            ("7/" ++ over_long_name) "7/1faa93d4b3.jpg" 7)
         (world_of plain_settings (LocalScreenshotStorage ∅ name_limit_disk) [] [] [])
  = Raise (OSError ENAMETOOLONG).
Proof. reflexivity. Qed.


(** ** The score *)

Lemma hamming_bounds (a b : list bool) :
  (0 <= hamming a b <= Z.of_nat (length a))%Z.
Proof.
  revert b. induction a as [|x a IH]; intros [|y b]; simpl hamming; simpl length;
    try lia.
  specialize (IH b). destruct (Bool.eqb x y); lia.
Qed.

Lemma hamming_zero (a b : list bool) :
  length a = length b -> (hamming a b = 0%Z <-> a = b).
Proof.
  revert b. induction a as [|x a IH]; intros [|y b]; simpl; intros Hl;
    try discriminate; [tauto|].
  injection Hl as Hl. specialize (IH b Hl).
  pose proof (hamming_bounds a b) as Hb.
  destruct (Bool.eqb x y) eqn:E.
  - apply Bool.eqb_prop in E. subst y. split.
    + intros Hz. f_equal. apply IH. lia.
    + intros [= ->]. cut (hamming b b = 0%Z); [lia|]. now apply IH.
  - split; [lia|]. intros [= -> ->]. now rewrite Bool.eqb_reflx in E.
Qed.

(** [hamming] counts the positions at which the two hashes hold
    different bits. *)
Lemma hamming_counts_differing_bits (a b : list bool) :
  hamming a b
  = Z.of_nat (length (List.filter (fun p => xorb (fst p) (snd p)) (combine a b))).
Proof.
  revert b. induction a as [|x a IH]; intros [|y b]; try reflexivity.
  cbn [hamming combine List.filter fst snd]. rewrite IH.
  destruct x, y; cbn [Bool.eqb xorb length]; lia.
Qed.

(** The distances a pair of 64-bit hashes can have. *)
Lemma distance_range (d : Z) :
  (0 <= d <= 64)%Z -> In d (map Z.of_nat (seq 0 65)).
Proof.
  intros Hd. apply in_map_iff. exists (Z.to_nat d). split; [lia|].
  apply in_seq. lia.
Qed.

(** [score_of_distance] is the hundredth nearest to [distance * 100 / 64],
    the even one on a tie; it stays within [0, 100] and vanishes only at
    distance zero. *)
Lemma score_of_distance_spec (d : Z) :
  (0 <= d <= 64)%Z ->
  let s := score_of_distance d in
  (Z.abs (64 * s - 10000 * d) <= 32)%Z
  /\ (Z.abs (64 * s - 10000 * d) = 32 -> Z.even s = true)%Z
  /\ (0 <= s <= 10000)%Z
  /\ (s = 0 <-> d = 0)%Z.
Proof.
  intros Hd.
  assert (Hall : forallb (fun d =>
            let s := score_of_distance d in
            (Z.abs (64 * s - 10000 * d) <=? 32)%Z
            && ((negb (Z.abs (64 * s - 10000 * d) =? 32)%Z) || Z.even s)
            && (0 <=? s)%Z && (s <=? 10000)%Z
            && Bool.eqb (s =? 0)%Z (d =? 0)%Z)
          (map Z.of_nat (seq 0 65)) = true) by (vm_compute; reflexivity).
  rewrite forallb_forall in Hall. specialize (Hall d (distance_range d Hd)).
  cbv zeta in Hall. intros s. fold s in Hall.
  repeat (apply andb_true_iff in Hall as [Hall ?]).
  apply Z.leb_le in Hall. repeat split; try lia.
  intros E. apply orb_true_iff in H2 as [H2|H2]; [|exact H2].
  apply negb_true_iff, Z.eqb_neq in H2. lia.
Qed.

(** ** Padding *)

Lemma pad_to_spec (w h : nat) (img : Image) :
  width (pad_to w h img) = w /\ height (pad_to w h img) = h
  /\ forall x y, getpixel (pad_to w h img) x y =
       if (x <? width img)%nat && (y <? height img)%nat
       then getpixel img x y else white.
Proof. repeat split. Qed.

(** ** A store that answers *)

Lemma storage_save_healthy rel d w :
  healthy (screenshot_storage w) ->
  exists w', storage_save rel d w = (Ok tt, w')
    /\ healthy (screenshot_storage w')
    /\ stored (screenshot_storage w') rel = Some d.
Proof.
  unfold storage_save, bind, gets, modify, logger. simpl.
  destruct (screenshot_storage w) as [files disk|p c|p c] eqn:E; simpl; intros Hh.
  - rewrite Hh. eexists. split; [reflexivity|]. simpl.
    split; [exact Hh|apply lookup_insert_eq].
  - unfold client_put_object. rewrite Hh. simpl.
    eexists. split; [reflexivity|]. simpl. split; [exact Hh|apply lookup_insert_eq].
  - unfold client_put_object. rewrite Hh. simpl.
    eexists. split; [reflexivity|]. simpl. split; [exact Hh|apply lookup_insert_eq].
Qed.

Section DiffScore.
Context `{Imaging}.

Lemma compare_images_healthy env a b pid w :
  healthy (screenshot_storage w) ->
  exists w',
    compare_images env (Img a) (Img b) pid w =
      (Ok (if (0 <? image_score a b)%Z
           then _unique_filename (diff_time_ns env) pid "_diff.jpg" else "",
           Some (image_score a b)), w')
    /\ ((0 <? image_score a b)%Z = true ->
        is_Some (stored (screenshot_storage w')
                   (_unique_filename (diff_time_ns env) pid "_diff.jpg"))).
Proof.
  intros Hh. unfold compare_images, Image_open.
  rewrite (bind_ok _ _ w a w eq_refl), (bind_ok _ _ w b w eq_refl).
  cbv beta zeta. change (score_of_distance _) with (image_score a b).
  destruct (0 <? image_score a b)%Z eqn:Hs.
  - destruct (storage_save_healthy
                (_unique_filename (diff_time_ns env) pid "_diff.jpg")
                (Img (jpeg JPEG_QUALITY
                        (highlight
                           (pad_to (Nat.max (width a) (width b))
                              (Nat.max (height a) (height b)) a)
                           (pad_to (Nat.max (width a) (width b))
                              (Nat.max (height a) (height b)) b)))) w Hh)
      as (w1 & Es & Hh1 & Hst).
    eexists. split.
    + erewrite bind_ok; [|erewrite bind_ok; [|exact Es]; erewrite bind_ok;
                          [|apply logger_run]; reflexivity].
      erewrite bind_ok; [|apply logger_run]. reflexivity.
    + intros _. simpl. rewrite Hst. eauto.
  - eexists. split; [|discriminate].
    erewrite bind_ok; [|reflexivity].
    erewrite bind_ok; [|apply logger_run]. reflexivity.
Qed.

Lemma compute_diff_healthy env prev curr pid w a b :
  healthy (screenshot_storage w) ->
  Py.truthy prev = true -> Py.truthy curr = true ->
  imagehash_installed env = true ->
  stored (screenshot_storage w) prev = Some (Img a) ->
  stored (screenshot_storage w) curr = Some (Img b) ->
  exists w',
    compute_diff env prev curr pid w =
      (Ok (if (0 <? image_score a b)%Z
           then _unique_filename (diff_time_ns env) pid "_diff.jpg" else "",
           Some (image_score a b)), w')
    /\ ((0 <? image_score a b)%Z = true ->
        is_Some (stored (screenshot_storage w')
                   (_unique_filename (diff_time_ns env) pid "_diff.jpg"))).
Proof.
  intros Hh Tp Tc Hi Sp Sc. unfold compute_diff. rewrite Tp, Tc, Hi. simpl.
  destruct (storage_exists_run prev w) as (w1 & E1 & S1 & _).
  rewrite (healthy_answer _ _ Hh), Sp in E1.
  rewrite (bind_ok _ _ _ _ _ E1). simpl.
  destruct (storage_exists_run curr w1) as (w2 & E2 & S2 & _).
  rewrite S1, (healthy_answer _ _ Hh), Sc in E2.
  rewrite (bind_ok _ _ _ _ _ E2). simpl.
  destruct (storage_local_path_run prev w2) as (w3 & E3 & S3 & _).
  rewrite S2, S1, (healthy_local_path_answer _ _ Hh), Sp in E3.
  rewrite (bind_ok _ _ _ _ _ E3).
  destruct (storage_local_path_run curr w3) as (w4 & E4 & S4 & _).
  rewrite S3, S2, S1, (healthy_local_path_answer _ _ Hh), Sc in E4.
  rewrite (bind_ok _ _ _ _ _ E4).
  assert (Hh4 : healthy (screenshot_storage w4)) by (rewrite S4, S3, S2, S1; exact Hh).
  destruct (compare_images_healthy env a b pid w4 Hh4) as (w5 & E5 & Hst).
  exists w5. split; [|exact Hst]. unfold try_except. now rewrite E5.
Qed.

End DiffScore.

Section DiffScoreClaim.
Context `{Imaging}.

(** C8.  When both paths hold decodable images and the store answers,
    [compute_diff] pastes each image at the top-left corner of a white canvas
    as wide and as high as the larger of the two, hashes both canvases, and
    returns [round((distance / 64) * 100, 2)], the distance being the
    number of the 64 positions at which the two hashes hold different
    bits: the score is the hundredth nearest to [distance * 100 / 64], the
    even one on a tie.  It lies in [0, 100] and is zero exactly when the
    hashes are equal; the diff path is empty exactly then. *)
Theorem compute_diff_score_is_scaled_hash_distance
    (env : DiffEnv) (prev curr : string) (pid : Z) (w : World) (a b : Image) :
  (forall img, length (phash img) = 64%nat) ->
  healthy (screenshot_storage w) ->
  Py.truthy prev = true -> Py.truthy curr = true ->
  imagehash_installed env = true ->
  stored (screenshot_storage w) prev = Some (Img a) ->
  stored (screenshot_storage w) curr = Some (Img b) ->
  let cw := Nat.max (width a) (width b) in
  let ch := Nat.max (height a) (height b) in
  let canvas (img : Image) : Image :=
    {| width := cw; height := ch;
       getpixel := fun x y =>
         if (x <? width img)%nat && (y <? height img)%nat
         then getpixel img x y else white |} in
  let differing : list (bool * bool) :=
    List.filter (fun bits => xorb (fst bits) (snd bits))
      (combine (phash (canvas a)) (phash (canvas b))) in
  let distance := Z.of_nat (length differing) in
  exists d s w',
    compute_diff env prev curr pid w = (Ok (d, Some s), w')
    /\ length (combine (phash (canvas a)) (phash (canvas b))) = 64%nat
    /\ s = round_half_even ((inject_Z distance / 64) * 100 * 100)%Q
    /\ (0 <= distance <= 64)%Z
    /\ (Z.abs (64 * s - 10000 * distance) <= 32)%Z
    /\ (Z.abs (64 * s - 10000 * distance) = 32 -> Z.even s = true)%Z
    /\ (0 <= s <= 10000)%Z
    /\ (s = 0%Z <-> phash (canvas a) = phash (canvas b))
    /\ (d = "" <-> s = 0%Z).
Proof.
  intros H64 Hh Tp Tc Hi Sp Sc cw ch canvas differing distance.
  destruct (compute_diff_healthy env prev curr pid w a b Hh Tp Tc Hi Sp Sc)
    as (w' & E & _).
  assert (Hham : hamming (phash (canvas a)) (phash (canvas b)) = distance)
    by apply hamming_counts_differing_bits.
  assert (Hs : image_score a b = score_of_distance distance).
  { rewrite <- Hham. reflexivity. }
  assert (Hd : (0 <= distance <= 64)%Z).
  { pose proof (hamming_bounds (phash (canvas a)) (phash (canvas b))) as Hb.
    rewrite H64, Hham in Hb. exact Hb. }
  destruct (score_of_distance_spec distance Hd) as (Hnear & Htie & Hrange & Hzero).
  rewrite Hs in E.
  exists (if (0 <? score_of_distance distance)%Z
          then _unique_filename (diff_time_ns env) pid "_diff.jpg" else ""),
         (score_of_distance distance), w'.
  split; [exact E|].
  split; [rewrite length_combine, !H64; reflexivity|].
  split; [reflexivity|].
  repeat split; try assumption; try lia.
  - intros Hz. apply (hamming_zero (phash (canvas a)) (phash (canvas b)));
      [now rewrite !H64|]. rewrite Hham. now apply Hzero.
  - intros He. apply Hzero. rewrite <- Hham.
    apply (hamming_zero (phash (canvas a)) (phash (canvas b))); [now rewrite !H64|exact He].
  - destruct (0 <? score_of_distance distance)%Z eqn:Hp.
    + intros Hn. exfalso. revert Hn. unfold _unique_filename, Py.os_path_join.
      destruct (Py.starts_with_slash _) eqn:Hsl.
      * destruct (String.substring 0 10 _); discriminate.
      * destruct (_ || _); [|].
        -- destruct (Py.str pid); [destruct (String.substring 0 10 _)|]; discriminate.
        -- destruct (Py.str pid); discriminate.
    + intros _. apply Z.ltb_ge in Hp. lia.
  - intros Hz. now rewrite Hz.
Qed.

End DiffScoreClaim.

Lemma plain_phash_length (img : Image) : length (phash img) = 64%nat.
Proof.
  change (length (map (sample_bit img) (seq 0 64)) = 64%nat).
  now rewrite length_map, length_seq.
Qed.

(** Two screenshots of 8 by 8 pixels that differ in their first pixel:
    with the hash of the examples one of the 64 bits differs, and the
    score is 1.56, the hundredth nearest to 1.5625. *)
Lemma compute_diff_score_is_scaled_hash_distance_witness :
  exists d s w',
    compute_diff (diff_env_at 1700000000000000001)
      "7/c743f35ac6.jpg" "7/1faa93d4b3.jpg" 7
      (world_of plain_settings near_shots [] [] []) = (Ok (d, Some s), w')
    /\ s = 156%Z.
Proof.
  destruct (compute_diff_score_is_scaled_hash_distance
              (diff_env_at 1700000000000000001)
              "7/c743f35ac6.jpg" "7/1faa93d4b3.jpg" 7
              (world_of plain_settings near_shots [] [] []) gray8 dotted8
              plain_phash_length (fun _ _ => eq_refl)
              eq_refl eq_refl eq_refl eq_refl eq_refl)
    as (d & s & w' & E & _ & Hs & _).
  exists d, s, w'. split; [exact E|]. rewrite Hs. vm_compute. reflexivity.
Defined.

(** ** Frames *)

Lemma same_service_refl st : same_service st st.
Proof. destruct st; constructor; reflexivity. Qed.

Lemma same_service_trans a b c :
  same_service a b -> same_service b c -> same_service a c.
Proof.
  intros Hab Hbc. destruct Hab; inversion Hbc; subst; constructor; congruence.
Qed.

Lemma same_service_class a b : same_service a b -> backend_class b = backend_class a.
Proof. now destruct 1. Qed.

Lemma same_service_healthy a b : same_service a b -> healthy a -> healthy b.
Proof. destruct 1 as [| ? ? ? Hf _ | ? ? ? Hf _]; simpl; auto; now rewrite Hf. Qed.

Lemma same_service_delete_answers a b rel :
  same_service a b -> delete_answers a rel -> delete_answers b rel.
Proof. destruct 1 as [| ? ? ? Hf _ | ? ? ? Hf _]; simpl; auto; now rewrite Hf. Qed.

Lemma frame_refl w : frame w w.
Proof. unfold frame. repeat split; auto using same_service_refl. Qed.

Lemma frame_trans a b c : frame a b -> frame b c -> frame a c.
Proof.
  unfold frame. intros (S1 & ? & ? & ? & ? & ?) (S2 & ? & ? & ? & ? & ?).
  split; [eapply same_service_trans; eauto|]. repeat split; congruence.
Qed.

Lemma frame_set_log l w : frame w (set_log l w).
Proof. unfold frame. simpl. repeat split; auto using same_service_refl. Qed.

Lemma frame_set_storage st w :
  same_service (screenshot_storage w) st -> frame w (set_storage st w).
Proof. unfold frame. simpl. repeat split; auto. Qed.

Lemma preserves_ret {A} (a : A) : preserves frame (ret a).
Proof. intros w o w' [= <- <-]. apply frame_refl. Qed.

Lemma preserves_raise {A} e : preserves frame (@raise A e).
Proof. intros w o w' [= <- <-]. apply frame_refl. Qed.

Lemma preserves_gets {A} (f : World -> A) : preserves frame (gets f).
Proof. intros w o w' [= <- <-]. apply frame_refl. Qed.

Lemma preserves_logger l f a : preserves frame (logger l f a).
Proof. intros w o w'. rewrite logger_run. intros [= <- <-]. apply frame_set_log. Qed.

Lemma preserves_bind {A B} (m : M A) (k : A -> M B) :
  preserves frame m -> (forall a, preserves frame (k a)) -> preserves frame (bind m k).
Proof.
  intros Hm Hk w o w' E.
  apply bind_inv in E as [(a & w1 & E1 & E2)|(e & E1 & ->)].
  - eapply frame_trans; [eapply Hm|eapply Hk]; eauto.
  - eapply Hm; eauto.
Qed.

Lemma preserves_try_except {A} (m : M A) (h : exn -> M A) :
  preserves frame m -> (forall e, preserves frame (h e)) ->
  preserves frame (try_except m h).
Proof.
  intros Hm Hh w o w' E. unfold try_except in E.
  destruct (m w) as [[a|e] w1] eqn:E1.
  - injection E as <- <-. eapply Hm; eauto.
  - eapply frame_trans; [eapply Hm|eapply Hh]; eauto.
Qed.

Lemma preserves_of_option {A} e (o : option A) : preserves frame (of_option e o).
Proof. destruct o; [apply preserves_ret|apply preserves_raise]. Qed.

Lemma preserves_when b m : preserves frame m -> preserves frame (when b m).
Proof. destruct b; [auto|intros _; apply preserves_ret]. Qed.

Lemma preserves_storage_exists rel : preserves frame (storage_exists rel).
Proof.
  unfold storage_exists. apply preserves_bind; [apply preserves_gets|].
  intros [files disk|p c|p c].
  - destruct (disk disk_exists rel); [apply preserves_raise|apply preserves_ret].
  - destruct (client_head_object c (_key p rel)) as [|[code| | | | | | | | |]];
      try apply preserves_ret; try apply preserves_raise.
    destruct (str_in code _); [apply preserves_ret|apply preserves_raise].
  - destruct (client_head_object c (_key p rel)) as [|[code| | | | | | | | |]];
      try apply preserves_ret;
      try (apply preserves_bind; [apply preserves_logger|intros ?; apply preserves_ret]).
    destruct (str_in code _); [apply preserves_ret|].
    apply preserves_bind; [apply preserves_logger|intros ?; apply preserves_ret].
Qed.

Lemma preserves_storage_local_path rel : preserves frame (storage_local_path rel).
Proof.
  unfold storage_local_path. apply preserves_bind; [apply preserves_gets|].
  intros [files disk|p c|p c];
    [destruct (disk disk_local_path rel); [apply preserves_raise|apply preserves_ret]| |];
    destruct (client_download_fileobj c (_key p rel)); try apply preserves_ret;
    (apply preserves_bind; [apply preserves_logger|intros ?; apply preserves_ret]).
Qed.

Lemma preserves_storage_save rel d : preserves frame (storage_save rel d).
Proof.
  intros w o w'. unfold storage_save, bind, gets, modify, logger. simpl.
  destruct (screenshot_storage w) as [files disk|p c|p c] eqn:E; simpl.
  - destruct (disk disk_save rel); intros [= <- <-]; [apply frame_refl|].
    apply frame_set_storage. rewrite E. constructor.
  - unfold client_put_object. destruct (fault c put_object _); simpl;
      intros [= <- <-].
    + apply frame_set_log.
    + eapply frame_trans; [|apply frame_set_log].
      apply frame_set_storage. rewrite E. now constructor.
  - unfold client_put_object. destruct (fault c put_object _); simpl;
      intros [= <- <-].
    + apply frame_set_log.
    + eapply frame_trans; [|apply frame_set_log].
      apply frame_set_storage. rewrite E. now constructor.
Qed.

Lemma preserves_storage_delete rel : preserves frame (storage_delete rel).
Proof.
  intros w o w'. unfold storage_delete.
  destruct (Py.truthy rel); simpl; [|intros [= <- <-]; apply frame_refl].
  unfold bind, gets, modify, logger. simpl.
  destruct (screenshot_storage w) as [files disk|p c|p c] eqn:E; simpl.
  - destruct (disk disk_delete rel); intros [= <- <-]; [apply frame_set_log|].
    apply frame_set_storage. rewrite E. constructor.
  - unfold client_delete_object. destruct (fault c delete_object _); simpl;
      intros [= <- <-].
    + apply frame_set_log.
    + eapply frame_trans; [|apply frame_set_log].
      apply frame_set_storage. rewrite E. now constructor.
  - unfold client_delete_object. destruct (fault c delete_object _); simpl;
      intros [= <- <-].
    + apply frame_set_log.
    + eapply frame_trans; [|apply frame_set_log].
      apply frame_set_storage. rewrite E. now constructor.
Qed.

Lemma preserves_delete_screenshot_file rel :
  preserves frame (delete_screenshot_file rel).
Proof. apply preserves_when, preserves_storage_delete. Qed.

Lemma preserves_Image_open b : preserves frame (Image_open b).
Proof. destruct b; [apply preserves_ret|apply preserves_raise]. Qed.

Lemma preserves_Image_crop img l u r d : preserves frame (Image_crop img l u r d).
Proof.
  unfold Image_crop. destruct (_ || _); [apply preserves_raise|apply preserves_ret].
Qed.

Ltac frame_step :=
  first
    [ apply preserves_ret | apply preserves_raise | apply preserves_gets
    | apply preserves_logger | apply preserves_storage_exists
    | apply preserves_storage_local_path | apply preserves_storage_save
    | apply preserves_storage_delete | apply preserves_delete_screenshot_file
    | apply preserves_of_option | apply preserves_Image_open
    | apply preserves_Image_crop
    | apply preserves_when
    | apply preserves_bind; [|intros ?]
    | apply preserves_try_except; [|intros ?]
    | progress cbv zeta
    | match goal with
      | |- preserves _ (if ?b then _ else _) => destruct b
      | |- preserves _ (match ?x with _ => _ end) => destruct x
      end ].

Ltac frame_auto := repeat frame_step.

Section CaptureFrame.
Context `{Imaging}.

Lemma preserves_create_thumbnail rel pid : preserves frame (create_thumbnail rel pid).
Proof.
  unfold create_thumbnail. frame_auto.
Qed.

Lemma preserves_crop_to_region rel pid : preserves frame (_crop_to_region rel pid).
Proof.
  unfold _crop_to_region. frame_auto.
Qed.

Lemma preserves_capture_screenshot env u pid :
  preserves frame (capture_screenshot env u pid).
Proof.
  unfold capture_screenshot. frame_auto.
Qed.

Lemma preserves_compare_images env pb cb pid :
  preserves frame (compare_images env pb cb pid).
Proof.
  unfold compare_images. frame_auto.
Qed.

Lemma preserves_compute_diff env prev curr pid :
  preserves frame (compute_diff env prev curr pid).
Proof.
  unfold compute_diff. frame_auto.
Qed.

End CaptureFrame.

(** ** Deleting *)

Lemma storage_delete_gone rel w o w' :
  storage_delete rel w = (o, w') ->
  o = Ok tt
  /\ (Py.truthy rel = true -> delete_answers (screenshot_storage w) rel ->
      stored (screenshot_storage w') rel = None)
  /\ (forall r, stored (screenshot_storage w) r = None ->
                stored (screenshot_storage w') r = None).
Proof.
  unfold storage_delete.
  destruct (Py.truthy rel); simpl; [|intros [= <- <-]; repeat split; auto; discriminate].
  unfold bind, gets, modify, logger. simpl.
  destruct (screenshot_storage w) as [files disk|p c|p c] eqn:E; simpl.
  - destruct (disk disk_delete rel) eqn:Hf; intros [= <- <-]; simpl;
      rewrite ?E; simpl; repeat split; auto; try discriminate.
    + intros _ _. apply lookup_delete_eq.
    + intros r Hr. rewrite lookup_delete. now destruct (decide _).
  - unfold client_delete_object.
    destruct (fault c delete_object _) eqn:Hf; simpl; intros [= <- <-]; simpl;
      rewrite ?E; simpl; repeat split; auto; try discriminate.
    + intros _ _. apply lookup_delete_eq.
    + intros r Hr. rewrite lookup_delete. now destruct (decide _).
  - unfold client_delete_object.
    destruct (fault c delete_object _) eqn:Hf; simpl; intros [= <- <-]; simpl;
      rewrite ?E; simpl; repeat split; auto; try discriminate.
    + intros _ _. apply lookup_delete_eq.
    + intros r Hr. rewrite lookup_delete. now destruct (decide _).
Qed.

Lemma delete_screenshot_file_gone rel w o w' :
  delete_screenshot_file rel w = (o, w') ->
  o = Ok tt
  /\ (Py.truthy rel = true -> delete_answers (screenshot_storage w) rel ->
      stored (screenshot_storage w') rel = None)
  /\ (forall r, stored (screenshot_storage w) r = None ->
                stored (screenshot_storage w') r = None).
Proof.
  unfold delete_screenshot_file, when. destruct (Py.truthy rel) eqn:T.
  - intros E. destruct (storage_delete_gone _ _ _ _ E) as (Ho & Hg & Hk).
    rewrite T in Hg. auto.
  - intros [= <- <-]. repeat split; auto. discriminate.
Qed.

(** ** One check *)

(** The insert: what the engine raises for a column it refuses, an
    [IntegrityError] for a page whose row is gone, and otherwise the row
    under a fresh key at the end of the table. *)
Lemma objects_create_run c w :
  objects_create c w =
    match DATABASE_ENGINE (settings w) c with
    | Some e => (Raise e, w)
    | None =>
        if page_exists (page_id c) (pages w) then
          let row := with_pk (fresh_pk (checks w)) c in
          (Ok row, set_checks (checks w ++ [row]) w)
        else (Raise IntegrityError, w)
    end.
Proof.
  unfold objects_create, bind, gets, modify, ret, raise. simpl.
  destruct (DATABASE_ENGINE _ _); [reflexivity|].
  now destruct (page_exists _ _).
Qed.

Lemma try_statements_cons on_error s r l w :
  try_statements on_error (s :: r) l w =
    match s l w with
    | (Ok l', w1) => try_statements on_error r l' w1
    | (Raise _, w1) => (Ok (on_error l), w1)
    end.
Proof.
  unfold try_statements; fold try_statements.
  unfold bind, try_except, ret. now destruct (s l w) as [[l'|e] w1].
Qed.

Lemma try_statements_nil on_error l w : try_statements on_error [] l w = (Ok l, w).
Proof. reflexivity. Qed.

Section ExecutorProperties.
Context `{Imaging}.

(** The statements from the diff on, when the block ends with a score of
    zero: the diff was made against the previous check, it left no diff
    image, the captured files were deleted and the previous paths taken. *)
Lemma diff_and_reuse_zero on_error page env l1 w1 l w' :
  (forall x, diff_score_ (on_error x) = diff_score_ x) ->
  try_statements on_error (diff_and_reuse page env) l1 w1 = (Ok l, w') ->
  diff_score_ l1 = None ->
  diff_score_ l = Some 0%Z ->
  exists lc,
    last_check l1 = Some lc
    /\ Py.truthy (screenshot_rel l1) = true
    /\ diff_rel l = ""
    /\ screenshot_rel l = screenshot_path lc
    /\ crop_rel l = crop_path lc
    /\ frame w1 w'
    /\ (delete_answers (screenshot_storage w1) (screenshot_rel l1) ->
        stored (screenshot_storage w') (screenshot_rel l1) = None)
    /\ (Py.truthy (crop_rel l1) = true ->
        delete_answers (screenshot_storage w1) (crop_rel l1) ->
        stored (screenshot_storage w') (crop_rel l1) = None).
Proof.
  intros Herr Hrun Hnone Hzero. unfold diff_and_reuse in Hrun.
  assert (Hidle : forall x w0,
            diff_wanted x && score_is_zero x = false ->
            try_statements on_error
              [delete_new_screenshot; delete_new_crop; reuse_previous] x w0
            = (Ok x, w0)).
  { intros x w0 Hc. rewrite try_statements_cons. unfold delete_new_screenshot.
    rewrite Hc. unfold ret at 1. rewrite try_statements_cons.
    unfold delete_new_crop. rewrite Hc. cbn [andb]. unfold ret at 1.
    rewrite try_statements_cons. unfold reuse_previous. rewrite Hc.
    unfold ret at 1. apply try_statements_nil. }
  rewrite try_statements_cons in Hrun. unfold diff_step in Hrun.
  destruct (diff_wanted l1) eqn:Hw.
  2:{ unfold ret at 1 in Hrun. rewrite Hidle in Hrun by (now rewrite Hw).
      injection Hrun as <- <-. congruence. }
  unfold diff_wanted in Hw.
  destruct (last_check l1) as [lc|] eqn:Hlast; [|discriminate Hw].
  apply andb_true_iff in Hw as [Tshot Tlc].
  destruct (compute_diff (diff_env env)
              (Py.str_or (last_crop l1) (last_screenshot l1))
              (Py.str_or (crop_rel l1) (screenshot_rel l1)) (page_pk page) w1)
    as [[[d s]|e] w2] eqn:Ed.
  2:{ rewrite (bind_raise _ _ _ _ _ Ed) in Hrun. injection Hrun as <- <-.
      rewrite Herr in Hzero. congruence. }
  rewrite (bind_ok _ _ _ _ _ Ed) in Hrun. unfold ret at 1 in Hrun.
  cbn [fst snd] in Hrun.
  pose proof (preserves_compute_diff _ _ _ _ _ _ _ Ed) as F2.
  destruct (compute_diff_result _ _ _ _ _ _ _ Ed) as (_ & _ & _ & Hres).
  set (l2 := set_diff d s l1) in *.
  assert (Hwanted : diff_wanted l2 = true).
  { unfold diff_wanted, l2. simpl. now rewrite Hlast, Tshot, Tlc. }
  destruct (score_is_zero l2) eqn:Hz.
  2:{ rewrite Hidle in Hrun by (now rewrite Hwanted, Hz).
      injection Hrun as <- <-. unfold score_is_zero in Hz. rewrite Hzero in Hz.
      discriminate Hz. }
  assert (Hs : s = Some 0%Z).
  { unfold score_is_zero, l2 in Hz. simpl in Hz. destruct s as [z|]; [|discriminate].
    apply Z.eqb_eq in Hz. now subst. }
  subst s. destruct Hres as (_ & _ & _ & _ & a & b & _ & _ & _ & Hd & Hst).
  cbn in Hd. subst d.
  rewrite try_statements_cons in Hrun. unfold delete_new_screenshot in Hrun.
  rewrite Hwanted, Hz in Hrun. cbn [andb] in Hrun.
  change (screenshot_rel l2) with (screenshot_rel l1) in Hrun.
  destruct (delete_screenshot_file (screenshot_rel l1) w2) as [o3 w3] eqn:E3.
  destruct (delete_screenshot_file_gone _ _ _ _ E3) as (-> & G3 & K3).
  pose proof (preserves_delete_screenshot_file _ _ _ _ E3) as F3.
  rewrite (bind_ok _ _ _ _ _ E3) in Hrun. unfold ret at 1 in Hrun.
  assert (F13 : frame w1 w3) by exact (frame_trans _ _ _ F2 F3).
  rewrite try_statements_cons in Hrun. unfold delete_new_crop in Hrun.
  rewrite Hwanted, Hz in Hrun. cbn [andb] in Hrun.
  change (crop_rel l2) with (crop_rel l1) in Hrun.
  assert (Hend : forall w4, frame w3 w4 ->
            (forall r, stored (screenshot_storage w3) r = None ->
                       stored (screenshot_storage w4) r = None) ->
            (Py.truthy (crop_rel l1) = true ->
             delete_answers (screenshot_storage w3) (crop_rel l1) ->
             stored (screenshot_storage w4) (crop_rel l1) = None) ->
            try_statements on_error [reuse_previous] l2 w4 = (Ok l, w') ->
            exists lc0, Some lc = Some lc0
              /\ Py.truthy (screenshot_rel l1) = true
              /\ diff_rel l = ""
              /\ screenshot_rel l = screenshot_path lc0
              /\ crop_rel l = crop_path lc0
              /\ frame w1 w'
              /\ (delete_answers (screenshot_storage w1) (screenshot_rel l1) ->
                  stored (screenshot_storage w') (screenshot_rel l1) = None)
              /\ (Py.truthy (crop_rel l1) = true ->
                  delete_answers (screenshot_storage w1) (crop_rel l1) ->
                  stored (screenshot_storage w') (crop_rel l1) = None)).
  { intros w4 F4 K4 G4 Hlast_step.
    rewrite try_statements_cons in Hlast_step. unfold reuse_previous in Hlast_step.
    rewrite Hwanted, Hz in Hlast_step. cbn [andb] in Hlast_step.
    unfold ret at 1 in Hlast_step. rewrite try_statements_nil in Hlast_step.
    injection Hlast_step as <- <-. exists lc.
    unfold last_screenshot, last_crop, l2. simpl. rewrite Hlast.
    split; [reflexivity|]. split; [exact Tshot|]. split; [reflexivity|].
    split; [reflexivity|]. split; [reflexivity|].
    split; [exact (frame_trans _ _ _ F13 F4)|]. split.
    - intros Hd. apply K4, G3; [exact Tshot|].
      eapply same_service_delete_answers; [apply F2|exact Hd].
    - intros Tc Hd. apply G4; [exact Tc|].
      eapply same_service_delete_answers; [apply F13|exact Hd]. }
  destruct (Py.truthy (crop_rel l1)) eqn:Tcrop.
  - destruct (delete_screenshot_file (crop_rel l1) w3) as [o4 w4] eqn:E4.
    destruct (delete_screenshot_file_gone _ _ _ _ E4) as (-> & G4 & K4).
    pose proof (preserves_delete_screenshot_file _ _ _ _ E4) as F4.
    rewrite (bind_ok _ _ _ _ _ E4) in Hrun. unfold ret at 1 in Hrun.
    apply (Hend w4 F4 K4); [|exact Hrun]. intros _ Hd. now apply G4.
  - unfold ret at 1 in Hrun.
    apply (Hend w3 (frame_refl w3)); [auto|discriminate|exact Hrun].
Qed.

Lemma read_last_check_run page l w :
  read_last_check page l w = (Ok (set_last_check (head (history page w)) l), w).
Proof. reflexivity. Qed.

(** The block of [_run_single_check], ending with a score of zero. *)
Lemma screenshot_block_zero page env w l w' :
  try_statements (fun x => x) (screenshot_block page env) initial_locals w = (Ok l, w') ->
  diff_score_ l = Some 0%Z ->
  exists lc shot crop w1,
    head (history page w) = Some lc
    /\ capture_screenshot (capture_env env) (url page) (page_pk page) w
       = (Ok (shot, crop), w1)
    /\ Py.truthy shot = true
    /\ diff_rel l = ""
    /\ screenshot_rel l = screenshot_path lc
    /\ crop_rel l = crop_path lc
    /\ frame w w'
    /\ (delete_answers (screenshot_storage w) shot ->
        stored (screenshot_storage w') shot = None)
    /\ (Py.truthy crop = true -> delete_answers (screenshot_storage w) crop ->
        stored (screenshot_storage w') crop = None).
Proof.
  unfold screenshot_block. intros Hrun Hzero.
  rewrite try_statements_cons, read_last_check_run in Hrun.
  rewrite try_statements_cons in Hrun. unfold capture_step in Hrun.
  destruct (capture_screenshot (capture_env env) (url page) (page_pk page) w)
    as [[[shot crop]|e] w1] eqn:Ecap.
  2:{ rewrite (bind_raise _ _ _ _ _ Ecap) in Hrun. injection Hrun as <- <-.
      discriminate Hzero. }
  rewrite (bind_ok _ _ _ _ _ Ecap) in Hrun. unfold ret at 1 in Hrun.
  cbn [fst snd] in Hrun.
  pose proof (preserves_capture_screenshot _ _ _ _ _ _ Ecap) as F1.
  destruct (diff_and_reuse_zero _ _ _ _ _ _ _ (fun x => eq_refl) Hrun eq_refl Hzero)
    as (lc & Hlast & Tshot & Hd & Hs & Hc & F2 & Gs & Gc).
  simpl in Hlast, Tshot, Gs, Gc.
  exists lc, shot, crop, w1.
  split; [exact Hlast|]. split; [reflexivity|]. split; [exact Tshot|].
  split; [exact Hd|]. split; [exact Hs|]. split; [exact Hc|].
  split; [exact (frame_trans _ _ _ F1 F2)|]. split.
  - intros Hdel. apply Gs. eapply same_service_delete_answers; [apply F1|exact Hdel].
  - intros Tc Hdel. apply Gc; [exact Tc|].
    eapply same_service_delete_answers; [apply F1|exact Hdel].
Qed.

(** The block of [_perform_single_check], ending with a score of zero. *)
Lemma view_screenshot_block_zero page env w l w' :
  try_statements forget_crop (view_screenshot_block page env) initial_locals w
    = (Ok l, w') ->
  diff_score_ l = Some 0%Z ->
  exists lc shot crop w1,
    head (history page w) = Some lc
    /\ capture_screenshot (capture_env env) (url page) (page_pk page) w
       = (Ok (shot, crop), w1)
    /\ Py.truthy shot = true
    /\ diff_rel l = ""
    /\ screenshot_rel l = screenshot_path lc
    /\ crop_rel l = crop_path lc
    /\ frame w w'
    /\ (delete_answers (screenshot_storage w) shot ->
        stored (screenshot_storage w') shot = None)
    /\ (Py.truthy crop = true -> delete_answers (screenshot_storage w) crop ->
        stored (screenshot_storage w') crop = None).
Proof.
  unfold view_screenshot_block. intros Hrun Hzero.
  rewrite try_statements_cons in Hrun. unfold capture_step in Hrun.
  destruct (capture_screenshot (capture_env env) (url page) (page_pk page) w)
    as [[[shot crop]|e] w1] eqn:Ecap.
  2:{ rewrite (bind_raise _ _ _ _ _ Ecap) in Hrun. injection Hrun as <- <-.
      discriminate Hzero. }
  rewrite (bind_ok _ _ _ _ _ Ecap) in Hrun. unfold ret at 1 in Hrun.
  cbn [fst snd] in Hrun.
  pose proof (preserves_capture_screenshot _ _ _ _ _ _ Ecap) as F1.
  rewrite try_statements_cons, read_last_check_run in Hrun.
  assert (Hh : history page w1 = history page w).
  { unfold history. f_equal. f_equal. apply F1. }
  rewrite Hh in Hrun.
  destruct (diff_and_reuse_zero forget_crop _ _ _ _ _ _ (fun x => eq_refl) Hrun
              eq_refl Hzero)
    as (lc & Hlast & Tshot & Hd & Hs & Hc & F2 & Gs & Gc).
  simpl in Hlast, Tshot, Gs, Gc.
  exists lc, shot, crop, w1.
  split; [exact Hlast|]. split; [reflexivity|]. split; [exact Tshot|].
  split; [exact Hd|]. split; [exact Hs|]. split; [exact Hc|].
  split; [exact (frame_trans _ _ _ F1 F2)|]. split.
  - intros Hdel. apply Gs. eapply same_service_delete_answers; [apply F1|exact Hdel].
  - intros Tc Hdel. apply Gc; [exact Tc|].
    eapply same_service_delete_answers; [apply F1|exact Hdel].
Qed.

(** What either executor persists when its block ended in [l]. *)
Lemma persisted_row page env status up msg l w row w' :
  objects_create (new_check page env status up msg l) w = (Ok row, w') ->
  checks w' = (checks w ++ [row])%list
  /\ screenshot_storage w' = screenshot_storage w
  /\ screenshot_path row = screenshot_rel l /\ crop_path row = crop_rel l
  /\ diff_path row = diff_rel l /\ diff_score row = diff_score_ l.
Proof.
  rewrite objects_create_run.
  destruct (DATABASE_ENGINE _ _); [discriminate|].
  destruct (page_exists _ _); [|discriminate].
  intros [= <- <-]. simpl. repeat split.
Qed.

End ExecutorProperties.

Section ZeroScoreClaim.
Context `{Imaging}.

(** C4.  A check persisted with a diff score of zero, by the scheduler's
    executor or by the one behind the views, has an empty diff path; the
    executor captured a screenshot for it, deleted that screenshot and its
    crop from the store again, and stored in the new check the screenshot
    path and the crop path of the page's previous check, so both checks
    name the same stored file. *)
Theorem zero_score_reuses_previous_screenshot
    (page : MonitoredPage) (env : CheckEnv) (w w' : World)
    (l : Locals) (latest : MonitoredPageCheck) :
  probe_and_persist page env w = (Ok (l, latest), w')
  \/ (exists force_screenshot,
        perform_and_persist page env force_screenshot w = (Ok (l, latest), w')) ->
  diff_score latest = Some 0%Z ->
  diff_path latest = ""
  /\ checks w' = (checks w ++ [latest])%list
  /\ exists last_check shot crop w1,
       head (history page w) = Some last_check
       /\ capture_screenshot (capture_env env) (url page) (page_pk page) w
          = (Ok (shot, crop), w1)
       /\ shot <> ""
       /\ screenshot_path latest = screenshot_path last_check
       /\ crop_path latest = crop_path last_check
       /\ (delete_answers (screenshot_storage w) shot ->
           stored (screenshot_storage w') shot = None)
       /\ (crop <> "" -> delete_answers (screenshot_storage w) crop ->
           stored (screenshot_storage w') crop = None).
Proof.
  intros Hrun Hzero.
  assert (Hblock : exists status up msg w1,
            objects_create (new_check page env status up msg l) w1 = (Ok latest, w')
            /\ exists lc shot crop w0,
                 head (history page w) = Some lc
                 /\ capture_screenshot (capture_env env) (url page) (page_pk page) w
                    = (Ok (shot, crop), w0)
                 /\ Py.truthy shot = true
                 /\ diff_rel l = ""
                 /\ screenshot_rel l = screenshot_path lc
                 /\ crop_rel l = crop_path lc
                 /\ frame w w1
                 /\ (delete_answers (screenshot_storage w) shot ->
                     stored (screenshot_storage w1) shot = None)
                 /\ (Py.truthy crop = true ->
                     delete_answers (screenshot_storage w) crop ->
                     stored (screenshot_storage w1) crop = None)).
  { destruct Hrun as [Hrun|[force Hrun]].
    - unfold probe_and_persist in Hrun.
      destruct (check_url (probe env)) as [[status up] msg].
      apply bind_inv in Hrun as [(l1 & w1 & Hb & Hrun)|(e & _ & [=])].
      apply bind_inv in Hrun as [(row & w2 & Hcreate & Hrun)|(e & _ & [=])].
      unfold ret in Hrun. injection Hrun as <- <- <-.
      exists status, up, msg, w1. split; [exact Hcreate|].
      destruct (persisted_row _ _ _ _ _ _ _ _ _ Hcreate) as (_ & _ & _ & _ & _ & Hsc).
      rewrite Hsc in Hzero.
      destruct (screenshot_enabled page && up).
      + eapply screenshot_block_zero; eauto.
      + unfold ret in Hb. injection Hb as <- <-. discriminate Hzero.
    - unfold perform_and_persist in Hrun.
      destruct (probe_outcome (probe env)) as [[status up] msg].
      apply bind_inv in Hrun as [(l1 & w1 & Hb & Hrun)|(e & _ & [=])].
      apply bind_inv in Hrun as [(row & w2 & Hcreate & Hrun)|(e & _ & [=])].
      unfold ret in Hrun. injection Hrun as <- <- <-.
      exists status, up, msg, w1. split; [exact Hcreate|].
      destruct (persisted_row _ _ _ _ _ _ _ _ _ Hcreate) as (_ & _ & _ & _ & _ & Hsc).
      rewrite Hsc in Hzero.
      destruct ((screenshot_enabled page || force) && up).
      + eapply view_screenshot_block_zero; eauto.
      + unfold ret in Hb. injection Hb as <- <-. discriminate Hzero. }
  destruct Hblock as (status & up & msg & w1 & Hcreate & lc & shot & crop & w0 &
                      Hlast & Hcap & Tshot & Hd & Hs & Hc & Hf & Gs & Gc).
  destruct (persisted_row _ _ _ _ _ _ _ _ _ Hcreate)
    as (Hrows & Hst & Eshot & Ecrop & Ediff & _).
  destruct Hf as (_ & Hchecks & _).
  split; [congruence|]. split; [now rewrite Hrows, Hchecks|].
  exists lc, shot, crop, w0. rewrite Hst. repeat split; auto; try congruence.
  - now apply truthy_spec.
  - intros Hn. apply Gc. now apply truthy_spec.
Qed.

End ZeroScoreClaim.

(** The unchanged page: the second check scores zero and names the first
    check's screenshot. *)
Lemma zero_score_reuses_previous_screenshot_witness :
  exists l latest w',
    probe_and_persist (page_of alice true 2) (steady_env 2) steady_world
      = (Ok (l, latest), w')
    /\ diff_score latest = Some 0%Z
    /\ diff_path latest = ""
    /\ screenshot_path latest = "7/c743f35ac6.jpg"
    /\ stored (screenshot_storage w') "7/a5da0e8a43.jpg" = None.
Proof.
  destruct (probe_and_persist (page_of alice true 2) (steady_env 2) steady_world)
    as [[[l latest]|e] w'] eqn:E.
  - assert (E1 : result (probe_and_persist (page_of alice true 2) (steady_env 2))
                   steady_world = Ok (l, latest))
      by (unfold result; now rewrite E).
    vm_compute in E1. injection E1 as <- <-.
    destruct (zero_score_reuses_previous_screenshot _ _ _ _ _ _ (or_introl E) eq_refl)
      as (Hd & Hc & lc & shot & crop & w1 & Hl & Hcap & Hs & Hp & Hcr & Gs & Gc).
    assert (E2 : result (capture_screenshot (capture_env (steady_env 2))
                           (url (page_of alice true 2))
                           (page_pk (page_of alice true 2))) steady_world
                 = Ok (shot, crop))
      by (unfold result; now rewrite Hcap).
    vm_compute in E2. injection E2 as <- <-.
    eexists _, _, w'. split; [reflexivity|]. repeat split. apply Gs. reflexivity.
  - exfalso.
    assert (E1 : result (probe_and_persist (page_of alice true 2) (steady_env 2))
                   steady_world = Raise e)
      by (unfold result; now rewrite E).
    vm_compute in E1. discriminate E1.
Defined.

(** ** Pruning *)

Lemma clear_paths_idem c : clear_paths (clear_paths c) = clear_paths c.
Proof. reflexivity. Qed.

Lemma save_cleared_same_rows key rows :
  map clear_paths (save_cleared key rows) = map clear_paths rows.
Proof.
  unfold save_cleared. rewrite map_map. apply map_ext. intros c.
  now destruct (pk c =? key)%Z.
Qed.

Lemma save_cleared_pks key rows : map pk (save_cleared key rows) = map pk rows.
Proof.
  unfold save_cleared. rewrite map_map. apply map_ext. intros c.
  now destruct (pk c =? key)%Z.
Qed.

(** One turn of the loop: the three files and the thumbnail are deleted
    where the backend carries the delete out, nothing is added to the
    store, and the row with the check's key has its three paths cleared. *)
Lemma prune_check_run c w o w' :
  prune_check c w = (o, w') ->
  same_service (screenshot_storage w) (screenshot_storage w')
  /\ outbox w' = outbox w
  /\ settings w' = settings w
  /\ (forall r, stored (screenshot_storage w) r = None ->
                stored (screenshot_storage w') r = None)
  /\ match o with
     | Ok _ =>
         checks w' = save_cleared (pk c) (checks w)
         /\ forall p, In p (artifact_paths c) -> Py.truthy p = true ->
              delete_answers (screenshot_storage w) p ->
              stored (screenshot_storage w') p = None
     | Raise _ => checks w' = checks w
     end.
Proof.
  unfold prune_check. intros Hrun.
  apply bind_inv in Hrun as [([] & w1 & E1 & Hrun)|(e & E1 & ->)].
  2:{ destruct (delete_screenshot_file_gone _ _ _ _ E1) as ([=] & _). }
  apply bind_inv in Hrun as [([] & w2 & E2 & Hrun)|(e & E2 & ->)].
  2:{ destruct (delete_screenshot_file_gone _ _ _ _ E2) as ([=] & _). }
  apply bind_inv in Hrun as [([] & w3 & E3 & Hrun)|(e & E3 & ->)].
  2:{ destruct (delete_screenshot_file_gone _ _ _ _ E3) as ([=] & _). }
  destruct (delete_screenshot_file_gone _ _ _ _ E1) as (_ & G1 & K1).
  destruct (delete_screenshot_file_gone _ _ _ _ E2) as (_ & G2 & K2).
  destruct (delete_screenshot_file_gone _ _ _ _ E3) as (_ & G3 & K3).
  pose proof (preserves_delete_screenshot_file _ _ _ _ E1) as F1.
  pose proof (preserves_delete_screenshot_file _ _ _ _ E2) as F2.
  pose proof (preserves_delete_screenshot_file _ _ _ _ E3) as F3.
  assert (F12 : frame w w2) by exact (frame_trans _ _ _ F1 F2).
  assert (F13 : frame w w3) by exact (frame_trans _ _ _ F12 F3).
  assert (D1 : forall p, delete_answers (screenshot_storage w) p ->
                         delete_answers (screenshot_storage w1) p)
    by (intros p; apply same_service_delete_answers, F1).
  assert (D2 : forall p, delete_answers (screenshot_storage w) p ->
                         delete_answers (screenshot_storage w2) p)
    by (intros p; apply same_service_delete_answers, F12).
  assert (D3 : forall p, delete_answers (screenshot_storage w) p ->
                         delete_answers (screenshot_storage w3) p)
    by (intros p; apply same_service_delete_answers, F13).
  apply bind_inv in Hrun as [([] & w4 & E4 & Hrun)|(e & E4 & ->)].
  - unfold modify in Hrun. injection Hrun as <- <-. simpl.
    assert (F34 : frame w3 w4 /\
              (forall r, stored (screenshot_storage w3) r = None ->
                         stored (screenshot_storage w4) r = None) /\
              (forall t, _thumb_rel (screenshot_path c) = Some t ->
                 Py.truthy (screenshot_path c) = true -> Py.truthy t = true ->
                 delete_answers (screenshot_storage w3) t ->
                 stored (screenshot_storage w4) t = None)).
    { destruct (Py.truthy (screenshot_path c)).
      - apply bind_inv in E4 as [(t & w' & Et & E4)|(e & Et & [=])].
        destruct (_thumb_rel (screenshot_path c)) as [t'|]; [|discriminate Et].
        unfold of_option, ret in Et. injection Et as <- <-.
        destruct (delete_screenshot_file_gone _ _ _ _ E4) as (_ & G4 & K4).
        split; [eapply preserves_delete_screenshot_file; eauto|]. split; [exact K4|].
        intros t [= <-] _ Tt Hd. now apply G4.
      - unfold ret in E4. injection E4 as <-. split; [apply frame_refl|].
        split; [auto|]. discriminate. }
    destruct F34 as (F34 & K4 & G4).
    assert (F14 : frame w w4) by exact (frame_trans _ _ _ F13 F34).
    split; [apply F14|]. split; [apply F14|]. split; [apply F14|].
    split; [intros r Hr; apply K4, K3, K2, K1, Hr|].
    split; [f_equal; apply F14|].
    intros p Hin Tp Hd. unfold artifact_paths in Hin.
    destruct Hin as [<-|[<-|[<-|Hin]]].
    + apply K4, K3, K2, G1; auto.
    + apply K4, K3, G2; auto.
    + apply K4, G3; auto.
    + destruct (_thumb_rel (screenshot_path c)) as [t|] eqn:Et; [|destruct Hin].
      destruct (Py.truthy (screenshot_path c)) eqn:Ts; [|destruct Hin].
      destruct Hin as [<-|[]]. apply (G4 t); auto.
  - assert (F34 : frame w3 w' /\
              (forall r, stored (screenshot_storage w3) r = None ->
                         stored (screenshot_storage w') r = None)).
    { destruct (Py.truthy (screenshot_path c)).
      - apply bind_inv in E4 as [(t & w4 & Et & E4)|(e' & Et & _)].
        + destruct (delete_screenshot_file_gone _ _ _ _ E4) as ([=] & _).
        + destruct (_thumb_rel (screenshot_path c)); [discriminate Et|].
          unfold of_option, raise in Et. injection Et as <- <-.
          split; [apply frame_refl|auto].
      - discriminate E4. }
    destruct F34 as (F34 & K4).
    assert (F14 : frame w w') by exact (frame_trans _ _ _ F13 F34).
    split; [apply F14|]. split; [apply F14|]. split; [apply F14|].
    split; [intros r Hr; apply K4, K3, K2, K1, Hr|]. apply F14.
Qed.

Lemma for_each_cons {A} (x : A) r body :
  for_each (x :: r) body = bind (body x) (fun _ => for_each r body).
Proof. reflexivity. Qed.

Lemma for_each_nil {A} (body : A -> M unit) w : for_each [] body w = (Ok tt, w).
Proof. reflexivity. Qed.

Lemma clear_keys_nil rows : clear_keys [] rows = rows.
Proof. unfold clear_keys. simpl. apply map_id. Qed.

Lemma clear_keys_save key keys rows :
  clear_keys keys (save_cleared key rows) = clear_keys (key :: keys) rows.
Proof.
  unfold clear_keys, save_cleared. rewrite map_map. apply map_ext. intros c.
  simpl. destruct (pk c =? key)%Z eqn:E; simpl; [|reflexivity].
  now destruct (existsb _ keys).
Qed.

(** The loop of [cleanup_old_screenshots] over the rows to prune. *)
Lemma for_each_prune_run l : forall w o w',
  for_each l prune_check w = (o, w') ->
  same_service (screenshot_storage w) (screenshot_storage w')
  /\ outbox w' = outbox w
  /\ settings w' = settings w
  /\ (forall r, stored (screenshot_storage w) r = None ->
                stored (screenshot_storage w') r = None)
  /\ map clear_paths (checks w') = map clear_paths (checks w)
  /\ (o = Ok tt ->
      checks w' = clear_keys (map pk l) (checks w)
      /\ forall c p, In c l -> In p (artifact_paths c) -> Py.truthy p = true ->
           delete_answers (screenshot_storage w) p ->
           stored (screenshot_storage w') p = None).
Proof.
  induction l as [|c l IH]; intros w o w' Hrun.
  - rewrite for_each_nil in Hrun. injection Hrun as <- <-.
    repeat split; auto using same_service_refl.
    + now rewrite clear_keys_nil.
    + intros c p [].
  - rewrite for_each_cons in Hrun.
    apply bind_inv in Hrun as [([] & w1 & E1 & Hrun)|(e & E1 & ->)].
    + destruct (prune_check_run _ _ _ _ E1) as (S1 & O1 & T1 & K1 & C1 & G1).
      destruct (IH _ _ _ Hrun) as (S2 & O2 & T2 & K2 & R2 & Hok).
      split; [eapply same_service_trans; eauto|].
      split; [congruence|]. split; [congruence|].
      split; [intros r Hr; apply K2, K1, Hr|].
      split; [rewrite R2, C1; apply save_cleared_same_rows|].
      intros ->. destruct (Hok eq_refl) as (C2 & G2). split.
      * rewrite C2, C1. simpl. apply clear_keys_save.
      * intros c' p [<-|Hin] Hp Tp Hd.
        -- apply K2. eapply G1; eauto.
        -- eapply G2; eauto. eapply same_service_delete_answers; eauto.
    + destruct (prune_check_run _ _ _ _ E1) as (S1 & O1 & T1 & K1 & C1).
      repeat split; auto; [now rewrite C1|discriminate|discriminate].
Qed.

Lemma In_drop {A} (x : A) n l : In x (drop n l) -> In x l.
Proof.
  revert n. induction l as [|y l IH]; intros n Hx.
  - rewrite drop_nil in Hx. destruct Hx.
  - destruct n; simpl in Hx; [exact Hx|]. right. eapply IH; eauto.
Qed.

Lemma newest_first_split (l : list MonitoredPageCheck) n :
  newest_first l ->
  forall k p, In k (take n l) -> In p (drop n l) -> (checked_at p <= checked_at k)%Z.
Proof.
  unfold newest_first. intros Hs. revert n.
  induction Hs as [|d r Hr IH Hd]; intros n k p Hk Hp.
  - rewrite drop_nil in Hp. destruct Hp.
  - destruct n as [|n]; simpl in Hk, Hp; [destruct Hk|].
    destruct Hk as [<-|Hk]; [|eapply IH; eauto].
    rewrite Forall_forall in Hd. apply Hd.
    apply list_elem_of_In. eapply In_drop; eauto.
Qed.

(** What [cleanup_old_screenshots] does to the table and the store.  No
    row is added or deleted and nothing but the three path fields changes;
    with at most [limit] artifact-bearing rows nothing changes at all;
    otherwise the rows beyond the first [limit], none of them newer than a
    row among the first [limit], have their paths cleared and their files
    deleted, and no file is added. *)
Lemma cleanup_old_screenshots_spec page w o w' :
  cleanup_old_screenshots page w = (o, w') ->
  let limit := retention_limit w in
  let kept := take (Z.to_nat limit) (artifact_checks page w) in
  let pruned := drop (Z.to_nat limit) (artifact_checks page w) in
  map clear_paths (checks w') = map clear_paths (checks w)
  /\ outbox w' = outbox w
  /\ (forall r, stored (screenshot_storage w) r = None ->
                stored (screenshot_storage w') r = None)
  /\ length pruned = (length (artifact_checks page w) - Z.to_nat limit)%nat
  /\ (forall k p, In k kept -> In p pruned -> (checked_at p <= checked_at k)%Z)
  /\ ((0 <= limit)%Z -> (Z.of_nat (length (artifact_checks page w)) <= limit)%Z ->
      (o, w') = (Ok tt, w))
  /\ (o = Ok tt ->
      checks w' = clear_keys (map pk pruned) (checks w)
      /\ forall c p, In c pruned -> In p (artifact_paths c) -> Py.truthy p = true ->
           delete_answers (screenshot_storage w) p ->
           stored (screenshot_storage w') p = None).
Proof.
  intros Hrun limit kept pruned.
  unfold cleanup_old_screenshots, bind, gets in Hrun. simpl in Hrun.
  fold (retention_limit w) in Hrun. fold limit in Hrun.
  fold (artifact_checks page w) in Hrun. fold pruned in Hrun.
  assert (Hlen : length pruned = (length (artifact_checks page w) - Z.to_nat limit)%nat)
    by apply length_drop.
  assert (Hold : forall k p, In k kept -> In p pruned ->
                             (checked_at p <= checked_at k)%Z)
    by (apply newest_first_split, order_by_sorted).
  destruct (limit <? 0)%Z eqn:Hneg.
  - unfold raise in Hrun. injection Hrun as <- <-.
    repeat split; auto; try discriminate; intros; apply Z.ltb_lt in Hneg; lia.
  - destruct (for_each_prune_run _ _ _ _ Hrun) as (S1 & O1 & T1 & K1 & R1 & Hok).
    repeat split; auto; try (now apply Hok).
    intros Hpos Hfew.
    assert (Hnil : pruned = []).
    { apply length_zero_iff_nil. rewrite Hlen. lia. }
    rewrite Hnil, for_each_nil in Hrun. now injection Hrun as <- <-.
Qed.

Lemma pk_injective (rows : list MonitoredPageCheck) :
  NoDup (map pk rows) ->
  forall a b, In a rows -> In b rows -> pk a = pk b -> a = b.
Proof.
  induction rows as [|c rows IH]; intros Hnd a b Ha Hb E; [destruct Ha|].
  simpl in Hnd. apply NoDup_cons in Hnd as [Hc Hnd].
  destruct Ha as [<-|Ha], Hb as [<-|Hb]; auto.
  - exfalso. apply Hc. rewrite E. apply list_elem_of_In. now apply in_map.
  - exfalso. apply Hc. rewrite <- E. apply list_elem_of_In. now apply in_map.
Qed.

Lemma artifact_checks_in page w c :
  In c (artifact_checks page w) <->
  In c (checks w) /\ page_id c = page_pk page /\ screenshot_path c <> "".
Proof.
  unfold artifact_checks, page_checks. split.
  - intros Hin. eapply Permutation_in in Hin; [|apply order_by_perm].
    apply filter_In in Hin as [Hin Hs]. apply filter_In in Hin as [Hin Hp].
    apply Z.eqb_eq in Hp. apply truthy_spec in Hs. auto.
  - intros (Hin & Hp & Hs). eapply Permutation_in; [symmetry; apply order_by_perm|].
    apply filter_In. split; [|now apply truthy_spec].
    apply filter_In. split; [exact Hin|now apply Z.eqb_eq].
Qed.

Lemma artifact_checks_nodup page w :
  NoDup (map pk (checks w)) -> NoDup (artifact_checks page w).
Proof.
  intros Hnd. unfold artifact_checks, page_checks.
  apply NoDup_ListNoDup.
  eapply Permutation_NoDup; [symmetry; apply order_by_perm|].
  apply List.NoDup_filter, List.NoDup_filter.
  apply NoDup_ListNoDup. eapply NoDup_fmap_1. exact Hnd.
Qed.

(** With distinct primary keys, a successful prune leaves the rows among the
    first [limit] as they were, paths included, and replaces each row beyond
    them by the same row with its three paths cleared. *)
Lemma cleanup_old_screenshots_rows page w w' :
  NoDup (map pk (checks w)) ->
  cleanup_old_screenshots page w = (Ok tt, w') ->
  let limit := retention_limit w in
  (forall k, In k (take (Z.to_nat limit) (artifact_checks page w)) ->
     In k (checks w') /\ screenshot_path k <> "")
  /\ (forall c, In c (drop (Z.to_nat limit) (artifact_checks page w)) ->
     In (clear_paths c) (checks w'))
  /\ (forall c, In c (checks w) -> ~ In c (artifact_checks page w) -> In c (checks w')).
Proof.
  intros Hnd Hrun limit.
  destruct (cleanup_old_screenshots_spec _ _ _ _ Hrun) as (_ & _ & _ & _ & _ & _ & Hok).
  destruct (Hok eq_refl) as (Hrows & _). fold limit in Hrows.
  set (arts := artifact_checks page w) in *.
  assert (Hsplit : NoDup (take (Z.to_nat limit) arts ++ drop (Z.to_nat limit) arts))
    by (rewrite take_drop; now apply artifact_checks_nodup).
  apply NoDup_app in Hsplit as (_ & Hdisj & _).
  assert (Hsub : forall c n, In c (drop n arts) -> In c (checks w)).
  { intros c n Hin. apply In_drop in Hin. now apply artifact_checks_in in Hin. }
  assert (Hkey : forall c, In c (checks w) ->
            existsb (Z.eqb (pk c)) (map pk (drop (Z.to_nat limit) arts)) = true
            <-> In c (drop (Z.to_nat limit) arts)).
  { intros c Hc. rewrite existsb_exists. split.
    - intros (key & Hin & E). apply Z.eqb_eq in E. subst key.
      apply in_map_iff in Hin as (p & E & Hp).
      rewrite (pk_injective _ Hnd c p Hc (Hsub _ _ Hp)); auto.
    - intros Hin. exists (pk c). split; [now apply in_map|apply Z.eqb_refl]. }
  assert (Hmap : forall c, In c (checks w) ->
            In (if existsb (Z.eqb (pk c)) (map pk (drop (Z.to_nat limit) arts))
                then clear_paths c else c) (checks w')).
  { intros c Hc. rewrite Hrows. unfold clear_keys.
    apply in_map_iff. exists c. auto. }
  split; [|split].
  - intros k Hk.
    assert (Hka : In k arts).
    { rewrite <- (take_drop (Z.to_nat limit) arts). apply in_or_app. now left. }
    apply artifact_checks_in in Hka as (Hkw & _ & Hks). split; [|exact Hks].
    specialize (Hmap k Hkw).
    destruct (existsb _ _) eqn:E; [|exact Hmap].
    exfalso. apply (Hkey k Hkw) in E.
    apply (Hdisj k); now apply list_elem_of_In.
  - intros c Hc. pose proof (Hsub _ _ Hc) as Hcw. specialize (Hmap c Hcw).
    now rewrite (proj2 (Hkey c Hcw) Hc) in Hmap.
  - intros c Hc Hna. specialize (Hmap c Hc).
    destruct (existsb _ _) eqn:E; [|exact Hmap].
    exfalso. apply Hna. apply (Hkey c Hc) in E. eapply In_drop; eauto.
Qed.

(** C2 fails on the code.  On a zero score the executor stores the previous
    check's screenshot path in the new check, so the checks of a page that
    does not change all name one file.  Here such a page has been checked
    thirty times; the thirty-first check brings the artifact-bearing rows to
    31 with the default limit of 30, and the prune that follows deletes the
    file of the oldest row, which is the file the thirty newest rows name:
    they keep their non-empty paths, but the store no longer has the file. *)
Theorem prune_deletes_the_screenshot_the_newest_checks_share :
  let page := page_of alice true 2 in
  let before := final (probe_and_persist page (steady_env 31))
                      (check_repeatedly 29 2 steady_world) in
  let after := final (cleanup_old_screenshots page) before in
  retention_limit before = 30%Z
  /\ map screenshot_path (artifact_checks page before)
     = repeat "7/c743f35ac6.jpg" 31
  /\ stored (screenshot_storage before) "7/c743f35ac6.jpg" = Some (Img gray)
  /\ result (cleanup_old_screenshots page) before = Ok tt
  /\ map screenshot_path (history page after)
     = (repeat "7/c743f35ac6.jpg" 30 ++ [""])%list
  /\ stored (screenshot_storage after) "7/c743f35ac6.jpg" = None
  /\ checks after = checks (check_repeatedly 30 2 steady_world).
Proof. vm_compute. repeat split. Qed.

(** ** Artifact names *)

Lemma chars_app a b : Py.chars (a ++ b) = (Py.chars a ++ Py.chars b)%list.
Proof. induction a as [|c a IH]; simpl; [reflexivity|]. now rewrite IH. Qed.

Lemma of_chars_chars s : Py.of_chars (Py.chars s) = s.
Proof. apply string_of_list_ascii_of_string. Qed.

Lemma chars_of_chars l : Py.chars (Py.of_chars l) = l.
Proof. apply list_ascii_of_string_of_list_ascii. Qed.

Lemma of_chars_app a b : Py.of_chars (a ++ b) = Py.of_chars a ++ Py.of_chars b.
Proof. induction a as [|c a IH]; simpl; [reflexivity|]. now rewrite IH. Qed.

Lemma split_chars_none sep cur l :
  ~ In sep l -> Py.split_chars sep cur l = [(rev cur ++ l)%list].
Proof.
  revert cur. induction l as [|x l IH]; intros cur Hn; simpl.
  - now rewrite app_nil_r.
  - destruct (Ascii.eqb x sep) eqn:E.
    + apply Ascii.eqb_eq in E. subst. exfalso. apply Hn. now left.
    + rewrite IH by (intros Hin; apply Hn; now right).
      simpl. now rewrite <- app_assoc.
Qed.

Lemma split_chars_at sep cur l1 l2 :
  ~ In sep l1 ->
  Py.split_chars sep cur (l1 ++ sep :: l2)
  = ((rev cur ++ l1) :: Py.split_chars sep [] l2)%list.
Proof.
  revert cur. induction l1 as [|x l IH]; intros cur Hn; simpl.
  - rewrite Ascii.eqb_refl. now rewrite app_nil_r.
  - destruct (Ascii.eqb x sep) eqn:E.
    + apply Ascii.eqb_eq in E. subst. exfalso. apply Hn. now left.
    + rewrite IH by (intros Hin; apply Hn; now right).
      simpl. now rewrite <- app_assoc.
Qed.

Lemma rfind_dot_none l i found :
  ~ In "."%char l -> Py.rfind_dot l i found = found.
Proof.
  revert i found. induction l as [|x l IH]; intros i found Hn; simpl; [reflexivity|].
  destruct (Ascii.eqb x ".") eqn:E.
  - apply Ascii.eqb_eq in E. subst. exfalso. apply Hn. now left.
  - apply IH. intros Hin. apply Hn. now right.
Qed.

Lemma rfind_dot_last s e i found :
  ~ In "."%char s -> ~ In "."%char e ->
  Py.rfind_dot (s ++ "."%char :: e) i found = Some (i + length s)%nat.
Proof.
  revert i found. induction s as [|x s IH]; intros i found Hs He; simpl.
  - rewrite rfind_dot_none by exact He. f_equal. lia.
  - destruct (Ascii.eqb x ".") eqn:E.
    + apply Ascii.eqb_eq in E. subst. exfalso. apply Hs. now left.
    + rewrite IH; [f_equal; lia| |exact He]. intros Hin. apply Hs. now right.
Qed.

Lemma chars_nonempty s : s <> "" -> Py.chars s <> [].
Proof. destruct s; [congruence|discriminate]. Qed.

(** The sibling of [dir/stem.ext] with a given tail is [dir/stem] followed
    by the tail. *)
Lemma sibling_name_shape dir stem ext tail :
  component dir -> component stem -> component ext ->
  sibling_name (dir ++ "/" ++ stem ++ "." ++ ext) tail
  = Some (dir ++ "/" ++ stem ++ tail).
Proof.
  intros (Hd0 & Hd1 & Hd2) (Hs0 & Hs1 & Hs2) (He0 & He1 & He2).
  set (rest := stem ++ "." ++ ext).
  assert (Hrest : Py.chars rest = (Py.chars stem ++ "."%char :: Py.chars ext)%list)
    by (unfold rest; now rewrite chars_app).
  assert (Hrs : ~ In "/"%char (Py.chars rest)).
  { rewrite Hrest. intros Hin. apply in_app_or in Hin as [Hin|[Hin|Hin]];
      [auto|discriminate|auto]. }
  assert (Hsplit : Py.split "/" (dir ++ "/" ++ rest) = [dir; rest]).
  { unfold Py.split. rewrite chars_app. simpl Py.chars at 2.
    change (Py.chars (String "/" rest)) with ("/"%char :: Py.chars rest).
    rewrite split_chars_at by exact Hd1. rewrite split_chars_none by exact Hrs.
    simpl. now rewrite !of_chars_chars. }
  assert (Hroot : Py.count_leading_slashes (dir ++ "/" ++ rest) = 0%nat).
  { unfold Py.count_leading_slashes. rewrite chars_app.
    destruct (Py.chars dir) as [|c l] eqn:Ec; [now apply chars_nonempty in Hd0|].
    simpl. destruct (Ascii.eqb c "/") eqn:E; [|simpl; lia].
    apply Ascii.eqb_eq in E. subst. exfalso. apply Hd1. now left. }
  assert (Hrne : rest <> "") by (unfold rest; destruct stem; discriminate).
  assert (Hrnd : rest <> ".").
  { unfold rest. destruct stem as [|c s]; [congruence|]. simpl.
    destruct s; simpl; [|discriminate]. destruct ext; [congruence|discriminate]. }
  assert (Hdnd : dir <> ".").
  { intros ->. apply Hd2. now left. }
  assert (Hnames : Py.names (Py.mkPath (dir ++ "/" ++ rest)) = [dir; rest]).
  { unfold Py.mkPath. simpl Py.names. rewrite Hsplit.
    rewrite filter_cons_True by auto. rewrite filter_cons_True by auto.
    reflexivity. }
  assert (Hr : Py.root (Py.mkPath (dir ++ "/" ++ rest)) = "").
  { unfold Py.mkPath. simpl Py.root. now rewrite Hroot. }
  assert (Hname : Py.name (Py.mkPath (dir ++ "/" ++ rest)) = rest).
  { unfold Py.name. now rewrite Hnames. }
  assert (Hstem : Py.stem (Py.mkPath (dir ++ "/" ++ rest)) = stem).
  { unfold Py.stem. rewrite Hname, Hrest. rewrite rfind_dot_last by assumption.
    simpl Nat.add.
    assert (0 < length (Py.chars stem))%nat.
    { destruct (Py.chars stem) eqn:E; [now apply chars_nonempty in Hs0|simpl; lia]. }
    assert (0 < length (Py.chars ext))%nat.
    { destruct (Py.chars ext) eqn:E; [now apply chars_nonempty in He0|simpl; lia]. }
    replace (0 <? length (Py.chars stem))%nat with true
      by (symmetry; apply Nat.ltb_lt; lia).
    replace (length (Py.chars stem) <?
             length (Py.chars stem ++ "."%char :: Py.chars ext) - 1)%nat with true
      by (symmetry; apply Nat.ltb_lt; rewrite length_app; simpl; lia).
    simpl andb. cbv iota. rewrite take_app_length. apply of_chars_chars. }
  unfold sibling_name, Py.with_name. fold rest.
  rewrite Hname, Hstem, Hnames, Hr.
  replace (Py.truthy rest) with true by (symmetry; now apply truthy_spec).
  simpl. unfold Py.to_str. simpl.
  destruct dir; [congruence|reflexivity].
Qed.

Lemma try_except_inv {A} (m : M A) (h : exn -> M A) w o w' :
  try_except m h w = (o, w') ->
  (exists a, m w = (Ok a, w') /\ o = Ok a)
  \/ (exists e w1, m w = (Raise e, w1) /\ h e w1 = (o, w')).
Proof.
  unfold try_except. destruct (m w) as [[a|e] w1].
  - intros [= <- <-]. left. eauto.
  - intros E. right. eauto.
Qed.

Lemma log_then_ret {A} l f a (x : A) w o w' :
  bind (logger l f a) (fun _ => ret x) w = (o, w') -> o = Ok x.
Proof.
  rewrite (bind_ok _ _ _ _ _ (logger_run _ _ _ _)). now intros [= <- <-].
Qed.

Section Names.
Context `{Imaging}.

(** A thumbnail is stored under the name [_thumb_rel] derives from its
    source. *)
Lemma create_thumbnail_name source pid w r w' :
  create_thumbnail source pid w = (Ok r, w') ->
  r = "" \/ _thumb_rel source = Some r.
Proof.
  unfold create_thumbnail. intros Hrun.
  apply bind_inv in Hrun as [(t & w1 & Et & Hrun)|(e & _ & [=])].
  destruct (_thumb_rel source) as [t'|]; [|discriminate Et].
  injection Et as <- <-.
  apply bind_inv in Hrun as [(present & w2 & _ & Hrun)|(e & _ & [=])].
  destruct present; [injection Hrun as <- <-; now right|].
  apply try_except_inv in Hrun as [(a & Hm & [= <-])|(e & w3 & _ & Hh)].
  2:{ apply log_then_ret in Hh. injection Hh as <-. now left. }
  apply bind_inv in Hm as [(local & w3 & _ & Hm)|(e & _ & [=])].
  destruct local as [b|]; [|injection Hm as <- <-; now left].
  apply bind_inv in Hm as [(img & w4 & _ & Hm)|(e & _ & [=])].
  apply bind_inv in Hm as [([] & w5 & _ & Hm)|(e & _ & [=])].
  apply bind_inv in Hm as [([] & w6 & _ & Hm)|(e & _ & [=])].
  apply bind_inv in Hm as [([] & w7 & _ & Hm)|(e & _ & [=])].
  injection Hm as <- <-. now right.
Qed.

(** A crop is stored under the sibling name of the full screenshot. *)
Lemma crop_to_region_name full pid w c w' :
  _crop_to_region full pid w = (Ok (Some c), w') ->
  sibling_name full "_crop.jpg" = Some c.
Proof.
  unfold _crop_to_region. intros Hrun.
  apply bind_inv in Hrun as [(ps & w1 & _ & Hrun)|(e & _ & [=])].
  destruct (List.find _ ps) as [page|]; [|discriminate Hrun].
  destruct (_ && _); [discriminate Hrun|].
  apply try_except_inv in Hrun as [(a & Hm & [= <-])|(e & w3 & _ & Hh)].
  2:{ apply log_then_ret in Hh. discriminate Hh. }
  apply bind_inv in Hm as [(local & w3 & _ & Hm)|(e & _ & [=])].
  destruct local as [b|]; [|discriminate Hm].
  apply bind_inv in Hm as [(img & w4 & _ & Hm)|(e & _ & [=])].
  apply bind_inv in Hm as [(cropped & w5 & _ & Hm)|(e & _ & [=])].
  apply bind_inv in Hm as [(crop_rel & w6 & Ec & Hm)|(e & _ & [=])].
  destruct (sibling_name full "_crop.jpg") as [c'|]; [|discriminate Ec].
  injection Ec as <- <-.
  apply bind_inv in Hm as [([] & w7 & _ & Hm)|(e & _ & [=])].
  apply bind_inv in Hm as [([] & w8 & _ & Hm)|(e & _ & [=])].
  injection Hm as <- <-. reflexivity.
Qed.

(** What [capture_screenshot] returns: nothing, or a freshly named
    screenshot with, possibly, its crop. *)
Lemma capture_screenshot_names env u pid w shot crop w' :
  capture_screenshot env u pid w = (Ok (shot, crop), w') ->
  (shot = "" /\ crop = "")
  \/ (shot = _unique_filename (capture_time_ns env) pid ".jpg"
      /\ (crop = "" \/ sibling_name shot "_crop.jpg" = Some crop)).
Proof.
  unfold capture_screenshot. intros Hrun.
  destruct (playwright_installed env); simpl in Hrun.
  2:{ apply log_then_ret in Hrun. injection Hrun as <- <-. now left. }
  apply try_except_inv in Hrun as [(a & Hm & [= <-])|(e & w3 & _ & Hh)].
  2:{ apply log_then_ret in Hh. injection Hh as <- <-. now left. }
  apply bind_inv in Hm as [(raw & w1 & _ & Hm)|(e & _ & [=])].
  apply bind_inv in Hm as [([] & w2 & _ & Hm)|(e & _ & [=])].
  apply bind_inv in Hm as [([] & w3 & _ & Hm)|(e & _ & [=])].
  apply bind_inv in Hm as [(c & w4 & Hc & Hm)|(e & _ & [=])].
  apply bind_inv in Hm as [(t & w5 & _ & Hm)|(e & _ & [=])].
  injection Hm as <- <- <-. right. split; [reflexivity|].
  destruct c as [c|]; [right|now left].
  eapply crop_to_region_name; eauto.
Qed.

End Names.

(** C6, as stated, fails for the diff image: [compute_diff] names it after
    the clock, so the same pair of screenshots compared at two moments
    yields two different diff names, neither of them the base path's stem
    followed by [_diff]. *)
Lemma diff_image_name_is_not_derived_from_the_base_path :
  let w := world_of plain_settings two_shots [] [] [] in
  let base := "7/1faa93d4b3.jpg" in
  result (compute_diff (diff_env_at 1700000000000000002) "7/c743f35ac6.jpg" base 7) w
    = Ok ("7/a5da0e8a43_diff.jpg", Some 10000%Z)
  /\ result (compute_diff (diff_env_at 1700000000000000003) "7/c743f35ac6.jpg" base 7) w
    = Ok ("7/1c167016de_diff.jpg", Some 10000%Z)
  /\ sibling_name base "_diff.jpg" = Some "7/1faa93d4b3_diff.jpg".
Proof. vm_compute. repeat split. Qed.

Section NamesClaim.
Context `{Imaging}.

(** C6 (amended).  The crop and the thumbnail of a base screenshot
    [<pageId>/<opaqueId>.<ext>] are stored at [<pageId>/<opaqueId>_crop.jpg]
    and [<pageId>/<opaqueId>_thumb.jpg]: each is a function of the base path
    alone.  The diff image is not: its name is generated afresh from the
    page id and the clock reading at the time of the comparison, with the
    suffix [_diff.jpg]. *)
Theorem crop_and_thumbnail_names_derive_from_the_base_path
    (dir stem ext : string) :
  component dir -> component stem -> component ext ->
  let base := dir ++ "/" ++ stem ++ "." ++ ext in
  _thumb_rel base = Some (dir ++ "/" ++ stem ++ "_thumb.jpg")
  /\ sibling_name base "_crop.jpg" = Some (dir ++ "/" ++ stem ++ "_crop.jpg")
  /\ (forall env u pid w shot crop w',
        capture_screenshot env u pid w = (Ok (shot, crop), w') ->
        crop <> "" -> sibling_name shot "_crop.jpg" = Some crop)
  /\ (forall source pid w r w',
        create_thumbnail source pid w = (Ok r, w') ->
        r <> "" -> _thumb_rel source = Some r)
  /\ (forall env prev curr pid w d s w',
        compute_diff env prev curr pid w = (Ok (d, s), w') ->
        d = "" \/ d = _unique_filename (diff_time_ns env) pid "_diff.jpg").
Proof.
  intros Hd Hs He base. split; [|split; [|split; [|split]]].
  - unfold _thumb_rel. now apply sibling_name_shape.
  - now apply sibling_name_shape.
  - intros env u pid w shot crop w' Hrun Hc.
    destruct (capture_screenshot_names _ _ _ _ _ _ _ Hrun) as [[_ ->]|[_ [->|Hn]]];
      [now destruct Hc|now destruct Hc|exact Hn].
  - intros source pid w r w' Hrun Hr.
    destruct (create_thumbnail_name _ _ _ _ _ Hrun) as [->|Hn];
      [now destruct Hr|exact Hn].
  - intros env prev curr pid w d s w' Hrun.
    destruct (compute_diff_result _ _ _ _ _ _ _ Hrun) as (_ & _ & _ & Hres).
    destruct s as [s|]; [|now left].
    destruct Hres as (_ & _ & _ & _ & a & b & _ & _ & _ & -> & _).
    destruct (0 <? s)%Z; [now right|now left].
Qed.

End NamesClaim.

(** The screenshot captured at tick 0 for page 7. *)
Lemma crop_and_thumbnail_names_derive_from_the_base_path_witness :
  _thumb_rel (_unique_filename 1700000000000000000 7 ".jpg")
    = Some "7/c743f35ac6_thumb.jpg"
  /\ sibling_name (_unique_filename 1700000000000000000 7 ".jpg") "_crop.jpg"
    = Some "7/c743f35ac6_crop.jpg".
Proof.
  assert (Hc : forall s, s <> "" ->
            forallb (fun c => negb (Ascii.eqb c "/") && negb (Ascii.eqb c "."))
              (Py.chars s) = true -> component s).
  { intros s Hne Hall. rewrite forallb_forall in Hall.
    split; [exact Hne|]. split; intros Hin; apply Hall in Hin; discriminate Hin. }
  destruct (@crop_and_thumbnail_names_derive_from_the_base_path plain_imaging
              "7" "c743f35ac6" "jpg") as (Ht & Hcrop & _);
    try (apply Hc; [discriminate|reflexivity]).
  split; [exact Ht|exact Hcrop].
Defined.

(* ===================================================================== *)
(** * Further properties of the code *)
(* ===================================================================== *)

(** ** The store *)

Lemma lstrip_chars_idem c l : Py.lstrip_chars c (Py.lstrip_chars c l) = Py.lstrip_chars c l.
Proof.
  induction l as [|x l IH]; simpl; [reflexivity|].
  destruct (Ascii.eqb x c) eqn:E; [exact IH|]. simpl. now rewrite E.
Qed.

Lemma lstrip_chars_head c l :
  match Py.lstrip_chars c l with x :: _ => x <> c | [] => True end.
Proof.
  induction l as [|x l IH]; simpl; [exact I|].
  destruct (Ascii.eqb x c) eqn:E; [exact IH|]. now apply Ascii.eqb_neq.
Qed.

Lemma lstrip_chars_incl c l x : In x (Py.lstrip_chars c l) -> In x l.
Proof.
  induction l as [|y l IH]; simpl; [auto|].
  destruct (Ascii.eqb y c); [auto|]. auto.
Qed.

(** X1.  [_key] reads a backslash as a slash and drops leading slashes: paths
    that differ only in these respects name one object.  The part of the
    key after the prefix never starts with a slash and holds no backslash. *)
Theorem key_normal_form (prefix rel : string) :
  _key prefix ("/" ++ rel) = _key prefix rel
  /\ _key prefix (Py.replace_char "\" "/" rel) = _key prefix rel
  /\ Py.starts_with_slash (_key "" rel) = false
  /\ ~ In "\"%char (Py.chars (_key "" rel))
  /\ _key "" (_key "" rel) = _key "" rel
  /\ (prefix <> "" -> _key prefix rel = prefix ++ "/" ++ _key "" rel).
Proof.
  assert (Hrep : forall s, Py.chars (Py.replace_char "\" "/" s)
                  = map (fun c => if Ascii.eqb c "\" then "/"%char else c) (Py.chars s)).
  { intros s. unfold Py.replace_char. apply chars_of_chars. }
  assert (Hnob : forall l, ~ In "\"%char
                  (map (fun c => if Ascii.eqb c "\" then "/"%char else c) l)).
  { intros l Hin. apply in_map_iff in Hin as (c & E & _).
    destruct (Ascii.eqb c "\") eqn:Ec; [discriminate E|].
    apply Ascii.eqb_neq in Ec. congruence. }
  assert (Hid : forall l, ~ In "\"%char l ->
                  map (fun c => if Ascii.eqb c "\" then "/"%char else c) l = l).
  { induction l as [|c l IH]; intros Hn; simpl; [reflexivity|].
    rewrite IH by (intros Hin; apply Hn; now right).
    destruct (Ascii.eqb c "\") eqn:Ec; [|reflexivity].
    apply Ascii.eqb_eq in Ec. subst. exfalso. apply Hn. now left. }
  assert (Hrel : forall s, _key "" s
                  = Py.of_chars (Py.lstrip_chars "/" (Py.chars (Py.replace_char "\" "/" s))))
    by reflexivity.
  split; [|split; [|split; [|split; [|split]]]].
  - assert (E : Py.lstrip "/" (Py.replace_char "\" "/" ("/" ++ rel))
                = Py.lstrip "/" (Py.replace_char "\" "/" rel)).
    { reflexivity. }
    unfold _key. now rewrite E.
  - assert (E : Py.replace_char "\" "/" (Py.replace_char "\" "/" rel)
                = Py.replace_char "\" "/" rel).
    { unfold Py.replace_char at 1. rewrite Hrep. rewrite Hid by apply Hnob.
      unfold Py.replace_char. reflexivity. }
    unfold _key. now rewrite E.
  - rewrite Hrel.
    pose proof (lstrip_chars_head "/" (Py.chars (Py.replace_char "\" "/" rel))) as Hh.
    destruct (Py.lstrip_chars "/" _) as [|x l]; [reflexivity|]. simpl.
    unfold Py.starts_with_slash.
    destruct x as [[] [] [] [] [] [] [] []]; try reflexivity. now destruct Hh.
  - rewrite Hrel, chars_of_chars. intros Hin.
    apply lstrip_chars_incl in Hin. rewrite Hrep in Hin. now apply Hnob in Hin.
  - rewrite (Hrel (_key "" rel)). rewrite Hrep.
    rewrite Hrel at 1. rewrite chars_of_chars.
    rewrite Hid.
    + rewrite lstrip_chars_idem. symmetry. apply Hrel.
    + intros Hin. apply lstrip_chars_incl in Hin. rewrite Hrep in Hin.
      now apply Hnob in Hin.
  - intros Hp. unfold _key.
    replace (Py.truthy prefix) with true by (symmetry; now apply truthy_spec).
    reflexivity.
Qed.

(** X2.  What was saved can be read back.  Where the backend accepts the upload,
    [save] stores the data under the path's key and touches no other key;
    from then on [exists] finds the path, and [open] and [local_path] hand
    back the very data, each where the backend answers it. *)
Theorem save_then_read_back (rel : string) (data : blob) (w : World) :
  answers (screenshot_storage w) put_object rel ->
  exists w',
    storage_save rel data w = (Ok tt, w')
    /\ frame w w'
    /\ stored (screenshot_storage w') rel = Some data
    /\ (forall r, object_key (screenshot_storage w) r
                    <> object_key (screenshot_storage w) rel ->
                  stored (screenshot_storage w') r = stored (screenshot_storage w) r)
    /\ (answers (screenshot_storage w) head_object rel ->
        result (storage_exists rel) w' = Ok true)
    /\ (answers (screenshot_storage w) get_object rel ->
        result (storage_open rel) w' = Ok data)
    /\ (answers (screenshot_storage w) download_fileobj rel ->
        result (storage_local_path rel) w' = Ok (Some data)).
Proof.
  intros Hput.
  destruct (screenshot_storage w) as [files disk|p c|p c] eqn:E; simpl in Hput.
  - exists (set_storage (LocalScreenshotStorage (<[rel := data]> files) disk) w).
    unfold storage_save, storage_exists, storage_open, storage_local_path,
      result, bind, gets, modify, ret. rewrite E. simpl. rewrite Hput.
    split; [reflexivity|]. split.
    { unfold frame. simpl. rewrite E. repeat split. constructor. }
    split; [apply lookup_insert_eq|]. split.
    { intros r Hr. now apply lookup_insert_ne. }
    rewrite lookup_insert_eq.
    split; [|split]; intros ->; [|reflexivity|reflexivity].
    rewrite bool_decide_eq_true_2 by eauto. reflexivity.
  - unfold storage_save, bind, gets. rewrite E. simpl.
    unfold client_put_object. rewrite Hput.
    eexists. split; [reflexivity|]. simpl.
    split.
    { unfold frame, logger, modify. simpl. rewrite E. repeat split.
      constructor; reflexivity. }
    split; [apply lookup_insert_eq|]. split.
    { intros r Hr. apply lookup_insert_ne. congruence. }
    unfold storage_exists, storage_open, storage_local_path, result, bind, gets,
      modify, ret, logger, client_head_object, client_get_object,
      client_download_fileobj, has_object. simpl.
    rewrite lookup_insert_eq.
    split; [|split]; intros ->; [|reflexivity|reflexivity].
    rewrite bool_decide_eq_true_2 by eauto. reflexivity.
  - unfold storage_save, bind, gets. rewrite E. simpl.
    unfold client_put_object. rewrite Hput.
    eexists. split; [reflexivity|]. simpl.
    split.
    { unfold frame, logger, modify. simpl. rewrite E. repeat split.
      constructor; reflexivity. }
    split; [apply lookup_insert_eq|]. split.
    { intros r Hr. apply lookup_insert_ne. congruence. }
    unfold storage_exists, storage_open, storage_local_path, result, bind, gets,
      modify, ret, logger, client_head_object, client_get_object,
      client_download_fileobj, has_object. simpl.
    rewrite lookup_insert_eq.
    split; [|split]; intros ->; [|reflexivity|reflexivity].
    rewrite bool_decide_eq_true_2 by eauto. reflexivity.
Qed.

Lemma save_then_read_back_witness :
  let w := world_of plain_settings (SeaweedFSScreenshotStorage "screenshots"
             {| objects := ∅; fault := no_fault; presigned := fun k => k |}) [] [] [] in
  exists w',
    storage_save "9/abc.jpg" (Img gray) w = (Ok tt, w')
    /\ stored (screenshot_storage w') "9/abc.jpg" = Some (Img gray)
    /\ result (storage_open "9/abc.jpg") w' = Ok (Img gray).
Proof.
  intros w.
  destruct (save_then_read_back "9/abc.jpg" (Img gray) w eq_refl)
    as (w' & Hs & _ & Hst & _ & _ & Ho & _).
  exists w'. split; [exact Hs|]. split; [exact Hst|]. apply Ho. reflexivity.
Defined.

(** X3.  A refused upload.  When the bucket's [put_object] raises, [save] on
    either bucket backend raises the same exception to its caller, after
    logging one error that names the key; the bucket is left as it was. *)
Theorem save_failure_is_logged_and_raised (rel : string) (data : blob)
    (w : World) (e : exn) :
  refuses (screenshot_storage w) put_object rel e ->
  result (storage_save rel data) w = Raise e
  /\ screenshot_storage (final (storage_save rel data) w) = screenshot_storage w
  /\ checks (final (storage_save rel data) w) = checks w
  /\ exists r, logged_by (storage_save rel data) w = [r] /\ lvl r = ERROR
               /\ arg r = object_key (screenshot_storage w) rel.
Proof.
  intros Hf. unfold logged_by, result, final.
  destruct (screenshot_storage w) as [files|p c|p c] eqn:E; simpl in Hf;
    [destruct Hf| |].
  - unfold storage_save, bind, gets. rewrite E. simpl.
    unfold client_put_object. rewrite Hf. simpl.
    unfold logger, modify, raise. simpl. rewrite E. repeat split.
    eexists. rewrite drop_app_length. repeat split.
  - unfold storage_save, bind, gets. rewrite E. simpl.
    unfold client_put_object. rewrite Hf. simpl.
    unfold logger, modify, raise. simpl. rewrite E. repeat split.
    eexists. rewrite drop_app_length. repeat split.
Qed.

Lemma save_failure_is_logged_and_raised_witness :
  let st := S3ScreenshotStorage "shots"
              {| objects := ∅;
                 fault := fun op _ => match op with
                                      | put_object => Some EndpointConnectionError
                                      | _ => None
                                      end;
                 presigned := fun k => k |} in
  let w := world_of s3_settings st [] [] [] in
  result (storage_save "9/abc.jpg" (Img gray)) w = Raise EndpointConnectionError
  /\ screenshot_storage (final (storage_save "9/abc.jpg" (Img gray)) w) = st.
Proof.
  intros st w.
  destruct (save_failure_is_logged_and_raised "9/abc.jpg" (Img gray) w
              EndpointConnectionError eq_refl) as (Hr & Hs & _).
  split; [exact Hr|exact Hs].
Defined.

(** X4.  Deleting never raises.  [delete_screenshot_file] returns normally on
    every backend, whatever the service answers.  The empty path is left
    alone; where the backend carries the delete out the path is gone and
    no other key is touched; where it refuses, the store is unchanged and
    one error is logged; deleting a path the store does not hold changes
    no stored object. *)
Theorem delete_never_raises (rel : string) (w : World) :
  let st := screenshot_storage w in
  let w' := final (delete_screenshot_file rel) w in
  result (delete_screenshot_file rel) w = Ok tt
  /\ frame w w'
  /\ (rel = "" -> w' = w)
  /\ (rel <> "" -> answers st delete_object rel ->
      stored (screenshot_storage w') rel = None
      /\ forall r, object_key st r <> object_key st rel ->
                   stored (screenshot_storage w') r = stored st r)
  /\ (forall e, rel <> "" -> refuses st delete_object rel e ->
      screenshot_storage w' = st
      /\ exists r, logged_by (delete_screenshot_file rel) w = [r] /\ lvl r = ERROR)
  /\ (stored st rel = None ->
      forall r, stored (screenshot_storage w') r = stored st r).
Proof.
  intros st w'. subst st w'. unfold logged_by, result, final, delete_screenshot_file.
  destruct (Py.truthy rel) eqn:T.
  2:{ unfold Py.truthy in T. apply negb_false_iff, String.eqb_eq in T. subst rel.
      simpl. repeat split; auto using frame_refl, same_service_refl; congruence. }
  apply truthy_spec in T. unfold when, storage_delete.
  replace (Py.truthy rel) with true by (symmetry; now apply truthy_spec).
  simpl negb. cbv iota. unfold bind, gets. simpl.
  destruct (screenshot_storage w) as [files disk|p c|p c] eqn:E; simpl.
  - destruct (disk disk_delete rel) as [e|] eqn:Ef; simpl.
    + unfold logger, modify, frame. simpl. rewrite E.
      repeat split; auto; try congruence; try contradiction.
      constructor.
    + unfold modify, frame. simpl. rewrite E.
      repeat split; auto; try congruence; try contradiction.
      * constructor.
      * apply lookup_delete_eq.
      * intros r Hr. now apply lookup_delete_ne.
      * intros Hn r. now rewrite delete_id.
  - unfold client_delete_object.
    destruct (fault c delete_object (_key p rel)) as [e|] eqn:Ef; simpl.
    + unfold logger, modify, frame. simpl. rewrite E.
      repeat split; auto; try congruence.
      * constructor; reflexivity.
      * eexists. rewrite drop_app_length. repeat split.
    + unfold logger, modify, frame. simpl. rewrite E.
      repeat split; auto; try congruence.
      * constructor; reflexivity.
      * apply lookup_delete_eq.
      * intros r Hr. apply lookup_delete_ne. congruence.
      * intros Hn r. now rewrite delete_id.
  - unfold client_delete_object.
    destruct (fault c delete_object (_key p rel)) as [e|] eqn:Ef; simpl.
    + unfold logger, modify, frame. simpl. rewrite E.
      repeat split; auto; try congruence.
      * constructor; reflexivity.
      * eexists. rewrite drop_app_length. repeat split.
    + unfold logger, modify, frame. simpl. rewrite E.
      repeat split; auto; try congruence.
      * constructor; reflexivity.
      * apply lookup_delete_eq.
      * intros r Hr. apply lookup_delete_ne. congruence.
      * intros Hn r. now rewrite delete_id.
Qed.

(** ** Serving an artifact, backend by backend *)

Lemma healthy_exists rel w :
  healthy (screenshot_storage w) ->
  storage_exists rel w
  = (Ok (bool_decide (is_Some (stored (screenshot_storage w) rel))), w).
Proof.
  intros Hh. unfold storage_exists, bind, gets. simpl.
  destruct (screenshot_storage w) as [files disk|p c|p c] eqn:E; simpl in *.
  - now rewrite Hh.
  - unfold client_head_object, has_object. rewrite Hh.
    now destruct (bool_decide _).
  - unfold client_head_object, has_object. rewrite Hh.
    now destruct (bool_decide _).
Qed.

(** X5.  What the owner of a page gets for one of its artifacts, on a store
    that was built from the settings.  The existence probe comes first and
    is not guarded: what it raises leaves the view, and an artifact it
    does not find is a 404.  Then the local disk serves the file, raising
    what the filesystem raises when it fetches or opens it; the generic S3
    backend redirects to the pre-signed URL (a 404 when none could be
    made); and the SeaweedFS backend streams the object (a 404 when it
    cannot be read), unless [USE_S3_STORAGE] is set as well: the view
    tests that flag first, while [_make_storage] tests
    [USE_SEAWEEDFS_STORAGE] first, so the view then redirects to the URL
    the SeaweedFS backend gives, which is the application's own
    [/api/screenshots/] route for the same path.  On a store that carries
    out every call this leaves a 404 for an artifact the store does not
    hold, and the file, the redirect or the stream for one it holds. *)
Theorem serve_screenshot_by_backend
    (user : User) (path : string) (page_id : Z) (w : World) :
  configured w ->
  ".." ∉ Py.parts (Py.mkPath path) ->
  first_segment_id (Py.mkPath path) = Some page_id ->
  result (owns_page user page_id) w = Ok true ->
  let rel := Py.to_str (Py.mkPath path) in
  let st := screenshot_storage w in
  result (serve_screenshot (Some user) path) w =
    match exists_answer st rel with
    | Raise e => Raise e
    | Ok false => Raise Http404
    | Ok true =>
        match st with
        | LocalScreenshotStorage files disk =>
            match disk disk_local_path rel, files !! rel, disk disk_open rel with
            | Some e, _, _ => Raise e
            | None, None, _ => Raise Http404
            | None, Some _, Some e => Raise e
            | None, Some body, None => Ok (FileResponse body (content_type_of rel))
            end
        | S3ScreenshotStorage p c =>
            match client_generate_presigned_url c (_key p rel) with
            | Ok presigned_url =>
                if Py.truthy presigned_url
                then Ok (HttpResponseRedirect presigned_url)
                else Raise Http404
            | Raise _ => Raise Http404
            end
        | SeaweedFSScreenshotStorage p c =>
            if USE_S3_STORAGE (settings w)
            then Ok (HttpResponseRedirect ("/api/screenshots/" ++ rel))
            else match client_get_object c (_key p rel) with
                 | Ok body => Ok (HttpResponseBody body (content_type_of rel))
                 | Raise _ => Raise Http404
                 end
        end
    end
  /\ (healthy st ->
      result (serve_screenshot (Some user) path) w =
        match stored st rel with
        | None => Raise Http404
        | Some body =>
            match st with
            | LocalScreenshotStorage _ _ => Ok (FileResponse body (content_type_of rel))
            | S3ScreenshotStorage p c =>
                if Py.truthy (presigned c (_key p rel))
                then Ok (HttpResponseRedirect (presigned c (_key p rel)))
                else Raise Http404
            | SeaweedFSScreenshotStorage _ _ =>
                if USE_S3_STORAGE (settings w)
                then Ok (HttpResponseRedirect ("/api/screenshots/" ++ rel))
                else Ok (HttpResponseBody body (content_type_of rel))
            end
        end).
Proof.
  intros Hconf Hdots Hid Hown rel st.
  assert (Hgen : result (serve_screenshot (Some user) path) w =
    match exists_answer st rel with
    | Raise e => Raise e
    | Ok false => Raise Http404
    | Ok true =>
        match st with
        | LocalScreenshotStorage files disk =>
            match disk disk_local_path rel, files !! rel, disk disk_open rel with
            | Some e, _, _ => Raise e
            | None, None, _ => Raise Http404
            | None, Some _, Some e => Raise e
            | None, Some body, None => Ok (FileResponse body (content_type_of rel))
            end
        | S3ScreenshotStorage p c =>
            match client_generate_presigned_url c (_key p rel) with
            | Ok presigned_url =>
                if Py.truthy presigned_url
                then Ok (HttpResponseRedirect presigned_url)
                else Raise Http404
            | Raise _ => Raise Http404
            end
        | SeaweedFSScreenshotStorage p c =>
            if USE_S3_STORAGE (settings w)
            then Ok (HttpResponseRedirect ("/api/screenshots/" ++ rel))
            else match client_get_object c (_key p rel) with
                 | Ok body => Ok (HttpResponseBody body (content_type_of rel))
                 | Raise _ => Raise Http404
                 end
        end
    end).
  { unfold result in *. unfold serve_screenshot.
    destruct (str_in ".." (Py.parts (Py.mkPath path))) eqn:Hd.
    { apply str_in_spec in Hd. now destruct Hdots. }
    rewrite Hid. rewrite owns_page_run in Hown. simpl in Hown.
    rewrite (bind_ok _ _ _ _ _ (owns_page_run user page_id w)).
    injection Hown as ->. change (negb true) with false. cbv iota. fold rel.
    destruct (storage_exists_run rel w) as (w1 & E1 & S1 & _).
    pose proof (preserves_storage_exists rel _ _ _ E1) as F1.
    assert (Hset : settings w1 = settings w) by apply F1.
    fold st in E1.
    destruct (exists_answer st rel) as [[|]|e] eqn:A;
      [|now rewrite (bind_ok _ _ _ _ _ E1)|now rewrite (bind_raise _ _ _ _ _ E1)].
    rewrite (bind_ok _ _ _ _ _ E1). change (negb true) with false. cbv iota.
    unfold bind at 1, gets at 1. rewrite Hset.
    unfold configured, _make_storage in Hconf. fold st in Hconf, S1.
    unfold storage_url, storage_open, storage_local_path, open_local_path,
      bind, gets, try_except, ret, raise.
    destruct st as [files disk|p c|p c] eqn:E; simpl in Hconf.
    - destruct (USE_SEAWEEDFS_STORAGE (settings w)); [discriminate Hconf|].
      destruct (USE_S3_STORAGE (settings w)); [discriminate Hconf|].
      simpl. rewrite S1. destruct (disk disk_local_path rel); [reflexivity|].
      destruct (files !! rel); [|reflexivity].
      rewrite S1. now destruct (disk disk_open rel).
    - destruct (USE_SEAWEEDFS_STORAGE (settings w)); [discriminate Hconf|].
      destruct (USE_S3_STORAGE (settings w)); [|discriminate Hconf].
      simpl. rewrite S1.
      destruct (client_generate_presigned_url c (_key p rel)) as [u|e]; simpl.
      + now destruct (Py.truthy u).
      + reflexivity.
    - destruct (USE_SEAWEEDFS_STORAGE (settings w)) eqn:Hsw;
        [|destruct (USE_S3_STORAGE (settings w)); discriminate Hconf].
      destruct (USE_S3_STORAGE (settings w)); simpl; rewrite S1.
      + reflexivity.
      + now destruct (client_get_object c (_key p rel)). }
  split; [exact Hgen|].
  intros Hh. rewrite Hgen, (healthy_answer _ _ Hh).
  destruct (stored st rel) as [body|] eqn:Hs.
  2:{ rewrite bool_decide_eq_false_2 by (intros [x Hx]; discriminate Hx).
      reflexivity. }
  rewrite bool_decide_eq_true_2 by eauto.
  destruct st as [files disk|p c|p c]; simpl in Hs, Hh.
  - now rewrite !Hh, Hs.
  - unfold client_generate_presigned_url. now rewrite Hh.
  - unfold client_get_object. now rewrite Hh, Hs.
Qed.

(** With both flags set the owner is sent back to the route of the request. *)
Lemma serve_screenshot_by_backend_witness :
  let st := SeaweedFSScreenshotStorage "screenshots"
              {| objects := {[ "screenshots/7/c743f35ac6.jpg" := Img gray ]};
                 fault := no_fault; presigned := fun k => k |} in
  let both := {| USE_SEAWEEDFS_STORAGE := true; USE_S3_STORAGE := true;
                 MAX_SCREENSHOTS_PER_PAGE := None; DATABASE_ENGINE := postgresql |} in
  let w := world_of both st [alice] [page_of alice true 2] [] in
  result (serve_screenshot (Some alice) "7/c743f35ac6.jpg") w
  = Ok (HttpResponseRedirect "/api/screenshots/7/c743f35ac6.jpg").
Proof.
  intros st both w.
  refine (proj1 (serve_screenshot_by_backend alice "7/c743f35ac6.jpg" 7 w
                   _ _ _ _)).
  - reflexivity.
  - intros Hin. apply str_in_spec in Hin. discriminate Hin.
  - reflexivity.
  - reflexivity.
Defined.

(** The owner of a page asks for an artifact under a name the filesystem
    refuses as too long: the probe of the local disk raises, and the view
    ends in the [OSError] instead of a 404. *)
Lemma serve_screenshot_raises_the_error_of_the_filesystem :
  result (serve_screenshot (Some alice) ("7/" ++ over_long_name))
         (world_of plain_settings (LocalScreenshotStorage ∅ name_limit_disk)
            [alice] [page_of alice true 2] [])
  = Raise (OSError ENAMETOOLONG).
Proof. vm_compute. reflexivity. Qed.

(** ** Artifact names and the routes that read them back *)

Lemma lstrip_space_id l :
  Forall (fun c => Py.is_space c = false) l -> Py.lstrip_space l = l.
Proof. intros Hl. destruct Hl as [|c l Hc Hl]; simpl; [reflexivity|]. now rewrite Hc. Qed.

Lemma uint_chars d :
  Forall digit_char (Py.chars (NilEmpty.string_of_uint d)).
Proof.
  induction d; simpl; constructor; auto; eexists; reflexivity.
Qed.

Lemma digit_char_facts c :
  digit_char c ->
  Py.is_space c = false /\ c <> "/"%char /\ c <> "."%char /\ c <> "-"%char
  /\ c <> "+"%char /\ c <> "\"%char.
Proof.
  intros [d Hd]. unfold Py.digit_of in Hd.
  destruct (_ && _) eqn:E; [|discriminate Hd].
  apply andb_true_iff in E as [E1 E2]. apply Nat.leb_le in E1, E2.
  unfold Py.is_space.
  repeat split; try (intros ->; vm_compute in E1, E2; lia).
  apply orb_false_iff. split.
  - apply Nat.eqb_neq. lia.
  - apply andb_false_iff. right. apply Nat.leb_gt. lia.
Qed.

Lemma parse_uint_pos d : forall p,
  Py.parse_digits true (Z.pos p) (Py.chars (NilEmpty.string_of_uint d))
  = Some (Z.pos (Pos.of_uint_acc d p)).
Proof.
  induction d; intros p; [reflexivity|..];
    cbn [NilEmpty.string_of_uint Py.chars list_ascii_of_string Py.parse_digits];
    match goal with
    | |- context [Py.digit_of ?c] =>
        let v := eval vm_compute in (Py.digit_of c) in
        change (Py.digit_of c) with v
    end; cbv iota; cbn [Pos.of_uint_acc];
    match goal with
    | |- Py.parse_digits true ?a _ = Some (Z.pos (Pos.of_uint_acc _ ?q)) =>
        replace a with (Z.pos q) by lia
    end; apply IHd.
Qed.

Lemma parse_uint_zero d : forall b,
  d <> Decimal.Nil \/ b = true ->
  Py.parse_digits b 0 (Py.chars (NilEmpty.string_of_uint d))
  = Some (Z.of_N (Pos.of_uint d)).
Proof.
  induction d; intros b Hb.
  - destruct Hb as [Hb| ->]; [now destruct Hb|reflexivity].
  - cbn [NilEmpty.string_of_uint Py.chars list_ascii_of_string Py.parse_digits].
    change (Py.digit_of "0") with (Some 0%Z). cbv iota. simpl Z.add.
    apply IHd. now right.
  - apply (parse_uint_pos d 1).
  - apply (parse_uint_pos d 2).
  - apply (parse_uint_pos d 3).
  - apply (parse_uint_pos d 4).
  - apply (parse_uint_pos d 5).
  - apply (parse_uint_pos d 6).
  - apply (parse_uint_pos d 7).
  - apply (parse_uint_pos d 8).
  - apply (parse_uint_pos d 9).
Qed.

Lemma Forall_rev_iff {A} (P : A -> Prop) l : Forall P l -> Forall P (rev l).
Proof.
  intros Hl. apply Forall_forall. intros x Hx.
  rewrite Forall_forall in Hl. apply Hl.
  apply list_elem_of_In. apply list_elem_of_In in Hx. now apply in_rev.
Qed.

Lemma strip_both_id l :
  Forall (fun c => Py.is_space c = false) l ->
  rev (Py.lstrip_space (rev (Py.lstrip_space l))) = l.
Proof.
  intros Hl. rewrite (lstrip_space_id l Hl).
  rewrite lstrip_space_id by now apply Forall_rev_iff.
  apply rev_involutive.
Qed.

Lemma int_body l :
  match l with [] => True | c :: _ => digit_char c end ->
  match l with
  | "-"%char :: r => Z.opp <$> Py.parse_digits false 0%Z r
  | "+"%char :: r => Py.parse_digits false 0%Z r
  | _ => Py.parse_digits false 0%Z l
  end = Py.parse_digits false 0%Z l.
Proof.
  destruct l as [|c r]; [reflexivity|]. intros Hc.
  destruct (digit_char_facts c Hc) as (_ & _ & _ & Hm & Hp & _).
  destruct c as [[] [] [] [] [] [] [] []]; try reflexivity; congruence.
Qed.

Lemma int_of_digits d :
  d <> Decimal.Nil ->
  Py.int (NilEmpty.string_of_uint d) = Some (Z.of_N (Pos.of_uint d)).
Proof.
  intros Hd. unfold Py.int.
  pose proof (uint_chars d) as Hc.
  rewrite strip_both_id
    by (eapply Forall_impl; [exact Hc|intros c Hx; now apply digit_char_facts]).
  rewrite int_body.
  - apply parse_uint_zero. now left.
  - destruct Hc; [exact I|assumption].
Qed.

(** [int(str(n))] is [n]: a number printed into a path is read back by
    the routes that parse the path. *)
Lemma int_of_str (n : Z) : Py.int (Py.str n) = Some n.
Proof.
  unfold Py.str, Z.to_int. destruct n as [|p|p]; [reflexivity| |].
  - unfold NilZero.string_of_int, NilZero.string_of_uint.
    pose proof (DecimalPos.Unsigned.to_uint_nonnil p) as Hnn.
    replace (match Pos.to_uint p with Decimal.Nil => "0" | _ => NilEmpty.string_of_uint (Pos.to_uint p) end)
      with (NilEmpty.string_of_uint (Pos.to_uint p))
      by (destruct (Pos.to_uint p); [now destruct Hnn|reflexivity..]).
    rewrite int_of_digits by exact Hnn.
    now rewrite DecimalPos.Unsigned.of_to.
  - unfold NilZero.string_of_int, NilZero.string_of_uint.
    pose proof (DecimalPos.Unsigned.to_uint_nonnil p) as Hnn.
    replace (match Pos.to_uint p with Decimal.Nil => "0" | _ => NilEmpty.string_of_uint (Pos.to_uint p) end)
      with (NilEmpty.string_of_uint (Pos.to_uint p))
      by (destruct (Pos.to_uint p); [now destruct Hnn|reflexivity..]).
    pose proof (uint_chars (Pos.to_uint p)) as Hc.
    unfold Py.int.
    change (Py.chars (String "-" ?s)) with ("-"%char :: Py.chars s).
    rewrite strip_both_id.
    + rewrite parse_uint_zero by now left.
      now rewrite DecimalPos.Unsigned.of_to.
    + constructor; [reflexivity|].
      eapply Forall_impl; [exact Hc|intros c Hx; now apply digit_char_facts].
Qed.

Lemma str_chars (n : Z) :
  Py.str n <> ""
  /\ Forall (fun c => digit_char c \/ c = "-"%char) (Py.chars (Py.str n)).
Proof.
  unfold Py.str, Z.to_int.
  assert (Hu : forall d, d <> Decimal.Nil ->
            NilZero.string_of_uint d = NilEmpty.string_of_uint d
            /\ NilEmpty.string_of_uint d <> "").
  { intros d Hd. destruct d; [now destruct Hd|split; [reflexivity|discriminate]..]. }
  assert (Hd : forall d, Forall (fun c => digit_char c \/ c = "-"%char)
                           (Py.chars (NilEmpty.string_of_uint d))).
  { intros d. eapply Forall_impl; [apply uint_chars|]. intros c Hc. now left. }
  destruct n as [|p|p]; simpl.
  - split; [discriminate|].
    constructor; [left; eexists; reflexivity|constructor].
  - destruct (Hu _ (DecimalPos.Unsigned.to_uint_nonnil p)) as [-> Hne]. auto.
  - split; [discriminate|].
    destruct (Hu _ (DecimalPos.Unsigned.to_uint_nonnil p)) as [-> Hne].
    constructor; [now right|apply Hd].
Qed.

Lemma str_component (n : Z) : component (Py.str n).
Proof.
  destruct (str_chars n) as [Hne Hc]. split; [exact Hne|].
  rewrite Forall_forall in Hc.
  split; intros Hin; apply list_elem_of_In in Hin; apply Hc in Hin as [Hd| Hd];
    try discriminate Hd; apply digit_char_facts in Hd; tauto.
Qed.

Lemma hex_digit_is_hex (n : N) : (n < 16)%N -> is_hex_digit (MD5.hex_digit n) = true.
Proof.
  intros Hn.
  assert (E : In n (map N.of_nat (seq 0 16))).
  { apply in_map_iff. exists (N.to_nat n). split; [lia|]. apply in_seq. lia. }
  simpl in E.
  repeat (destruct E as [<-|E]; [reflexivity|]). destruct E.
Qed.

Lemma hex_byte_is_hex (b : N) :
  Forall (fun c => is_hex_digit c = true) (MD5.hex_byte (N.land b 0xFF)).
Proof.
  unfold MD5.hex_byte. repeat constructor; apply hex_digit_is_hex.
  - rewrite N.shiftr_div_pow2. change (N.land b 255) with (N.land b (N.ones 8)).
    rewrite N.land_ones. simpl (2 ^ 4)%N.
    apply N.Div0.div_lt_upper_bound. simpl. apply N.mod_lt. discriminate.
  - rewrite <- N.land_assoc. change (N.land 255 15) with (N.ones 4).
    rewrite N.land_ones. apply N.mod_lt. discriminate.
Qed.

(** The digest is printed as 32 lowercase hexadecimal digits. *)
Lemma hexdigest_shape (s : string) :
  exists l, MD5.hexdigest s = Py.of_chars l /\ length l = 32%nat
            /\ Forall (fun c => is_hex_digit c = true) l.
Proof.
  unfold MD5.hexdigest, MD5.digest_bytes.
  set (st := fold_left MD5.block _ MD5.init).
  eexists. split; [reflexivity|].
  cbn [MD5.le_bytes app map concat].
  split.
  - unfold MD5.hex_byte. reflexivity.
  - repeat (apply Forall_app; split; [apply hex_byte_is_hex|]). constructor.
Qed.

Lemma is_hex_digit_facts c :
  is_hex_digit c = true -> c <> "/"%char /\ c <> "."%char /\ c <> "\"%char.
Proof.
  unfold is_hex_digit. intros Hc.
  repeat split; intros ->; vm_compute in Hc; discriminate Hc.
Qed.

Lemma no_slash_ends a : ~ In "/"%char (Py.chars a) -> Py.ends_with_slash a = false.
Proof.
  intros Hn. unfold Py.ends_with_slash, Py.endswith.
  change (rev (Py.chars "/")) with ["/"%char].
  destruct (rev (Py.chars a)) as [|c r] eqn:E; [reflexivity|].
  cbn [Py.ends_with_chars].
  destruct (Ascii.eqb "/" c) eqn:Ec; [|reflexivity].
  apply Ascii.eqb_eq in Ec. subst c. exfalso. apply Hn.
  apply in_rev. rewrite E. now left.
Qed.

Lemma os_path_join_plain a b :
  component a -> Py.starts_with_slash b = false ->
  Py.os_path_join a b = a ++ "/" ++ b.
Proof.
  intros (Ha & Hs & _) Hb. unfold Py.os_path_join. rewrite Hb.
  replace (Py.truthy a) with true by (symmetry; now apply truthy_spec).
  now rewrite no_slash_ends.
Qed.

Lemma generated_name_parts (time_ns page_id : Z) (suffix : string) :
  exists h,
    _unique_filename time_ns page_id suffix = Py.str page_id ++ "/" ++ h ++ suffix
    /\ h = String.substring 0 10 (MD5.hexdigest (Py.str time_ns))
    /\ String.length h = 10%nat
    /\ Forall (fun c => is_hex_digit c = true) (Py.chars h).
Proof.
  unfold _unique_filename.
  destruct (hexdigest_shape (Py.str time_ns)) as (l & E & Hlen & Hhex).
  exists (String.substring 0 10 (MD5.hexdigest (Py.str time_ns))).
  rewrite E.
  do 32 (destruct l as [|? l]; [discriminate Hlen|]).
  destruct l; [|discriminate Hlen].
  cbn [Py.of_chars string_of_list_ascii String.substring].
  split; [|split; [reflexivity|split; [reflexivity|]]].
  - apply os_path_join_plain; [apply str_component|].
    apply Forall_cons in Hhex as [Hc _].
    apply is_hex_digit_facts in Hc as (Hc & _).
    simpl. unfold Py.starts_with_slash.
    destruct a as [[] [] [] [] [] [] [] []]; try reflexivity. now destruct Hc.
  - cbn [Py.chars list_ascii_of_string].
    repeat (apply Forall_cons in Hhex as [? Hhex]).
    repeat (constructor; [assumption|]). constructor.
Qed.

Lemma string_length_app (a b : string) :
  String.length (a ++ b) = (String.length a + String.length b)%nat.
Proof. induction a as [|c a IH]; simpl; [reflexivity|]. now rewrite IH. Qed.

(** X6.  Every artifact name the code generates is the page's id, a slash, ten
    lowercase hexadecimal digits (the head of the MD5 digest of the clock
    reading) and the suffix: eleven characters between the id and the
    suffix, whatever the clock reads. *)
Theorem unique_filename_shape (time_ns page_id : Z) (suffix : string) :
  exists h,
    _unique_filename time_ns page_id suffix = Py.str page_id ++ "/" ++ h ++ suffix
    /\ h = String.substring 0 10 (MD5.hexdigest (Py.str time_ns))
    /\ String.length h = 10%nat
    /\ Forall (fun c => is_hex_digit c = true) (Py.chars h)
    /\ String.length (_unique_filename time_ns page_id suffix)
       = (String.length (Py.str page_id) + 11 + String.length suffix)%nat.
Proof.
  destruct (generated_name_parts time_ns page_id suffix) as (h & E & Eh & Hlen & Hhex).
  exists h. repeat (split; [assumption|]).
  rewrite E, !string_length_app, Hlen. simpl. lia.
Qed.

Lemma mkPath_two (a rest : string) :
  a <> "" -> a <> "." -> ~ In "/"%char (Py.chars a) ->
  rest <> "" -> rest <> "." -> ~ In "/"%char (Py.chars rest) ->
  Py.mkPath (a ++ "/" ++ rest) = {| Py.root := ""; Py.names := [a; rest] |}.
Proof.
  intros Ha Had Has Hr Hrd Hrs.
  assert (Hsplit : Py.split "/" (a ++ "/" ++ rest) = [a; rest]).
  { unfold Py.split. rewrite chars_app.
    change (Py.chars ("/" ++ rest)) with ("/"%char :: Py.chars rest).
    rewrite split_chars_at by exact Has. rewrite split_chars_none by exact Hrs.
    simpl. now rewrite !of_chars_chars. }
  assert (Hroot : Py.count_leading_slashes (a ++ "/" ++ rest) = 0%nat).
  { unfold Py.count_leading_slashes. rewrite chars_app.
    destruct (Py.chars a) as [|c l] eqn:Ec; [now apply chars_nonempty in Ha|].
    simpl. destruct (Ascii.eqb c "/") eqn:E; [|simpl; lia].
    apply Ascii.eqb_eq in E. subst. exfalso. apply Has. now left. }
  unfold Py.mkPath. rewrite Hsplit, Hroot.
  rewrite filter_cons_True by auto. rewrite filter_cons_True by auto.
  reflexivity.
Qed.

(** X7.  A generated name is read back by the route that serves it: the first
    segment of the parsed path is the page's id again, no segment is [..],
    and the path prints as the very name under which the artifact was
    stored. *)
Theorem generated_name_reads_back (time_ns page_id : Z) (suffix : string) :
  ~ In "/"%char (Py.chars suffix) ->
  let name := _unique_filename time_ns page_id suffix in
  first_segment_id (Py.mkPath name) = Some page_id
  /\ (".." ∉ Py.parts (Py.mkPath name))
  /\ Py.to_str (Py.mkPath name) = name.
Proof.
  intros Hsuf name. subst name.
  destruct (generated_name_parts time_ns page_id suffix) as (h & -> & _ & Hlen & Hhex).
  destruct (str_component page_id) as (Ha & Has & Had).
  destruct h as [|c h]; [discriminate Hlen|].
  apply Forall_cons in Hhex as [Hc Hhex].
  destruct (is_hex_digit_facts c Hc) as (Hcs & Hcd & _).
  assert (Hr : forall x, String c h ++ suffix <> String "." x).
  { intros x [= E _]. now destruct Hcd. }
  rewrite mkPath_two; auto.
  - unfold first_segment_id, Py.parts, Py.to_str. simpl Py.root. simpl Py.names.
    cbn [Py.truthy String.eqb negb head Py.join].
    split; [apply int_of_str|]. split.
    + intros Hin. apply list_elem_of_In in Hin as [E|[E|[]]].
      * apply Had. rewrite E. now left.
      * now apply Hr in E.
    + reflexivity.
  - intros E. apply Had. rewrite E. now left.
  - change (String c h ++ suffix) with (String c (h ++ suffix)).
    cbn [Py.chars list_ascii_of_string].
    change (list_ascii_of_string (h ++ suffix)) with (Py.chars (h ++ suffix)).
    rewrite chars_app. simpl. intros [E|Hin]; [now destruct Hcs|].
    apply in_app_or in Hin as [Hin|Hin]; [|auto].
    rewrite Forall_forall in Hhex. apply list_elem_of_In in Hin.
    apply Hhex, is_hex_digit_facts in Hin. tauto.
Qed.

Lemma generated_name_reads_back_witness :
  first_segment_id (Py.mkPath (_unique_filename 1700000000000000000 7 ".jpg")) = Some 7%Z
  /\ Py.to_str (Py.mkPath (_unique_filename 1700000000000000000 7 ".jpg"))
     = "7/c743f35ac6.jpg".
Proof.
  destruct (generated_name_reads_back 1700000000000000000 7 ".jpg") as (Hf & _ & Hs).
  - intros Hin. simpl in Hin. repeat (destruct Hin as [Hin|Hin]; [discriminate Hin|]).
    destruct Hin.
  - split; [exact Hf|]. rewrite Hs. reflexivity.
Defined.

(** ** Which keys an operation can touch *)

Lemma same_service_object_key a b r :
  same_service a b -> object_key b r = object_key a r.
Proof. now destruct 1. Qed.

Lemma stored_object_key st r : stored st r =
  match st with
  | LocalScreenshotStorage files _ => files !! object_key st r
  | S3ScreenshotStorage _ c | SeaweedFSScreenshotStorage _ c =>
      objects c !! object_key st r
  end.
Proof. now destruct st. Qed.

Lemma writes_within_refl ps w : writes_within ps w w.
Proof. split; [apply frame_refl|auto]. Qed.

Lemma writes_within_trans ps a b c :
  writes_within ps a b -> writes_within ps b c -> writes_within ps a c.
Proof.
  intros [F1 K1] [F2 K2]. split; [exact (frame_trans _ _ _ F1 F2)|].
  intros r Hr. rewrite K2, K1; auto.
  intros p Hp. rewrite !(same_service_object_key _ _ _ (proj1 F1)). auto.
Qed.

Lemma writes_within_mono ps qs a b :
  incl ps qs -> writes_within ps a b -> writes_within qs a b.
Proof. intros Hi [F K]. split; [exact F|]. intros r Hr. apply K. auto. Qed.

Lemma writes_within_same ps w w' :
  frame w w' -> screenshot_storage w' = screenshot_storage w -> writes_within ps w w'.
Proof. intros F E. split; [exact F|]. intros r _. now rewrite E. Qed.

Lemma writes_ret {A} ps (a : A) : preserves (writes_within ps) (ret a).
Proof. intros w o w' [= <- <-]. apply writes_within_refl. Qed.

Lemma writes_raise {A} ps e : preserves (writes_within ps) (@raise A e).
Proof. intros w o w' [= <- <-]. apply writes_within_refl. Qed.

Lemma writes_gets {A} ps (f : World -> A) : preserves (writes_within ps) (gets f).
Proof. intros w o w' [= <- <-]. apply writes_within_refl. Qed.

Lemma writes_logger ps l f a : preserves (writes_within ps) (logger l f a).
Proof.
  intros w o w'. rewrite logger_run. intros [= <- <-].
  apply writes_within_same; [apply frame_set_log|reflexivity].
Qed.

Lemma writes_bind {A B} ps (m : M A) (k : A -> M B) :
  preserves (writes_within ps) m -> (forall a, preserves (writes_within ps) (k a)) ->
  preserves (writes_within ps) (bind m k).
Proof.
  intros Hm Hk w o w' E.
  apply bind_inv in E as [(a & w1 & E1 & E2)|(e & E1 & ->)].
  - eapply writes_within_trans; [eapply Hm|eapply Hk]; eauto.
  - eapply Hm; eauto.
Qed.

Lemma writes_try_except {A} ps (m : M A) (h : exn -> M A) :
  preserves (writes_within ps) m -> (forall e, preserves (writes_within ps) (h e)) ->
  preserves (writes_within ps) (try_except m h).
Proof.
  intros Hm Hh w o w' E. unfold try_except in E.
  destruct (m w) as [[a|e] w1] eqn:E1.
  - injection E as <- <-. eapply Hm; eauto.
  - eapply writes_within_trans; [eapply Hm|eapply Hh]; eauto.
Qed.

Lemma writes_of_option {A} ps e (o : option A) :
  preserves (writes_within ps) (of_option e o).
Proof. destruct o; [apply writes_ret|apply writes_raise]. Qed.

Lemma writes_when ps b m :
  preserves (writes_within ps) m -> preserves (writes_within ps) (when b m).
Proof. destruct b; [auto|intros _; apply writes_ret]. Qed.

Lemma writes_storage_exists ps rel : preserves (writes_within ps) (storage_exists rel).
Proof.
  intros w o w' E. apply writes_within_same.
  - eapply preserves_storage_exists; eauto.
  - eapply storage_exists_frame; eauto.
Qed.

Lemma writes_storage_local_path ps rel :
  preserves (writes_within ps) (storage_local_path rel).
Proof.
  intros w o w' E. apply writes_within_same.
  - eapply preserves_storage_local_path; eauto.
  - destruct (storage_local_path_run rel w) as (w1 & E1 & Hs & _).
    rewrite E in E1. now injection E1 as _ <-.
Qed.

Lemma writes_Image_open ps b : preserves (writes_within ps) (Image_open b).
Proof. destruct b; [apply writes_ret|apply writes_raise]. Qed.

Lemma writes_Image_crop ps img l u r d :
  preserves (writes_within ps) (Image_crop img l u r d).
Proof.
  unfold Image_crop. destruct (_ || _); [apply writes_raise|apply writes_ret].
Qed.

(** How [save] ends: with the data stored under the path's key, or with
    the store as it was. *)
Lemma storage_save_run rel d w o w' :
  storage_save rel d w = (o, w') ->
  writes_within [rel] w w'
  /\ match o with
     | Ok _ => stored (screenshot_storage w') rel = Some d
     | Raise _ => screenshot_storage w' = screenshot_storage w
     end.
Proof.
  intros E. pose proof (preserves_storage_save _ _ _ _ _ E) as F.
  revert E. unfold storage_save, bind, gets, modify, logger, writes_within. simpl.
  destruct (screenshot_storage w) as [files disk|p c|p c] eqn:Es; simpl.
  - destruct (disk disk_save rel); intros [= <- <-]; simpl; rewrite ?Es; simpl.
    + split; [split; [exact F|auto]|reflexivity].
    + split; [split; [exact F|]|apply lookup_insert_eq].
      intros r Hr. apply lookup_insert_ne. intros <-.
      eapply Hr; [now left|reflexivity].
  - unfold client_put_object. destruct (fault c put_object _); simpl;
      intros [= <- <-]; simpl; rewrite ?Es; simpl.
    + split; [split; [exact F|auto]|reflexivity].
    + split; [split; [exact F|]|apply lookup_insert_eq].
      intros r Hr. apply lookup_insert_ne. intros E. eapply Hr; [now left|]. now rewrite E.
  - unfold client_put_object. destruct (fault c put_object _); simpl;
      intros [= <- <-]; simpl; rewrite ?Es; simpl.
    + split; [split; [exact F|auto]|reflexivity].
    + split; [split; [exact F|]|apply lookup_insert_eq].
      intros r Hr. apply lookup_insert_ne. intros E. eapply Hr; [now left|]. now rewrite E.
Qed.

Lemma writes_storage_save ps rel d :
  In rel ps -> preserves (writes_within ps) (storage_save rel d).
Proof.
  intros Hin w o w' E. apply (writes_within_mono [rel]).
  - intros x [<-|[]]. exact Hin.
  - now apply storage_save_run in E.
Qed.

Lemma writes_storage_delete ps rel :
  In rel ps -> preserves (writes_within ps) (storage_delete rel).
Proof.
  intros Hin w o w' E. pose proof (preserves_storage_delete _ _ _ _ E) as F.
  split; [exact F|]. intros r Hr. specialize (Hr rel Hin).
  revert E. unfold storage_delete.
  destruct (Py.truthy rel); simpl; [|now intros [= <- <-]].
  unfold bind, gets, modify, logger. simpl.
  destruct (screenshot_storage w) as [files disk|p c|p c] eqn:Es; simpl in *.
  - destruct (disk disk_delete rel); intros [= <- <-]; simpl; rewrite ?Es; simpl;
      [reflexivity|].
    apply lookup_delete_ne. congruence.
  - unfold client_delete_object. destruct (fault c delete_object _); simpl;
      intros [= <- <-]; simpl; rewrite ?Es; simpl; [reflexivity|].
    apply lookup_delete_ne. congruence.
  - unfold client_delete_object. destruct (fault c delete_object _); simpl;
      intros [= <- <-]; simpl; rewrite ?Es; simpl; [reflexivity|].
    apply lookup_delete_ne. congruence.
Qed.

Lemma writes_delete_screenshot_file ps rel :
  In rel ps -> preserves (writes_within ps) (delete_screenshot_file rel).
Proof. intros Hin. apply writes_when, writes_storage_delete, Hin. Qed.

(** A probe that raises leaves the world as it was. *)
Lemma exists_raise_world rel w e w' :
  storage_exists rel w = (Raise e, w') -> w' = w.
Proof.
  destruct (screenshot_storage w) as [files disk|p c|p c] eqn:E.
  - rewrite (storage_exists_local rel _ _ _ E).
    destruct (disk disk_exists rel); now intros [= _ <-].
  - rewrite (storage_exists_s3 rel _ _ _ E).
    destruct (client_head_object c (_key p rel)) as [|e'];
      [|destruct (s3_not_found e')]; now intros [= _ <-].
  - destruct (storage_exists_seaweed rel _ _ _ E) as (w1 & -> & _). discriminate.
Qed.

(** A positive answer of [exists] means the store holds the object. *)
Lemma exists_true_stored rel w w' :
  storage_exists rel w = (Ok true, w') ->
  is_Some (stored (screenshot_storage w) rel).
Proof.
  intros E. destruct (storage_exists_run rel w) as (w1 & E1 & _).
  rewrite E in E1. injection E1 as E1 _.
  destruct (screenshot_storage w) as [files disk|p c|p c]; simpl in *.
  - destruct (disk disk_exists rel); [discriminate E1|].
    injection E1 as E1. symmetry in E1. now apply bool_decide_eq_true in E1.
  - unfold client_head_object, has_object in E1.
    destruct (fault c head_object _) as [e|].
    + destruct (s3_not_found e); discriminate E1.
    + destruct (bool_decide _) eqn:Eb; [now apply bool_decide_eq_true in Eb|].
      discriminate E1.
  - unfold client_head_object, has_object in E1.
    destruct (fault c head_object _) as [e|]; [discriminate E1|].
    destruct (bool_decide _) eqn:Eb; [now apply bool_decide_eq_true in Eb|].
    discriminate E1.
Qed.

Ltac writes_step :=
  first
    [ apply writes_ret | apply writes_raise | apply writes_gets
    | apply writes_logger | apply writes_storage_exists
    | apply writes_storage_local_path
    | apply writes_storage_save; simpl; tauto
    | apply writes_delete_screenshot_file; simpl; tauto
    | apply writes_storage_delete; simpl; tauto
    | apply writes_of_option | apply writes_Image_open
    | apply writes_Image_crop
    | apply writes_when
    | apply writes_bind; [|intros ?]
    | apply writes_try_except; [|intros ?]
    | progress cbv zeta
    | match goal with
      | |- preserves _ (if ?b then _ else _) => destruct b
      | |- preserves _ (match ?x with _ => _ end) => destruct x
      end ].

Ltac writes_auto := repeat writes_step.

(** ** Thumbnails *)

Lemma bind_ret_l {A B} (a : A) (k : A -> M B) : bind (ret a) k = k a.
Proof. reflexivity. Qed.

Lemma healthy_local_path rel w b :
  healthy (screenshot_storage w) ->
  stored (screenshot_storage w) rel = Some b ->
  storage_local_path rel w = (Ok (Some b), w).
Proof.
  intros Hh Hs. unfold storage_local_path, bind, gets. simpl.
  destruct (screenshot_storage w) as [files|p c|p c] eqn:E; simpl in *.
  - now rewrite Hh, Hs.
  - unfold client_download_fileobj. now rewrite Hh, Hs.
  - unfold client_download_fileobj. now rewrite Hh, Hs.
Qed.

Section ThumbnailProperties.
Context `{Imaging}.

Lemma writes_create_thumbnail source pid t :
  _thumb_rel source = Some t ->
  preserves (writes_within [t]) (create_thumbnail source pid).
Proof.
  intros Et. unfold create_thumbnail. rewrite Et.
  change (of_option ValueError (Some t)) with (ret (A := string) t).
  rewrite bind_ret_l. writes_auto.
Qed.

(** X8.  How [create_thumbnail] can end.  A source path without a file name is
    a [ValueError] before anything is done.  Otherwise the function
    touches no key but the thumbnail's, and its existence probe for the
    thumbnail, made before the [try] block, decides how it ends.  What
    the probe raises, the function raises, with the store unchanged: on
    the generic S3 backend a backend error other than 404 and NoSuchKey,
    on the local disk the error of the filesystem, on the gateway
    nothing.  A thumbnail the probe finds is returned as it is.  When the
    probe finds none, the function returns the thumbnail's path with the
    thumbnail in the store, or the empty string. *)
Theorem create_thumbnail_outcome (source : string) (pid : Z) (w : World) :
  let o := result (create_thumbnail source pid) w in
  let w' := final (create_thumbnail source pid) w in
  match _thumb_rel source with
  | None => o = Raise ValueError /\ w' = w
  | Some t =>
      writes_within [t] w w'
      /\ match exists_answer (screenshot_storage w) t with
         | Raise e => o = Raise e /\ w' = w
         | Ok true =>
             o = Ok t /\ screenshot_storage w' = screenshot_storage w
             /\ is_Some (stored (screenshot_storage w) t)
         | Ok false =>
             o = Ok "" \/ (o = Ok t /\ is_Some (stored (screenshot_storage w') t))
         end
  end.
Proof.
  intros o w'.
  assert (Hrun : create_thumbnail source pid w = (o, w')).
  { unfold o, w', result, final. now destruct (create_thumbnail source pid w). }
  clearbody o w'. destruct (_thumb_rel source) as [t|] eqn:Et.
  2:{ unfold create_thumbnail in Hrun. rewrite Et in Hrun.
      injection Hrun as <- <-. auto. }
  split; [eapply writes_create_thumbnail; eauto|].
  unfold create_thumbnail in Hrun. rewrite Et in Hrun.
  change (of_option ValueError (Some t)) with (ret (A := string) t) in Hrun.
  rewrite bind_ret_l in Hrun.
  destruct (storage_exists_run t w) as (w1 & E1 & S1 & _).
  destruct (exists_answer (screenshot_storage w) t) as [present|e] eqn:A.
  2:{ rewrite (bind_raise _ _ _ _ _ E1) in Hrun. injection Hrun as <- <-.
      split; [reflexivity|]. eapply exists_raise_world; eauto. }
  rewrite (bind_ok _ _ _ _ _ E1) in Hrun.
  destruct present.
  { injection Hrun as <- <-. split; [reflexivity|]. split; [exact S1|].
    eapply exists_true_stored; eauto. }
  apply try_except_inv in Hrun as [(a & Hm & ->)|(e & w3 & _ & Hh)].
  2:{ destruct o as [r|e']; [|now apply log_then_ret in Hh].
      apply log_then_ret in Hh. injection Hh as ->. now left. }
  apply bind_inv in Hm as [(local & w3 & _ & Hm)|(e & _ & [=])].
  destruct local as [b|]; [|injection Hm as <- <-; now left].
  apply bind_inv in Hm as [(img & w4 & _ & Hm)|(e & _ & [=])].
  apply bind_inv in Hm as [([] & w5 & _ & Hm)|(e & _ & [=])].
  apply bind_inv in Hm as [([] & w6 & Es & Hm)|(e & _ & [=])].
  apply bind_inv in Hm as [([] & w7 & El & Hm)|(e & _ & [=])].
  injection Hm as <- <-. right. split; [reflexivity|].
  apply storage_save_run in Es as [_ Hst].
  rewrite logger_run in El. injection El as <-. simpl. rewrite Hst. eauto.
Qed.

Lemma create_thumbnail_healthy (source t : string) (pid : Z)
    (w : World) (img : Image) :
  healthy (screenshot_storage w) ->
  _thumb_rel source = Some t ->
  stored (screenshot_storage w) source = Some (Img img) ->
  width img <> 0%nat ->
  match stored (screenshot_storage w) t with
  | Some _ => create_thumbnail source pid w = (Ok t, w)
  | None =>
      let new_h := Nat.max 1 (height img * 480 / width img) in
      result (create_thumbnail source pid) w = Ok t
      /\ stored (screenshot_storage (final (create_thumbnail source pid) w)) t
         = Some (Img (jpeg 55 (resize_lanczos img 480 new_h)))
  end.
Proof.
  intros Hh Et Hs Hw. unfold result, final, create_thumbnail. rewrite Et.
  change (of_option ValueError (Some t)) with (ret (A := string) t).
  rewrite bind_ret_l.
  rewrite (bind_ok _ _ _ _ _ (healthy_exists t w Hh)).
  destruct (stored (screenshot_storage w) t) as [old|] eqn:Ho.
  { rewrite bool_decide_eq_true_2 by eauto. reflexivity. }
  rewrite bool_decide_eq_false_2 by (intros [x Hx]; discriminate Hx).
  cbv iota. unfold try_except.
  rewrite (bind_ok _ _ _ _ _ (healthy_local_path source w _ Hh Hs)).
  unfold Image_open. rewrite bind_ret_l.
  apply Nat.eqb_neq in Hw. rewrite Hw. rewrite bind_ret_l.
  destruct (storage_save_healthy t
              (Img (jpeg THUMBNAIL_JPEG_QUALITY
                      (resize_lanczos img THUMBNAIL_WIDTH
                         (Nat.max 1 (height img * THUMBNAIL_WIDTH / width img))))) w Hh)
    as (w1 & Es & _ & Hst).
  rewrite (bind_ok _ _ _ _ _ Es).
  rewrite (bind_ok _ _ _ _ _ (logger_run _ _ _ _)).
  simpl. split; [reflexivity|exact Hst].
Qed.

(** X9.  The thumbnail [create_thumbnail] makes.  On a store that answers, for
    a source that decodes, has no thumbnail yet, and is not so narrow and
    tall that the thumbnail would exceed the 65500 pixels a JPEG can be
    high, the thumbnail is the source resized to a width of 480 pixels and
    to the height that keeps its proportions, rounded down but not below
    one pixel, written as a JPEG of quality 55 under the sibling name, and
    no other stored object changes; a thumbnail that is already there is
    returned as it is, and nothing is written. *)
Theorem create_thumbnail_makes_thumbnail (source t : string) (pid : Z)
    (w : World) (img : Image) :
  healthy (screenshot_storage w) ->
  _thumb_rel source = Some t ->
  stored (screenshot_storage w) source = Some (Img img) ->
  width img <> 0%nat -> height img <> 0%nat ->
  (Z.of_nat (height img * 480 / width img) <= JPEG_MAX_SIDE)%Z ->
  match stored (screenshot_storage w) t with
  | Some _ => create_thumbnail source pid w = (Ok t, w)
  | None =>
      let new_h := Nat.max 1 (height img * 480 / width img) in
      let w' := final (create_thumbnail source pid) w in
      result (create_thumbnail source pid) w = Ok t
      /\ stored (screenshot_storage w') t
         = Some (Img (jpeg 55 (resize_lanczos img 480 new_h)))
      /\ writes_within [t] w w'
  end.
Proof.
  intros Hh Et Hs Hw _ _.
  pose proof (create_thumbnail_healthy source t pid w img Hh Et Hs Hw) as Hc.
  destruct (stored (screenshot_storage w) t) as [old|]; [exact Hc|].
  destruct Hc as [Hr Hst]. split; [exact Hr|]. split; [exact Hst|].
  apply (writes_create_thumbnail source pid t Et w
           (result (create_thumbnail source pid) w)).
  unfold result, final. now destruct (create_thumbnail source pid w).
Qed.

End ThumbnailProperties.

Lemma create_thumbnail_makes_thumbnail_witness :
  result (create_thumbnail "7/c743f35ac6.jpg" 7) gallery_world
  = Ok "7/c743f35ac6_thumb.jpg"
  /\ exists th, stored (screenshot_storage
                          (final (create_thumbnail "7/c743f35ac6.jpg" 7) gallery_world))
                  "7/c743f35ac6_thumb.jpg" = Some (Img th)
                /\ width th = 480%nat /\ height th = 480%nat.
Proof.
  pose proof (@create_thumbnail_makes_thumbnail plain_imaging
                "7/c743f35ac6.jpg" "7/c743f35ac6_thumb.jpg" 7 gallery_world gray
                (fun _ _ => eq_refl) eq_refl eq_refl) as Ht.
  destruct Ht as (Hr & Hst & _); [discriminate|discriminate|vm_compute; discriminate|].
  split; [exact Hr|]. eexists. split; [exact Hst|]. split; reflexivity.
Defined.

(** ** Capturing a screenshot *)

Lemma append_inv_head (p a b : string) : p ++ a = p ++ b -> a = b.
Proof. induction p as [|c p IH]; simpl; [auto|]. intros [= E]. auto. Qed.

Lemma key_plain (s : string) : plain_path s -> _key "" s = s.
Proof.
  intros [Hs Hb]. unfold _key. simpl.
  unfold Py.lstrip, Py.replace_char. rewrite chars_of_chars.
  assert (Hid : map (fun c => if Ascii.eqb c "\" then "/"%char else c) (Py.chars s)
                = Py.chars s).
  { revert Hb. generalize (Py.chars s). induction l as [|c l IH]; intros Hn; simpl;
      [reflexivity|].
    rewrite IH by (intros Hin; apply Hn; now right).
    destruct (Ascii.eqb c "\") eqn:Ec; [|reflexivity].
    apply Ascii.eqb_eq in Ec. subst. exfalso. apply Hn. now left. }
  rewrite Hid. destruct s as [|c s]; [reflexivity|].
  cbn [Py.chars list_ascii_of_string Py.lstrip_chars].
  destruct (Ascii.eqb c "/") eqn:Ec.
  - apply Ascii.eqb_eq in Ec. subst c. discriminate Hs.
  - apply (of_chars_chars (String c s)).
Qed.

Lemma object_key_inj st a b :
  plain_path a -> plain_path b -> object_key st a = object_key st b -> a = b.
Proof.
  intros Ha Hb.
  assert (Hk : forall p, _key p a = _key p b -> a = b).
  { intros p. pose proof (key_plain a Ha) as Ea. pose proof (key_plain b Hb) as Eb.
    unfold _key in *. simpl in Ea, Eb. rewrite Ea, Eb.
    destruct (Py.truthy p); [|auto].
    intros E. apply append_inv_head in E. now apply (append_inv_head "/") in E. }
  destruct st as [files|p c|p c]; simpl; eauto.
Qed.

Lemma hex_component h :
  h <> "" -> Forall (fun c => is_hex_digit c = true) (Py.chars h) -> component h.
Proof.
  intros Hne Hh. rewrite Forall_forall in Hh. split; [exact Hne|].
  split; intros Hin; apply list_elem_of_In, Hh, is_hex_digit_facts in Hin; tauto.
Qed.

Lemma plain_generated a h tail :
  component a ->
  (forall c, In c (Py.chars a) -> c <> "\"%char) ->
  Forall (fun c => is_hex_digit c = true) (Py.chars h) ->
  ~ In "\"%char (Py.chars tail) ->
  plain_path (a ++ "/" ++ h ++ tail).
Proof.
  intros (Ha & Has & _) Hab Hh Ht. split.
  - destruct a as [|c a]; [now destruct Ha|]. simpl.
    unfold Py.starts_with_slash.
    destruct (Ascii.eqb c "/") eqn:Ec.
    + apply Ascii.eqb_eq in Ec. subst. exfalso. apply Has. now left.
    + destruct c as [[] [] [] [] [] [] [] []]; try reflexivity. discriminate Ec.
  - rewrite chars_app. change (Py.chars ("/" ++ h ++ tail))
      with ("/"%char :: Py.chars (h ++ tail)). rewrite chars_app.
    intros Hin. apply in_app_or in Hin as [Hin|[Hin|Hin]].
    + now apply Hab in Hin.
    + discriminate Hin.
    + apply in_app_or in Hin as [Hin|Hin]; [|auto].
      rewrite Forall_forall in Hh. apply list_elem_of_In, Hh, is_hex_digit_facts in Hin.
      tauto.
Qed.

(** The three names of one capture: the screenshot, its crop and its
    thumbnail are plain paths with three different keys on every backend. *)
Lemma capture_names (time_ns pid : Z) :
  let rel := _unique_filename time_ns pid ".jpg" in
  exists c t,
    sibling_name rel "_crop.jpg" = Some c /\ _thumb_rel rel = Some t
    /\ rel <> ""
    /\ forall st, object_key st rel <> object_key st c
                  /\ object_key st rel <> object_key st t
                  /\ object_key st c <> object_key st t.
Proof.
  intros rel. subst rel.
  destruct (generated_name_parts time_ns pid ".jpg") as (h & -> & _ & Hlen & Hhex).
  pose proof (str_component pid) as Ha.
  assert (Hh : component h) by (apply hex_component; [now destruct h|exact Hhex]).
  assert (Hj : component "jpg").
  { split; [discriminate|]. split; intros Hin; simpl in Hin;
      repeat (destruct Hin as [Hin|Hin]; [discriminate Hin|]); destruct Hin. }
  exists (Py.str pid ++ "/" ++ h ++ "_crop.jpg"), (Py.str pid ++ "/" ++ h ++ "_thumb.jpg").
  split; [apply (sibling_name_shape _ _ "jpg" "_crop.jpg"); assumption|].
  split; [apply (sibling_name_shape _ _ "jpg" "_thumb.jpg"); assumption|].
  split; [destruct (Py.str pid); [now destruct Ha|discriminate]|].
  assert (Hab : forall c, In c (Py.chars (Py.str pid)) -> c <> "\"%char).
  { intros c Hin. destruct (str_chars pid) as [_ Hc]. rewrite Forall_forall in Hc.
    apply list_elem_of_In, Hc in Hin as [Hd| ->]; [|discriminate].
    apply digit_char_facts in Hd. tauto. }
  assert (Hp : forall tail, ~ In "\"%char (Py.chars tail) ->
                 plain_path (Py.str pid ++ "/" ++ h ++ tail))
    by (intros tail; now apply plain_generated).
  assert (Ht : forall s, In s [".jpg"; "_crop.jpg"; "_thumb.jpg"] ->
                 ~ In "\"%char (Py.chars s)).
  { intros s [<-|[<-|[<-|[]]]] Hin; simpl in Hin;
      repeat (destruct Hin as [Hin|Hin]; [discriminate Hin|]); destruct Hin. }
  assert (Hne : forall st t1 t2,
            In t1 [".jpg"; "_crop.jpg"; "_thumb.jpg"] ->
            In t2 [".jpg"; "_crop.jpg"; "_thumb.jpg"] -> t1 <> t2 ->
            object_key st (Py.str pid ++ "/" ++ h ++ t1)
            <> object_key st (Py.str pid ++ "/" ++ h ++ t2)).
  { intros st t1 t2 H1 H2 Hd E. apply object_key_inj in E; auto.
    apply append_inv_head in E. apply (append_inv_head "/") in E.
    apply append_inv_head in E. auto. }
  intros st. repeat split; apply Hne; simpl; auto; discriminate.
Qed.

Lemma bind_of_option_some {A B} e (a : A) (k : A -> M B) :
  bind (of_option e (Some a)) k = k a.
Proof. reflexivity. Qed.

Ltac writes_step' :=
  first
    [ rewrite bind_of_option_some
    | writes_step ].

Section CaptureProperties.
Context `{Imaging}.

Lemma writes_crop_to_region full pid c :
  sibling_name full "_crop.jpg" = Some c ->
  preserves (writes_within [c]) (_crop_to_region full pid).
Proof.
  intros Ec. unfold _crop_to_region. rewrite Ec. repeat writes_step'.
Qed.




End CaptureProperties.

(** ** The visual diff *)

(** X11.  Rounding the score to two decimals never merges two distances: a
    larger distance between the hashes always gives a larger score. *)
Theorem score_strictly_monotone (d1 d2 : Z) :
  (0 <= d1)%Z -> (d1 < d2)%Z -> (d2 <= 64)%Z ->
  (score_of_distance d1 < score_of_distance d2)%Z.
Proof.
  intros H0 Hlt H64.
  destruct (score_of_distance_spec d1) as (B1 & _); [lia|].
  destruct (score_of_distance_spec d2) as (B2 & _); [lia|].
  cbv zeta in B1, B2. lia.
Qed.

Lemma score_strictly_monotone_witness :
  (score_of_distance 1 < score_of_distance 2)%Z.
Proof. apply score_strictly_monotone; lia. Defined.

Lemma hamming_sym (a b : list bool) : hamming a b = hamming b a.
Proof.
  revert b. induction a as [|x a IH]; intros [|y b]; simpl; try reflexivity.
  rewrite IH. now destruct x, y.
Qed.

Lemma hamming_refl (a : list bool) : hamming a a = 0%Z.
Proof. now apply hamming_zero. Qed.

Section DiffMore.
Context `{Imaging}.

Lemma image_score_sym (a b : Image) : image_score a b = image_score b a.
Proof.
  unfold image_score. rewrite hamming_sym.
  now rewrite (Nat.max_comm (width a)), (Nat.max_comm (height a)).
Qed.

Lemma image_score_refl (a : Image) : image_score a a = 0%Z.
Proof. unfold image_score. now rewrite hamming_refl. Qed.

(** X12.  The score does not depend on which screenshot is called the previous
    one: on a store that answers, comparing two stored images in either
    order gives the same score. *)
Theorem compute_diff_score_is_symmetric
    (env : DiffEnv) (p q : string) (pid : Z) (w : World) (a b : Image) :
  healthy (screenshot_storage w) ->
  p <> "" -> q <> "" ->
  imagehash_installed env = true ->
  stored (screenshot_storage w) p = Some (Img a) ->
  stored (screenshot_storage w) q = Some (Img b) ->
  exists d d' s,
    result (compute_diff env p q pid) w = Ok (d, Some s)
    /\ result (compute_diff env q p pid) w = Ok (d', Some s).
Proof.
  intros Hh Hp Hq Hi Sp Sq.
  apply truthy_spec in Hp, Hq.
  destruct (compute_diff_healthy env p q pid w a b Hh Hp Hq Hi Sp Sq) as (w1 & E1 & _).
  destruct (compute_diff_healthy env q p pid w b a Hh Hq Hp Hi Sq Sp) as (w2 & E2 & _).
  unfold result. rewrite E1, E2. rewrite (image_score_sym b a).
  eexists _, _, _. split; reflexivity.
Qed.

(** X13.  An image compared with itself, or with an identical copy under another
    path, scores zero; no diff image is named and the store is left as it
    was. *)
Theorem compute_diff_of_equal_images
    (env : DiffEnv) (prev curr : string) (pid : Z) (w : World) (a : Image) :
  healthy (screenshot_storage w) ->
  prev <> "" -> curr <> "" ->
  imagehash_installed env = true ->
  stored (screenshot_storage w) prev = Some (Img a) ->
  stored (screenshot_storage w) curr = Some (Img a) ->
  result (compute_diff env prev curr pid) w = Ok ("", Some 0%Z)
  /\ screenshot_storage (final (compute_diff env prev curr pid) w)
     = screenshot_storage w.
Proof.
  intros Hh Hp Hq Hi Sp Sq. apply truthy_spec in Hp, Hq.
  destruct (compute_diff_healthy env prev curr pid w a a Hh Hp Hq Hi Sp Sq)
    as (w1 & E1 & _).
  rewrite image_score_refl in E1. simpl in E1.
  unfold result, final. rewrite E1. split; [reflexivity|]. simpl.
  destruct (compute_diff_result _ _ _ _ _ _ _ E1)
    as (_ & _ & _ & _ & _ & _ & _ & a1 & b1 & _ & _ & _ & _ & Hst).
  now apply Hst.
Qed.

Lemma writes_compare_images env pb cb pid :
  preserves (writes_within [_unique_filename (diff_time_ns env) pid "_diff.jpg"])
    (compare_images env pb cb pid).
Proof. unfold compare_images. writes_auto. Qed.

Lemma writes_compute_diff env prev curr pid :
  preserves (writes_within [_unique_filename (diff_time_ns env) pid "_diff.jpg"])
    (compute_diff env prev curr pid).
Proof.
  unfold compute_diff.
  destruct (_ || _); [writes_auto|].
  apply writes_bind; [writes_auto|intros []; [|writes_auto]].
  apply writes_bind; [writes_auto|intros []; [|writes_auto]].
  simpl negb. cbv iota.
  destruct (negb (imagehash_installed env)); [writes_auto|].
  apply writes_bind; [writes_auto|intros prev_local].
  apply writes_bind; [writes_auto|intros curr_local].
  destruct prev_local, curr_local; try apply writes_ret.
  apply writes_try_except; [apply writes_compare_images|intros e; writes_auto].
Qed.

(** X14.  What [compute_diff] does to the store.  The compared screenshots are
    only read: the one key the function can write is that of the fresh
    diff name.  A diff path it returns is that name, the store then holds
    the diff image, and the score is positive; when it returns no diff
    path, the store is exactly as before. *)
Theorem compute_diff_store_effect
    (env : DiffEnv) (prev curr : string) (pid : Z) (w : World) :
  let name := _unique_filename (diff_time_ns env) pid "_diff.jpg" in
  let w' := final (compute_diff env prev curr pid) w in
  writes_within [name] w w'
  /\ forall d s, result (compute_diff env prev curr pid) w = Ok (d, s) ->
       if Py.truthy d
       then d = name /\ is_Some (stored (screenshot_storage w') name)
            /\ exists z, s = Some z /\ (0 < z)%Z
       else screenshot_storage w' = screenshot_storage w.
Proof.
  intros name w'. subst w'. unfold result, final.
  destruct (compute_diff env prev curr pid w) as [o w'] eqn:E. simpl.
  split; [eapply writes_compute_diff; eauto|].
  intros d s ->.
  revert E. unfold compute_diff.
  destruct (_ || _); [intros [= <- <- <-]; reflexivity|].
  intros E.
  apply bind_inv in E as [(b1 & w1 & E1 & E)|(e & _ & [=])].
  destruct (storage_exists_frame _ _ _ _ E1) as (S1 & _).
  destruct b1; simpl in E; [|injection E as <- <- <-; exact S1].
  apply bind_inv in E as [(b2 & w2 & E2 & E)|(e & _ & [=])].
  destruct (storage_exists_frame _ _ _ _ E2) as (S2 & _).
  destruct b2; simpl in E; [|injection E as <- <- <-; congruence].
  destruct (imagehash_installed env); simpl in E.
  2:{ rewrite (bind_ok _ _ _ _ _ (logger_run _ _ _ _)) in E.
      injection E as <- <- <-. simpl. congruence. }
  destruct (storage_local_path_run prev w2) as (w3 & E3 & S3 & _).
  destruct (local_path_answer (screenshot_storage w2) prev) as [o1|e1];
    [|rewrite (bind_raise _ _ _ _ _ E3) in E; discriminate E].
  rewrite (bind_ok _ _ _ _ _ E3) in E.
  destruct (storage_local_path_run curr w3) as (w4 & E4 & S4 & _).
  destruct (local_path_answer (screenshot_storage w3) curr) as [o2|e2];
    [|rewrite (bind_raise _ _ _ _ _ E4) in E; discriminate E].
  rewrite (bind_ok _ _ _ _ _ E4) in E.
  assert (S4' : screenshot_storage w4 = screenshot_storage w) by congruence.
  destruct o1 as [pb|];
    [|injection E as <- <- <-; exact S4'].
  destruct o2 as [cb|];
    [|injection E as <- <- <-; exact S4'].
  unfold try_except in E.
  destruct (compare_images env pb cb pid w4) as [[[d0 s0]|e] w5] eqn:Ec.
  2:{ (* the block raised: only a refused upload changes nothing *)
      rewrite (bind_ok _ _ _ _ _ (logger_run _ _ _ _)) in E.
      injection E as <- <- <-. simpl. rewrite <- S4'.
      revert Ec. unfold compare_images.
      destruct pb as [a|]; [|intros [= _ <-]; reflexivity].
      destruct cb as [b|]; [|intros [= _ <-]; reflexivity].
      unfold Image_open. rewrite !bind_ret_l. cbv beta zeta.
      intros Ec.
      apply bind_inv in Ec as [(d1 & w6 & _ & Ec)|(e1 & Ed & _)].
      { rewrite (bind_ok _ _ _ _ _ (logger_run _ _ _ _)) in Ec. discriminate Ec. }
      destruct (0 <? _)%Z; [|discriminate Ed].
      apply bind_inv in Ed as [([] & w6 & Es & Ed)|(e2 & Es & _)].
      { rewrite (bind_ok _ _ _ _ _ (logger_run _ _ _ _)) in Ed. discriminate Ed. }
      now apply storage_save_run in Es as [_ Hst]. }
  injection E as <- <- <-.
  revert Ec. unfold compare_images.
  destruct pb as [a|]; [|intros [=]].
  destruct cb as [b|]; [|intros [=]].
  unfold Image_open. rewrite !bind_ret_l. cbv beta zeta.
  change (score_of_distance _) with (image_score a b).
  intros Ec.
  apply bind_inv in Ec as [(d1 & w6 & Ed & Ec)|(e1 & _ & [=])].
  rewrite (bind_ok _ _ _ _ _ (logger_run _ _ _ _)) in Ec.
  injection Ec as <- <- <-. simpl.
  destruct (0 <? image_score a b)%Z eqn:Hs.
  - apply bind_inv in Ed as [([] & w7 & Es & Ed)|(e2 & _ & [=])].
    rewrite (bind_ok _ _ _ _ _ (logger_run _ _ _ _)) in Ed.
    injection Ed as <- <-. simpl.
    fold name.
    replace (Py.truthy name) with true.
    + split; [reflexivity|]. apply storage_save_run in Es as [_ Hst].
      fold name in Hst. rewrite Hst. split; [eauto|].
      exists (image_score a b). split; [reflexivity|]. now apply Z.ltb_lt.
    + symmetry. apply truthy_spec. unfold name.
      destruct (generated_name_parts (diff_time_ns env) pid "_diff.jpg")
        as (h & -> & _).
      destruct (str_component pid) as (Hne & _).
      destruct (Py.str pid); [now destruct Hne|discriminate].
  - injection Ed as <- <-. simpl. exact S4'.
Qed.

End DiffMore.

Lemma compute_diff_score_is_symmetric_witness :
  let w := world_of plain_settings two_shots [] [] [] in
  exists d d' s,
    result (compute_diff (diff_env_at 1700000000000000002)
              "7/c743f35ac6.jpg" "7/1faa93d4b3.jpg" 7) w = Ok (d, Some s)
    /\ result (compute_diff (diff_env_at 1700000000000000002)
                 "7/1faa93d4b3.jpg" "7/c743f35ac6.jpg" 7) w = Ok (d', Some s).
Proof.
  intros w.
  apply (@compute_diff_score_is_symmetric plain_imaging _ _ _ _ w gray black);
    try reflexivity; try discriminate; try (intros ? ?; reflexivity).
Defined.

Lemma compute_diff_of_equal_images_witness :
  result (compute_diff (diff_env_at 1700000000000000002)
            "7/c743f35ac6.jpg" "7/c743f35ac6.jpg" 7) gallery_world
  = Ok ("", Some 0%Z).
Proof.
  apply (@compute_diff_of_equal_images plain_imaging _ _ _ _ gallery_world gray);
    try reflexivity; try discriminate; try (intros ? ?; reflexivity).
Defined.

(** ** Alerts over a run of checks *)

Lemma handle_change_run page latest w r :
  result (page_recipient page) w = Ok r ->
  exists w',
    handle_change_notification page latest w = (Ok tt, w')
    /\ checks w' = checks w /\ users w' = users w
    /\ screenshot_storage w' = screenshot_storage w
    /\ outbox w' = (outbox w ++
         if change_notifications_enabled page && screenshot_enabled page
            && match diff_score latest with Some s => (0 <? s)%Z | None => false end
            && Py.truthy r
         then [{| kind := VisualChangeMail (default 0%Z (diff_score latest));
                  about := url page; recipient := r |}]
         else [])%list.
Proof.
  intros Hr. destruct (page_recipient_run page w) as (r' & Hp).
  unfold result in Hr. rewrite Hp in Hr. simpl in Hr. injection Hr as ->.
  unfold handle_change_notification.
  rewrite (bind_ok _ _ _ _ _ (logger_run _ _ _ _)).
  set (w0 := set_log _ w).
  assert (Hp0 : page_recipient page w0 = (Ok r, w0)).
  { unfold page_recipient, bind, gets, ret in *. simpl in *.
    injection Hp as Hp. now rewrite Hp. }
  destruct (change_notifications_enabled page); simpl;
    [|exists w0; rewrite app_nil_r; auto].
  destruct (screenshot_enabled page); simpl;
    [|exists w0; rewrite app_nil_r; auto].
  destruct (diff_score latest) as [s|]; simpl;
    [|exists w0; rewrite app_nil_r; auto].
  rewrite Z.leb_antisym. destruct (0 <? s)%Z; simpl;
    [|exists w0; rewrite app_nil_r; auto].
  rewrite (bind_ok _ _ _ _ _ Hp0).
  destruct (Py.truthy r); simpl.
  - eexists. split; [reflexivity|]. simpl. auto.
  - eexists. split; [reflexivity|]. simpl. rewrite app_nil_r. auto.
Qed.



Lemma order_by_append_newest rows c :
  (forall d, In d rows -> (checked_at d <= checked_at c)%Z) ->
  order_by_checked_at_desc (rows ++ [c]) = c :: order_by_checked_at_desc rows.
Proof.
  induction rows as [|d rows IH]; intros Hle; [reflexivity|].
  simpl. rewrite IH by (intros x Hx; apply Hle; now right). simpl.
  specialize (Hle d (or_introl eq_refl)).
  destruct (Z.ltb_spec (checked_at c) (checked_at d)); [lia|reflexivity].
Qed.

Lemma page_checks_app page a b :
  page_checks page (a ++ b) = (page_checks page a ++ page_checks page b)%list.
Proof. unfold page_checks. apply List.filter_app. Qed.

Section StreakProperties.
Context `{Imaging}.

(** Neither notification decision touches the tables of pages and
    users or the settings. *)
Lemma handle_post_check_keeps page latest w w' o :
  handle_post_check_notification page latest w = (o, w') ->
  pages w' = pages w /\ users w' = users w /\ settings w' = settings w.
Proof.
  unfold handle_post_check_notification, page_recipient, _send_plain,
    _send, previous_check, _consecutive_failures, bind, gets, ret, modify, logger.
  simpl.
  repeat match goal with
         | |- context [if ?b then _ else _] => destruct b; simpl
         | |- context [match ?x with Some _ => _ | None => _ end] => destruct x; simpl
         end; intros [= _ <-]; auto.
Qed.

Lemma handle_change_keeps page latest w w' o :
  handle_change_notification page latest w = (o, w') ->
  pages w' = pages w /\ users w' = users w /\ settings w' = settings w.
Proof.
  unfold handle_change_notification, page_recipient, _send_html,
    _send, bind, gets, ret, modify, logger.
  simpl.
  repeat match goal with
         | |- context [if ?b then _ else _] => destruct b; simpl
         | |- context [match ?x with Some _ => _ | None => _ end] => destruct x; simpl
         end; intros [= _ <-]; auto.
Qed.

(** PostgreSQL takes the row of a check that took no screenshot when its
    message has no more than 255 characters. *)
Lemma postgresql_takes_plain_row page env :
  (String.length (snd (check_url (probe env))) <= 255)%nat ->
  postgresql (plain_row page env) = None.
Proof.
  intros Hm. unfold postgresql, plain_row.
  destruct (check_url (probe env)) as [[status up] msg]. simpl in *.
  apply Nat.leb_le in Hm. now rewrite Hm.
Qed.

(** One check whose probe finds the page down, the database taking the
    row: no screenshot is taken, the row is persisted as the newest of
    the page, and the downtime decision is taken on the streak including
    it. *)
Lemma run_single_check_down page env w status msg r :
  check_url (probe env) = (status, false, msg) ->
  DATABASE_ENGINE (settings w) (plain_row page env) = None ->
  page_exists (page_pk page) (pages w) = true ->
  result (page_recipient page) w = Ok r ->
  (forall d, In d (page_checks page (checks w)) -> (checked_at d <= now env)%Z) ->
  exists w' row,
    _run_single_check page env w = (Ok tt, w')
    /\ checks w' = (checks w ++ [row])%list
    /\ checked_at row = now env /\ is_up row = false
    /\ users w' = users w /\ pages w' = pages w /\ settings w' = settings w
    /\ history page w' = row :: history page w
    /\ outbox w' = (outbox w ++
         if negb (notifications_enabled page) || negb (Py.truthy r) then []
         else if (alert_threshold page <=? 0)%Z then []
         else if (1 + count_until_up (map is_up (history page w))
                  =? alert_threshold page)%Z
              then [{| kind := DownAlertMail (alert_threshold page) (alert_threshold page);
                       about := url page; recipient := r |}]
              else [])%list.
Proof.
  intros Hp Hm Hpage Hr Hle.
  set (row := {| pk := fresh_pk (checks w); page_id := page_pk page;
                 checked_at := now env; status_code := status;
                 response_time_ms := elapsed_ms env; is_up := false;
                 message := msg; screenshot_path := ""; crop_path := "";
                 diff_path := ""; diff_score := None |}).
  set (w1 := set_checks (checks w ++ [row]) w).
  assert (Ep : probe_and_persist page env w = (Ok (initial_locals, row), w1)).
  { unfold plain_row in Hm. rewrite Hp in Hm.
    unfold probe_and_persist. rewrite Hp. rewrite andb_false_r, bind_ret_l.
    unfold bind at 1. rewrite objects_create_run, Hm. cbn [page_id new_check].
    rewrite Hpage. reflexivity. }
  unfold _run_single_check. rewrite (bind_ok _ _ _ _ _ Ep).
  change (Py.truthy (screenshot_rel initial_locals)) with false.
  unfold when. rewrite bind_ret_l.
  assert (Hh : history page w1 = row :: history page w).
  { unfold history, w1. simpl. rewrite page_checks_app. simpl.
    rewrite Z.eqb_refl. apply order_by_append_newest. exact Hle. }
  assert (Hr1 : result (page_recipient page) w1 = Ok r) by exact Hr.
  destruct (handle_post_check_run page row w1 r Hr1) as (w2 & E2 & C2 & S2 & O2).
  destruct (handle_post_check_keeps _ _ _ _ _ E2) as (P2 & U2 & T2).
  assert (Hr2 : result (page_recipient page) w2 = Ok r).
  { unfold result, page_recipient, bind, gets, ret in *. simpl in *. now rewrite U2. }
  destruct (handle_change_run page row w2 r Hr2) as (w3 & E3 & C3 & U3 & S3 & O3).
  destruct (handle_change_keeps _ _ _ _ _ E3) as (P3 & _ & T3).
  rewrite (bind_ok _ _ _ _ _ E2).
  exists w3, row. split; [exact E3|].
  split; [rewrite C3, C2; reflexivity|].
  split; [reflexivity|]. split; [reflexivity|].
  split; [rewrite U3, U2; reflexivity|].
  split; [rewrite P3, P2; reflexivity|].
  split; [rewrite T3, T2; reflexivity|].
  split; [unfold history in *; rewrite C3, C2; exact Hh|].
  rewrite O3, O2. change (diff_score row) with (@None Z).
  rewrite !andb_false_r, andb_false_l. rewrite app_nil_r.
  change (outbox w1) with (outbox w). f_equal.
  change (is_up row) with false. cbv iota. rewrite Hh.
  change (map is_up (row :: history page w)) with (false :: map is_up (history page w)).
  reflexivity.
Qed.

Lemma down_streak_run page r : forall envs w,
  notifications_enabled page = true ->
  (0 < alert_threshold page)%Z ->
  result (page_recipient page) w = Ok r -> r <> "" ->
  page_exists (page_pk page) (pages w) = true ->
  Forall (fun env => snd (fst (check_url (probe env))) = false
                     /\ DATABASE_ENGINE (settings w) (plain_row page env) = None) envs ->
  StronglySorted (fun a b => (now a <= now b)%Z) envs ->
  (forall env d, In env envs -> In d (page_checks page (checks w)) ->
                 (checked_at d <= now env)%Z) ->
  let k := count_until_up (map is_up (history page w)) in
  exists w',
    for_each envs (_run_single_check page) w = (Ok tt, w')
    /\ length (checks w') = (length (checks w) + length envs)%nat
    /\ outbox w' = (outbox w ++
         if (k <? alert_threshold page)%Z
            && (alert_threshold page <=? k + Z.of_nat (length envs))%Z
         then [{| kind := DownAlertMail (alert_threshold page) (alert_threshold page);
                  about := url page; recipient := r |}]
         else [])%list.
Proof.
  induction envs as [|env envs IH]; intros w Hen Ht Hr Hne Hpage Hdown Hsort Hle k.
  - exists w. rewrite for_each_nil. split; [reflexivity|].
    split; [simpl; lia|].
    simpl length. destruct (Z.ltb_spec k (alert_threshold page)),
      (Z.leb_spec (alert_threshold page) (k + Z.of_nat 0)); simpl;
      try lia; now rewrite app_nil_r.
  - apply Forall_cons in Hdown as [[Hd Hm] Hdown].
    inversion Hsort as [|? ? Hsort' Hall]; subst.
    destruct (check_url (probe env)) as [[status up] msg] eqn:Hp.
    simpl in Hd. subst up.
    destruct (run_single_check_down page env w status msg r Hp Hm Hpage Hr)
      as (w1 & row & E1 & C1 & Hat & Hup & U1 & P1 & T1 & Hh & O1).
    { intros d Hin. apply (Hle env d); [now left|exact Hin]. }
    assert (Hr1 : result (page_recipient page) w1 = Ok r).
    { unfold result, page_recipient, bind, gets, ret in *. simpl in *. now rewrite U1. }
    assert (Hpage1 : page_exists (page_pk page) (pages w1) = true) by now rewrite P1.
    rewrite <- T1 in Hdown.
    destruct (IH w1 Hen Ht Hr1 Hne Hpage1 Hdown Hsort') as (w' & E & L & O).
    { intros env' d Hin' Hd. rewrite C1, page_checks_app in Hd.
      apply in_app_or in Hd as [Hd|Hd]; [apply (Hle env' d); [now right|exact Hd]|].
      unfold page_checks in Hd. apply filter_In in Hd as [[<-|[]] _].
      rewrite Hat. rewrite Forall_forall in Hall. apply Hall.
      now apply list_elem_of_In. }
    exists w'. rewrite for_each_cons. rewrite (bind_ok _ _ _ _ _ E1).
    split; [exact E|].
    split; [rewrite L, C1, length_app; simpl; lia|].
    rewrite O, O1, <- app_assoc. f_equal.
    rewrite Hen. replace (Py.truthy r) with true by (symmetry; now apply truthy_spec).
    simpl negb. simpl orb. cbv iota.
    destruct (Z.leb_spec (alert_threshold page) 0); [lia|].
    rewrite Hh. change (map is_up (row :: history page w))
      with (is_up row :: map is_up (history page w)). rewrite Hup.
    change (count_until_up (false :: ?l)) with (1 + count_until_up l)%Z.
    fold k. simpl length.
    destruct (Z.eqb_spec (1 + k) (alert_threshold page)),
      (Z.ltb_spec (1 + k) (alert_threshold page)),
      (Z.ltb_spec k (alert_threshold page)),
      (Z.leb_spec (alert_threshold page) (1 + k + Z.of_nat (length envs))),
      (Z.leb_spec (alert_threshold page) (k + Z.of_nat (S (length envs))));
      simpl; try lia; reflexivity.
Qed.

(** X16.  One alert per streak.  A page with notifications enabled, a positive
    threshold and an owner with an address, whose newest check is up or
    which was never checked, is checked again and again by
    [_run_single_check] and found down each time, the clock never going
    backwards.  As long as the database takes the rows, the row of the
    page being in its table and the engine refusing no column (on
    PostgreSQL: no message of a probe being longer than the 255
    characters of its column), every check returns normally and adds its
    row, and over the whole run the only message sent is one downtime
    alert, sent when the streak reaches the threshold: none if the run is
    shorter than the threshold, and never a second one however long the
    outage lasts. *)
Theorem down_alert_once_per_streak
    (page : MonitoredPage) (envs : list CheckEnv) (w : World) (r : string) :
  notifications_enabled page = true ->
  (0 < alert_threshold page)%Z ->
  result (page_recipient page) w = Ok r -> r <> "" ->
  page_exists (page_pk page) (pages w) = true ->
  (forall c, head (history page w) = Some c -> is_up c = true) ->
  Forall (fun env => snd (fst (check_url (probe env))) = false
                     /\ DATABASE_ENGINE (settings w) (plain_row page env) = None) envs ->
  StronglySorted (fun a b => (now a <= now b)%Z) envs ->
  (forall env d, In env envs -> In d (page_checks page (checks w)) ->
                 (checked_at d <= now env)%Z) ->
  result (for_each envs (_run_single_check page)) w = Ok tt
  /\ length (checks (final (for_each envs (_run_single_check page)) w))
     = (length (checks w) + length envs)%nat
  /\ sent_by (for_each envs (_run_single_check page)) w
     = if (alert_threshold page <=? Z.of_nat (length envs))%Z
       then [{| kind := DownAlertMail (alert_threshold page) (alert_threshold page);
                about := url page; recipient := r |}]
       else [].
Proof.
  intros Hen Ht Hr Hne Hpage Hup Hdown Hsort Hle.
  destruct (down_streak_run page r envs w Hen Ht Hr Hne Hpage Hdown Hsort Hle)
    as (w' & E & L & O).
  assert (Hk : count_until_up (map is_up (history page w)) = 0%Z).
  { destruct (history page w) as [|c l]; [reflexivity|].
    simpl. now rewrite (Hup c eq_refl). }
  rewrite Hk in O. split; [unfold result; now rewrite E|].
  split; [unfold final; now rewrite E|].
  erewrite sent_by_run; [|exact E|exact O].
  destruct (Z.ltb_spec 0 (alert_threshold page)); [reflexivity|lia].
Qed.

End StreakProperties.

(** Three failed checks in a row with a threshold of two: one alert. *)
Lemma down_alert_once_per_streak_witness :
  sent_by (for_each [down_env 10; down_env 11; down_env 12]
             (_run_single_check (page_of alice true 2)))
          (notify_world alice [check_at 1 1 true])
  = [{| kind := DownAlertMail 2 2; about := "http://example.invalid/health";
        recipient := "alice@example.com" |}].
Proof.
  apply (@down_alert_once_per_streak plain_imaging (page_of alice true 2)
           [down_env 10; down_env 11; down_env 12]
           (notify_world alice [check_at 1 1 true]) "alice@example.com").
  - reflexivity.
  - simpl. lia.
  - reflexivity.
  - discriminate.
  - reflexivity.
  - intros c Hc. vm_compute in Hc. injection Hc as <-. reflexivity.
  - repeat constructor.
  - repeat constructor; simpl; lia.
  - intros env d Henv Hd. vm_compute in Hd. destruct Hd as [<-|[]].
    simpl in Henv. destruct Henv as [<-|[<-|[<-|[]]]]; simpl; lia.
Defined.

(** When the row of the page is gone, the insert of the first check
    raises: the run ends there, and no alert is sent. *)
Lemma down_run_raises_without_the_page_row :
  let w := world_of plain_settings (LocalScreenshotStorage ∅ sound_disk)
             [alice] [] [check_at 1 1 true] in
  let run := for_each [down_env 10; down_env 11; down_env 12]
               (_run_single_check (page_of alice true 2)) in
  result run w = Raise IntegrityError /\ sent_by run w = [] /\ checks (final run w) = checks w.
Proof. vm_compute. repeat split. Qed.

(** ** The executors *)

Lemma try_statements_total on_error steps : forall l w,
  exists l' w', try_statements on_error steps l w = (Ok l', w').
Proof.
  induction steps as [|s steps IH]; intros l w.
  - rewrite try_statements_nil. eauto.
  - rewrite try_statements_cons. destruct (s l w) as [[l1|e] w1]; eauto.
Qed.

Lemma try_statements_preserves R on_error steps :
  (forall w, R w w) -> (forall a b c, R a b -> R b c -> R a c) ->
  Forall (fun s => forall l, preserves R (s l)) steps ->
  forall l, preserves R (try_statements on_error steps l).
Proof.
  intros Hrefl Htrans Hs. induction Hs as [|s steps Hs _ IH]; intros l w o w' E.
  - rewrite try_statements_nil in E. injection E as <- <-. apply Hrefl.
  - rewrite try_statements_cons in E.
    destruct (s l w) as [[l1|e] w1] eqn:E1.
    + eapply Htrans; [eapply Hs; eauto|eapply IH; eauto].
    + injection E as <- <-. eapply Hs; eauto.
Qed.

Lemma fresh_pk_fresh rows : ~ In (fresh_pk rows) (map pk rows).
Proof.
  unfold fresh_pk. intros Hin.
  assert (Hmax : forall l x, In x l -> (x <= fold_right Z.max 0 l)%Z).
  { induction l as [|y l IH]; intros x Hx; [destruct Hx|].
    destruct Hx as [<-|Hx]; simpl; [lia|]. specialize (IH x Hx). lia. }
  apply Hmax in Hin. lia.
Qed.

Section ExecutorMore.
Context `{Imaging}.

Lemma preserves_read_last_check page l : preserves frame (read_last_check page l).
Proof. unfold read_last_check. frame_auto. Qed.

Lemma preserves_capture_step page env l : preserves frame (capture_step page env l).
Proof.
  unfold capture_step. apply preserves_bind; [apply preserves_capture_screenshot|].
  intros. apply preserves_ret.
Qed.

Lemma preserves_diff_step page env l : preserves frame (diff_step page env l).
Proof.
  unfold diff_step. destruct (diff_wanted l); [|apply preserves_ret].
  cbv zeta. apply preserves_bind; [apply preserves_compute_diff|].
  intros. apply preserves_ret.
Qed.

Lemma preserves_delete_steps l :
  preserves frame (delete_new_screenshot l)
  /\ preserves frame (delete_new_crop l)
  /\ preserves frame (reuse_previous l).
Proof.
  unfold delete_new_screenshot, delete_new_crop, reuse_previous.
  split; [|split]; frame_auto.
Qed.

Lemma preserves_screenshot_blocks page env :
  Forall (fun s => forall l, preserves frame (s l)) (screenshot_block page env)
  /\ Forall (fun s => forall l, preserves frame (s l)) (view_screenshot_block page env).
Proof.
  unfold screenshot_block, view_screenshot_block, diff_and_reuse.
  assert (Htail : Forall (fun s => forall l, preserves frame (s l))
                    [diff_step page env; delete_new_screenshot; delete_new_crop;
                     reuse_previous]).
  { constructor; [intros l; apply preserves_diff_step|].
    constructor; [intros l; apply preserves_delete_steps|].
    constructor; [intros l; apply preserves_delete_steps|].
    constructor; [intros l; apply preserves_delete_steps|]. constructor. }
  split.
  - constructor; [intros l; apply preserves_read_last_check|].
    constructor; [intros l; apply preserves_capture_step|]. exact Htail.
  - constructor; [intros l; apply preserves_capture_step|].
    constructor; [intros l; apply preserves_read_last_check|]. exact Htail.
Qed.

(** How either executor ends its first half: the screenshot block never
    raises and leaves the tables alone, and the insert decides. *)
Lemma persist_outcome page env force_screenshot w run wanted msg :
  (run = probe_and_persist page env /\ wanted = screenshot_enabled page
   /\ msg = snd (check_url (probe env)))
  \/ (run = perform_and_persist page env force_screenshot
      /\ wanted = screenshot_enabled page || force_screenshot
      /\ msg = snd (probe_outcome (probe env))) ->
  let status := fst (fst (check_url (probe env))) in
  let up := snd (fst (check_url (probe env))) in
  exists l w1,
    frame w w1
    /\ (wanted && up = false -> l = initial_locals /\ w1 = w)
    /\ run w =
       let row0 := new_check page env status up msg l in
       let row := with_pk (fresh_pk (checks w)) row0 in
       match DATABASE_ENGINE (settings w) row0 with
       | Some e => (Raise e, w1)
       | None =>
           if page_exists (page_pk page) (pages w)
           then (Ok (l, row), set_checks (checks w ++ [row]) w1)
           else (Raise IntegrityError, w1)
       end.
Proof.
  intros Hrun status up. subst status up.
  destruct (preserves_screenshot_blocks page env) as [Hb1 Hb2].
  assert (Hsame : fst (probe_outcome (probe env)) = fst (check_url (probe env))).
  { destruct (probe env); reflexivity. }
  unfold probe_and_persist, perform_and_persist in Hrun.
  destruct (probe_outcome (probe env)) as [[status' up'] msg'].
  destruct (check_url (probe env)) as [[status up] msg0].
  simpl in Hsame. injection Hsame as -> ->. simpl fst. simpl snd. simpl in Hrun.
  assert (Hcreate : forall msg l w1,
            frame w w1 ->
            (latest0 <- objects_create (new_check page env status up msg l) ;;
             ret (l, latest0)) w1
            = let row0 := new_check page env status up msg l in
              let row := with_pk (fresh_pk (checks w)) row0 in
              match DATABASE_ENGINE (settings w) row0 with
              | Some e => (Raise e, w1)
              | None =>
                  if page_exists (page_pk page) (pages w)
                  then (Ok (l, row), set_checks (checks w ++ [row]) w1)
                  else (Raise IntegrityError, w1)
              end).
  { intros msg1 l w1 F.
    destruct F as (Fs & Fc & Fo & Fp & Fu & Ft).
    unfold bind. rewrite objects_create_run. rewrite Ft, Fp, Fc.
    cbn [page_id new_check]. cbv zeta.
    destruct (DATABASE_ENGINE _ _); [reflexivity|].
    now destruct (page_exists _ _). }
  destruct Hrun as [(-> & -> & ->)|(-> & -> & ->)].
  - destruct (screenshot_enabled page && up) eqn:Hw.
    + destruct (try_statements_total (fun l => l) (screenshot_block page env)
                  initial_locals w) as (l & w1 & E).
      rewrite (bind_ok _ _ _ _ _ E).
      assert (F : frame w w1)
        by exact (try_statements_preserves frame _ _ frame_refl frame_trans
                    Hb1 _ _ _ _ E).
      exists l, w1. split; [exact F|]. split; [congruence|]. now apply Hcreate.
    + rewrite bind_ret_l. exists initial_locals, w.
      split; [apply frame_refl|]. split; [auto|]. apply Hcreate, frame_refl.
  - destruct ((screenshot_enabled page || force_screenshot) && up) eqn:Hw.
    + destruct (try_statements_total forget_crop (view_screenshot_block page env)
                  initial_locals w) as (l & w1 & E).
      rewrite (bind_ok _ _ _ _ _ E).
      assert (F : frame w w1)
        by exact (try_statements_preserves frame _ _ frame_refl frame_trans
                    Hb2 _ _ _ _ E).
      exists l, w1. split; [exact F|]. split; [congruence|]. now apply Hcreate.
    + rewrite bind_ret_l. exists initial_locals, w.
      split; [apply frame_refl|]. split; [auto|]. apply Hcreate, frame_refl.
Qed.

(** What a persisted row carries. *)
Lemma persisted page env force_screenshot w run l latest w' :
  run = probe_and_persist page env
  \/ run = perform_and_persist page env force_screenshot ->
  run w = (Ok (l, latest), w') ->
  checks w' = (checks w ++ [latest])%list
  /\ page_id latest = page_pk page
  /\ checked_at latest = now env
  /\ is_up latest = snd (fst (check_url (probe env)))
  /\ outbox w' = outbox w /\ pages w' = pages w /\ users w' = users w.
Proof.
  intros Hrun E.
  assert (Hp : exists msg l1 w1,
             frame w w1
             /\ run w =
                let row0 := new_check page env (fst (fst (check_url (probe env))))
                              (snd (fst (check_url (probe env)))) msg l1 in
                let row := with_pk (fresh_pk (checks w)) row0 in
                match DATABASE_ENGINE (settings w) row0 with
                | Some e => (Raise e, w1)
                | None =>
                    if page_exists (page_pk page) (pages w)
                    then (Ok (l1, row), set_checks (checks w ++ [row]) w1)
                    else (Raise IntegrityError, w1)
                end).
  { destruct Hrun as [-> | ->].
    - destruct (persist_outcome page env force_screenshot w _ _ _
                  (or_introl (conj eq_refl (conj eq_refl eq_refl))))
        as (l1 & w1 & F & _ & Hr). eauto 6.
    - destruct (persist_outcome page env force_screenshot w _ _ _
                  (or_intror (conj eq_refl (conj eq_refl eq_refl))))
        as (l1 & w1 & F & _ & Hr). eauto 6. }
  destruct Hp as (msg & l1 & w1 & F & Hr). rewrite E in Hr. cbv zeta in Hr.
  destruct (DATABASE_ENGINE _ _); [discriminate Hr|].
  destruct (page_exists _ _); [|discriminate Hr].
  injection Hr as -> -> ->. destruct F as (_ & _ & Fo & Fp & Fu & _).
  simpl. auto 8.
Qed.

(** What is left of a run whose insert raised. *)
Lemma not_persisted page env force_screenshot w run e w' :
  run = probe_and_persist page env
  \/ run = perform_and_persist page env force_screenshot ->
  run w = (Raise e, w') ->
  checks w' = checks w /\ outbox w' = outbox w.
Proof.
  intros Hrun E.
  assert (Hp : exists msg l1 w1,
             frame w w1
             /\ run w =
                let row0 := new_check page env (fst (fst (check_url (probe env))))
                              (snd (fst (check_url (probe env)))) msg l1 in
                let row := with_pk (fresh_pk (checks w)) row0 in
                match DATABASE_ENGINE (settings w) row0 with
                | Some e => (Raise e, w1)
                | None =>
                    if page_exists (page_pk page) (pages w)
                    then (Ok (l1, row), set_checks (checks w ++ [row]) w1)
                    else (Raise IntegrityError, w1)
                end).
  { destruct Hrun as [-> | ->].
    - destruct (persist_outcome page env force_screenshot w _ _ _
                  (or_introl (conj eq_refl (conj eq_refl eq_refl))))
        as (l1 & w1 & F & _ & Hr). eauto 6.
    - destruct (persist_outcome page env force_screenshot w _ _ _
                  (or_intror (conj eq_refl (conj eq_refl eq_refl))))
        as (l1 & w1 & F & _ & Hr). eauto 6. }
  destruct Hp as (msg & l1 & w1 & F & Hr). rewrite E in Hr. cbv zeta in Hr.
  destruct F as (_ & Fc & Fo & _).
  destruct (DATABASE_ENGINE _ _); [injection Hr as -> ->; auto|].
  destruct (page_exists _ _); [discriminate Hr|].
  injection Hr as -> ->; auto.
Qed.

(** X17.  The check is recorded unless the insert raises.  In both executors
    the screenshot block never raises, whatever the probe, the browser
    and the store do, and leaves the tables, the settings and the outbox
    alone; when screenshots are off for the page (and not forced) or the
    page is down it is not run at all, and the row names no artifact.
    The insert that follows is not guarded.  It raises what the engine
    raises when it refuses a column, as PostgreSQL does with [DataError]
    for a message of more than 255 characters, and [IntegrityError] when
    the row of the page is gone; no row is added then.  Otherwise
    exactly one row is added, under a key no other row has: it carries
    the page, the clock reading, the status code, verdict and message of
    the probe, and what the screenshot block assigned. *)
Theorem the_check_is_recorded_unless_the_insert_raises
    (page : MonitoredPage) (env : CheckEnv) (force_screenshot : bool) (w : World) :
  let status := fst (fst (check_url (probe env))) in
  let up := snd (fst (check_url (probe env))) in
  let recorded (run : M (Locals * MonitoredPageCheck)) (wanted : bool) (msg : string)
    : Prop :=
    exists l w1,
      frame w w1
      /\ (wanted && up = false -> l = initial_locals /\ w1 = w)
      /\ let row0 := new_check page env status up msg l in
         let row := with_pk (fresh_pk (checks w)) row0 in
         ~ In (pk row) (map pk (checks w))
         /\ page_id row = page_pk page /\ checked_at row = now env
         /\ status_code row = status /\ is_up row = up /\ message row = msg
         /\ run w =
            match DATABASE_ENGINE (settings w) row0 with
            | Some e => (Raise e, w1)
            | None =>
                if page_exists (page_pk page) (pages w)
                then (Ok (l, row), set_checks (checks w ++ [row]) w1)
                else (Raise IntegrityError, w1)
            end in
  recorded (probe_and_persist page env) (screenshot_enabled page)
    (snd (check_url (probe env)))
  /\ recorded (perform_and_persist page env force_screenshot)
       (screenshot_enabled page || force_screenshot)
       (snd (probe_outcome (probe env))).
Proof.
  intros status up recorded. split.
  - destruct (persist_outcome page env force_screenshot w _ _ _
                (or_introl (conj eq_refl (conj eq_refl eq_refl))))
      as (l & w1 & F & Hoff & Hr).
    exists l, w1. split; [exact F|]. split; [exact Hoff|].
    cbv zeta. split; [apply fresh_pk_fresh|]. do 5 (split; [reflexivity|]). exact Hr.
  - destruct (persist_outcome page env force_screenshot w _ _ _
                (or_intror (conj eq_refl (conj eq_refl eq_refl))))
      as (l & w1 & F & Hoff & Hr).
    exists l, w1. split; [exact F|]. split; [exact Hoff|].
    cbv zeta. split; [apply fresh_pk_fresh|]. do 5 (split; [reflexivity|]). exact Hr.
Qed.

Lemma swallow_run (m : M unit) w : swallow m w = (Ok tt, final m w).
Proof.
  unfold swallow, try_except, final. destruct (m w) as [[[]|e] w']; reflexivity.
Qed.

Lemma cleanup_rows page w :
  map clear_paths (checks (final (cleanup_old_screenshots page) w))
  = map clear_paths (checks w).
Proof.
  unfold final. destruct (cleanup_old_screenshots page w) as [o w'] eqn:E.
  now apply cleanup_old_screenshots_spec in E.
Qed.

(** X18.  The executor behind the views raises only what the insert raises.
    [_perform_single_check] guards the screenshot block, the pruning and
    both notification decisions, but not the insert of the row.  When
    the insert raises, the executor raises the same to its caller, and
    neither a row nor a message was added; it does whenever the row of
    the page is gone.  Otherwise it returns normally, whatever the
    probe, the browser, the store, the retention setting and the mail
    transport do; it leaves the table with exactly one row more, the one
    recording this check, and no other row differs from before except,
    after pruning, in its artifact paths.  With an engine that refuses no column, as
    SQLite, it returns normally exactly when the row of the page is still
    there. *)
Theorem perform_single_check_raises_only_what_the_insert_raises
    (page : MonitoredPage) (env : CheckEnv) (force_screenshot : bool) (w : World) :
  let m := _perform_single_check page env force_screenshot in
  match result (perform_and_persist page env force_screenshot) w with
  | Raise e =>
      result m w = Raise e
      /\ checks (final m w) = checks w /\ outbox (final m w) = outbox w
  | Ok (l, latest) =>
      result m w = Ok tt
      /\ map clear_paths (checks (final m w))
         = map clear_paths (checks w ++ [latest])
      /\ page_id latest = page_pk page
      /\ checked_at latest = now env
      /\ is_up latest = snd (fst (check_url (probe env)))
  end
  /\ (page_exists (page_pk page) (pages w) = false ->
      exists e, result m w = Raise e)
  /\ ((forall c, DATABASE_ENGINE (settings w) c = None) ->
      page_exists (page_pk page) (pages w) = true -> result m w = Ok tt).
Proof.
  intros m. subst m.
  assert (Hmain :
    match result (perform_and_persist page env force_screenshot) w with
    | Raise e =>
        result (_perform_single_check page env force_screenshot) w = Raise e
        /\ checks (final (_perform_single_check page env force_screenshot) w) = checks w
        /\ outbox (final (_perform_single_check page env force_screenshot) w) = outbox w
    | Ok (l, latest) =>
        result (_perform_single_check page env force_screenshot) w = Ok tt
        /\ map clear_paths
             (checks (final (_perform_single_check page env force_screenshot) w))
           = map clear_paths (checks w ++ [latest])
        /\ page_id latest = page_pk page
        /\ checked_at latest = now env
        /\ is_up latest = snd (fst (check_url (probe env)))
    end).
  { unfold result, final, _perform_single_check.
    destruct (perform_and_persist page env force_screenshot w) as [[[l latest]|e] w1]
      eqn:E1; simpl fst.
    2:{ rewrite (bind_raise _ _ _ _ _ E1). simpl.
        destruct (not_persisted page env force_screenshot w _ _ _ (or_intror eq_refl) E1)
          as (Hc & Ho). auto. }
    destruct (persisted page env force_screenshot w _ _ _ _ (or_intror eq_refl) E1)
      as (C1 & Hp & Hat & Hup & _).
    rewrite (bind_ok _ _ _ _ _ E1).
    set (w2 := final (when (Py.truthy (screenshot_rel l))
                        (swallow (cleanup_old_screenshots page))) w1).
    assert (E2 : when (Py.truthy (screenshot_rel l))
                   (swallow (cleanup_old_screenshots page)) w1 = (Ok tt, w2)).
    { unfold w2, when. destruct (Py.truthy (screenshot_rel l)); [|reflexivity].
      rewrite swallow_run. unfold final at 2. now rewrite swallow_run. }
    assert (C2 : map clear_paths (checks w2) = map clear_paths (checks w1)).
    { unfold w2, when. destruct (Py.truthy (screenshot_rel l)); [|reflexivity].
      unfold final. rewrite swallow_run. simpl. apply cleanup_rows. }
    rewrite (bind_ok _ _ _ _ _ E2).
    destruct (page_recipient_run page w2) as (r2 & Hr2).
    assert (Hr2' : result (page_recipient page) w2 = Ok r2)
      by (unfold result; now rewrite Hr2).
    destruct (handle_post_check_run page latest w2 r2 Hr2') as (w3 & E3 & C3 & _).
    assert (E3' : swallow (handle_post_check_notification page latest) w2 = (Ok tt, w3)).
    { rewrite swallow_run. unfold final. now rewrite E3. }
    rewrite (bind_ok _ _ _ _ _ E3').
    destruct (page_recipient_run page w3) as (r3 & Hr3).
    assert (Hr3' : result (page_recipient page) w3 = Ok r3)
      by (unfold result; now rewrite Hr3).
    destruct (handle_change_run page latest w3 r3 Hr3') as (w4 & E4 & C4 & _).
    rewrite swallow_run. unfold final. rewrite E4. simpl.
    split; [reflexivity|].
    split; [rewrite C4, C3, C2, C1; reflexivity|]. auto. }
  split; [exact Hmain|].
  destruct (persist_outcome page env force_screenshot w _ _ _
              (or_intror (conj eq_refl (conj eq_refl eq_refl))))
    as (l & w1 & _ & _ & Hr).
  cbv zeta in Hr. unfold result in Hmain at 1. rewrite Hr in Hmain.
  split.
  - intros Hgone. rewrite Hgone in Hmain.
    destruct (DATABASE_ENGINE _ _); simpl in Hmain;
      destruct Hmain as [Hm _]; eauto.
  - intros Hlite Hpage. rewrite Hpage, Hlite in Hmain. apply Hmain.
Qed.

End ExecutorMore.

(** ** What a discarded capture leaves behind *)

Lemma same_length_suffix (h h' a b : string) :
  String.length h = String.length h' -> h ++ a = h' ++ b -> a = b.
Proof.
  revert h'. induction h as [|c h IH]; intros [|c' h'] Hl; simpl in *;
    try discriminate; [auto|].
  intros [= _ E]. injection Hl as Hl. eapply IH; eauto.
Qed.

Section LeakProperties.
Context `{Imaging}.

(** The steps of a capture that returned a screenshot. *)
Lemma capture_run env u pid w shot crop w' :
  capture_screenshot env u pid w = (Ok (shot, crop), w') ->
  shot <> "" ->
  let rel := _unique_filename (capture_time_ns env) pid ".jpg" in
  exists raw w4 th,
    shot = rel /\ rendered env = Some raw
    /\ frame w w4
    /\ stored (screenshot_storage w4) rel = Some (Img (jpeg JPEG_QUALITY raw))
    /\ create_thumbnail rel pid w4 = (Ok th, w').
Proof.
  intros E Hne rel.
  destruct (capture_names (capture_time_ns env) pid) as (c & t & Ec & Et & _ & Hkeys).
  fold rel in Ec, Et, Hkeys.
  unfold capture_screenshot in E. fold rel in E.
  destruct (playwright_installed env); simpl in E.
  2:{ rewrite (bind_ok _ _ _ _ _ (logger_run _ _ _ _)) in E. injection E as <- _ _.
      now destruct Hne. }
  apply try_except_inv in E as [(a & Hm & [= <-])|(e & w3 & _ & Hh)].
  2:{ rewrite (bind_ok _ _ _ _ _ (logger_run _ _ _ _)) in Hh. injection Hh as <- _ _.
      now destruct Hne. }
  apply bind_inv in Hm as [(raw & w1 & Er & Hm)|(e & _ & [=])].
  destruct (rendered env) as [raw'|] eqn:Eraw; [|discriminate Er].
  injection Er as -> <-.
  apply bind_inv in Hm as [([] & w2 & Es & Hm)|(e & _ & [=])].
  apply bind_inv in Hm as [([] & w3 & El & Hm)|(e & _ & [=])].
  apply bind_inv in Hm as [(cr & w4 & Hc & Hm)|(e & _ & [=])].
  apply bind_inv in Hm as [(th & w5 & Ht & Hm)|(e & _ & [=])].
  injection Hm as <- _ <-.
  pose proof (preserves_storage_save _ _ _ _ _ Es) as F2.
  apply storage_save_run in Es as [_ Hst].
  rewrite logger_run in El. injection El as <-.
  pose proof (writes_crop_to_region rel pid c Ec _ _ _ Hc) as [F4 K4].
  simpl in F4, K4.
  exists raw, w4, th. split; [reflexivity|]. split; [reflexivity|].
  split; [exact (frame_trans _ _ _ F2 F4)|].
  split; [|exact Ht].
  rewrite K4; [exact Hst|].
  intros p [<-|[]]. rewrite !(same_service_object_key _ _ _ (proj1 F2)). apply Hkeys.
Qed.

(** The keys the statements after the capture can touch: the fresh diff
    name, and the captured screenshot and crop. *)
Lemma diff_and_reuse_store on_error page env l1 w1 l w' :
  try_statements on_error (diff_and_reuse page env) l1 w1 = (Ok l, w') ->
  writes_within
    [_unique_filename (diff_time_ns (diff_env env)) (page_pk page) "_diff.jpg";
     screenshot_rel l1; crop_rel l1] w1 w'.
Proof.
  set (ps := [_unique_filename _ _ _; screenshot_rel l1; crop_rel l1]).
  intros Hrun. unfold diff_and_reuse in Hrun.
  assert (Hstep : forall x, screenshot_rel x = screenshot_rel l1 ->
            crop_rel x = crop_rel l1 ->
            preserves (writes_within ps) (delete_new_screenshot x)
            /\ preserves (writes_within ps) (delete_new_crop x)
            /\ preserves (writes_within ps) (reuse_previous x)).
  { intros x Es Ec. unfold delete_new_screenshot, delete_new_crop, reuse_previous.
    rewrite Es, Ec. unfold ps. split; [|split]; writes_auto. }
  assert (Htail : forall x w2, screenshot_rel x = screenshot_rel l1 ->
            crop_rel x = crop_rel l1 ->
            forall o w3,
            try_statements on_error
              [delete_new_screenshot; delete_new_crop; reuse_previous] x w2 = (o, w3) ->
            writes_within ps w2 w3).
  { intros x w2 Es Ec o w3 E. destruct (Hstep x Es Ec) as (P1 & P2 & P3).
    rewrite try_statements_cons in E.
    destruct (delete_new_screenshot x w2) as [[x1|e] wa] eqn:E1.
    2:{ injection E as _ <-. eapply P1; eauto. }
    assert (x1 = x).
    { revert E1. unfold delete_new_screenshot. destruct (_ && _); [|now intros [= <- _]].
      intros E1. apply bind_inv in E1 as [([] & ? & _ & [= <- _])|(? & _ & [=])].
      reflexivity. }
    subst x1. rewrite try_statements_cons in E.
    destruct (delete_new_crop x wa) as [[x2|e] wb] eqn:E2.
    2:{ injection E as _ <-.
        eapply writes_within_trans; [eapply P1|eapply P2]; eauto. }
    assert (x2 = x).
    { revert E2. unfold delete_new_crop. destruct (_ && _); [|now intros [= <- _]].
      intros E2. apply bind_inv in E2 as [([] & ? & _ & [= <- _])|(? & _ & [=])].
      reflexivity. }
    subst x2. rewrite try_statements_cons in E.
    destruct (reuse_previous x wb) as [[x3|e] wc] eqn:E3.
    + rewrite try_statements_nil in E. injection E as _ <-.
      eapply writes_within_trans; [eapply P1; eauto|].
      eapply writes_within_trans; [eapply P2|eapply P3]; eauto.
    + injection E as _ <-.
      eapply writes_within_trans; [eapply P1; eauto|].
      eapply writes_within_trans; [eapply P2|eapply P3]; eauto. }
  rewrite try_statements_cons in Hrun.
  destruct (diff_step page env l1 w1) as [[l2|e] w2] eqn:Ed.
  - assert (Hd : writes_within ps w1 w2 /\ screenshot_rel l2 = screenshot_rel l1
                 /\ crop_rel l2 = crop_rel l1).
    { revert Ed. unfold diff_step. destruct (diff_wanted l1).
      - cbv zeta. intros Ed.
        apply bind_inv in Ed as [(r & w3 & Ec & [= <- <-])|(e & _ & [=])].
        split; [|split; reflexivity].
        eapply writes_within_mono; [|eapply writes_compute_diff; eauto].
        intros x [<-|[]]. unfold ps. now left.
      - intros [= <- <-]. split; [apply writes_within_refl|auto]. }
    destruct Hd as (Hw & Es & Ec).
    eapply writes_within_trans; [exact Hw|]. eapply Htail; eauto.
  - injection Hrun as _ <-. revert Ed. unfold diff_step.
    destruct (diff_wanted l1); [|discriminate]. cbv zeta. intros Ed.
    apply bind_inv in Ed as [(r & w3 & _ & [=])|(e' & Ec & _)].
    eapply writes_within_mono; [|eapply writes_compute_diff; eauto].
    intros x [<-|[]]. unfold ps. now left.
Qed.


(** The thumbnail of a capture shares its key with neither a diff image of
    the page nor the empty path. *)
Lemma thumb_key_apart (time_ns diff_ns pid : Z) (t : string) :
  _thumb_rel (_unique_filename time_ns pid ".jpg") = Some t ->
  forall st,
    object_key st t <> object_key st (_unique_filename diff_ns pid "_diff.jpg")
    /\ object_key st t <> object_key st "".
Proof.
  destruct (generated_name_parts time_ns pid ".jpg") as (h & -> & _ & Hlen & Hhex).
  destruct (generated_name_parts diff_ns pid "_diff.jpg") as (h' & -> & _ & Hlen' & Hhex').
  pose proof (str_component pid) as Ha.
  assert (Hh : component h) by (apply hex_component; [now destruct h|exact Hhex]).
  assert (Hj : component "jpg").
  { split; [discriminate|]. split; intros Hin; simpl in Hin;
      repeat (destruct Hin as [Hin|Hin]; [discriminate Hin|]); destruct Hin. }
  unfold _thumb_rel. rewrite (sibling_name_shape _ _ "jpg" "_thumb.jpg") by assumption.
  intros [= <-] st.
  assert (Hab : forall c, In c (Py.chars (Py.str pid)) -> c <> "\"%char).
  { intros c Hin. destruct (str_chars pid) as [_ Hc]. rewrite Forall_forall in Hc.
    apply list_elem_of_In, Hc in Hin as [Hd| ->]; [|discriminate].
    apply digit_char_facts in Hd. tauto. }
  assert (Ht : forall s, In s ["_diff.jpg"; "_thumb.jpg"] ->
                 ~ In "\"%char (Py.chars s)).
  { intros s [<-|[<-|[]]] Hin; simpl in Hin;
      repeat (destruct Hin as [Hin|Hin]; [discriminate Hin|]); destruct Hin. }
  assert (P1 : plain_path (Py.str pid ++ "/" ++ h ++ "_thumb.jpg"))
    by (apply plain_generated; [exact Ha|exact Hab|exact Hhex|apply Ht; simpl; auto]).
  assert (P2 : plain_path (Py.str pid ++ "/" ++ h' ++ "_diff.jpg"))
    by (apply plain_generated; [exact Ha|exact Hab|exact Hhex'|apply Ht; simpl; auto]).
  assert (P3 : plain_path "") by (split; [reflexivity|intros []]).
  split; intros E; apply object_key_inj in E; auto.
  - apply append_inv_head in E. apply (append_inv_head "/") in E.
    apply same_length_suffix in E; [discriminate E|congruence].
  - destruct Ha as (Hne & _). destruct (Py.str pid); [now destruct Hne|discriminate E].
Qed.

(** From the capture to the end of the block, when the block ends with a
    score of zero on a store that answers: the captured screenshot is
    deleted again, its thumbnail is not. *)
Lemma zero_score_leaves_thumbnail on_error page env w shot crop wc l1 l w1 raw :
  healthy (screenshot_storage w) ->
  rendered (capture_env env) = Some raw ->
  width (jpeg JPEG_QUALITY raw) <> 0%nat ->
  capture_screenshot (capture_env env) (url page) (page_pk page) w
    = (Ok (shot, crop), wc) ->
  screenshot_rel l1 = shot -> crop_rel l1 = crop -> diff_score_ l1 = None ->
  (forall x, diff_score_ (on_error x) = diff_score_ x) ->
  try_statements on_error (diff_and_reuse page env) l1 wc = (Ok l, w1) ->
  diff_score_ l = Some 0%Z ->
  let rel := _unique_filename (capture_time_ns (capture_env env)) (page_pk page) ".jpg" in
  exists t, _thumb_rel rel = Some t
    /\ is_Some (stored (screenshot_storage w1) t)
    /\ stored (screenshot_storage w1) rel = None.
Proof.
  intros Hh Hraw Hw Ecap Es Ec Hnone Herr Hrun Hzero rel.
  destruct (capture_names (capture_time_ns (capture_env env)) (page_pk page))
    as (c & t & Hc & Ht & _ & Hkeys).
  fold rel in Hc, Ht, Hkeys.
  destruct (diff_and_reuse_zero _ _ _ _ _ _ _ Herr Hrun Hnone Hzero)
    as (lc & _ & Tshot & _ & _ & _ & Fz & Gs & _).
  rewrite Es in Tshot, Gs. apply truthy_spec in Tshot.
  destruct (capture_run _ _ _ _ _ _ _ Ecap Tshot)
    as (raw0 & w4 & th & Hshot & Hr0 & F4 & Hst4 & Eth).
  fold rel in Hshot, Hst4, Eth. rewrite Hraw in Hr0. injection Hr0 as <-.
  pose proof (preserves_capture_screenshot _ _ _ _ _ _ Ecap) as Fc.
  assert (Hh4 : healthy (screenshot_storage w4))
    by (eapply same_service_healthy; [apply F4|exact Hh]).
  assert (Hhc : healthy (screenshot_storage wc))
    by (eapply same_service_healthy; [apply Fc|exact Hh]).
  assert (Htc : is_Some (stored (screenshot_storage wc) t)).
  { pose proof (create_thumbnail_healthy rel t (page_pk page) w4 _ Hh4 Ht Hst4 Hw) as Hmk.
    destruct (stored (screenshot_storage w4) t) as [old|] eqn:Eo.
    - rewrite Eth in Hmk. injection Hmk as _ <-. rewrite Eo. eauto.
    - cbv zeta in Hmk. unfold final in Hmk. rewrite Eth in Hmk. simpl in Hmk.
      destruct Hmk as [_ ->]. eauto. }
  exists t. split; [exact Ht|]. split.
  - destruct (diff_and_reuse_store _ _ _ _ _ _ _ Hrun) as [_ K].
    rewrite K; [exact Htc|]. rewrite Es, Ec.
    destruct (thumb_key_apart _ (diff_time_ns (diff_env env)) _ _ Ht
                (screenshot_storage wc)) as [Hd He].
    intros p [<-|[<-|[<-|[]]]].
    + exact Hd.
    + rewrite Hshot. intros E.
      destruct (Hkeys (screenshot_storage wc)) as (_ & H2 & _). now apply H2.
    + destruct (capture_screenshot_names _ _ _ _ _ _ _ Ecap) as [[_ ->]|[_ [->|Hn]]];
        try exact He.
      rewrite <- Hshot in Hc. assert (Hcc : crop = c) by congruence.
      rewrite Hcc. intros E. destruct (Hkeys (screenshot_storage wc)) as (_ & _ & H3).
      apply H3. now symmetry.
  - rewrite <- Hshot. apply Gs.
    destruct (screenshot_storage wc); simpl in *; auto.
Qed.

(** X19.  Unchanged pages leave a file behind at every check.  When a check is
    persisted with a score of zero on a store that answers, the captured
    screenshot has been deleted from the store, but the thumbnail that
    [capture_screenshot] made of it is still there, under the sibling name
    of the deleted screenshot. *)
Theorem discarded_capture_keeps_its_thumbnail
    (page : MonitoredPage) (env : CheckEnv) (w w' : World)
    (l : Locals) (latest : MonitoredPageCheck) (raw : Image) :
  healthy (screenshot_storage w) ->
  rendered (capture_env env) = Some raw ->
  width (jpeg JPEG_QUALITY raw) <> 0%nat ->
  probe_and_persist page env w = (Ok (l, latest), w')
  \/ (exists force_screenshot,
        perform_and_persist page env force_screenshot w = (Ok (l, latest), w')) ->
  diff_score latest = Some 0%Z ->
  let shot := _unique_filename (capture_time_ns (capture_env env)) (page_pk page) ".jpg" in
  exists thumb,
    _thumb_rel shot = Some thumb
    /\ is_Some (stored (screenshot_storage w') thumb)
    /\ stored (screenshot_storage w') shot = None.
Proof.
  intros Hh Hraw Hw Hrun Hzero shot.
  assert (Hblock : exists w1,
            screenshot_storage w' = screenshot_storage w1
            /\ diff_score_ l = Some 0%Z
            /\ (try_statements (fun x => x) (screenshot_block page env)
                  initial_locals w = (Ok l, w1)
                \/ try_statements forget_crop (view_screenshot_block page env)
                     initial_locals w = (Ok l, w1))).
  { destruct Hrun as [Hrun|[force Hrun]].
    - unfold probe_and_persist in Hrun.
      destruct (check_url (probe env)) as [[status up] msg].
      apply bind_inv in Hrun as [(l1 & w1 & Hb & Hrun)|(e & _ & [=])].
      apply bind_inv in Hrun as [(row & w2 & Hcreate & Hrun)|(e & _ & [=])].
      unfold ret in Hrun. injection Hrun as <- <- <-.
      destruct (persisted_row _ _ _ _ _ _ _ _ _ Hcreate) as (_ & Hst & _ & _ & _ & Hsc).
      rewrite Hsc in Hzero. exists w1. split; [exact Hst|]. split; [exact Hzero|].
      destruct (screenshot_enabled page && up); [now left|].
      unfold ret in Hb. injection Hb as <- <-. discriminate Hzero.
    - unfold perform_and_persist in Hrun.
      destruct (probe_outcome (probe env)) as [[status up] msg].
      apply bind_inv in Hrun as [(l1 & w1 & Hb & Hrun)|(e & _ & [=])].
      apply bind_inv in Hrun as [(row & w2 & Hcreate & Hrun)|(e & _ & [=])].
      unfold ret in Hrun. injection Hrun as <- <- <-.
      destruct (persisted_row _ _ _ _ _ _ _ _ _ Hcreate) as (_ & Hst & _ & _ & _ & Hsc).
      rewrite Hsc in Hzero. exists w1. split; [exact Hst|]. split; [exact Hzero|].
      destruct ((screenshot_enabled page || force) && up); [now right|].
      unfold ret in Hb. injection Hb as <- <-. discriminate Hzero. }
  destruct Hblock as (w1 & -> & Hz & [Hb|Hb]).
  - unfold screenshot_block in Hb.
    rewrite try_statements_cons, read_last_check_run in Hb.
    rewrite try_statements_cons in Hb. unfold capture_step in Hb.
    destruct (capture_screenshot (capture_env env) (url page) (page_pk page) w)
      as [[[s c]|e] wc] eqn:Ecap.
    2:{ rewrite (bind_raise _ _ _ _ _ Ecap) in Hb. injection Hb as <- <-.
        discriminate Hz. }
    rewrite (bind_ok _ _ _ _ _ Ecap) in Hb. unfold ret at 1 in Hb.
    cbn [fst snd] in Hb.
    eapply (zero_score_leaves_thumbnail (fun x => x)); eauto; reflexivity.
  - unfold view_screenshot_block in Hb.
    rewrite try_statements_cons in Hb. unfold capture_step in Hb.
    destruct (capture_screenshot (capture_env env) (url page) (page_pk page) w)
      as [[[s c]|e] wc] eqn:Ecap.
    2:{ rewrite (bind_raise _ _ _ _ _ Ecap) in Hb. injection Hb as <- <-.
        discriminate Hz. }
    rewrite (bind_ok _ _ _ _ _ Ecap) in Hb. unfold ret at 1 in Hb.
    cbn [fst snd] in Hb.
    rewrite try_statements_cons, read_last_check_run in Hb.
    eapply (zero_score_leaves_thumbnail forget_crop); eauto; reflexivity.
Qed.

End LeakProperties.

(** The unchanged page of the examples: after its second check the second
    screenshot is gone and its thumbnail is not. *)
Lemma discarded_capture_keeps_its_thumbnail_witness :
  let w' := final (probe_and_persist (page_of alice true 2) (steady_env 2)) steady_world in
  is_Some (stored (screenshot_storage w') "7/a5da0e8a43_thumb.jpg")
  /\ stored (screenshot_storage w') "7/a5da0e8a43.jpg" = None.
Proof.
  intros w'.
  destruct (probe_and_persist (page_of alice true 2) (steady_env 2) steady_world)
    as [[[l latest]|e] w1] eqn:E.
  - assert (E1 : result (probe_and_persist (page_of alice true 2) (steady_env 2))
                   steady_world = Ok (l, latest))
      by (unfold result; now rewrite E).
    assert (Ew : w' = w1) by (unfold w', final; now rewrite E).
    vm_compute in E1. injection E1 as <- <-.
    assert (Hwd : width (@jpeg plain_imaging JPEG_QUALITY gray) <> 0%nat)
      by (simpl; lia).
    destruct (@discarded_capture_keeps_its_thumbnail plain_imaging
                (page_of alice true 2) (steady_env 2) steady_world w1 _ _ gray
                (fun _ _ => eq_refl) eq_refl Hwd (or_introl E) eq_refl)
      as (t & Ht & Hs & Hn).
    vm_compute in Ht. injection Ht as <-. rewrite Ew. split; [exact Hs|exact Hn].
  - exfalso.
    assert (E1 : result (probe_and_persist (page_of alice true 2) (steady_env 2))
                   steady_world = Raise e)
      by (unfold result; now rewrite E).
    vm_compute in E1. discriminate E1.
Defined.

(** ** Pruning twice *)

Lemma insert_desc_filter_length f c l :
  length (List.filter f (insert_desc c l)) = length (List.filter f (c :: l)).
Proof.
  induction l as [|d r IH]; [reflexivity|]. simpl insert_desc.
  destruct (checked_at d <? checked_at c)%Z; [reflexivity|].
  simpl in *. destruct (f d), (f c); simpl in *; lia.
Qed.

Lemma order_by_filter_length f l :
  length (List.filter f (order_by_checked_at_desc l)) = length (List.filter f l).
Proof.
  induction l as [|c r IH]; [reflexivity|]. simpl order_by_checked_at_desc.
  rewrite insert_desc_filter_length. simpl. destruct (f c); simpl; lia.
Qed.

Lemma order_by_length l : length (order_by_checked_at_desc l) = length l.
Proof. apply Permutation_length, order_by_perm. Qed.

(** The rows that still name a screenshot after the rows with the keys
    [ks] had their paths cleared. *)
Lemma artifact_rows_after_clear page ks rows :
  length (List.filter (fun c => Py.truthy (screenshot_path c))
            (page_checks page (clear_keys ks rows)))
  = length (List.filter (fun c => negb (existsb (Z.eqb (pk c)) ks))
              (List.filter (fun c => Py.truthy (screenshot_path c))
                 (page_checks page rows))).
Proof.
  unfold page_checks, clear_keys.
  induction rows as [|c rows IH]; [reflexivity|]. simpl.
  destruct (existsb (Z.eqb (pk c)) ks) eqn:Ek; simpl;
    destruct (page_id c =? page_pk page)%Z; simpl; auto;
    destruct (Py.truthy (screenshot_path c)); simpl; auto; rewrite Ek; simpl; auto.
Qed.

Lemma cleanup_ok_settings page w w' :
  cleanup_old_screenshots page w = (Ok tt, w') ->
  (0 <= retention_limit w)%Z /\ settings w' = settings w.
Proof.
  intros Hrun. unfold cleanup_old_screenshots, bind, gets in Hrun. simpl in Hrun.
  fold (retention_limit w) in Hrun.
  destruct (retention_limit w <? 0)%Z eqn:Hneg; [discriminate Hrun|].
  apply Z.ltb_ge in Hneg. split; [exact Hneg|].
  now apply for_each_prune_run in Hrun.
Qed.

(** X20.  Pruning reaches its goal and then rests.  After a prune that returned
    normally, at most [limit] checks of the page still name a screenshot,
    so pruning the page again changes nothing: neither a row nor a stored
    object nor the log. *)
Theorem cleanup_old_screenshots_idempotent (page : MonitoredPage) (w w' : World) :
  cleanup_old_screenshots page w = (Ok tt, w') ->
  (Z.of_nat (length (artifact_checks page w')) <= retention_limit w)%Z
  /\ cleanup_old_screenshots page w' = (Ok tt, w').
Proof.
  intros Hrun.
  destruct (cleanup_ok_settings _ _ _ Hrun) as [Hpos Hset].
  destruct (cleanup_old_screenshots_spec _ _ _ _ Hrun)
    as (_ & _ & _ & _ & _ & _ & Hok).
  destruct (Hok eq_refl) as [Hrows _].
  set (n := Z.to_nat (retention_limit w)) in *.
  set (arts := artifact_checks page w) in *.
  assert (Hlen : (length (artifact_checks page w') <= n)%nat).
  { unfold artifact_checks at 1. rewrite order_by_length, Hrows.
    rewrite artifact_rows_after_clear.
    rewrite <- (order_by_filter_length _ (List.filter _ (page_checks page (checks w)))).
    fold (artifact_checks page w). fold arts.
    rewrite <- (take_drop n arts) at 1. rewrite List.filter_app, length_app.
    assert (Hnone : List.filter
                      (fun c => negb (existsb (Z.eqb (pk c)) (map pk (drop n arts))))
                      (drop n arts) = []).
    { generalize (drop n arts). intros l.
      assert (Hall : forall c, In c l ->
                negb (existsb (Z.eqb (pk c)) (map pk l)) = false).
      { intros c Hc. apply negb_false_iff, existsb_exists. exists (pk c).
        split; [now apply in_map|apply Z.eqb_refl]. }
      revert Hall. generalize (map pk l). intros ks.
      induction l as [|c l IH]; intros Hall; [reflexivity|]. simpl.
      rewrite (Hall c (or_introl eq_refl)). apply IH. intros x Hx. apply Hall. now right. }
    rewrite Hnone. simpl. rewrite Nat.add_0_r.
    etransitivity; [apply List.filter_length_le|]. rewrite length_take. lia. }
  split; [unfold n in Hlen; lia|].
  destruct (cleanup_old_screenshots page w') as [o2 w2] eqn:E2.
  destruct (cleanup_old_screenshots_spec _ _ _ _ E2)
    as (_ & _ & _ & _ & _ & Hnoop & _).
  assert (Hl : retention_limit w' = retention_limit w)
    by (unfold retention_limit; now rewrite Hset).
  rewrite Hl in Hnoop. apply Hnoop; [exact Hpos|]. unfold n in Hlen. lia.
Qed.

Lemma cleanup_old_screenshots_idempotent_witness :
  let page := page_of alice true 2 in
  let before := final (probe_and_persist page (steady_env 31))
                      (check_repeatedly 29 2 steady_world) in
  let after := final (cleanup_old_screenshots page) before in
  cleanup_old_screenshots page after = (Ok tt, after).
Proof.
  intros page before after.
  apply (cleanup_old_screenshots_idempotent page before after).
  unfold after, final.
  destruct (cleanup_old_screenshots page before) as [o w1] eqn:E.
  assert (Ho : result (cleanup_old_screenshots page) before = o)
    by (unfold result; now rewrite E).
  vm_compute in Ho. subst o. reflexivity.
Defined.

(** ** The scheduler *)

Lemma insert_desc_map f c l :
  (forall x, checked_at (f x) = checked_at x) ->
  insert_desc (f c) (map f l) = map f (insert_desc c l).
Proof.
  intros Hf. induction l as [|d r IH]; [reflexivity|]. simpl.
  rewrite !Hf. destruct (checked_at d <? checked_at c)%Z; [reflexivity|].
  simpl. now rewrite IH.
Qed.

Lemma order_by_map f l :
  (forall x, checked_at (f x) = checked_at x) ->
  order_by_checked_at_desc (map f l) = map f (order_by_checked_at_desc l).
Proof.
  intros Hf. induction l as [|c r IH]; [reflexivity|]. simpl.
  rewrite IH. now apply insert_desc_map.
Qed.

Lemma page_checks_map page f l :
  (forall x, page_id (f x) = page_id x) ->
  page_checks page (map f l) = map f (page_checks page l).
Proof.
  intros Hf. unfold page_checks. induction l as [|c r IH]; [reflexivity|]. simpl.
  rewrite Hf. destruct (page_id c =? page_pk page)%Z; simpl; now rewrite IH.
Qed.

Lemma history_cleared page w :
  map clear_paths (history page w)
  = order_by_checked_at_desc (page_checks page (map clear_paths (checks w))).
Proof.
  unfold history. rewrite page_checks_map by reflexivity.
  now rewrite order_by_map by reflexivity.
Qed.

Lemma timedelta_in_range (n : Z) :
  (Z.abs n <= 1439999998560)%Z ->
  timedelta_minutes n = Some (n * 60 * 1000000)%Z.
Proof.
  intros Hn. unfold timedelta_minutes.
  assert (Hlo : (-999999999 <= n * 60 * 1000000 / 86400000000)%Z)
    by (apply Z.div_le_lower_bound; lia).
  assert (Hhi : (n * 60 * 1000000 / 86400000000 <= 999999999)%Z)
    by (apply Z.div_le_upper_bound; lia).
  apply Z.leb_le in Hlo, Hhi. now rewrite Hlo, Hhi.
Qed.

Section SchedulerProperties.
Context `{Imaging}.

(** The table after a [_run_single_check] whose insert succeeded,
    however the run ends after it: one row more, and no other difference
    but cleared paths. *)
Lemma run_single_check_rows page env w l latest w1 :
  probe_and_persist page env w = (Ok (l, latest), w1) ->
  map clear_paths (checks (final (_run_single_check page env) w))
  = map clear_paths (checks w ++ [latest])
  /\ page_id latest = page_pk page /\ checked_at latest = now env.
Proof.
  intros E1. unfold final, _run_single_check.
  destruct (persisted page env false w _ _ _ _ (or_introl eq_refl) E1)
    as (C1 & Hp & Hat & _).
  split; [|auto].
  rewrite (bind_ok _ _ _ _ _ E1). rewrite <- C1.
  destruct (when (Py.truthy (screenshot_rel l)) (cleanup_old_screenshots page) w1)
    as [o2 w2] eqn:E2.
  assert (C2 : map clear_paths (checks w2) = map clear_paths (checks w1)).
  { revert E2. unfold when. destruct (Py.truthy (screenshot_rel l)).
    - intros E2. now apply cleanup_old_screenshots_spec in E2.
    - now intros [= _ <-]. }
  destruct o2 as [[]|e].
  2:{ rewrite (bind_raise _ _ _ _ _ E2). simpl. exact C2. }
  rewrite (bind_ok _ _ _ _ _ E2).
  destruct (page_recipient_run page w2) as (r2 & Hr2).
  assert (Hr2' : result (page_recipient page) w2 = Ok r2)
    by (unfold result; now rewrite Hr2).
  destruct (handle_post_check_run page latest w2 r2 Hr2') as (w3 & E3 & C3 & _).
  rewrite (bind_ok _ _ _ _ _ E3).
  destruct (page_recipient_run page w3) as (r3 & Hr3).
  assert (Hr3' : result (page_recipient page) w3 = Ok r3)
    by (unfold result; now rewrite Hr3).
  destruct (handle_change_run page latest w3 r3 Hr3') as (w4 & E4 & C4 & _).
  rewrite E4. simpl. now rewrite C4, C3, C2.
Qed.

(** X21.  A checked page waits for its interval.  A page that was never checked
    is due.  Once [_run_single_check] has inserted the row of a check,
    however the run ended after that, the scheduler finds the page due
    again exactly from [check_interval] minutes after the clock reading
    of that check on, provided no row of the page is dated later than
    that reading and the interval is one [timedelta] can hold.  When the
    insert raised, the run raised the same and left the table as it was,
    so the page is as due as before. *)
Theorem checked_page_waits_for_its_interval
    (page : MonitoredPage) (env : CheckEnv) (w : World) (t : Z) :
  (forall d, In d (page_checks page (checks w)) -> (checked_at d <= now env)%Z) ->
  (Z.abs (check_interval page) <= 1439999998560)%Z ->
  let run := _run_single_check page env in
  (page_checks page (checks w) = [] -> result (should_check page t) w = Ok (Some true))
  /\ match result (probe_and_persist page env) w with
     | Ok _ =>
         result (should_check page t) (final run w)
         = Ok (Some (check_interval page * 60 * 1000000 <=? t - now env)%Z)
     | Raise e =>
         result run w = Raise e
         /\ checks (final run w) = checks w
         /\ result (should_check page t) (final run w) = result (should_check page t) w
     end.
Proof.
  intros Hle Hint run. split.
  { intros Hnone. unfold result, should_check, bind, gets. simpl. now rewrite Hnone. }
  unfold result at 1.
  destruct (probe_and_persist page env w) as [[[l latest]|e] w1] eqn:E1; simpl fst.
  2:{ destruct (not_persisted page env false w _ _ _ (or_introl eq_refl) E1)
        as (Hc & _).
      assert (Er : run w = (Raise e, w1)).
      { unfold run, _run_single_check. now rewrite (bind_raise _ _ _ _ _ E1). }
      unfold result, final. rewrite Er. simpl.
      split; [reflexivity|]. split; [exact Hc|].
      unfold should_check, bind, gets. cbv beta. rewrite Hc.
      now destruct (head _). }
  destruct (run_single_check_rows page env w l latest w1 E1) as (Hrows & Hp & Hat).
  fold run in Hrows.
  set (w' := final run w) in *.
  assert (Hh : map clear_paths (history page w')
               = clear_paths latest :: map clear_paths (history page w)).
  { rewrite history_cleared, Hrows, map_app, page_checks_app. simpl.
    rewrite Hp, Z.eqb_refl. rewrite order_by_append_newest.
    - f_equal. symmetry. apply history_cleared.
    - intros d Hd. rewrite page_checks_map in Hd by reflexivity.
      apply in_map_iff in Hd as (x & <- & Hx). simpl. rewrite Hat. now apply Hle. }
  unfold result, should_check, bind, gets. simpl.
  fold (history page w'). destruct (history page w') as [|x h]; [discriminate Hh|].
  apply (f_equal (fun l => match l with c :: _ => checked_at c | [] => 0%Z end)) in Hh.
  simpl in Hh. simpl. rewrite Hh, Hat.
  rewrite (timedelta_in_range _ Hint). reflexivity.
Qed.

End SchedulerProperties.

Lemma checked_page_waits_for_its_interval_witness :
  let w' := final (_run_single_check (page_of alice true 2) (down_env 10))
                  (notify_world alice [check_at 1 1 true]) in
  result (should_check (page_of alice true 2) (10 + 299999999)) w' = Ok (Some false)
  /\ result (should_check (page_of alice true 2) (10 + 300000000)) w' = Ok (Some true).
Proof.
  intros w'.
  assert (Hle : forall d, In d (page_checks (page_of alice true 2)
                                  (checks (notify_world alice [check_at 1 1 true]))) ->
                          (checked_at d <= now (down_env 10))%Z).
  { intros d Hd. vm_compute in Hd. destruct Hd as [<-|[]]. simpl. lia. }
  assert (Hint : (Z.abs (check_interval (page_of alice true 2)) <= 1439999998560)%Z)
    by (simpl; lia).
  split.
  - exact (proj2 (@checked_page_waits_for_its_interval plain_imaging
                    (page_of alice true 2) (down_env 10) _ (10 + 299999999) Hle Hint)).
  - exact (proj2 (@checked_page_waits_for_its_interval plain_imaging
                    (page_of alice true 2) (down_env 10) _ (10 + 300000000) Hle Hint)).
Defined.

(** ** The endpoints' model on the values Python gives *)

Example float_of_int_rounds_to_even :
  float_of_int (2 ^ 53 + 1) = inr (Finite (inject_Z (2 ^ 53)))
  /\ float_of_int (2 ^ 53 + 3) = inr (Finite (inject_Z (2 ^ 53 + 4)))
  /\ float_of_int (- (2 ^ 1024 - 2 ^ 970 - 1))
     = inr (Finite (inject_Z (- (2 ^ 1024 - 2 ^ 971))))
  /\ float_of_int (2 ^ 1024 - 2 ^ 970) = inl OverflowError.
Proof. repeat split; vm_compute; reflexivity. Qed.

Example py_int_of_values :
  py_int (JStr " 1_0 ") = inr 10%Z
  /\ py_int (JStr "1.5") = inl (Exn ValueError)
  /\ py_int (JFloat (Finite (-57 # 10))) = inr (-5)%Z
  /\ py_int (JBool true) = inr 1%Z
  /\ py_int (JFloat NaN) = inl (Exn ValueError)
  /\ py_int (JFloat NegInf) = inl OverflowError
  /\ py_int JNull = inl TypeError.
Proof. repeat split; vm_compute; reflexivity. Qed.

Example contains_of_values :
  contains "url" (JObj [("url", JNull)]) = inr true
  /\ contains "url" (JList [JStr "url"]) = inr true
  /\ contains "url" (JList [JList [JStr "url"]]) = inr false
  /\ contains "url" (JStr "curls") = inr true
  /\ contains "url" (JInt 5) = inl TypeError
  /\ getitem "url" (JList [JStr "url"]) = inl TypeError.
Proof. repeat split; vm_compute; reflexivity. Qed.

(** ** Deleting a site *)

Lemma find_existsb {A} (f : A -> bool) (l : list A) :
  existsb f l = true <-> is_Some (List.find f l).
Proof.
  induction l as [|x l IH]; simpl.
  - split; [discriminate|intros [y Hy]; discriminate Hy].
  - destruct (f x); simpl; [split; eauto|exact IH].
Qed.

Lemma get_page_run user site_id w :
  get_page user site_id w
  = (Ok (List.find (fun p => (page_pk p =? site_id)%Z && (user_id p =? user_pk user)%Z)
           (pages w)), w).
Proof. reflexivity. Qed.

Lemma get_page_found user site_id w page :
  List.find (fun p => (page_pk p =? site_id)%Z && (user_id p =? user_pk user)%Z)
    (pages w) = Some page ->
  In page (pages w) /\ page_pk page = site_id /\ user_id page = user_pk user.
Proof.
  intros Hf. apply find_some in Hf as [Hin E].
  apply andb_true_iff in E as [E1 E2]. apply Z.eqb_eq in E1, E2. auto.
Qed.

Lemma owns_page_get_page user site_id w :
  result (owns_page user site_id) w
  = Ok (bool_decide (is_Some (List.find
          (fun p => (page_pk p =? site_id)%Z && (user_id p =? user_pk user)%Z)
          (pages w)))).
Proof.
  unfold result. rewrite owns_page_run. simpl. f_equal.
  destruct (existsb _ (pages w)) eqn:E.
  - symmetry. apply bool_decide_eq_true_2. now apply find_existsb.
  - symmetry. apply bool_decide_eq_false_2. intros Hs.
    apply find_existsb in Hs. congruence.
Qed.

Lemma writes_delete_artifacts c :
  preserves (writes_within (artifact_paths c)) (delete_artifacts c).
Proof.
  unfold delete_artifacts, artifact_paths.
  apply writes_bind; [apply writes_delete_screenshot_file; simpl; auto|intros _].
  apply writes_bind; [apply writes_delete_screenshot_file; simpl; auto|intros _].
  apply writes_bind; [apply writes_delete_screenshot_file; simpl; auto|intros _].
  destruct (Py.truthy (screenshot_path c)); [|apply writes_ret].
  destruct (_thumb_rel (screenshot_path c)) as [t|]; simpl; [|apply writes_raise].
  change (of_option ValueError (Some t)) with (ret (A := string) t).
  rewrite bind_ret_l. apply writes_delete_screenshot_file. simpl. auto.
Qed.

(** One turn of the loop of [monitor_site_delete]. *)
Lemma delete_artifacts_run c w o w' :
  delete_artifacts c w = (o, w') ->
  (forall r, stored (screenshot_storage w) r = None ->
             stored (screenshot_storage w') r = None)
  /\ match o with
     | Ok _ =>
         forall p, In p (artifact_paths c) -> Py.truthy p = true ->
           delete_answers (screenshot_storage w) p ->
           stored (screenshot_storage w') p = None
     | Raise e =>
         e = ValueError /\ screenshot_path c <> ""
         /\ _thumb_rel (screenshot_path c) = None
     end.
Proof.
  unfold delete_artifacts. intros Hrun.
  apply bind_inv in Hrun as [([] & w1 & E1 & Hrun)|(e & E1 & ->)].
  2:{ destruct (delete_screenshot_file_gone _ _ _ _ E1) as ([=] & _). }
  apply bind_inv in Hrun as [([] & w2 & E2 & Hrun)|(e & E2 & ->)].
  2:{ destruct (delete_screenshot_file_gone _ _ _ _ E2) as ([=] & _). }
  apply bind_inv in Hrun as [([] & w3 & E3 & Hrun)|(e & E3 & ->)].
  2:{ destruct (delete_screenshot_file_gone _ _ _ _ E3) as ([=] & _). }
  destruct (delete_screenshot_file_gone _ _ _ _ E1) as (_ & G1 & K1).
  destruct (delete_screenshot_file_gone _ _ _ _ E2) as (_ & G2 & K2).
  destruct (delete_screenshot_file_gone _ _ _ _ E3) as (_ & G3 & K3).
  pose proof (preserves_delete_screenshot_file _ _ _ _ E1) as F1.
  pose proof (preserves_delete_screenshot_file _ _ _ _ E2) as F2.
  pose proof (preserves_delete_screenshot_file _ _ _ _ E3) as F3.
  assert (F12 : frame w w2) by exact (frame_trans _ _ _ F1 F2).
  assert (F13 : frame w w3) by exact (frame_trans _ _ _ F12 F3).
  assert (D1 : forall p, delete_answers (screenshot_storage w) p ->
                         delete_answers (screenshot_storage w1) p)
    by (intros p; apply same_service_delete_answers, F1).
  assert (D2 : forall p, delete_answers (screenshot_storage w) p ->
                         delete_answers (screenshot_storage w2) p)
    by (intros p; apply same_service_delete_answers, F12).
  assert (D3 : forall p, delete_answers (screenshot_storage w) p ->
                         delete_answers (screenshot_storage w3) p)
    by (intros p; apply same_service_delete_answers, F13).
  destruct (Py.truthy (screenshot_path c)) eqn:Ts.
  - destruct (_thumb_rel (screenshot_path c)) as [t|] eqn:Et.
    + change (of_option ValueError (Some t)) with (ret (A := string) t) in Hrun.
      rewrite bind_ret_l in Hrun.
      destruct (delete_screenshot_file_gone _ _ _ _ Hrun) as (-> & G4 & K4).
      split; [intros r Hr; apply K4, K3, K2, K1, Hr|].
      intros p Hin Tp Hd. unfold artifact_paths in Hin. rewrite Et, Ts in Hin.
      destruct Hin as [<-|[<-|[<-|[<-|[]]]]].
      * apply K4, K3, K2, G1; auto.
      * apply K4, K3, G2; auto.
      * apply K4, G3; auto.
      * apply G4; auto.
    + unfold of_option, bind, raise in Hrun. injection Hrun as <- <-.
      split; [intros r Hr; apply K3, K2, K1, Hr|].
      split; [reflexivity|]. split; [now apply truthy_spec|reflexivity].
  - unfold ret in Hrun. injection Hrun as <- <-.
    split; [intros r Hr; apply K3, K2, K1, Hr|].
    intros p Hin Tp Hd. unfold artifact_paths in Hin. rewrite Ts in Hin.
    assert (Hin' : In p [screenshot_path c; crop_path c; diff_path c]).
    { apply in_app_or in Hin as [Hin|Hin]; [exact Hin|].
      destruct (_thumb_rel (screenshot_path c)); destruct Hin. }
    destruct Hin' as [<-|[<-|[<-|[]]]].
    + rewrite Ts in Tp. discriminate Tp.
    + apply K3, G2; auto.
    + apply G3; auto.
Qed.

(** The loop of [monitor_site_delete] over the rows of the page. *)
Lemma for_each_delete_run l : forall w o w',
  for_each l delete_artifacts w = (o, w') ->
  writes_within (flat_map artifact_paths l) w w'
  /\ (forall r, stored (screenshot_storage w) r = None ->
                stored (screenshot_storage w') r = None)
  /\ match o with
     | Ok _ =>
         forall c p, In c l -> In p (artifact_paths c) -> Py.truthy p = true ->
           delete_answers (screenshot_storage w) p ->
           stored (screenshot_storage w') p = None
     | Raise e =>
         e = ValueError
         /\ exists c, In c l /\ screenshot_path c <> ""
                      /\ _thumb_rel (screenshot_path c) = None
     end.
Proof.
  induction l as [|c l IH]; intros w o w' Hrun.
  - rewrite for_each_nil in Hrun. injection Hrun as <- <-.
    split; [apply writes_within_refl|]. split; [auto|]. intros c p [].
  - rewrite for_each_cons in Hrun.
    apply bind_inv in Hrun as [([] & w1 & E1 & Hrun)|(e & E1 & ->)].
    + destruct (delete_artifacts_run _ _ _ _ E1) as (K1 & G1).
      pose proof (writes_delete_artifacts c _ _ _ E1) as W1.
      destruct (IH _ _ _ Hrun) as (W2 & K2 & G2).
      split.
      { eapply writes_within_trans.
        - eapply writes_within_mono; [|exact W1]. intros x Hx. cbn [flat_map].
          apply in_or_app. now left.
        - eapply writes_within_mono; [|exact W2]. intros x Hx. cbn [flat_map].
          apply in_or_app. now right. }
      split; [intros r Hr; apply K2, K1, Hr|].
      destruct o as [[]|e].
      * intros c' p [<-|Hin] Hp Tp Hd.
        -- apply K2. eapply G1; eauto.
        -- eapply G2; eauto. eapply same_service_delete_answers; [|exact Hd].
           apply W1.
      * destruct G2 as (-> & c' & Hin & Hc'). split; [reflexivity|].
        exists c'. split; [now right|exact Hc'].
    + destruct (delete_artifacts_run _ _ _ _ E1) as (K1 & -> & Hc).
      pose proof (writes_delete_artifacts c _ _ _ E1) as W1.
      split.
      { eapply writes_within_mono; [|exact W1]. intros x Hx. cbn [flat_map].
        apply in_or_app. now left. }
      split; [exact K1|]. split; [reflexivity|].
      exists c. split; [now left|exact Hc].
Qed.

Lemma page_rows_in page rows c :
  In c (order_by_checked_at_desc (page_checks page rows))
  <-> In c rows /\ page_id c = page_pk page.
Proof.
  rewrite <- !list_elem_of_In. rewrite (order_by_perm (page_checks page rows)).
  rewrite !list_elem_of_In. unfold page_checks. rewrite filter_In.
  now rewrite Z.eqb_eq.
Qed.

(** X22.  What deleting a site does.  A request without a user is answered 401
    and one for a site the user does not own 404; neither changes
    anything.  For the owner the view deletes from the store, row by row,
    the screenshot, crop, diff and thumbnail of every check of the page,
    then the page with all its checks.  It adds no object to the store
    and touches none but those the page's rows name; when it answers,
    the answer is [{'deleted': True}], the page and its rows are gone
    while all other pages and rows stand as they were, and every artifact
    the rows named is gone where the backend carried the delete out.  The
    one way it can fail is the [ValueError] of [_thumb_rel] on a
    screenshot path without a file name: then the page and all rows are
    still there. *)
Theorem monitor_site_delete_effect (user : User) (site_id : Z) (w : World) :
  let m := monitor_site_delete (Some user) site_id in
  let st := screenshot_storage w in
  let w' := final m w in
  let named (p : string) : Prop :=
    exists c, In c (checks w) /\ page_id c = site_id /\ In p (artifact_paths c) in
  monitor_site_delete None site_id w = (Ok (error_response "Not authenticated" 401), w)
  /\ (result (owns_page user site_id) w = Ok false ->
      m w = (Ok (error_response "Site not found" 404), w))
  /\ (result (owns_page user site_id) w = Ok true ->
      same_service st (screenshot_storage w')
      /\ outbox w' = outbox w /\ users w' = users w /\ settings w' = settings w
      /\ (forall r, stored st r = None -> stored (screenshot_storage w') r = None)
      /\ (forall r, (forall p, named p -> object_key st r <> object_key st p) ->
                    stored (screenshot_storage w') r = stored st r)
      /\ match result m w with
         | Ok r =>
             r = json_response (JObj [("deleted", JBool true)]) 200
             /\ pages w' = List.filter (fun p => negb (page_pk p =? site_id)%Z) (pages w)
             /\ checks w' = List.filter (fun c => negb (page_id c =? site_id)%Z) (checks w)
             /\ forall p, named p -> p <> "" -> delete_answers st p ->
                  stored (screenshot_storage w') p = None
         | Raise e =>
             e = ValueError /\ pages w' = pages w /\ checks w' = checks w
             /\ exists c, In c (checks w) /\ page_id c = site_id
                          /\ screenshot_path c <> ""
                          /\ _thumb_rel (screenshot_path c) = None
         end).
Proof.
  intros m st w' named. split; [reflexivity|].
  rewrite owns_page_get_page. subst m w'. unfold result, final, monitor_site_delete.
  rewrite (bind_ok _ _ _ _ _ (get_page_run user site_id w)).
  destruct (List.find _ (pages w)) as [page|] eqn:Hf.
  2:{ split; [intros _; reflexivity|]. intros E. inversion E. }
  split.
  { intros E. inversion E. }
  intros _. apply get_page_found in Hf as (Hin & Hpk & Hu).
  rewrite (bind_ok _ _ _ _ _ (eq_refl : gets checks w = (Ok (checks w), w))).
  destruct (for_each (order_by_checked_at_desc (page_checks page (checks w)))
              delete_artifacts w) as [o w1] eqn:El.
  destruct (for_each_delete_run _ _ _ _ El) as ([F1 W1] & K1 & G1).
  assert (Hnamed : forall p,
            In p (flat_map artifact_paths
                    (order_by_checked_at_desc (page_checks page (checks w)))) ->
            named p).
  { intros p Hp. apply in_flat_map in Hp as (c & Hc & Hp).
    apply page_rows_in in Hc as [Hc Hid]. exists c. rewrite Hid, Hpk. auto. }
  destruct F1 as (S1 & C1 & O1 & P1 & U1 & T1).
  destruct o as [[]|e].
  - rewrite (bind_ok _ _ _ _ _ El). unfold page_delete, bind, modify, ret. simpl.
    split; [exact S1|]. split; [exact O1|]. split; [exact U1|].
    split; [exact T1|]. split; [exact K1|].
    split; [intros r Hr; apply W1; intros p Hp; apply Hr, Hnamed, Hp|].
    split; [reflexivity|]. rewrite P1, C1, Hpk. split; [reflexivity|].
    split; [reflexivity|].
    intros p (c & Hc & Hid & Hp) Tp Hd. apply (G1 c p); auto.
    + apply page_rows_in. split; [exact Hc|congruence].
    + now apply truthy_spec.
  - rewrite (bind_raise _ _ _ _ _ El). simpl.
    split; [exact S1|]. split; [exact O1|]. split; [exact U1|].
    split; [exact T1|]. split; [exact K1|].
    split; [intros r Hr; apply W1; intros p Hp; apply Hr, Hnamed, Hp|].
    destruct G1 as (-> & c & Hc & Hs & Ht). split; [reflexivity|].
    split; [exact P1|]. split; [exact C1|].
    apply page_rows_in in Hc as [Hc Hid]. exists c. rewrite Hid, Hpk. auto.
Qed.

(** ** Pinning a site *)

Lemma set_pages_same w : set_pages (pages w) w = w.
Proof. now destruct w. Qed.

Lemma set_is_pinned_same p : set_is_pinned (is_pinned p) p = p.
Proof. now destruct p. Qed.

Lemma set_is_pinned_twice a b p : set_is_pinned a (set_is_pinned b p) = set_is_pinned a p.
Proof. reflexivity. Qed.

Lemma pinned_at_same site_id b ps :
  (forall p, In p ps -> page_pk p = site_id -> is_pinned p = b) ->
  pinned_at site_id b ps = ps.
Proof.
  intros Hb. unfold pinned_at. rewrite <- (map_id ps) at 2.
  apply map_ext_in. intros p Hp. destruct (page_pk p =? site_id)%Z eqn:E; [|reflexivity].
  apply Z.eqb_eq in E. rewrite <- (Hb p Hp E). apply set_is_pinned_same.
Qed.

Lemma pinned_at_twice site_id a b ps :
  pinned_at site_id a (pinned_at site_id b ps) = pinned_at site_id a ps.
Proof.
  unfold pinned_at. rewrite map_map. apply map_ext. intros p.
  destruct (page_pk p =? site_id)%Z eqn:E; simpl; now rewrite E.
Qed.

Lemma pinned_at_find site_id user b ps :
  List.find (fun p => (page_pk p =? site_id)%Z && (user_id p =? user_pk user)%Z)
    (pinned_at site_id b ps)
  = set_is_pinned b <$>
    List.find (fun p => (page_pk p =? site_id)%Z && (user_id p =? user_pk user)%Z) ps.
Proof.
  induction ps as [|p ps IH]; simpl; [reflexivity|].
  destruct (page_pk p =? site_id)%Z eqn:E; simpl; rewrite E; simpl.
  - destruct (user_id p =? user_pk user)%Z; [reflexivity|exact IH].
  - exact IH.
Qed.

Lemma unique_key_pin site_id page ps :
  NoDup (map page_pk ps) -> In page ps -> page_pk page = site_id ->
  forall p, In p ps -> page_pk p = site_id -> is_pinned p = is_pinned page.
Proof.
  intros Hnd Hin Hpk p Hp Ep.
  assert (p = page); [|now subst].
  clear -Hnd Hin Hpk Hp Ep. induction ps as [|x ps IH]; [destruct Hin|].
  inversion Hnd as [|? ? Hx Hnd']; subst.
  destruct Hin as [->|Hin], Hp as [->|Hp]; auto.
  - exfalso. apply Hx. apply list_elem_of_In. rewrite <- Ep. now apply in_map.
  - exfalso. apply Hx. apply list_elem_of_In. rewrite Ep. now apply in_map.
Qed.

Lemma monitor_site_pin_run user body site_id w page :
  List.find (fun p => (page_pk p =? site_id)%Z && (user_id p =? user_pk user)%Z)
    (pages w) = Some page ->
  monitor_site_pin (Some user) body site_id w
  = match requested_pin body page with
    | inl e => (Ok (Uncaught e), w)
    | inr pinned =>
        (Ok (Responds (json_response
                         (JObj [("id", JInt site_id); ("is_pinned", JBool pinned)]) 200)),
         set_pages (pinned_at site_id pinned (pages w)) w)
    end.
Proof.
  intros Hf. unfold monitor_site_pin.
  rewrite (bind_ok _ _ _ _ _ (get_page_run user site_id w)). rewrite Hf.
  apply get_page_found in Hf as (_ & Hpk & _).
  destruct (requested_pin body page) as [e|pinned]; [reflexivity|].
  unfold save_is_pinned, bind, modify, ret. simpl. now rewrite Hpk.
Qed.

(** X23.  Only the owner flips the pin, and nothing but the pin is flipped.
    [monitor_site_pin] always returns to Django, with a response or with
    an exception of the request handling.  Unless it answers 200 the world
    is exactly as before.  It answers 200 only to an authenticated user
    who owns the site; the rows of the site then carry the pin the answer
    states, no other column and no other page is changed, and the checks,
    the store, the outbox and the log are untouched. *)
Theorem monitor_site_pin_changes_only_the_pin
    (request_user : option User) (body : Body) (site_id : Z) (w : World) :
  let m := monitor_site_pin request_user body site_id in
  let w' := final m w in
  exists v,
    result m w = Ok v
    /\ set_pages (pages w) w' = w
    /\ match v with
       | Responds r =>
           if (reply_status r =? 200)%Z then
             exists user page pinned,
               request_user = Some user
               /\ In page (pages w) /\ page_pk page = site_id
               /\ user_id page = user_pk user
               /\ reply_data r = JObj [("id", JInt site_id); ("is_pinned", JBool pinned)]
               /\ pages w' = pinned_at site_id pinned (pages w)
           else w' = w
       | Uncaught _ => w' = w
       end.
Proof.
  intros m w'. subst m w'. unfold result, final.
  destruct request_user as [user|].
  2:{ eexists. split; [reflexivity|]. split; [apply set_pages_same|reflexivity]. }
  destruct (List.find (fun p => (page_pk p =? site_id)%Z && (user_id p =? user_pk user)%Z)
              (pages w)) as [page|] eqn:Hf.
  2:{ unfold monitor_site_pin.
      rewrite (bind_ok _ _ _ _ _ (get_page_run user site_id w)). rewrite Hf.
      eexists. split; [reflexivity|]. split; [apply set_pages_same|reflexivity]. }
  rewrite (monitor_site_pin_run _ _ _ _ _ Hf).
  apply get_page_found in Hf as (Hin & Hpk & Hu).
  destruct (requested_pin body page) as [e|pinned]; simpl.
  - eexists. split; [reflexivity|]. split; [apply set_pages_same|reflexivity].
  - eexists. split; [reflexivity|]. split; [now destruct w|].
    simpl. exists user, page, pinned. auto 10.
Qed.

(** X24.  How the pin is read from the body.  For the owner of the site: a
    body that is no JSON, or a JSON object without the key [is_pinned],
    toggles the pin, and two such requests in a row leave the whole world
    as it was (the primary key being unique).  A JSON object with the key
    sets the pin to the truth value Python gives the value, so every
    non-empty string pins the site, the string ["false"] included.  A
    body that is JSON but no object makes the view raise
    [AttributeError], and nothing is changed. *)
Theorem monitor_site_pin_reads_truthiness
    (user : User) (site_id : Z) (w : World) (page : MonitoredPage) :
  NoDup (map page_pk (pages w)) ->
  result (get_page user site_id) w = Ok (Some page) ->
  let pin body := monitor_site_pin (Some user) body site_id in
  let answer b :=
    Ok (Responds (json_response
                    (JObj [("id", JInt site_id); ("is_pinned", JBool b)]) 200)) in
  (forall body,
     body = LoadRaises JSONDecodeError
     \/ (exists items, body = Loaded (JObj items) /\ dict_get "is_pinned" items = None) ->
     result (pin body) w = answer (negb (is_pinned page))
     /\ pages (final (pin body) w) = pinned_at site_id (negb (is_pinned page)) (pages w)
     /\ result (pin body) (final (pin body) w) = answer (is_pinned page)
     /\ final (pin body) (final (pin body) w) = w)
  /\ (forall items v,
        dict_get "is_pinned" items = Some v ->
        result (pin (Loaded (JObj items))) w = answer (py_bool v)
        /\ pages (final (pin (Loaded (JObj items))) w)
           = pinned_at site_id (py_bool v) (pages w))
  /\ (forall s, s <> "" -> py_bool (JStr s) = true)
  /\ (forall data, (forall items, data <> JObj items) ->
        pin (Loaded data) w = (Ok (Uncaught AttributeError), w)).
Proof.
  intros Hnd Hget pin answer. unfold result in Hget. rewrite get_page_run in Hget.
  injection Hget as Hf. subst pin answer. unfold result, final.
  pose proof (get_page_found _ _ _ _ Hf) as (Hin & Hpk & Hu).
  split; [|split; [|split]].
  - intros body Hbody.
    assert (Hreq : forall page', requested_pin body page' = inr (negb (is_pinned page'))).
    { intros page'. destruct Hbody as [->|(items & -> & Hnone)]; [reflexivity|].
      unfold requested_pin. simpl. now rewrite Hnone. }
    rewrite (monitor_site_pin_run _ _ _ _ _ Hf), Hreq. cbn [fst snd].
    split; [reflexivity|]. split; [reflexivity|].
    set (w1 := set_pages (pinned_at site_id (negb (is_pinned page)) (pages w)) w).
    assert (Hf1 : List.find (fun p => (page_pk p =? site_id)%Z
                                      && (user_id p =? user_pk user)%Z) (pages w1)
                  = Some (set_is_pinned (negb (is_pinned page)) page)).
    { unfold w1. simpl. rewrite pinned_at_find, Hf. reflexivity. }
    rewrite (monitor_site_pin_run _ _ _ _ _ Hf1), Hreq. cbn [fst snd is_pinned set_is_pinned].
    rewrite negb_involutive.
    split; [reflexivity|]. unfold w1. simpl. rewrite pinned_at_twice.
    rewrite pinned_at_same; [now destruct w|].
    intros p Hp Ep. eapply unique_key_pin; eauto.
  - intros items v Hv. rewrite (monitor_site_pin_run _ _ _ _ _ Hf).
    unfold requested_pin. simpl. rewrite Hv. simpl. auto.
  - intros s Hs. simpl. now apply truthy_spec.
  - intros data Hdata. rewrite (monitor_site_pin_run _ _ _ _ _ Hf).
    unfold requested_pin. destruct data; try reflexivity.
    now destruct (Hdata items).
Qed.

Lemma monitor_site_pin_reads_truthiness_witness :
  let w := notify_world alice [] in
  let pin body := monitor_site_pin (Some alice) body 7 in
  pages (final (pin (Loaded (JObj [("is_pinned", JStr "false")]))) w)
  = [set_is_pinned true (page_of alice true 2)]
  /\ final (pin (LoadRaises JSONDecodeError)) (final (pin (LoadRaises JSONDecodeError)) w)
     = w.
Proof.
  intros w pin.
  assert (Hnd : NoDup (map page_pk (pages w))).
  { simpl. apply NoDup_singleton. }
  destruct (monitor_site_pin_reads_truthiness alice 7 w (page_of alice true 2)
              Hnd eq_refl) as (Htoggle & Hset & _ & _).
  split.
  - destruct (Hset [("is_pinned", JStr "false")] (JStr "false") eq_refl) as [_ Hp].
    exact Hp.
  - destruct (Htoggle (LoadRaises JSONDecodeError) (or_introl eq_refl))
      as (_ & _ & _ & Hback).
    exact Hback.
Defined.

(** ** Changing the settings of a site *)

Lemma updated_refl p : updated p p.
Proof.
  unfold updated. repeat (split; [auto|]).
  unfold regions. repeat (apply List.Forall_cons; [now left|]). apply Forall_nil_2.
Qed.

Lemma updated_trans a b c : updated a b -> updated b c -> updated a c.
Proof.
  unfold updated, regions.
  intros (K1 & U1 & P1 & C1 & A1 & R1) (K2 & U2 & P2 & C2 & A2 & R2).
  split; [congruence|]. split; [congruence|]. split; [congruence|].
  split; [destruct C2 as [->|]; auto|]. split; [destruct A2 as [->|]; auto|].
  repeat match goal with
         | H : Forall _ (_ :: _) |- _ => apply Forall_cons in H as [? H]
         end.
  repeat (apply List.Forall_cons;
          [match goal with
           | H : ?f c = ?f b \/ _ |- ?f c = ?f a \/ _ => destruct H as [->|]; auto
           end|]).
  apply Forall_nil_2.
Qed.

Ltac updated_by_setter :=
  unfold updated, regions; simpl;
  repeat (split; [solve [auto]|]);
  repeat (apply List.Forall_cons; [solve [auto]|]); apply Forall_nil_2.

Section SettingsProperties.
Context `{Text}.

Lemma good_if_in key data assign :
  (forall v p p', assign v p = inr p' -> updated p p') ->
  good_step (if_in key data assign).
Proof.
  intros Ha page. unfold if_in.
  destruct (contains key data) as [e|[]]; [exact I| |apply updated_refl].
  destruct (getitem key data) as [e|v]; simpl; [exact I|].
  destruct (assign v page) as [e|p'] eqn:E; [exact I|]. eapply Ha; eauto.
Qed.

Lemma good_update_int key lo hi out_of_range invalid assign data :
  (forall n p, (lo <= n <= hi)%Z -> updated p (assign n p)) ->
  good_step (update_int key lo hi out_of_range invalid assign data).
Proof.
  intros Ha page. unfold update_int.
  destruct (contains key data) as [e|[]]; [exact I| |apply updated_refl].
  destruct (and_then (getitem key data) py_int) as [e|n].
  - destruct (is_ValueError e || is_TypeError e); [reflexivity|exact I].
  - destruct ((lo <=? n)%Z && (n <=? hi)%Z) eqn:E; [|reflexivity].
    apply andb_true_iff in E as [E1 E2]. apply Z.leb_le in E1, E2. now apply Ha.
Qed.

Lemma good_update_region frontend_key model_attr data :
  good_step (update_region frontend_key model_attr data).
Proof.
  intros page. unfold update_region.
  destruct (contains frontend_key data) as [e|[]]; [exact I| |apply updated_refl].
  destruct (and_then (getitem frontend_key data) py_float) as [e|val].
  - destruct (is_ValueError e || is_TypeError e); [reflexivity|exact I].
  - destruct (in_unit_interval val) eqn:E; [|reflexivity].
    destruct val as [q| | |]; try discriminate E.
    apply andb_true_iff in E as [E1 E2]. apply Qle_bool_iff in E1, E2.
    destruct model_attr; updated_by_setter.
Qed.

Lemma good_settings_steps data : Forall good_step (settings_steps data).
Proof.
  unfold settings_steps, region_fields. cbn [map app].
  repeat constructor;
    try apply good_update_region;
    try (apply good_update_int; intros n p Hn; updated_by_setter);
    apply good_if_in; intros v p p'.
  - destruct (py_strip v) as [e|u]; simpl; [discriminate|].
    intros [= <-]. destruct (Py.truthy u); [|apply updated_refl].
    updated_by_setter.
  - intros [= <-]. updated_by_setter.
  - intros [= <-]. updated_by_setter.
  - intros [= <-]. updated_by_setter.
Qed.

Lemma good_run_steps steps :
  Forall good_step steps -> good_step (run_steps steps).
Proof.
  induction 1 as [|s steps Hs _ IH]; intros page; simpl; [apply updated_refl|].
  specialize (Hs page). destruct (s page) as [v|p1]; simpl; [exact Hs|].
  specialize (IH p1). destruct (run_steps steps p1) as [v|p2]; [exact IH|].
  eapply updated_trans; eauto.
Qed.

(** The view for the owner of the page it found. *)
Lemma monitor_site_settings_run user body site_id w page :
  List.find (fun p => (page_pk p =? site_id)%Z && (user_id p =? user_pk user)%Z)
    (pages w) = Some page ->
  monitor_site_settings (Some user) body site_id w
  = match body with
    | LoadRaises JSONDecodeError =>
        (Ok (Responds (error_response "Invalid JSON format" 400)), w)
    | LoadRaises e => (Ok (Uncaught e), w)
    | Loaded data =>
        match run_steps (settings_steps data) page with
        | inl ended => (Ok ended, w)
        | inr page' =>
            if url_fits (url page')
            then (Ok (Responds (json_response
                                  (JObj [("success", JBool true);
                                         ("site", site_dict page')]) 200)),
                  set_pages (replaced_at site_id page' (pages w)) w)
            else (Ok (Uncaught SaveError), w)
        end
    end.
Proof.
  intros Hf. unfold monitor_site_settings.
  rewrite (bind_ok _ _ _ _ _ (get_page_run user site_id w)). rewrite Hf.
  apply get_page_found in Hf as (_ & Hpk & _).
  destruct body as [data|e]; [|now destruct e].
  pose proof (good_run_steps _ (good_settings_steps data) page) as Hg.
  destruct (run_steps (settings_steps data) page) as [v|page']; [reflexivity|].
  destruct Hg as (Hk & _). unfold page_save, bind, modify, ret.
  destruct (url_fits (url page')); simpl; [|reflexivity].
  unfold replaced_at. now rewrite Hk, Hpk.
Qed.

(** How every settings request ends, and what it leaves. *)
Lemma monitor_site_settings_cases request_user body site_id w :
  let m := monitor_site_settings request_user body site_id in
  let w' := final m w in
  exists v,
    m w = (Ok v, w')
    /\ match v with
       | Responds r =>
           if (reply_status r =? 200)%Z then
             exists user page page',
               request_user = Some user
               /\ In page (pages w) /\ page_pk page = site_id
               /\ user_id page = user_pk user
               /\ updated page page'
               /\ reply_data r = JObj [("success", JBool true); ("site", site_dict page')]
               /\ w' = set_pages (replaced_at site_id page' (pages w)) w
           else w' = w
       | Uncaught _ => w' = w
       end.
Proof.
  intros m w'. subst m w'. unfold final.
  destruct request_user as [user|]; [|eexists; split; reflexivity].
  destruct (List.find (fun p => (page_pk p =? site_id)%Z && (user_id p =? user_pk user)%Z)
              (pages w)) as [page|] eqn:Hf.
  2:{ unfold monitor_site_settings.
      rewrite (bind_ok _ _ _ _ _ (get_page_run user site_id w)). rewrite Hf.
      eexists. split; reflexivity. }
  rewrite (monitor_site_settings_run _ _ _ _ _ Hf).
  apply get_page_found in Hf as (Hin & Hpk & Hu).
  destruct body as [data|e].
  2:{ destruct e; eexists; split; reflexivity. }
  pose proof (good_run_steps _ (good_settings_steps data) page) as Hg.
  destruct (run_steps (settings_steps data) page) as [[r|e]|page'].
  - eexists. split; [reflexivity|]. simpl. now rewrite Hg.
  - eexists. split; reflexivity.
  - destruct (url_fits (url page')); eexists; (split; [reflexivity|]); simpl; [|reflexivity].
    exists user, page, page'. auto 10.
Qed.

(** X25.  A settings request is all or nothing, and only for the owner.
    [monitor_site_settings] always returns to Django, with a response or
    with an exception of the request handling.  Unless it answers 200 the
    world is exactly as before, although the fields are validated and
    assigned one after the other.  It answers 200 only to an authenticated
    user who owns the site; the row of the site is then replaced by the
    page the answer renders, which has the key, the owner and the pin of
    the old one; no other page is changed, nor the checks, the store, the
    outbox or the log. *)
Theorem monitor_site_settings_all_or_nothing
    (request_user : option User) (body : Body) (site_id : Z) (w : World) :
  let m := monitor_site_settings request_user body site_id in
  let w' := final m w in
  exists v,
    result m w = Ok v
    /\ set_pages (pages w) w' = w
    /\ match v with
       | Responds r =>
           if (reply_status r =? 200)%Z then
             exists user page page',
               request_user = Some user
               /\ In page (pages w) /\ page_pk page = site_id
               /\ user_id page = user_pk user
               /\ page_pk page' = site_id /\ user_id page' = user_id page
               /\ is_pinned page' = is_pinned page
               /\ reply_data r = JObj [("success", JBool true); ("site", site_dict page')]
               /\ pages w' = replaced_at site_id page' (pages w)
           else w' = w
       | Uncaught _ => w' = w
       end.
Proof.
  intros m w'.
  destruct (monitor_site_settings_cases request_user body site_id w) as (v & Hrun & Hv).
  fold m w' in Hrun, Hv. exists v. unfold result. rewrite Hrun.
  split; [reflexivity|].
  destruct v as [r|e].
  - destruct (reply_status r =? 200)%Z.
    + destruct Hv as (user & page & page' & Hu & Hin & Hpk & Ho & Hup & Hd & Hw).
      split; [rewrite Hw; now destruct w|].
      exists user, page, page'. destruct Hup as (K & U & P & _).
      rewrite Hw. simpl. repeat (split; [congruence|]). reflexivity.
    + rewrite Hv. split; [apply set_pages_same|reflexivity].
  - rewrite Hv. split; [apply set_pages_same|reflexivity].
Qed.

Lemma updated_in_range old new :
  updated old new -> settings_in_range old -> settings_in_range new.
Proof.
  unfold updated, settings_in_range, regions.
  intros (_ & _ & _ & C & A & R) (C0 & A0 & R0).
  split; [destruct C as [->|]; auto|]. split; [destruct A as [->|]; auto|].
  repeat match goal with
         | H : Forall _ (_ :: _) |- _ => apply Forall_cons in H as [? H]
         end.
  repeat (apply List.Forall_cons;
          [match goal with
           | H : ?f new = ?f old \/ _ |- _ /\ (?f new <= _)%Q =>
               destruct H as [->|[]]; tauto
           end|]).
  apply Forall_nil_2.
Qed.

(** X26.  The settings stay within their ranges.  If every page has a check
    interval of 1 to 60 minutes, an alert threshold of 1 to 10 and region
    fractions between 0 and 1, then so has every page after any settings
    request, whatever the body holds and however the request ends. *)
Theorem monitor_site_settings_keeps_ranges
    (request_user : option User) (body : Body) (site_id : Z) (w : World) :
  Forall settings_in_range (pages w) ->
  Forall settings_in_range
    (pages (final (monitor_site_settings request_user body site_id) w)).
Proof.
  intros Hall.
  destruct (monitor_site_settings_cases request_user body site_id w) as (v & _ & Hv).
  cbv zeta in Hv.
  set (w' := final (monitor_site_settings request_user body site_id) w) in *.
  assert (Hcases : w' = w \/ exists page page',
            In page (pages w) /\ updated page page'
            /\ w' = set_pages (replaced_at site_id page' (pages w)) w).
  { destruct v as [r|e]; [|now left].
    destruct (reply_status r =? 200)%Z; [|now left].
    destruct Hv as (user & page & page' & _ & Hin & _ & _ & Hup & _ & Hw). eauto 6. }
  destruct Hcases as [->|(page & page' & Hin & Hup & ->)]; [exact Hall|].
  simpl. unfold replaced_at. rewrite Forall_forall in Hall |- *.
  intros p Hp. apply list_elem_of_In, in_map_iff in Hp as (p0 & <- & Hp0).
  destruct (page_pk p0 =? site_id)%Z.
  - eapply updated_in_range; [exact Hup|]. apply Hall. now apply list_elem_of_In.
  - apply Hall. now apply list_elem_of_In.
Qed.

End SettingsProperties.

Lemma monitor_site_settings_keeps_ranges_witness :
  let body := Loaded (JObj [("checkInterval", JStr " 15 "); ("regionTopPct", JBool true)]) in
  let w := notify_world alice [] in
  Forall settings_in_range
    (pages (final (@monitor_site_settings plain_text (Some alice) body 7) w)).
Proof.
  intros body w.
  apply (@monitor_site_settings_keeps_ranges plain_text (Some alice) body 7 w).
  repeat constructor; simpl; try lia; try (apply Qle_bool_iff; reflexivity).
Defined.

(** ** What a settings request assigns *)

Lemma run_steps_at i : forall steps s page page',
  nth_error steps i = Some s ->
  run_steps steps page = inr page' ->
  exists p1 p2,
    run_steps (firstn i steps) page = inr p1 /\ s p1 = inr p2
    /\ run_steps (skipn (S i) steps) p2 = inr page'.
Proof.
  induction i as [|i IH]; intros [|s0 steps] s page page' Hn Hrun; try discriminate Hn.
  - injection Hn as ->. simpl in Hrun. destruct (s page) as [v|p2] eqn:E; [discriminate|].
    exists page, p2. auto.
  - simpl in Hn, Hrun. destruct (s0 page) as [v|p0] eqn:E; [discriminate|].
    simpl in Hrun. destruct (IH _ _ _ _ Hn Hrun) as (p1 & p2 & H1 & H2 & H3).
    exists p1, p2. simpl. rewrite E. simpl. auto.
Qed.

Lemma keeps_run_steps {A} (get : MonitoredPage -> A) steps :
  Forall (keeps get) steps -> keeps get (run_steps steps).
Proof.
  induction 1 as [|s steps Hs _ IH]; intros page page'; simpl.
  - now intros [= <-].
  - destruct (s page) as [v|p1] eqn:E; simpl; [discriminate|].
    intros Hr. rewrite (IH _ _ Hr). eapply Hs; eauto.
Qed.

(** A field is read after the steps before its own step and kept by the
    steps after it. *)
Lemma field_through {A} (get : MonitoredPage -> A) i steps s page page' :
  nth_error steps i = Some s ->
  Forall (keeps get) (firstn i steps) -> Forall (keeps get) (skipn (S i) steps) ->
  run_steps steps page = inr page' ->
  exists p1 p2, s p1 = inr p2 /\ get p1 = get page /\ get page' = get p2.
Proof.
  intros Hn Hpre Hpost Hrun.
  destruct (run_steps_at _ _ _ _ _ Hn Hrun) as (p1 & p2 & H1 & H2 & H3).
  exists p1, p2. split; [exact H2|]. split.
  - exact (keeps_run_steps get _ Hpre _ _ H1).
  - exact (keeps_run_steps get _ Hpost _ _ H3).
Qed.

Lemma contains_obj key items :
  contains key (JObj items) = inr (bool_decide (is_Some (dict_get key items))).
Proof. reflexivity. Qed.

Section PatchProperties.
Context `{Text}.

Lemma keeps_if_in {A} (get : MonitoredPage -> A) key data assign :
  (forall v p p', assign v p = inr p' -> get p' = get p) ->
  keeps get (if_in key data assign).
Proof.
  intros Ha page page'. unfold if_in.
  destruct (contains key data) as [e|[]]; [discriminate| |now intros [= <-]].
  destruct (getitem key data) as [e|v]; simpl; [discriminate|].
  destruct (assign v page) as [e|p'] eqn:E; [discriminate|].
  intros [= <-]. eapply Ha; eauto.
Qed.

Lemma keeps_update_int {A} (get : MonitoredPage -> A)
    key lo hi out_of_range invalid assign data :
  (forall n p, get (assign n p) = get p) ->
  keeps get (update_int key lo hi out_of_range invalid assign data).
Proof.
  intros Ha page page'. unfold update_int.
  destruct (contains key data) as [e|[]]; [discriminate| |now intros [= <-]].
  destruct (and_then (getitem key data) py_int) as [e|n].
  - destruct (is_ValueError e || is_TypeError e); discriminate.
  - destruct ((lo <=? n)%Z && (n <=? hi)%Z); [|discriminate].
    intros [= <-]. apply Ha.
Qed.

Lemma keeps_update_region {A} (get : MonitoredPage -> A) frontend_key model_attr data :
  (forall q p, get (setattr model_attr q p) = get p) ->
  keeps get (update_region frontend_key model_attr data).
Proof.
  intros Ha page page'. unfold update_region.
  destruct (contains frontend_key data) as [e|[]]; [discriminate| |now intros [= <-]].
  destruct (and_then (getitem frontend_key data) py_float) as [e|val].
  - destruct (is_ValueError e || is_TypeError e); discriminate.
  - destruct (in_unit_interval val); [|discriminate].
    destruct val; intros [= <-]; auto.
Qed.

(** The steps on a JSON object. *)
Lemma if_in_obj key items assign p1 p2 :
  if_in key (JObj items) assign p1 = inr p2 ->
  match dict_get key items with
  | None => p2 = p1
  | Some v => assign v p1 = inr p2
  end.
Proof.
  unfold if_in. rewrite contains_obj. simpl.
  destruct (dict_get key items) as [v|]; simpl; [|now intros [= <-]].
  destruct (assign v p1); [discriminate|]. now intros [= <-].
Qed.

Lemma update_int_obj key lo hi out_of_range invalid assign items p1 p2 :
  update_int key lo hi out_of_range invalid assign (JObj items) p1 = inr p2 ->
  match dict_get key items with
  | None => p2 = p1
  | Some v => exists n, py_int v = inr n /\ (lo <= n <= hi)%Z /\ p2 = assign n p1
  end.
Proof.
  unfold update_int. rewrite contains_obj. simpl.
  destruct (dict_get key items) as [v|]; simpl; [|now intros [= <-]].
  destruct (py_int v) as [e|n].
  - destruct (is_ValueError e || is_TypeError e); discriminate.
  - destruct ((lo <=? n)%Z && (n <=? hi)%Z) eqn:E; [|discriminate].
    intros [= <-]. apply andb_true_iff in E as [E1 E2]. apply Z.leb_le in E1, E2.
    exists n. auto.
Qed.

Lemma update_region_obj frontend_key model_attr items p1 p2 :
  update_region frontend_key model_attr (JObj items) p1 = inr p2 ->
  match dict_get frontend_key items with
  | None => p2 = p1
  | Some v =>
      exists q, py_float v = inr (Finite q) /\ (0 <= q)%Q /\ (q <= 1)%Q
                /\ p2 = setattr model_attr q p1
  end.
Proof.
  unfold update_region. rewrite contains_obj. simpl.
  destruct (dict_get frontend_key items) as [v|]; simpl; [|now intros [= <-]].
  destruct (py_float v) as [e|val].
  - destruct (is_ValueError e || is_TypeError e); discriminate.
  - destruct (in_unit_interval val) eqn:E; [|discriminate].
    destruct val as [q| | |]; try discriminate E.
    intros [= <-]. apply andb_true_iff in E as [E1 E2]. apply Qle_bool_iff in E1, E2.
    exists q. auto.
Qed.

Ltac keeps_all :=
  unfold settings_steps, region_fields, update_url, update_bool;
  cbn [firstn skipn app map];
  repeat (apply List.Forall_cons;
          [first [ apply keeps_update_int; intros; reflexivity
                 | apply keeps_update_region; intros; reflexivity
                 | apply keeps_if_in; intros v p p';
                   try (destruct (py_strip v); simpl; [discriminate|]);
                   intros [= <-]; try destruct (Py.truthy _); reflexivity ]|]);
  apply Forall_nil_2.

(** X27.  What an accepted settings request assigns.  When the owner's request
    carries a JSON object and is answered 200, the saved page takes each
    setting from the entry of its key, converted as Python converts it,
    and keeps every setting whose key the object does not hold: the URL
    is the stripped string unless that is empty; a flag is the truth value
    of its entry; the check interval and the alert threshold are [int] of
    their entries and lie within 1..60 and 1..10; a region fraction is
    [float] of its entry and lies between 0 and 1. *)
Theorem monitor_site_settings_assigns
    (user : User) (site_id : Z) (w : World) (page : MonitoredPage)
    (items : list (string * JSON)) (r : JsonReply) :
  result (get_page user site_id) w = Ok (Some page) ->
  let m := monitor_site_settings (Some user) (Loaded (JObj items)) site_id in
  result m w = Ok (Responds r) ->
  reply_status r = 200%Z ->
  let flag key (get : MonitoredPage -> bool) page' :=
    match dict_get key items with
    | None => get page' = get page
    | Some v => get page' = py_bool v
    end in
  let ranged key lo hi (get : MonitoredPage -> Z) page' :=
    match dict_get key items with
    | None => get page' = get page
    | Some v => py_int v = inr (get page') /\ (lo <= get page' <= hi)%Z
    end in
  let fraction key (get : MonitoredPage -> Q) page' :=
    match dict_get key items with
    | None => get page' = get page
    | Some v => py_float v = inr (Finite (get page'))
                /\ (0 <= get page')%Q /\ (get page' <= 1)%Q
    end in
  exists page',
    reply_data r = JObj [("success", JBool true); ("site", site_dict page')]
    /\ pages (final m w) = replaced_at site_id page' (pages w)
    /\ match dict_get "url" items with
       | None => url page' = url page
       | Some v => exists s, v = JStr s
                     /\ url page' = if Py.truthy (strip s) then strip s else url page
       end
    /\ ranged "checkInterval" 1%Z 60%Z check_interval page'
    /\ flag "notificationsEnabled" notifications_enabled page'
    /\ ranged "alertThreshold" 1%Z 10%Z alert_threshold page'
    /\ flag "screenshotEnabled" screenshot_enabled page'
    /\ flag "changeNotificationsEnabled" change_notifications_enabled page'
    /\ fraction "regionLeftPct" region_left_pct page'
    /\ fraction "regionTopPct" region_top_pct page'
    /\ fraction "regionWidthPct" region_width_pct page'
    /\ fraction "regionHeightPct" region_height_pct page'.
Proof.
  intros Hget m Hres Hst flag ranged fraction.
  unfold result in Hget. rewrite get_page_run in Hget. injection Hget as Hf.
  subst m. unfold result, final in *.
  rewrite (monitor_site_settings_run _ _ _ _ _ Hf) in Hres |- *.
  destruct (run_steps (settings_steps (JObj items)) page) as [v|page'] eqn:Hrun.
  { pose proof (good_run_steps _ (good_settings_steps (JObj items)) page) as Hg.
    rewrite Hrun in Hg. simpl in Hres. injection Hres as ->.
    rewrite Hg in Hst. discriminate Hst. }
  destruct (url_fits (url page')); simpl in Hres; [|discriminate Hres].
  injection Hres as <-. exists page'. split; [reflexivity|]. split; [reflexivity|].
  assert (Hflag : forall i key get assign,
            nth_error (settings_steps (JObj items)) i
              = Some (update_bool key assign (JObj items)) ->
            Forall (keeps get) (firstn i (settings_steps (JObj items))) ->
            Forall (keeps get) (skipn (S i) (settings_steps (JObj items))) ->
            (forall b p, get (assign b p) = b) ->
            flag key get page').
  { intros i key get assign Hn Hpre Hpost Hset.
    destruct (field_through get i _ _ _ _ Hn Hpre Hpost Hrun) as (p1 & p2 & Hs & H1 & H2).
    apply if_in_obj in Hs. unfold flag.
    destruct (dict_get key items) as [v|]; [|congruence].
    injection Hs as <-. now rewrite H2, Hset. }
  assert (Hranged : forall i key lo hi o inv get assign,
            nth_error (settings_steps (JObj items)) i
              = Some (update_int key lo hi o inv assign (JObj items)) ->
            Forall (keeps get) (firstn i (settings_steps (JObj items))) ->
            Forall (keeps get) (skipn (S i) (settings_steps (JObj items))) ->
            (forall n p, get (assign n p) = n) ->
            ranged key lo hi get page').
  { intros i key lo hi o inv get assign Hn Hpre Hpost Hset.
    destruct (field_through get i _ _ _ _ Hn Hpre Hpost Hrun) as (p1 & p2 & Hs & H1 & H2).
    apply update_int_obj in Hs. unfold ranged.
    destruct (dict_get key items) as [v|]; [|congruence].
    destruct Hs as (n & Hn' & Hr & ->). rewrite H2, Hset. auto. }
  assert (Hfraction : forall i key attr get,
            nth_error (settings_steps (JObj items)) i
              = Some (update_region key attr (JObj items)) ->
            Forall (keeps get) (firstn i (settings_steps (JObj items))) ->
            Forall (keeps get) (skipn (S i) (settings_steps (JObj items))) ->
            (forall q p, get (setattr attr q p) = q) ->
            fraction key get page').
  { intros i key attr get Hn Hpre Hpost Hset.
    destruct (field_through get i _ _ _ _ Hn Hpre Hpost Hrun) as (p1 & p2 & Hs & H1 & H2).
    apply update_region_obj in Hs. unfold fraction.
    destruct (dict_get key items) as [v|]; [|congruence].
    destruct Hs as (q & Hq & Hlo & Hhi & ->). rewrite H2, Hset. auto. }
  split.
  { destruct (field_through url 0 (settings_steps (JObj items)) (update_url (JObj items))
                page page' eq_refl ltac:(keeps_all) ltac:(keeps_all) Hrun)
      as (p1 & p2 & Hs & H1 & H2).
    apply if_in_obj in Hs. destruct (dict_get "url" items) as [v|]; [|congruence].
    destruct v; try discriminate Hs. simpl in Hs. injection Hs as <-.
    eexists. split; [reflexivity|]. rewrite H2.
    destruct (Py.truthy (strip s)); [reflexivity|exact H1]. }
  split; [apply (Hranged 1%nat _ _ _ _ _ _ _ eq_refl); [keeps_all|keeps_all|reflexivity]|].
  split; [apply (Hflag 2%nat _ _ _ eq_refl); [keeps_all|keeps_all|reflexivity]|].
  split; [apply (Hranged 3%nat _ _ _ _ _ _ _ eq_refl); [keeps_all|keeps_all|reflexivity]|].
  split; [apply (Hflag 4%nat _ _ _ eq_refl); [keeps_all|keeps_all|reflexivity]|].
  split; [apply (Hflag 5%nat _ _ _ eq_refl); [keeps_all|keeps_all|reflexivity]|].
  split; [apply (Hfraction 6%nat _ _ _ eq_refl); [keeps_all|keeps_all|reflexivity]|].
  split; [apply (Hfraction 7%nat _ _ _ eq_refl); [keeps_all|keeps_all|reflexivity]|].
  split; [apply (Hfraction 8%nat _ _ _ eq_refl); [keeps_all|keeps_all|reflexivity]|].
  apply (Hfraction 9%nat _ _ _ eq_refl); [keeps_all|keeps_all|reflexivity].
Qed.

End PatchProperties.

Lemma monitor_site_settings_assigns_witness :
  let items := [("checkInterval", JStr " 15 "); ("screenshotEnabled", JInt 0)] in
  let m := @monitor_site_settings plain_text (Some alice) (Loaded (JObj items)) 7 in
  exists page',
    pages (final m (notify_world alice [])) = [page']
    /\ check_interval page' = 15%Z /\ screenshot_enabled page' = false
    /\ alert_threshold page' = 2%Z.
Proof.
  intros items m.
  pose (saved := set_screenshot_enabled false
                   (set_check_interval 15 (page_of alice true 2))).
  destruct (@monitor_site_settings_assigns plain_text alice 7 (notify_world alice [])
              (page_of alice true 2) items
              (json_response (JObj [("success", JBool true); ("site", site_dict saved)]) 200)
              eq_refl ltac:(vm_compute; reflexivity) eq_refl)
    as (page' & _ & Hp & _ & Hci & _ & Hat & Hse & _).
  exists page'. split; [exact Hp|].
  simpl in Hci, Hat, Hse. destruct Hci as [Hci _].
  vm_compute in Hci. injection Hci as Hci.
  split; [now symmetry|]. split; [exact Hse|exact Hat].
Defined.

(** ** Requests that end in an exception *)

Section EscapeProperties.
Context `{Text}.

(** X28.  Bodies the settings endpoint does not answer.  For the owner of the
    site, these requests make the view raise instead of answering 400,
    and leave the world as it was: valid JSON that is a number, a
    boolean or [null], or a list or string in which [in] finds ["url"], is
    a [TypeError]; a URL that is no string is an [AttributeError]; an
    infinite float for the check interval, which is what [json.loads]
    makes of [1e999], is the [OverflowError] of [int]; and an integer of
    [2^1024] or more for a region is the [OverflowError] of [float]. *)
Theorem monitor_site_settings_escapes
    (user : User) (site_id : Z) (w : World) (page : MonitoredPage) :
  result (get_page user site_id) w = Ok (Some page) ->
  let run data := monitor_site_settings (Some user) (Loaded data) site_id w in
  (forall data, (forall items, data <> JObj items) ->
                contains "url" data <> inr false ->
                run data = (Ok (Uncaught TypeError), w))
  /\ (forall items v, dict_get "url" items = Some v -> (forall s, v <> JStr s) ->
        run (JObj items) = (Ok (Uncaught AttributeError), w))
  /\ (forall items f, dict_get "url" items = None ->
        dict_get "checkInterval" items = Some (JFloat f) ->
        f = PosInf \/ f = NegInf ->
        run (JObj items) = (Ok (Uncaught OverflowError), w))
  /\ (forall n, (2 ^ 1024 <= Z.abs n)%Z ->
        run (JObj [("regionLeftPct", JInt n)]) = (Ok (Uncaught OverflowError), w)).
Proof.
  intros Hget run. unfold result in Hget. rewrite get_page_run in Hget.
  injection Hget as Hf. subst run.
  split; [|split; [|split]].
  - intros data Hobj Hin. rewrite (monitor_site_settings_run _ _ _ _ _ Hf).
    assert (E : run_steps (settings_steps data) page = inl (Uncaught TypeError)).
    { unfold settings_steps. cbn [app run_steps]. unfold update_url at 1, if_in.
      destruct data as [| | | | s|l|items]; try reflexivity.
      - simpl in *. destruct (is_substring "url" s); [reflexivity|congruence].
      - simpl in *. destruct (existsb _ l); [reflexivity|congruence].
      - now destruct (Hobj items). }
    now rewrite E.
  - intros items v Hv Hs. rewrite (monitor_site_settings_run _ _ _ _ _ Hf).
    assert (E : run_steps (settings_steps (JObj items)) page
                = inl (Uncaught AttributeError)).
    { unfold settings_steps. cbn [app run_steps]. unfold update_url at 1, if_in.
      rewrite contains_obj, Hv. simpl. rewrite Hv. simpl.
      destruct v; try reflexivity. now destruct (Hs s). }
    now rewrite E.
  - intros items f Hu Hc Hinf. rewrite (monitor_site_settings_run _ _ _ _ _ Hf).
    assert (E : run_steps (settings_steps (JObj items)) page
                = inl (Uncaught OverflowError)).
    { unfold settings_steps. cbn [app run_steps]. unfold update_url at 1, if_in.
      rewrite contains_obj, Hu. simpl. unfold update_int at 1.
      rewrite contains_obj, Hc. simpl. rewrite Hc. simpl.
      destruct Hinf as [->| ->]; reflexivity. }
    now rewrite E.
  - intros n Hn. rewrite (monitor_site_settings_run _ _ _ _ _ Hf).
    assert (E : run_steps (settings_steps (JObj [("regionLeftPct", JInt n)])) page
                = inl (Uncaught OverflowError)).
    { unfold settings_steps, region_fields. cbn [app map run_steps].
      assert (Ef : float_of_int n = inl OverflowError).
      { unfold float_of_int.
        replace (2 ^ 1024 - 2 ^ 970 <=? Z.abs n)%Z with true; [reflexivity|].
        symmetry. apply Z.leb_le.
        assert (0 < 2 ^ 970)%Z by (apply Z.pow_pos_nonneg; lia). lia. }
      unfold update_url, update_bool, if_in, update_int, update_region.
      simpl. rewrite Ef. reflexivity. }
    now rewrite E.
Qed.

End EscapeProperties.

Lemma monitor_site_settings_escapes_witness :
  @monitor_site_settings plain_text (Some alice)
    (Loaded (JObj [("checkInterval", JFloat PosInf)])) 7 (notify_world alice [])
  = (Ok (Uncaught OverflowError), notify_world alice []).
Proof.
  destruct (@monitor_site_settings_escapes plain_text alice 7 (notify_world alice [])
              (page_of alice true 2) eq_refl) as (_ & _ & Hinf & _).
  apply (Hinf [("checkInterval", JFloat PosInf)] PosInf eq_refl eq_refl).
  now left.
Defined.

(** ** Migrating the local files to the bucket *)

Example suffix_of_names :
  map (fun s => suffix (Py.mkPath s))
    ["12/abc123.jpg"; "12/ABC.JPG"; "a/b.tar.gz"; "a/.hidden"; "a/noext"; "a/dot."]
  = [".jpg"; ".JPG"; ".gz"; ""; ""; ""].
Proof. vm_compute. reflexivity. Qed.

Lemma stored_same_key st a b :
  object_key st a = object_key st b -> stored st a = stored st b.
Proof. intros E. rewrite !stored_object_key. destruct st; now rewrite E. Qed.

(** Whether the existence probe raises is a matter of the service, not
    of the objects stored. *)
Lemma exists_answer_raise_same a b rel e :
  same_service a b -> exists_answer b rel = Raise e -> exists_answer a rel = Raise e.
Proof.
  destruct 1 as [files files' disk|p c c' Hf _|p c c' Hf _]; simpl;
    [|unfold client_head_object; rewrite Hf|discriminate].
  - destruct (disk disk_exists rel); [auto|discriminate].
  - destruct (fault c head_object (_key p rel)) as [e'|]; [auto|].
    destruct (has_object c' _); [discriminate|].
    simpl. discriminate.
Qed.

(** One turn of the loop: it raises what the probe raises, and otherwise
    counts the file once. *)
Lemma migrate_file_run f t w o w' :
  migrate_file f t w = (o, w') ->
  writes_within [entry_rel f] w w'
  /\ match o with
     | Ok t' => counted t' = S (counted t)
     | Raise e => exists_answer (screenshot_storage w) (entry_rel f) = Raise e
     end.
Proof.
  unfold migrate_file. intros E.
  destruct (storage_exists_run (entry_rel f) w) as (w1 & E1 & _).
  pose proof (writes_storage_exists [entry_rel f] _ _ _ _ E1) as W1.
  destruct (exists_answer (screenshot_storage w) (entry_rel f)) as [b|e] eqn:A.
  2:{ rewrite (bind_raise _ _ _ _ _ E1) in E. injection E as <- <-. auto. }
  rewrite (bind_ok _ _ _ _ _ E1) in E. destruct b.
  { injection E as <- <-. split; [exact W1|unfold counted; simpl; lia]. }
  unfold try_except in E.
  destruct (read_bytes f) as [data|]; simpl in E.
  2:{ unfold bind, raise, ret in E. injection E as <- <-.
      split; [exact W1|unfold counted; simpl; lia]. }
  change (of_option FileNotFoundError (Some data)) with (ret (A := blob) data) in E.
  rewrite bind_ret_l in E.
  destruct (storage_save (entry_rel f) data w1) as [o2 w2] eqn:E2.
  pose proof (writes_storage_save [entry_rel f] _ data (or_introl eq_refl) _ _ _ E2) as W2.
  assert (W : writes_within [entry_rel f] w w2)
    by exact (writes_within_trans _ _ _ _ W1 W2).
  destruct o2 as [[]|e].
  - rewrite (bind_ok _ _ _ _ _ E2) in E. injection E as <- <-.
    split; [exact W|unfold counted; simpl; lia].
  - rewrite (bind_raise _ _ _ _ _ E2) in E. injection E as <- <-.
    split; [exact W|unfold counted; simpl; lia].
Qed.

Lemma migrate_files_run l : forall t w o w',
  migrate_files l t w = (o, w') ->
  writes_within (map entry_rel l) w w'
  /\ match o with
     | Ok t' => counted t' = (counted t + length l)%nat
     | Raise e =>
         exists f, In f l
                   /\ exists_answer (screenshot_storage w) (entry_rel f) = Raise e
     end.
Proof.
  induction l as [|f l IH]; intros t w o w' E.
  - injection E as <- <-. split; [apply writes_within_refl|simpl; lia].
  - simpl in E. destruct (migrate_file f t w) as [o1 w1] eqn:E1.
    destruct (migrate_file_run f t w _ _ E1) as (W1 & R1).
    assert (W1' : writes_within (map entry_rel (f :: l)) w w1).
    { eapply writes_within_mono; [|exact W1]. intros x [<-|[]]. now left. }
    destruct o1 as [t1|e].
    2:{ rewrite (bind_raise _ _ _ _ _ E1) in E. injection E as <- <-.
        split; [exact W1'|]. exists f. split; [now left|exact R1]. }
    rewrite (bind_ok _ _ _ _ _ E1) in E.
    destruct (IH t1 w1 o w' E) as (W2 & R2).
    split.
    + eapply writes_within_trans; [exact W1'|].
      eapply writes_within_mono; [|exact W2]. intros x Hx. now right.
    + destruct o as [t2|e]; [simpl; lia|].
      destruct R2 as (g & Hg & Rg). exists g. split; [now right|].
      eapply exists_answer_raise_same; [apply W1|exact Rg].
Qed.

(** X29.  The migration script stops half-way only where the existence probe
    raises.  [main] changes no stored object but under the paths of the
    image files of the directory, nor a table or the outbox.  When the
    probe raises for none of them, as on the SeaweedFS backend the script
    is meant for, whatever the service answers, [main] returns normally
    and counts every image file exactly once as uploaded, skipped or
    failed; it reports no counts exactly when the directory is missing or
    holds no image file, and then it changes nothing.  When [main]
    raises, it raises what the probe raised for one of the image files:
    on the generic S3 backend a backend error other than 404 and
    NoSuchKey, on the local disk an error of the filesystem. *)
Theorem migration_counts_every_image
    (local_root : option (list DirEntry)) (w : World) :
  let st := screenshot_storage w in
  let w' := final (main local_root) w in
  writes_within (map entry_rel (image_files local_root)) w w'
  /\ (backend_class st = SeaweedFSClass
      \/ (forall f, In f (image_files local_root) ->
            exists b, exists_answer st (entry_rel f) = Ok b) ->
      match image_files local_root with
      | [] => main local_root w = (Ok None, w)
      | _ :: _ =>
          exists t, result (main local_root) w = Ok (Some t)
                    /\ counted t = length (image_files local_root)
      end)
  /\ (forall e, result (main local_root) w = Raise e ->
        backend_class st <> SeaweedFSClass
        /\ exists f, In f (image_files local_root)
                     /\ exists_answer st (entry_rel f) = Raise e).
Proof.
  intros st w'. subst st w'. unfold final, result, main, image_files.
  destruct local_root as [files|].
  2:{ split; [apply writes_within_refl|]. split; [reflexivity|discriminate]. }
  destruct (List.filter is_image_file files) as [|f l] eqn:El.
  { split; [apply writes_within_refl|]. split; [reflexivity|discriminate]. }
  destruct (migrate_files (f :: l) {| uploaded := 0; skipped := 0; failed := 0 |} w)
    as [o w1] eqn:E.
  destruct (migrate_files_run _ _ _ _ _ E) as (W & R).
  assert (Hw : snd (bind (migrate_files (f :: l)
                            {| uploaded := 0; skipped := 0; failed := 0 |})
                      (fun t => ret (Some t)) w) = w1).
  { unfold bind. rewrite E. now destruct o. }
  rewrite Hw. split; [exact W|]. split.
  - intros Hok. destruct o as [t|e].
    + rewrite (bind_ok _ _ _ _ _ E). simpl. exists t. split; [reflexivity|exact R].
    + exfalso. destruct R as (g & Hg & Rg). destruct Hok as [Hc|Hok].
      * apply exists_answer_raises in Rg. now destruct Rg.
      * destruct (Hok g Hg) as (b & Hb). congruence.
  - intros e He. destruct o as [t|e'].
    + rewrite (bind_ok _ _ _ _ _ E) in He. discriminate He.
    + rewrite (bind_raise _ _ _ _ _ E) in He. injection He as ->.
      destruct R as (g & Hg & Rg). split; [|eauto].
      eapply exists_answer_raises; eauto.
Qed.

(** One turn of the loop on a store that answers. *)
Lemma migrate_file_healthy f t w :
  healthy (screenshot_storage w) ->
  migrate_file f t w =
    match stored (screenshot_storage w) (entry_rel f), read_bytes f with
    | Some _, _ =>
        (Ok {| uploaded := uploaded t; skipped := S (skipped t); failed := failed t |}, w)
    | None, Some data =>
        (Ok {| uploaded := S (uploaded t); skipped := skipped t; failed := failed t |},
         final (storage_save (entry_rel f) data) w)
    | None, None =>
        (Ok {| uploaded := uploaded t; skipped := skipped t; failed := S (failed t) |}, w)
    end.
Proof.
  intros Hh. unfold migrate_file.
  rewrite (bind_ok _ _ _ _ _ (healthy_exists (entry_rel f) w Hh)).
  destruct (stored (screenshot_storage w) (entry_rel f)) as [old|] eqn:Hs.
  { rewrite bool_decide_eq_true_2 by eauto. reflexivity. }
  rewrite bool_decide_eq_false_2 by (intros [x Hx]; discriminate Hx).
  cbv iota. unfold try_except.
  destruct (read_bytes f) as [data|]; [|reflexivity].
  change (of_option FileNotFoundError (Some data)) with (ret (A := blob) data).
  rewrite bind_ret_l.
  destruct (storage_save_healthy (entry_rel f) data w Hh) as (w1 & E1 & _).
  rewrite (bind_ok _ _ _ _ _ E1). unfold final. now rewrite E1.
Qed.

Lemma expected_tally_cons w f l :
  expected_tally w (f :: l) = add_tally (expected_tally w [f]) (expected_tally w l).
Proof.
  unfold expected_tally, add_tally. simpl.
  destruct (absent_from w f), (readable f); simpl; reflexivity.
Qed.

Lemma expected_tally_ext w w1 l :
  (forall g, In g l -> stored (screenshot_storage w1) (entry_rel g)
                       = stored (screenshot_storage w) (entry_rel g)) ->
  expected_tally w1 l = expected_tally w l.
Proof.
  intros He. unfold expected_tally.
  assert (Ha : forall g, In g l -> absent_from w1 g = absent_from w g)
    by (intros g Hg; unfold absent_from; now rewrite (He g Hg)).
  f_equal; f_equal; apply filter_ext_in; intros g Hg; now rewrite (Ha g Hg).
Qed.

Lemma filter_none {A} (p : A -> bool) (l : list A) :
  (forall x, In x l -> p x = false) -> List.filter p l = [].
Proof.
  induction l as [|x l IH]; intros Hp; simpl; [reflexivity|].
  rewrite (Hp x (or_introl eq_refl)). apply IH. intros y Hy. apply Hp. now right.
Qed.

Lemma add_tally_assoc a b c : add_tally (add_tally a b) c = add_tally a (add_tally b c).
Proof. unfold add_tally. simpl. f_equal; lia. Qed.

(** The loop on a store that answers. *)
Lemma migrate_files_healthy l : forall t w,
  healthy (screenshot_storage w) ->
  NoDup (map entry_rel l) ->
  Forall plain_path (map entry_rel l) ->
  exists t' w',
    migrate_files l t w = (Ok t', w')
    /\ healthy (screenshot_storage w')
    /\ t' = add_tally t (expected_tally w l)
    /\ writes_within (map entry_rel l) w w'
    /\ (forall r b, stored (screenshot_storage w) r = Some b ->
                    stored (screenshot_storage w') r = Some b)
    /\ (forall f, In f l ->
          stored (screenshot_storage w) (entry_rel f) = None ->
          stored (screenshot_storage w') (entry_rel f) = read_bytes f)
    /\ (uploaded (expected_tally w l) = 0%nat -> w' = w).
Proof.
  induction l as [|f l IH]; intros t w Hh Hnd Hpl.
  - exists t, w. split; [reflexivity|]. split; [exact Hh|].
    split; [destruct t; unfold add_tally; simpl; f_equal; lia|].
    split; [apply writes_within_refl|]. split; [auto|]. split; [intros f []|auto].
  - simpl in Hnd, Hpl. apply NoDup_cons in Hnd as [Hf Hnd].
    apply Forall_cons in Hpl as [Hpf Hpl].
    assert (Hother : forall g, In g l ->
              object_key (screenshot_storage w) (entry_rel g)
              <> object_key (screenshot_storage w) (entry_rel f)).
    { intros g Hg E. apply object_key_inj in E; [| |exact Hpf].
      - apply Hf. rewrite <- E. apply list_elem_of_In. now apply in_map.
      - rewrite Forall_forall in Hpl. apply Hpl, list_elem_of_In. now apply in_map. }
    assert (Hincl1 : incl [entry_rel f] (map entry_rel (f :: l)))
      by (intros x [<-|[]]; now left).
    assert (Hincl2 : incl (map entry_rel l) (map entry_rel (f :: l)))
      by (intros x Hx; now right).
    cbn [migrate_files]. unfold bind at 1.
    rewrite (migrate_file_healthy f t w Hh).
    destruct (stored (screenshot_storage w) (entry_rel f)) as [old|] eqn:Hs.
    + cbv beta iota.
      destruct (IH {| uploaded := uploaded t; skipped := S (skipped t); failed := failed t |}
                  w Hh Hnd Hpl) as (t' & w' & E & Hh' & Ht & W & Hkeep & Hnew & Hidle).
      exists t', w'. split; [exact E|]. split; [exact Hh'|].
      split.
      { rewrite Ht, expected_tally_cons, <- add_tally_assoc. f_equal.
        unfold expected_tally, add_tally, absent_from. simpl. rewrite Hs. simpl.
        f_equal; lia. }
      split; [exact (writes_within_mono _ _ _ _ Hincl2 W)|].
      split; [exact Hkeep|]. split.
      * intros g [<-|Hg] Hn; [congruence|]. now apply Hnew.
      * rewrite expected_tally_cons. unfold add_tally at 1. cbn [uploaded].
        unfold expected_tally at 1, absent_from. simpl. rewrite Hs. simpl. exact Hidle.
    + destruct (read_bytes f) as [data|] eqn:Hr; cbv beta iota.
      * destruct (storage_save_healthy (entry_rel f) data w Hh) as (w1 & E1 & Hh1 & Hst).
        assert (Ew1 : final (storage_save (entry_rel f) data) w = w1)
          by (unfold final; now rewrite E1).
        rewrite Ew1.
        destruct (storage_save_run _ _ _ _ _ E1) as (W1 & _).
        destruct (IH {| uploaded := S (uploaded t); skipped := skipped t; failed := failed t |}
                    w1 Hh1 Hnd Hpl) as (t' & w' & E & Hh' & Ht & W & Hkeep & Hnew & Hidle).
        assert (Hsame : forall r, object_key (screenshot_storage w) r
                                  <> object_key (screenshot_storage w) (entry_rel f) ->
                                  stored (screenshot_storage w1) r
                                  = stored (screenshot_storage w) r).
        { intros r Hr'. apply W1. intros p [<-|[]]. exact Hr'. }
        assert (Hexp : expected_tally w1 l = expected_tally w l).
        { apply expected_tally_ext. intros g Hg. apply Hsame, Hother, Hg. }
        exists t', w'. split; [exact E|]. split; [exact Hh'|].
        split.
        { rewrite Ht, Hexp, expected_tally_cons, <- add_tally_assoc. f_equal.
          unfold expected_tally, add_tally, absent_from, readable. simpl.
          rewrite Hs, Hr. simpl. f_equal; lia. }
        split.
        { eapply writes_within_trans;
            [exact (writes_within_mono _ _ _ _ Hincl1 W1)
            |exact (writes_within_mono _ _ _ _ Hincl2 W)]. }
        split.
        { intros r b Hb. apply Hkeep. rewrite Hsame; [exact Hb|].
          intros Ek. apply stored_same_key in Ek. congruence. }
        split.
        { intros g [<-|Hg] Hn.
          - rewrite Hr. now apply Hkeep.
          - apply Hnew; [exact Hg|]. now rewrite (Hsame _ (Hother g Hg)). }
        rewrite expected_tally_cons. unfold add_tally at 1. cbn [uploaded].
        unfold expected_tally at 1, absent_from, readable. simpl. rewrite Hs, Hr. simpl.
        discriminate.
      * destruct (IH {| uploaded := uploaded t; skipped := skipped t; failed := S (failed t) |}
                    w Hh Hnd Hpl) as (t' & w' & E & Hh' & Ht & W & Hkeep & Hnew & Hidle).
        exists t', w'. split; [exact E|]. split; [exact Hh'|].
        split.
        { rewrite Ht, expected_tally_cons, <- add_tally_assoc. f_equal.
          unfold expected_tally, add_tally, absent_from, readable. simpl.
          rewrite Hs, Hr. simpl. f_equal; lia. }
        split; [exact (writes_within_mono _ _ _ _ Hincl2 W)|].
        split; [exact Hkeep|]. split.
        { intros g [<-|Hg] Hn; [|now apply Hnew].
          rewrite Hr. destruct W as [F K]. rewrite K; [exact Hs|].
          intros p Hp. apply in_map_iff in Hp as (g' & <- & Hg').
          intros Ek. exact (Hother g' Hg' (eq_sym Ek)). }
        rewrite expected_tally_cons. unfold add_tally at 1. cbn [uploaded].
        unfold expected_tally at 1, absent_from, readable. simpl. rewrite Hs, Hr. simpl.
        exact Hidle.
Qed.

(** X30.  The migration uploads what is missing, once.  Into a store that
    answers, from a directory whose image files have distinct paths
    without backslashes, [main] reports as uploaded the readable image
    files the store lacked, as failed the unreadable ones it lacked, and
    as skipped those it held.  A stored object is never overwritten, even
    when the local file differs; every file uploaded is stored with the
    bytes read; and running [main] again uploads nothing and leaves the
    world exactly as the first run left it. *)
Theorem migration_uploads_once (local_root : option (list DirEntry)) (w : World) :
  healthy (screenshot_storage w) ->
  NoDup (map entry_rel (image_files local_root)) ->
  Forall plain_path (map entry_rel (image_files local_root)) ->
  image_files local_root <> [] ->
  let w' := final (main local_root) w in
  result (main local_root) w = Ok (Some (expected_tally w (image_files local_root)))
  /\ (forall r b, stored (screenshot_storage w) r = Some b ->
                  stored (screenshot_storage w') r = Some b)
  /\ (forall f, In f (image_files local_root) ->
        stored (screenshot_storage w) (entry_rel f) = None ->
        stored (screenshot_storage w') (entry_rel f) = read_bytes f)
  /\ uploaded (expected_tally w' (image_files local_root)) = 0%nat
  /\ main local_root w'
     = (Ok (Some (expected_tally w' (image_files local_root))), w').
Proof.
  intros Hh Hnd Hpl Hne w'. subst w'. unfold result, final.
  assert (Hmain : forall w0, healthy (screenshot_storage w0) ->
            exists w1,
              main local_root w0
              = (Ok (Some (expected_tally w0 (image_files local_root))), w1)
              /\ healthy (screenshot_storage w1)
              /\ (forall r b, stored (screenshot_storage w0) r = Some b ->
                              stored (screenshot_storage w1) r = Some b)
              /\ (forall f, In f (image_files local_root) ->
                    stored (screenshot_storage w0) (entry_rel f) = None ->
                    stored (screenshot_storage w1) (entry_rel f) = read_bytes f)
              /\ (uploaded (expected_tally w0 (image_files local_root)) = 0%nat ->
                  w1 = w0)).
  { intros w0 Hh0. unfold main. destruct local_root as [files|]; [|now destruct Hne].
    unfold image_files in *. destruct (List.filter is_image_file files) as [|f l] eqn:El;
      [now destruct Hne|].
    destruct (migrate_files_healthy (f :: l) {| uploaded := 0; skipped := 0; failed := 0 |}
                w0 Hh0 Hnd Hpl) as (t & w1 & E & Hh1 & Ht & _ & Hkeep & Hnew & Hidle).
    exists w1. rewrite (bind_ok _ _ _ _ _ E). unfold ret. rewrite Ht.
    split; [reflexivity|auto]. }
  destruct (Hmain w Hh) as (w1 & E1 & Hh1 & Hkeep & Hnew & _).
  rewrite E1. cbn [fst snd]. split; [reflexivity|]. split; [exact Hkeep|].
  split; [exact Hnew|].
  assert (Hzero : uploaded (expected_tally w1 (image_files local_root)) = 0%nat).
  { unfold expected_tally. cbn [uploaded].
    rewrite filter_none; [reflexivity|]. intros f Hf.
    unfold absent_from, readable.
    destruct (stored (screenshot_storage w) (entry_rel f)) as [b|] eqn:Hs.
    - now rewrite (Hkeep _ _ Hs).
    - rewrite (Hnew f Hf Hs). now destruct (read_bytes f). }
  split; [exact Hzero|].
  destruct (Hmain w1 Hh1) as (w2 & E2 & _ & _ & _ & Hidle).
  rewrite E2. now rewrite (Hidle Hzero).
Qed.

Lemma migration_counts_every_image_witness :
  exists t,
    result (main local_dir) (world_of plain_settings seaweed_outage [] [] []) = Ok (Some t)
    /\ counted t = 2%nat.
Proof.
  destruct (migration_counts_every_image local_dir
              (world_of plain_settings seaweed_outage [] [] [])) as (_ & Hcount & _).
  specialize (Hcount (or_introl eq_refl)).
  assert (E : image_files local_dir
              = [ {| entry_rel := "7/a5da0e8a43.jpg"; is_file := true;
                     read_bytes := Some (Img gray) |};
                  {| entry_rel := "7/c743f35ac6.png"; is_file := true;
                     read_bytes := Some (Img gray) |} ])
    by reflexivity.
  rewrite E in Hcount. exact Hcount.
Defined.

Lemma migration_uploads_once_witness :
  let w := world_of plain_settings bucket_with_one [] [] [] in
  let w' := final (main local_dir) w in
  result (main local_dir) w = Ok (Some {| uploaded := 1; skipped := 1; failed := 0 |})
  /\ stored (screenshot_storage w') "7/a5da0e8a43.jpg" = Some (Img black)
  /\ stored (screenshot_storage w') "7/c743f35ac6.png" = Some (Img gray)
  /\ main local_dir w' = (Ok (Some {| uploaded := 0; skipped := 2; failed := 0 |}), w').
Proof.
  intros w w'.
  assert (E : image_files local_dir
              = [ {| entry_rel := "7/a5da0e8a43.jpg"; is_file := true;
                     read_bytes := Some (Img gray) |};
                  {| entry_rel := "7/c743f35ac6.png"; is_file := true;
                     read_bytes := Some (Img gray) |} ])
    by reflexivity.
  assert (Hh : healthy (screenshot_storage w)) by (intros op key; reflexivity).
  assert (Hnd : NoDup (map entry_rel (image_files local_dir))).
  { rewrite E. simpl. apply NoDup_cons. split; [|apply NoDup_singleton].
    intros Hin. apply list_elem_of_In in Hin. destruct Hin as [Hin|[]].
    discriminate Hin. }
  assert (Hpl : Forall plain_path (map entry_rel (image_files local_dir))).
  { rewrite E. simpl.
    repeat (apply List.Forall_cons;
            [split; [reflexivity|];
             intros Hin; simpl in Hin;
             repeat (destruct Hin as [Hin|Hin]; [discriminate Hin|]); exact Hin|]).
    apply Forall_nil_2. }
  assert (Hne : image_files local_dir <> []) by (rewrite E; discriminate).
  destruct (migration_uploads_once local_dir w Hh Hnd Hpl Hne)
    as (Hres & Hkeep & Hnew & _ & Hagain).
  fold w' in Hkeep, Hnew, Hagain.
  assert (Ha : stored (screenshot_storage w') "7/a5da0e8a43.jpg" = Some (Img black))
    by (apply Hkeep; reflexivity).
  assert (Hb : stored (screenshot_storage w') "7/c743f35ac6.png" = Some (Img gray)).
  { apply (Hnew {| entry_rel := "7/c743f35ac6.png"; is_file := true;
                   read_bytes := Some (Img gray) |}); [rewrite E; simpl; auto|reflexivity]. }
  split; [exact Hres|]. split; [exact Ha|]. split; [exact Hb|].
  rewrite Hagain.
  replace (expected_tally w' (image_files local_dir))
    with {| uploaded := 0; skipped := 2; failed := 0 |}; [reflexivity|].
  symmetry. unfold expected_tally. rewrite E. unfold absent_from, readable. simpl.
  rewrite Ha, Hb. reflexivity.
Defined.
